(* ===== verification/_CoqProject ===== *)
-Q . S2P
Prelude.v
Json.v
Text.v
Domain.v
Words.v
Database.v
Repositories.v
PolicyDecision.v
AuditChain.v
CommandQueue.v
Enforcer.v
Rollout.v
SafeApply.v
Mesh.v
ThreatResponse.v
Certificates.v
Correlation.v
Rest.v
Router.v
Agent.v
Reconciliation.v
Dns.v
Oob.v
Egress.v
Relay.v
Native.v
LinuxAdapter.v
WindowsAdapter.v
Config.v
Enrollment.v
Clearance.v
Storage.v
ControlPlane.v
RouteTable.v
Maintenance.v
X509.v
TrustAnchor.v
Fleet.v
EnvFile.v
Enroll.v
Retention.v
AgentRuntime.v
Cloud.v
StaticConsole.v
Tokens.v
Ceremony.v
Dashboard.v
DnsProcess.v
Memory.v
FinalAudit.v
Worker.v
Startup.v
WireGuardKeys.v
RolloutLiveness.v
HeartbeatRace.v
