(* ===== verification/Prelude.v ===== *)
(** * Verification of the BAPC VPN and digital security platform

    The program ([src/]) is a zero-trust mesh VPN in TypeScript: a control plane
    behind a REST and a gRPC API, a fleet of nodes each with an agent, and the
    services around them.  All durable state is in Postgres.  The control plane decides
    access, compiles policies into firewall commits, pushes them to the nodes
    through a durable command queue, and rolls them back when the nodes do not
    confirm; the agents poll for commands, apply them through a platform adapter
    and acknowledge them; a threat engine contains nodes; every privileged
    action goes into a hash-chained audit log.

    ** How the code is modelled

    A method that reads and writes the database is a computation [St Db A]: it
    takes the database and returns the next one with a value or the exception
    thrown ([res]); what was written before a throw stays written, as in the code,
    except under [transaction].  [Db] (Database.v) has one field per table; keys,
    UNIQUE and FOREIGN KEY constraints are written out where a statement can hit
    them.  A value stored in a [jsonb] column comes back with the keys of its objects
    in the column's order ([jsonb]), and what the driver sends for it is [jsonb_param];
    an event is refused in a month without a partition.  The clock, fresh identifiers
    and what other parties answer are arguments.
    Components meet at type classes with laws ([RolloutStore], [ThreatSignalStore],
    [IdempotencyStore], [ReplayStore], [PlatformAdapter], [RecoveryStore],
    [OobChannel]), which the memory and Postgres implementations discharge.

    Parameters stand for what is not in the repository: SHA-256, HMAC, base64url,
    [JSON.parse], the collation of [localeCompare], DER and PEM encoding,
    RSA, what AWS answers, the gRPC and HTTP transports, the commands of the
    operating system.  What is assumed of one
    is a hypothesis of the theorem that needs it; what a forger could do is
    stated as a collision of the hash.

    ** Files

    - Prelude: results, the state monad, sorting, tactics, hint databases.
      Json (infrastructure/canonical-json.ts), Text (dates, hex), Words (lines,
      words and numerals), Domain (domain/types.ts, errors.ts), Database (db/*.sql).
    - Repositories: infrastructure/postgres/repositories.ts and the publishing
      side of outbox.ts.  Storage: connections and transactions (client.ts),
      migrations (migrate.ts), the outbox dispatcher and its signatures.
    - PolicyDecision: application/policy.ts, jit.ts, hmac-decision-signer.ts.
    - AuditChain: application/audit.ts.
    - CommandQueue: services/mesh-controller/pg-command-queue.ts,
      pg-key-rotation-ledger.ts, application/key-rotation-scheduler.ts.
    - Enforcer, Rollout, SafeApply: policy-compiler.ts, pg-policy-enforcer.ts, the
      rollout stores and application/safe-apply.ts.
    - Mesh: services/mesh-controller/controller.ts (plans, addresses),
      relay-routing.ts, pg-relay-store.ts.  Relay: services/relay/relay-server.ts.
    - ThreatResponse, Correlation, Clearance: threat-response.ts, heartbeat.ts, the
      SOC backend, services/threat-engine/, integrations.ts and
      diagnostics-clearance.ts.
    - Certificates: services/trust-core/ issuer and store.  X509: x509-forge.ts and
      crl-builder.ts.  TrustAnchor: the key provider, the shared development
      authority and trust-anchor.ts.  Ceremony: ceremony.ts, aws-kms-key-provider.ts.
    - Rest, Router: api/rest/ (rate limits, idempotency keys, nonces, errors,
      bearer guard, dispatch).  RouteTable, ControlPlane: the routes and the
      handlers of runtime/production-server.ts.  Maintenance:
      runtime/maintenance-worker.ts.  Retention: postgres/maintenance.ts and the SQL
      functions it calls.
    - Dashboard: the GET handlers, application/soc.ts and pg-soc-data.ts.  Tokens:
      scripts/mint-token.mjs, signed-event-client.ts, bapc-handshake.ts.
      StaticConsole: runtime/admin-console-server.ts.
    - Agent, Reconciliation: agents/shared/production-agent.ts, agent/reconciler.ts,
      application/node-reconciliation.ts, pg-desired-state-store.ts.
    - Native, LinuxAdapter, WindowsAdapter: native/.  AgentRuntime: runtime/agent.ts
      and the clients the agent talks through.
    - Config: config.ts and infrastructure/attestation/.  Enrollment:
      application/enrollment.ts and api/grpc/server.ts.  EnvFile, Enroll:
      runtime/enroll.ts and enroll-node.ts.
    - Dns, Oob, Egress: services/dns/, services/oob-controller/, services/egress/.
      DnsProcess: doh-upstream.ts, runtime/dns-server.ts, native/apple/adapter.ts.
    - Fleet: runtime/relay-server.ts, egress-server.ts and the process metrics.
      Cloud: infrastructure/aws-secrets.ts and services/relay-fleet/ provisioning.
    - Startup: how production-server.ts, grpc-server.ts, oob-server.ts and
      migrate-cli.ts start, refuse to start and stop.  Worker: the four loops of
      maintenance-worker.ts as a process.  RolloutLiveness: a rollout with a fleet
      that answers.  HeartbeatRace: a heartbeat that overlaps a quarantine.
    - Memory: infrastructure/memory.ts and pg-control-plane-probe.ts.
      WireGuardKeys: native/shared/wireguard-keys.ts.  FinalAudit:
      scripts/universal-final-audit.mjs and run-tests.mjs.

    ** What the theorems show

    - Access: a decision allows exactly what the governing policy, the device and
      the grants allow.
    - Rollouts: a policy set is committed only when the nodes verified it, is
      rolled back otherwise, every call ends, and one to which the whole fleet
      answers with success is committed; staging is all or nothing; with
      OOB_REQUIRED nothing is pushed while the recovery channel is down.
    - Convergence: checking, delivering and acknowledging brings a node to its
      desired state, after which nothing is queued; a command is delivered until it is
      acknowledged, once; whatever its controller does, the agent reports a command once, and
      once more as failed when the report threw.
    - The record: the audit log verifies as it grows, cannot be changed under a
      fixed head without a collision, and is the history of the audited actions
      and of the worker's corrections.
    - The edge: a GET changes nothing and a public one shows nothing but the
      revocation list; no write without a signed token with the route's role; a nonce works
      once; a retry gets the stored answer; the rate limiter is the sliding window; a
      minted token admits what was asked for, for as long as asked; the console's
      server reads below its directory only.
    - Containment: a severe event the database takes quarantines, a lockdown reaches
      every node, a clearance is signed and for that node, and not old when its time is
      a date; a heartbeat in flight undoes a quarantine; a signal whose confidence is
      no number blinds the score.
    - The fleet: addresses are fresh, plans hold the peers the zones allow, every
      peer learns of a new node, rotations are verified; the relay (with sessions under new
      ids at unused endpoints) and the egress proxy refine their session tables; DNS answers or forwards, never both, and
      stores of a name its digest; a relay is a candidate exactly while it is heard
      from; a provisioned one stops being one.
    - Trust: processes that start together share one authority, certificates and
      revocation lists say what is on record, the ceremony's chain verifies.
    - The processes: a production server that starts has the secret and the
      attestation rule of the recovery and the gRPC server beside it; the worker's
      loops go on in any order until a signal, after which it exits once their
      timers have run out.
    - Stand-ins and release: the memory store answers as the Postgres one does
      while saves keep the columns an update leaves alone; the key check accepts
      exactly the 32-byte keys, so generated keys pass; the release audit passes
      exactly when its seven conditions hold.
    - Time: after a retention cycle of a worker that is not west of Greenwich exactly
      the events of the window are kept and the next month is prepared, and a purge
      forgets no nonce before its time.
    - The machine: routes printed by the adapter are read back; only the peers of
      the plan stay; the configuration that loads is well-formed; an enrolled machine
      holds what the record says, a failed enrolment leaves it stranded (writes of files may
      fail); over a link
      that loses answers the record and the machine can come apart.
    Theorems marked "Also" are further facts, several of them defects of the code.

    ** Bounds and fuel

    The wait of a rollout is recursion on fuel; one unit per polling step, so the
    timeout in milliseconds plus one is enough, and [apply_terminates] proves that it
    is.  The allocator searches a pool of 65532 addresses.  An epoch is tried five
    times, as in the code.  [decode_uri] has the length of the string as fuel;
    a group of an IPv6 address at most five hexadecimal digits.  Integers are unbounded
    except where the code or a column bounds them ([revision], ports, serials);
    confidences, weights and scores are rationals with [NaN] and the infinities, loads
    and latencies rationals, and the numerals of the configuration exact ones (so [1e999]
    is a number there).

    ** Not modelled

    Sockets, log lines and the object wiring of the entry points around the modelled
    services; index.ts, which only re-exports; request bodies of the wrong type (a
    body is given by its typed fields); an identifier that names an entity of another
    kind, where a service expects a node or a device ([get_node], [get_device]: the code
    would go on with that entity); a relay source that throws while an enrolment
    distributes peers; the wire formats of DNS, DER and PEM; X25519
    itself; installers, deployment files and the console page.  Two requests
    interleave only where a theorem says so (Storage, CommandQueue, SafeApply,
    TrustAnchor, Worker, HeartbeatRace); elsewhere a request or a tick is one
    step. *)

From Stdlib Require Export ZArith Lia Ascii String QArith Qround.
From stdpp Require Export base gmap strings list sorting pretty.

Open Scope Z_scope.

(** ** Results, exceptions and the state monad *)

(** What a rejected promise carries.  [DomainError] is [src/src/domain/errors.ts],
    [HttpError] is [src/src/api/rest/errors.ts], [PgError] is an error of the
    database driver with its SQLSTATE, [JsError] any other [Error]. *)
Inductive exn : Type :=
  | DomainError (message code : string)
  | HttpError (status : Z) (message code : string)
  | PgError (code : string)
  | JsError (message : string).

#[export] Instance exn_eq_dec : EqDecision exn.
Proof. solve_decision. Defined.

Inductive res (A : Type) : Type :=
  | Ok (a : A)
  | Throw (e : exn).
Arguments Ok {A} _.
Arguments Throw {A} _.

Definition is_ok {A} (r : res A) : bool :=
  match r with Ok _ => true | Throw _ => false end.

(** An async function over a state [S]: it may change the state and then
    return or throw; what it did before it threw stays done. *)
Definition St (S A : Type) : Type := S -> S * res A.

#[export] Instance St_ret {S} : MRet (St S) := fun A a s => (s, Ok a).
#[export] Instance St_bind {S} : MBind (St S) := fun A B k m s =>
  match m s with
  | (s', Ok a) => k a s'
  | (s', Throw e) => (s', Throw e)
  end.

Definition throw {S A} (e : exn) : St S A := fun s => (s, Throw e).

(** [try { m } catch (e) { h(e) }] *)
Definition try_catch {S A} (m : St S A) (h : exn -> St S A) : St S A := fun s =>
  match m s with
  | (s', Ok a) => (s', Ok a)
  | (s', Throw e) => h e s'
  end.

(** Reads and writes of the state. *)
Definition gets {S A} (f : S -> A) : St S A := fun s => (s, Ok (f s)).
Definition modify {S} (f : S -> S) : St S unit := fun s => (f s, Ok tt).

(** [for (const x of l) await f(x);] *)
Fixpoint for_each {S A} (l : list A) (f : A -> St S unit) : St S unit :=
  match l with
  | [] => mret tt
  | x :: l' => f x ≫= fun _ => for_each l' f
  end.

(** A computation on values that may throw, among effects. *)
Definition lift_res {S A} (r : res A) : St S A := fun s => (s, r).

(** [BEGIN; work; COMMIT], rolled back when [work] throws. *)
Definition transaction {S A} (work : St S A) : St S A := fun s =>
  match work s with
  | (s', Ok a) => (s', Ok a)
  | (_, Throw e) => (s, Throw e)
  end.

Declare Scope ts_scope.
Delimit Scope ts_scope with ts.
Notation "'let*' x ':=' m 'in' k" := (mbind (fun x => k) m)
  (at level 200, x binder, m at level 100, k at level 200, only parsing) : ts_scope.
Notation "m1 ;;; m2" := (mbind (fun _ => m2) m1)
  (at level 100, m2 at level 200, right associativity, only parsing) : ts_scope.
Open Scope ts_scope.

Create HintDb ts.

Section monad_lemmas.
Context {S A B : Type}.
Implicit Types (s : S) (m : St S A).

Lemma bind_ok m (k : A -> St S B) s s' a :
  m s = (s', Ok a) -> (m ≫= k) s = k a s'.
Proof. intros H. unfold mbind, St_bind. by rewrite H. Qed.

Lemma bind_throw m (k : A -> St S B) s s' e :
  m s = (s', Throw e) -> (m ≫= k) s = (s', Throw e).
Proof. intros H. unfold mbind, St_bind. by rewrite H. Qed.

(** Every run that returns went through a return of its first part. *)
Lemma bind_inv_ok m (k : A -> St S B) s s' b :
  (m ≫= k) s = (s', Ok b) -> exists s1 a, m s = (s1, Ok a) /\ k a s1 = (s', Ok b).
Proof.
  unfold mbind, St_bind. destruct (m s) as [s1 [a|e]] eqn:E; [|done]. eauto.
Qed.

(** A transaction that throws leaves the state as it was. *)
Lemma transaction_throw m s s' e :
  transaction m s = (s', Throw e) -> s' = s.
Proof. unfold transaction. destruct (m s) as [? [?|?]]; congruence. Qed.

Lemma transaction_ok m s s' a :
  transaction m s = (s', Ok a) <-> m s = (s', Ok a).
Proof. unfold transaction. destruct (m s) as [? [?|?]]; naive_solver. Qed.

End monad_lemmas.

(** What neither part of a run changes, the run does not change. *)
Lemma bind_frame {S A B X} (g : S -> X) (m : St S A) (k : A -> St S B) s :
  g (m s).1 = g s -> (forall a s, g (k a s).1 = g s) -> g ((m ≫= k) s).1 = g s.
Proof.
  intros Hm Hk. unfold mbind, St_bind. destruct (m s) as [s1 [a|e]]; simpl in *; [|done].
  by rewrite Hk.
Qed.

Lemma for_each_frame {S A X} (g : S -> X) (f : A -> St S unit) l s :
  (forall x s, g (f x s).1 = g s) -> g (for_each l f s).1 = g s.
Proof.
  intros Hf. revert s; induction l as [|x l IH]; intros s; [done|].
  apply bind_frame; [done|]. intros _. apply IH.
Qed.

Section loop_lemmas.
Context {S A : Type}.
Implicit Types (s : S).

(** A loop whose body is a plain update is a fold of the updates. *)
Lemma for_each_modify (l : list A) (f : A -> S -> S) s :
  for_each l (fun x => modify (f x)) s = (foldl (fun s x => f x s) s l, Ok tt).
Proof. revert s; induction l as [|x l IH]; intros s; [done|]. apply IH. Qed.

(** A loop all of whose bodies return returns. *)
Lemma for_each_inv (P : S -> Prop) (l : list A) (f : A -> St S unit) s :
  P s -> (forall x s, x ∈ l -> P s -> exists s', f x s = (s', Ok tt) /\ P s') ->
  exists s', for_each l f s = (s', Ok tt) /\ P s'.
Proof.
  revert s; induction l as [|x l IH]; intros s Hs Hf; [by exists s|].
  destruct (Hf x s) as (s1 & E & H1); [set_solver|done|].
  destruct (IH s1 H1) as (s2 & E2 & H2); [intros; apply Hf; set_solver|].
  exists s2. split; [|done]. simpl. by rewrite (bind_ok _ _ _ _ _ E).
Qed.
End loop_lemmas.

(** Two texts with the same digest: what a forger would need. *)
Definition collision (digest : string -> string) : Prop := exists x y, x <> y /\ digest x = digest y.

Lemma digest_same (digest : string -> string) x y : digest x = digest y -> x = y \/ collision digest.
Proof. intros E. destruct (String.eqb_spec x y); [by left|right; by exists x, y]. Qed.

(** ** Stable sorting with a comparator

    [Array.prototype.sort] is stable; on a comparator that is a total preorder
    its result is the one of insertion sort.  [leb a b] stands for
    [compare(a,b) <= 0]. *)
Section sort.
Context {A : Type} (leb : A -> A -> bool).

Fixpoint sort_insert (x : A) (l : list A) : list A :=
  match l with
  | [] => [x]
  | y :: l' => if leb x y then x :: y :: l' else y :: sort_insert x l'
  end.

Definition sort_by (l : list A) : list A := foldr sort_insert [] l.

Lemma sort_insert_perm x l : sort_insert x l ≡ₚ x :: l.
Proof.
  induction l as [|y l IH]; [done|]. simpl. destruct (leb x y); [done|].
  rewrite IH. apply Permutation_swap.
Qed.

Lemma sort_by_perm l : sort_by l ≡ₚ l.
Proof. induction l as [|x l IH]; [done|]. simpl. by rewrite sort_insert_perm, IH. Qed.

Lemma elem_of_sort_by x l : x ∈ sort_by l <-> x ∈ l.
Proof. by rewrite sort_by_perm. Qed.

Lemma length_sort_by l : length (sort_by l) = length l.
Proof. by rewrite sort_by_perm. Qed.

(** Sorting a sorted list does nothing. *)
Lemma sort_by_id l : StronglySorted (fun a b => leb a b = true) l -> sort_by l = l.
Proof.
  induction 1 as [|x l Hs IH Hall]; simpl; [done|]. rewrite IH.
  destruct Hall as [|y l Hy]; simpl; [done|]. by rewrite Hy.
Qed.

Context (leb_total : forall a b, leb a b = true \/ leb b a = true).
Context (leb_trans : forall a b c, leb a b = true -> leb b c = true -> leb a c = true).

Lemma leb_false a b : leb a b = false -> leb b a = true.
Proof using leb_total. destruct (leb_total a b); congruence. Qed.

Lemma sort_insert_sorted x l :
  StronglySorted (fun a b => leb a b = true) l ->
  StronglySorted (fun a b => leb a b = true) (sort_insert x l).
Proof using leb_total leb_trans.
  induction 1 as [|y l Hs IH Hall]; simpl; [by repeat constructor|].
  destruct (leb x y) eqn:E.
  - constructor; [by constructor|]. constructor; [done|].
    eapply Forall_impl; [done|]; simpl; eauto.
  - constructor; [done|]. rewrite Forall_forall in Hall |- *.
    intros z. rewrite sort_insert_perm.
    intros [->|Hz]%elem_of_cons; [by apply leb_false|]. by apply Hall.
Qed.

Lemma sort_by_sorted l : StronglySorted (fun a b => leb a b = true) (sort_by l).
Proof using leb_total leb_trans.
  induction l; simpl; [constructor|by apply sort_insert_sorted].
Qed.
End sort.

(** Sorting keeps the first element of a class whose elements compare as equal. *)
Lemma find_sort_same {A} (leb : A -> A -> bool) (p : A -> bool) l :
  (forall x y, p x = true -> p y = true -> leb x y = true) -> List.find p (sort_by leb l) = List.find p l.
Proof.
  intros Hp. assert (forall x s, List.find p (sort_insert leb x s) = if p x then Some x else List.find p s) as I.
  { intros x s. induction s as [|y s IH]; simpl; [done|]. destruct (leb x y) eqn:E; simpl; [done|].
    rewrite IH. destruct (p y) eqn:Py; [|done]. destruct (p x) eqn:Px; [|done]. by rewrite Hp in E. }
  induction l as [|x l IH]; simpl; [done|]. by rewrite I, IH.
Qed.

(** The first element of a sorted list that satisfies [p], computed without
    sorting: the reference the loops over a sorted array are compared with. *)
Section first_best.
Context {A : Type} (leb : A -> A -> bool) (p : A -> bool).

Fixpoint first_best (l : list A) : option A :=
  match l with
  | [] => None
  | a :: l' =>
      if p a then
        match first_best l' with
        | Some x => if leb a x then Some a else Some x
        | None => Some a
        end
      else first_best l'
  end.

Lemma first_best_None l : first_best l = None <-> forall x, x ∈ l -> p x = false.
Proof.
  induction l as [|a l IH]; simpl; [split; [set_solver|done]|].
  destruct (p a) eqn:E.
  - split; [|intros H; rewrite (H a) in E; [done|set_solver]].
    destruct (first_best l) as [x|]; [destruct (leb a x)|]; done.
  - rewrite IH. set_solver.
Qed.

Context (leb_total : forall a b, leb a b = true \/ leb b a = true).
Context (leb_trans : forall a b c, leb a b = true -> leb b c = true -> leb a c = true).

Lemma find_sort_insert a s :
  StronglySorted (fun a b => leb a b = true) s ->
  List.find p (sort_insert leb a s) =
    if p a then
      match List.find p s with
      | Some x => if leb a x then Some a else Some x
      | None => Some a
      end
    else List.find p s.
Proof using leb_trans.
  induction 1 as [|y s Hs IH Hall]; simpl; [by destruct (p a)|].
  destruct (leb a y) eqn:E; simpl.
  - destruct (p a); [|done]. destruct (p y); [by rewrite E|].
    destruct (List.find p s) as [x|] eqn:F; [|done].
    apply find_some in F as [F _]. rewrite Forall_forall in Hall.
    rewrite (leb_trans a y x); [done|done|]. apply Hall. by apply list_elem_of_In.
  - rewrite IH. destruct (p y); [|done]. destruct (p a); [by rewrite E|done].
Qed.

Lemma find_sort_by l : List.find p (sort_by leb l) = first_best l.
Proof using leb_total leb_trans.
  induction l as [|a l IH]; simpl; [done|].
  rewrite find_sort_insert, IH; [done|]. by apply sort_by_sorted.
Qed.

(** It is one of the elements, satisfies [p], is ahead of every element that
    does, and strictly ahead of those that stand before it. *)
Lemma first_best_Some l x :
  first_best l = Some x ->
  p x = true /\ (forall y, y ∈ l -> p y = true -> leb x y = true) /\
  exists l1 l2, l = l1 ++ x :: l2 /\ forall y, y ∈ l1 -> p y = true -> leb y x = false.
Proof using leb_total leb_trans.
  assert (Hrefl : forall a, leb a a = true) by (intros a; by destruct (leb_total a a)).
  revert x; induction l as [|a l IH]; simpl; intros x; [done|].
  destruct (p a) eqn:E.
  - destruct (first_best l) as [z|] eqn:F; [destruct (leb a z) eqn:L|]; intros [= ->].
    + destruct (IH z eq_refl) as (Hz & Hmin & _). split_and!; [done| |exists [], l; split; [done|set_solver]].
      intros y [->|Hy]%elem_of_cons Hp; [done|]. eauto.
    + destruct (IH x eq_refl) as (Hz & Hmin & l1 & l2 & -> & Hl1).
      split_and!; [done| |exists (a :: l1), l2; split; [done|]].
      2: { intros y [->|Hy]%elem_of_cons Hp; [done|by eauto]. }
      intros y [->|Hy]%elem_of_cons Hp; [|by eauto].
      destruct (leb_total x a); congruence.
    + split_and!; [done| |exists [], l; split; [done|set_solver]].
      intros y [->|Hy]%elem_of_cons Hp; [done|].
      apply first_best_None with (x := y) in F; congruence.
  - intros F. destruct (IH x F) as (Hz & Hmin & l1 & l2 & -> & Hl1).
    split_and!; [done| |exists (a :: l1), l2; split; [done|]].
    + intros y [->|Hy]%elem_of_cons Hp; [congruence|by eauto].
    + intros y [->|Hy]%elem_of_cons Hp; [congruence|by eauto].
Qed.
End first_best.

(** ** Strings

    A string is a [string] of 8-bit characters; the functions agree with
    ECMAScript's on ASCII text. *)
Definition includes {A} `{EqDecision A} (l : list A) (x : A) : bool := bool_decide (x ∈ l).

Lemma includes_spec {A} `{EqDecision A} (l : list A) x : includes l x = true <-> x ∈ l.
Proof. apply bool_decide_eq_true. Qed.

(** [!!s] for a string, and for an optional string. *)
Definition truthy (s : string) : bool := negb (String.eqb s "").
Definition truthy_opt (o : option string) : bool :=
  match o with Some s => truthy s | None => false end.

Lemma truthy_spec s : truthy s = true <-> s <> "".
Proof. unfold truthy. rewrite negb_true_iff, String.eqb_neq. done. Qed.

Definition is_space (c : ascii) : bool :=
  let n := nat_of_ascii c in ((9 <=? n)%nat && (n <=? 13)%nat) || (n =? 32)%nat.

Fixpoint trim_start (s : string) : string :=
  match s with
  | EmptyString => EmptyString
  | String c s' => if is_space c then trim_start s' else s
  end.
Fixpoint trim_end (s : string) : string :=
  match s with
  | EmptyString => EmptyString
  | String c s' =>
      match trim_end s' with
      | EmptyString => if is_space c then EmptyString else String c EmptyString
      | t => String c t
      end
  end.
(** [s.trim()] *)
Definition trim (s : string) : string := trim_end (trim_start s).

Definition lower_char (c : ascii) : ascii :=
  let n := nat_of_ascii c in
  if (65 <=? n)%nat && (n <=? 90)%nat then ascii_of_nat (n + 32) else c.
(** [s.toLowerCase()] *)
Fixpoint toLowerCase (s : string) : string :=
  match s with
  | EmptyString => EmptyString
  | String c s' => String (lower_char c) (toLowerCase s')
  end.

(** [s.startsWith(p)] and [s.includes(p)] *)
Definition startsWith (p s : string) : bool := String.prefix p s.
Definition str_includes (p s : string) : bool :=
  match String.index 0 p s with Some _ => true | None => false end.

(** [s.split(c)] for a one-character separator; never empty. *)
Fixpoint split_on (c : ascii) (s : string) : list string :=
  match s with
  | EmptyString => [""]
  | String d s' =>
      match split_on c s' with
      | w :: ws => if Ascii.eqb c d then "" :: w :: ws else String d w :: ws
      | [] => [""]
      end
  end.

(** [l.join(sep)] *)
Definition join (sep : string) (l : list string) : string := String.concat sep l.

(** [`${n}`] of an integer *)
Definition str_of_Z (n : Z) : string := pretty n.

#[export] Instance str_of_Z_inj : Inj (=) (=) str_of_Z.
Proof. unfold str_of_Z. apply _. Qed.

Lemma Permutation_eq {A} (l l' : list A) : l = l' -> l ≡ₚ l'.
Proof. by intros ->. Qed.

Lemma forallb_Forall {A} (f : A -> bool) l : forallb f l = true <-> Forall (fun x => f x = true) l.
Proof.
  rewrite forallb_forall, Forall_forall. by setoid_rewrite list_elem_of_In.
Qed.

Lemma elem_of_List_filter {A} (p : A -> bool) (l : list A) x :
  x ∈ List.filter p l <-> x ∈ l /\ p x = true.
Proof. rewrite !list_elem_of_In. apply filter_In. Qed.

Lemma elem_of_List_map {A B} (f : A -> B) (l : list A) y :
  y ∈ map f l <-> exists x, y = f x /\ x ∈ l.
Proof. apply list_elem_of_fmap. Qed.

Lemma existsb_elem {A} (p : A -> bool) (l : list A) :
  existsb p l = true <-> exists x, x ∈ l /\ p x = true.
Proof. rewrite existsb_exists. by setoid_rewrite list_elem_of_In. Qed.

Lemma existsb_elem_false {A} (p : A -> bool) (l : list A) :
  existsb p l = false <-> forall x, x ∈ l -> p x = false.
Proof.
  split.
  - intros H x Hx. destruct (p x) eqn:E; [|done].
    enough (existsb p l = true) by congruence. apply existsb_elem. eauto.
  - intros H. destruct (existsb p l) eqn:E; [|done].
    apply existsb_elem in E as (x & Hx & Hp). rewrite H in Hp; done.
Qed.

Lemma find_elem {A} (p : A -> bool) (l : list A) x :
  List.find p l = Some x -> x ∈ l /\ p x = true.
Proof. intros H. apply find_some in H. by rewrite list_elem_of_In. Qed.

Lemma find_None_elem {A} (p : A -> bool) (l : list A) :
  List.find p l = None <-> forall x, x ∈ l -> p x = false.
Proof.
  induction l as [|y l IH]; simpl; [split; [intros _ x Hx; inversion Hx|done]|].
  destruct (p y) eqn:E; [split; [done|]|rewrite IH; split].
  - intros H. specialize (H y ltac:(left)). congruence.
  - intros H x [->|Hx]%elem_of_cons; auto.
  - intros H x Hx. apply H. by right.
Qed.

(** Elements are told apart by a field that does not repeat. *)
Lemma NoDup_map_inj {A B} (f : A -> B) (l : list A) x y :
  NoDup (map f l) -> x ∈ l -> y ∈ l -> f x = f y -> x = y.
Proof.
  intros Hnd Hx Hy E. apply list_elem_of_lookup_1 in Hx as [i Hi], Hy as [j Hj].
  assert (i = j) as ->; [|congruence].
  apply (NoDup_lookup (map f l) i j (f x)); [done| |];
    rewrite list_lookup_fmap; [by rewrite Hi|rewrite Hj; simpl; by rewrite E].
Qed.

Lemma NoDup_snoc {A} (l : list A) x : NoDup l -> x ∉ l -> NoDup (l ++ [x]).
Proof.
  intros Hl Hx. apply NoDup_app. split_and!; [done| |apply NoDup_singleton].
  intros y Hy Hy'. apply list_elem_of_singleton in Hy'. congruence.
Qed.

Lemma StronglySorted_app_inv {A} (R : A -> A -> Prop) l1 l2 :
  StronglySorted R (l1 ++ l2) ->
  StronglySorted R l1 /\ StronglySorted R l2 /\ forall x y, x ∈ l1 -> y ∈ l2 -> R x y.
Proof.
  induction l1 as [|a l1 IH]; simpl.
  - intros H. split_and!; [constructor|done|]. intros x y Hx. inversion Hx.
  - intros H. inversion H as [|? ? Hs Hall]; subst. destruct (IH Hs) as (H1 & H2 & H3).
    apply Forall_app in Hall as [Ha Hb]. split_and!; [by constructor|done|].
    intros x y [->|Hx]%elem_of_cons Hy; [|by auto]. rewrite Forall_forall in Hb. auto.
Qed.

#[export] Instance List_filter_perm {A} (p : A -> bool) : Proper (Permutation ==> Permutation) (List.filter p).
Proof.
  intros l l' Hl. induction Hl as [|a l l' _ IH|a b l|l1 l2 l3 _ IH1 _ IH2]; simpl.
  - done.
  - destruct (p a); [by rewrite IH|done].
  - destruct (p a), (p b); try done. apply Permutation_swap.
  - by rewrite IH1.
Qed.

Lemma string_leb_total a b : String.leb a b = true \/ String.leb b a = true.
Proof. destruct (String.leb_total a b); auto. Qed.

Lemma string_leb_trans a b c :
  String.leb a b = true -> String.leb b c = true -> String.leb a c = true.
Proof.
  intros Hab Hbc. pose proof (transitivity (R := String.le) (x := a) (y := b) (z := c)) as T.
  unfold String.le in T. apply Is_true_true, T; by apply Is_true_true.
Qed.

Lemma string_eqb_sym a b : String.eqb a b = String.eqb b a.
Proof. apply String.eqb_sym. Qed.

(** ** Proof automation *)

(** Turn boolean tests of the code into propositions. *)
Ltac bools :=
  repeat match goal with
  | H : andb _ _ = true |- _ => apply andb_true_iff in H as [? ?]
  | H : orb _ _ = false |- _ => apply orb_false_iff in H as [? ?]
  | H : negb _ = true |- _ => apply negb_true_iff in H
  | H : negb _ = false |- _ => apply negb_false_iff in H
  | H : String.eqb _ _ = true |- _ => apply String.eqb_eq in H
  | H : String.eqb _ _ = false |- _ => apply String.eqb_neq in H
  | H : includes _ _ = true |- _ => apply includes_spec in H
  | H : Z.leb _ _ = true |- _ => apply Z.leb_le in H
  | H : Z.leb _ _ = false |- _ => apply Z.leb_gt in H
  | H : Z.ltb _ _ = true |- _ => apply Z.ltb_lt in H
  | H : Z.ltb _ _ = false |- _ => apply Z.ltb_ge in H
  | H : Z.eqb _ _ = true |- _ => apply Z.eqb_eq in H
  | H : Z.eqb _ _ = false |- _ => apply Z.eqb_neq in H
  | H : bool_decide _ = true |- _ => apply bool_decide_eq_true in H
  | H : bool_decide _ = false |- _ => apply bool_decide_eq_false in H
  | |- andb _ _ = true => apply andb_true_iff; split
  | |- negb _ = true => apply negb_true_iff
  end.

(** One step of a monadic run in a hypothesis. *)
Ltac run_inv :=
  repeat match goal with
  | H : mbind _ _ _ = (_, Ok _) |- _ =>
      let s := fresh "s" in let a := fresh "a" in let E := fresh "E" in
      apply bind_inv_ok in H as (s & a & E & H)
  | H : mret _ _ = (_, _) |- _ => unfold mret, St_ret in H
  | H : gets _ _ = (_, _) |- _ => unfold gets in H
  | H : modify _ _ = (_, _) |- _ => unfold modify in H
  | H : throw _ _ = (_, _) |- _ => unfold throw in H
  end; simplify_eq/=.
