(* ===== verification/Json.v ===== *)
(** * JSON values and [canonicalJson]

    [src/src/infrastructure/canonical-json.ts], and the identical [stable] of
    [src/src/agent/reconciler.ts].  Numbers are integers: every number that is
    hashed or sent in a payload is a port, a metric, a revision or a count.
    The comparison [a.localeCompare(b)] comes from the host's collation tables
    and is the class [Collation]; its laws are those of the root collation on
    printable ASCII keys. *)

From S2P Require Import Prelude.
Open Scope Z_scope.

#[warnings="-register-all"]
Inductive json : Type :=
  | JNull
  | JBool (b : bool)
  | JNum (n : Z)
  | JStr (s : string)
  | JArr (l : list json)
  | JObj (l : list (string * json)).

(** Induction through the lists. *)
Section json_ind.
Variable P : json -> Prop.
Hypothesis Hnull : P JNull.
Hypothesis Hbool : forall b, P (JBool b).
Hypothesis Hnum : forall n, P (JNum n).
Hypothesis Hstr : forall s, P (JStr s).
Hypothesis Harr : forall l, Forall P l -> P (JArr l).
Hypothesis Hobj : forall l, Forall (fun kv => P kv.2) l -> P (JObj l).

Fixpoint json_nested_ind (v : json) : P v :=
  match v with
  | JNull => Hnull
  | JBool b => Hbool b
  | JNum n => Hnum n
  | JStr s => Hstr s
  | JArr l => Harr l ((fix go l : Forall P l :=
      match l with [] => Forall_nil_2 _ | x :: l' => Forall_cons_2 _ _ _ (json_nested_ind x) (go l') end) l)
  | JObj l => Hobj l ((fix go l : Forall (fun kv => P kv.2) l :=
      match l with
      | [] => Forall_nil_2 _
      | x :: l' => Forall_cons_2 (fun kv => P kv.2) x l' (json_nested_ind x.2) (go l')
      end) l)
  end.
End json_ind.

(** ** [JSON.stringify] of a string *)
Definition hex_digit (n : nat) : ascii :=
  ascii_of_nat (if (n <? 10)%nat then 48 + n else 87 + n).

Definition escape_char (c : ascii) : string :=
  let n := nat_of_ascii c in
  if (n =? 34)%nat then String "\" (String c "")
  else if (n =? 92)%nat then String "\" (String c "")
  else if (n =? 8)%nat then "\b" else if (n =? 9)%nat then "\t"
  else if (n =? 10)%nat then "\n" else if (n =? 12)%nat then "\f"
  else if (n =? 13)%nat then "\r"
  else if (n <? 32)%nat then
    "\u00" +:+ String (hex_digit (n / 16)) (String (hex_digit (n mod 16)) "")
  else String c "".

Fixpoint escape (s : string) : string :=
  match s with
  | EmptyString => EmptyString
  | String c s' => escape_char c +:+ escape s'
  end.

Definition dquote : ascii := ascii_of_nat 34.

(** [JSON.stringify(s)] *)
Definition json_quote (s : string) : string := String dquote (escape s +:+ String dquote "").

(** [JSON.stringify(value)]: members in insertion order. *)
Fixpoint json_stringify (value : json) : string :=
  match value with
  | JNull => "null"
  | JBool true => "true"
  | JBool false => "false"
  | JNum n => str_of_Z n
  | JStr s => json_quote s
  | JArr l => "[" +:+ join "," (map json_stringify l) +:+ "]"
  | JObj l => "{" +:+ join "," (map (fun kv => json_quote kv.1 +:+ ":" +:+ json_stringify kv.2) l) +:+ "}"
  end.

(** A key made of printable ASCII characters. *)
Fixpoint printable (s : string) : bool :=
  match s with
  | EmptyString => true
  | String c s' =>
      let n := nat_of_ascii c in (32 <=? n)%nat && (n <=? 126)%nat && printable s'
  end.

Class Collation : Type := {
  locale_leb : string -> string -> bool;
  locale_total : forall a b, locale_leb a b = true \/ locale_leb b a = true;
  locale_trans : forall a b c,
    locale_leb a b = true -> locale_leb b c = true -> locale_leb a c = true;
  locale_antisym : forall a b, printable a = true -> printable b = true ->
    locale_leb a b = true -> locale_leb b a = true -> a = b
}.

Section canonical.
Context `{Collation}.

Definition entry_leb {A} (a b : string * A) : bool := locale_leb a.1 b.1.

Definition member_text (kv : string * string) : string := json_quote kv.1 +:+ ":" +:+ kv.2.

Fixpoint canonicalJson (value : json) : string :=
  match value with
  | JNull => "null"
  | JBool true => "true"
  | JBool false => "false"
  | JNum n => str_of_Z n
  | JStr s => json_quote s
  | JArr l => "[" +:+ join "," (map canonicalJson l) +:+ "]"
  | JObj l =>
      "{" +:+ join "," (map member_text
         (sort_by entry_leb (map (fun kv => (kv.1, canonicalJson kv.2)) l))) +:+ "}"
  end.

(** Sorting the members of an object does not depend on how values print. *)
Lemma sort_by_map_values {A B} (g : A -> B) (l : list (string * A)) :
  sort_by entry_leb (map (fun kv => (kv.1, g kv.2)) l)
  = map (fun kv => (kv.1, g kv.2)) (sort_by entry_leb l).
Proof.
  assert (Hins : forall (x : string * A) s,
    sort_insert entry_leb (x.1, g x.2) (map (fun kv => (kv.1, g kv.2)) s)
    = map (fun kv => (kv.1, g kv.2)) (sort_insert entry_leb x s)).
  { intros x s. induction s as [|y s IH]; [done|]. cbn -[entry_leb].
    change (entry_leb (x.1, g x.2) (y.1, g y.2)) with (entry_leb x y).
    destruct (entry_leb x y); cbn; [done|]. by f_equal. }
  induction l as [|x l IH]; [done|].
  change (sort_insert entry_leb (x.1, g x.2)
    (sort_by entry_leb (map (fun kv => (kv.1, g kv.2)) l))
    = map (fun kv => (kv.1, g kv.2)) (sort_insert entry_leb x (sort_by entry_leb l))).
  by rewrite IH, Hins.
Qed.

(** Members in sorted order are determined by the set of members. *)
Lemma sort_by_entry_perm {A} (l l' : list (string * A)) :
  NoDup l.*1 -> Forall (fun kv => printable kv.1 = true) l -> l ≡ₚ l' ->
  sort_by entry_leb l = sort_by entry_leb l'.
Proof.
  intros Hnd Hpr Hp. assert (Hl : forall a b : string * A, a ∈ l -> b ∈ l ->
    entry_leb a b = true -> entry_leb b a = true -> a = b).
  { intros a b Ha Hb H1 H2. rewrite Forall_forall in Hpr.
    assert (a.1 = b.1) as E by (apply locale_antisym; auto).
    apply list_elem_of_lookup in Ha as [i Hi], Hb as [j Hj].
    assert (i = j) as -> by (eapply (NoDup_lookup l.*1);
      [done|by rewrite list_lookup_fmap, Hi|by rewrite list_lookup_fmap, Hj, E]).
    congruence. }
  apply (StronglySorted_unique_strong (fun a b => entry_leb a b = true)).
  - intros a b. rewrite !elem_of_sort_by, <- Hp. auto.
  - apply sort_by_sorted; unfold entry_leb; eauto using locale_total, locale_trans.
  - apply sort_by_sorted; unfold entry_leb; eauto using locale_total, locale_trans.
  - by rewrite !sort_by_perm.
Qed.
End canonical.

(** ** [jsonb] columns

    What a [jsonb] column gives back: the members of every object by the length
    of the key and then its bytes. *)
Definition jsonb_leb {A} (a b : string * A) : bool :=
  (String.length a.1 <? String.length b.1)%nat
  || ((String.length a.1 =? String.length b.1)%nat && String.leb a.1 b.1).

Fixpoint jsonb (v : json) : json :=
  match v with
  | JArr l => JArr (map jsonb l)
  | JObj l => JObj (sort_by jsonb_leb (map (fun kv => (kv.1, jsonb kv.2)) l))
  | _ => v
  end.
Definition jsonb_members (l : list (string * json)) : list (string * json) :=
  sort_by jsonb_leb (map (fun kv => (kv.1, jsonb kv.2)) l).

(** A value as the parameter of a [jsonb] column.  The driver sends an object as
    its JSON text, a number or a boolean as text that is JSON too, [null] as NULL,
    a string as it is, and an array as an array literal, which is JSON only when
    it is empty ([{}]).  [input] is how the server reads a text as JSON. *)
Definition jsonb_param (input : string -> option json) (v : json) : res (option json) :=
  match v with
  | JNull => Ok None
  | JBool _ | JNum _ => Ok (Some v)
  | JStr s => match input s with Some w => Ok (Some (jsonb w)) | None => Throw (PgError "22P02") end
  | JArr [] => Ok (Some (JObj []))
  | JArr _ => Throw (PgError "22P02")
  | JObj _ => Ok (Some (jsonb v))
  end.

(** ** Values up to the order of object keys *)
#[warnings="-register-all"]
Inductive jequiv : json -> json -> Prop :=
  | jequiv_null : jequiv JNull JNull
  | jequiv_bool b : jequiv (JBool b) (JBool b)
  | jequiv_num n : jequiv (JNum n) (JNum n)
  | jequiv_str s : jequiv (JStr s) (JStr s)
  | jequiv_arr l l' : Forall2 jequiv l l' -> jequiv (JArr l) (JArr l')
  | jequiv_obj l l' m m' :
      l ≡ₚ m -> Forall2 (fun a b => a.1 = b.1 /\ jequiv a.2 b.2) m m' -> m' ≡ₚ l' ->
      jequiv (JObj l) (JObj l').

(** Every object has distinct, printable keys. *)
Fixpoint json_wf (v : json) : bool :=
  match v with
  | JArr l => forallb json_wf l
  | JObj l => bool_decide (NoDup l.*1) && forallb (fun kv => printable kv.1) l
              && forallb (fun kv => json_wf kv.2) l
  | _ => true
  end.

Section canonical_respects.
Context `{Collation}.

Lemma canonicalJson_respects v w :
  json_wf v = true -> jequiv v w -> canonicalJson v = canonicalJson w.
Proof.
  revert w; induction v as [|b|n|s|l IH|l IH] using json_nested_ind;
    intros w Hwf Hw; inversion Hw as [| | | |? l' Hl|? l' m m' Hm Hmm Hm']; subst; [done..| |].
  - cbn. do 3 f_equal. clear Hw. cbn in Hwf.
    induction Hl as [|x y l l' Hxy Hl IHl]; [done|].
    apply Forall_cons in IH as [IHx IH]. cbn in Hwf. bools. cbn. f_equal; auto.
  - cbn. do 4 f_equal. cbn in Hwf. bools. apply sort_by_entry_perm.
    + by rewrite <- list_fmap_compose.
    + apply Forall_fmap. by apply forallb_Forall.
    + transitivity (map (fun kv => (kv.1, canonicalJson kv.2)) m'); [|by rewrite Hm'].
      rewrite Hm. apply Permutation_eq. rewrite Hm in IH.
      apply forallb_Forall in H1. rewrite Hm in H1. clear Hm Hm' Hw.
      induction Hmm as [|x y m m' [Hk Hxy] Hmm IHl]; [done|].
      apply Forall_cons in IH as [IHx IH], H1 as [Hx H1]. cbn. rewrite Hk.
      f_equal; auto. f_equal; auto.
Qed.
End canonical_respects.

(** ** [canonicalJson] determines the value

    A printed value can be read back: the text up to the next separator is
    that of one value, up to key order. *)
Lemma app_cons_s c s t : String c s +:+ t = String c (s +:+ t).
Proof. done. Qed.
Lemma app_nil_s t : "" +:+ t = t.
Proof. done. Qed.
Lemma app_assoc_s a b c : (a +:+ b) +:+ c = a +:+ b +:+ c.
Proof. induction a as [|x a IH]; [done|]. by rewrite !app_cons_s, IH. Qed.
#[local] Hint Rewrite app_cons_s app_nil_s app_assoc_s : sapp.

Lemma string_tail_inj c d s t : String c s = String d t -> s = t.
Proof. congruence. Qed.

Fixpoint all_chars (p : ascii -> bool) (s : string) : bool :=
  match s with EmptyString => true | String c s' => p c && all_chars p s' end.

(** The next character, when there is one, does not satisfy [p]. *)
Definition head_not (p : ascii -> bool) (s : string) : bool :=
  match s with EmptyString => true | String c _ => negb (p c) end.

Lemma all_chars_split p s s' r r' :
  all_chars p s = true -> all_chars p s' = true ->
  head_not p r = true -> head_not p r' = true ->
  s +:+ r = s' +:+ r' -> s = s' /\ r = r'.
Proof.
  revert s'; induction s as [|c s IH]; intros [|c' s']; cbn [all_chars]; intros Hs Hs' Hr Hr' E;
    autorewrite with sapp in E; bools; [done| | |].
  - subst. cbn in Hr. rewrite H in Hr. done.
  - subst. cbn in Hr'. rewrite H in Hr'. done.
  - injection E as -> E. destruct (IH s') as [-> ->]; auto.
Qed.

Definition num_char (c : ascii) : bool :=
  let n := nat_of_ascii c in ((48 <=? n)%nat && (n <=? 57)%nat) || (n =? 45)%nat.

Lemma pretty_N_char_num x : num_char (pretty_N_char x) = true.
Proof. unfold pretty_N_char. by repeat case_match. Qed.

Lemma pretty_N_go_num x s : all_chars num_char s = true -> all_chars num_char (pretty_N_go x s) = true.
Proof.
  revert s. induction (N.lt_wf_0 x) as [x _ IH]; intros s Hs.
  destruct (decide (0 < x)%N) as [Hx|Hx].
  - rewrite pretty_N_go_step by done. apply IH; [by apply N.div_lt|].
    cbn. by rewrite pretty_N_char_num, Hs.
  - by replace x with 0%N by lia.
Qed.

Lemma pretty_N_num (x : N) : all_chars num_char (pretty x) = true.
Proof. unfold pretty, pretty_N. case_decide; [done|]. by apply pretty_N_go_num. Qed.

Lemma str_of_Z_num z : all_chars num_char (str_of_Z z) = true.
Proof.
  destruct z as [|q|q]; [done| |].
  - apply (pretty_N_num (Npos q)).
  - change (all_chars num_char ("-" +:+ pretty (Npos q)) = true).
    rewrite app_cons_s, app_nil_s. cbn [all_chars]. apply (pretty_N_num (Npos q)).
Qed.

Lemma pretty_N_go_cons x c s : pretty_N_go x (String c s) <> "".
Proof.
  revert c s. induction (N.lt_wf_0 x) as [x _ IH]; intros c s.
  destruct (decide (0 < x)%N) as [Hx|Hx].
  - rewrite pretty_N_go_step by done. apply IH. by apply N.div_lt.
  - by replace x with 0%N by lia.
Qed.

Lemma str_of_Z_cons z : exists c t, str_of_Z z = String c t /\ num_char c = true.
Proof.
  pose proof (str_of_Z_num z) as Hz. destruct (str_of_Z z) as [|c t] eqn:E.
  - exfalso. destruct z as [|q|q]; [done| |done].
    unfold str_of_Z, pretty, pretty_Z, pretty, pretty_positive, pretty, pretty_N in E.
    case_decide; [done|]. rewrite pretty_N_go_step in E by lia.
    by apply pretty_N_go_cons in E.
  - cbn in Hz. bools. eauto.
Qed.

(** Two texts that differ at a position where both have a character. *)
Fixpoint clash (s t : string) : bool :=
  match s, t with
  | String c s', String d t' => if Ascii.eqb c d then clash s' t' else true
  | _, _ => false
  end.

Lemma clash_app s t x y : clash s t = true -> s +:+ x <> t +:+ y.
Proof.
  revert t; induction s as [|c s IH]; intros [|d t]; cbn; try done.
  rewrite !app_cons_s. destruct (Ascii.eqb_spec c d) as [->|Hne]; intros Hc E; injection E; [|done].
  by apply IH.
Qed.

Definition all_ascii : list ascii := map ascii_of_nat (seq 0 256).

Lemma elem_of_all_ascii c : c ∈ all_ascii.
Proof.
  apply list_elem_of_fmap. exists (nat_of_ascii c). rewrite ascii_nat_embedding.
  split; [done|]. apply elem_of_seq. pose proof (nat_ascii_bounded c). lia.
Qed.

(** The escape sequences of two characters, and the closing quote, are told
    apart by reading. *)
Lemma escape_char_clash c d :
  c = d \/ clash (escape_char c) (escape_char d) = true.
Proof.
  assert (Hall : forallb (fun c => forallb (fun d =>
      Ascii.eqb c d || clash (escape_char c) (escape_char d)) all_ascii) all_ascii = true)
    by (vm_compute; reflexivity).
  apply forallb_Forall in Hall. rewrite Forall_forall in Hall.
  specialize (Hall c (elem_of_all_ascii c)). apply forallb_Forall in Hall.
  rewrite Forall_forall in Hall. specialize (Hall d (elem_of_all_ascii d)).
  apply orb_true_iff in Hall as [?%Ascii.eqb_eq|?]; auto.
Qed.

Lemma escape_char_quote c : clash (escape_char c) (String dquote "") = true.
Proof.
  assert (Hall : forallb (fun c => clash (escape_char c) (String dquote "")) all_ascii = true)
    by (vm_compute; reflexivity).
  apply forallb_Forall in Hall. rewrite Forall_forall in Hall. apply Hall, elem_of_all_ascii.
Qed.

Lemma escape_split s s' r r' :
  escape s +:+ String dquote r = escape s' +:+ String dquote r' -> s = s' /\ r = r'.
Proof.
  assert (Hq : forall c x t, (escape_char c +:+ x) +:+ t <> String dquote "" +:+ r /\
                             (escape_char c +:+ x) +:+ t <> String dquote "" +:+ r').
  { intros c x t. rewrite app_assoc_s. split; apply clash_app, escape_char_quote. }
  revert s'; induction s as [|c s IH]; intros [|c' s']; cbn [escape]; intros E.
  - by injection E.
  - by apply symmetry, Hq in E.
  - by apply Hq in E.
  - rewrite !app_assoc_s in E. destruct (escape_char_clash c c') as [->|Hc].
    + apply (inj (String.append _)) in E. by apply IH in E as [-> ->].
    + by apply clash_app with (x := escape s +:+ String dquote r)
        (y := escape s' +:+ String dquote r') in Hc.
Qed.

Lemma json_quote_split s s' r r' :
  json_quote s +:+ r = json_quote s' +:+ r' -> s = s' /\ r = r'.
Proof.
  unfold json_quote. rewrite !app_cons_s, !app_assoc_s. intros E. injection E as E.
  by apply escape_split in E.
Qed.

Definition stop_char (c : ascii) : bool :=
  Ascii.eqb c "," || Ascii.eqb c "]" || Ascii.eqb c "}".
Definition at_stop (r : string) : bool :=
  match r with EmptyString => true | String c _ => stop_char c end.

Lemma at_stop_num r : at_stop r = true -> head_not num_char r = true.
Proof.
  destruct r as [|c r]; [done|]. cbn. unfold stop_char.
  rewrite !orb_true_iff, !Ascii.eqb_eq. by intros [[->| ->]| ->].
Qed.

Lemma str_of_Z_split n n' r r' :
  at_stop r = true -> at_stop r' = true ->
  str_of_Z n +:+ r = str_of_Z n' +:+ r' -> n = n' /\ r = r'.
Proof.
  intros Hr Hr' E. apply all_chars_split with (p := num_char) in E as [E ->];
    auto using str_of_Z_num, at_stop_num.
  by apply (inj str_of_Z) in E as ->.
Qed.

Lemma join_cons_app x l t :
  join "," (x :: l) +:+ t =
  x +:+ match l with [] => t | _ => String "," (join "," l +:+ t) end.
Proof. destruct l as [|y l]; [done|]. unfold join. cbn. by rewrite !app_assoc_s. Qed.

Section separated.
Context {A : Type} (f : A -> string) (R : A -> A -> Prop) (Q : A -> Prop) (close : ascii).
Context (close_stop : stop_char close = true) (close_comma : close <> ","%char).
Context (f_head : forall x, Q x -> exists c t, f x = String c t /\ c <> close).

(** The text of an item determines it. *)
Definition readable (x : A) : Prop :=
  Q x /\ forall y r r', Q y -> at_stop r = true -> at_stop r' = true ->
    f x +:+ r = f y +:+ r' -> R x y /\ r = r'.

Lemma separated_split l l' r r' :
  Forall readable l -> Forall Q l' ->
  join "," (map f l) +:+ String close r = join "," (map f l') +:+ String close r' ->
  Forall2 R l l' /\ r = r'.
Proof using close_stop close_comma f_head.
  intros Hl. revert l'. induction Hl as [|x l [Qx Hx] Hl IH]; intros l' Hl'.
  - destruct Hl' as [|y l' Qy Hl']; cbn [map].
    + intros E. by injection E.
    + rewrite join_cons_app. destruct (f_head y Qy) as (c & t & -> & Hc).
      rewrite app_cons_s. intros E. by injection E.
  - destruct Hl' as [|y l' Qy Hl']; cbn [map]; rewrite !join_cons_app.
    + destruct (f_head x Qx) as (c & t & -> & Hc). rewrite app_cons_s.
      intros E. by injection E.
    + intros E. apply Hx in E as [Rxy E]; [|done|..].
      * destruct l as [|x2 l], l' as [|y2 l']; cbn [map] in E.
        -- injection E as ->. auto.
        -- by injection E.
        -- by injection E.
        -- apply string_tail_inj in E. apply (IH (y2 :: l')) in E as [HF ->]; auto.
      * by destruct l.
      * by destruct l'.
Qed.
End separated.

Section canonical_injective.
Context `{Collation}.

(** What the first character of a text tells about the value. *)
Definition char_kind (c : ascii) : nat :=
  if Ascii.eqb c "n" then 0 else if Ascii.eqb c "t" then 1
  else if Ascii.eqb c "f" then 2 else if num_char c then 3
  else if Ascii.eqb c dquote then 4 else if Ascii.eqb c "[" then 5
  else if Ascii.eqb c "{" then 6 else 7.
Definition json_kind (v : json) : nat :=
  match v with
  | JNull => 0 | JBool true => 1 | JBool false => 2 | JNum _ => 3
  | JStr _ => 4 | JArr _ => 5 | JObj _ => 6
  end.

Lemma num_char_kind c : num_char c = true -> char_kind c = 3%nat.
Proof.
  assert (Hall : forallb (fun c => implb (num_char c) (char_kind c =? 3)%nat) all_ascii = true)
    by (vm_compute; reflexivity).
  apply forallb_Forall in Hall. rewrite Forall_forall in Hall.
  specialize (Hall c (elem_of_all_ascii c)). intros Hc. rewrite Hc in Hall.
  by apply Nat.eqb_eq.
Qed.

Lemma canonicalJson_head v :
  exists c t, canonicalJson v = String c t /\ char_kind c = json_kind v.
Proof.
  destruct v as [|[]|n|s|l|l]; try (eexists _, _; split; reflexivity).
  destruct (str_of_Z_cons n) as (c & t & E & Hc). eauto using num_char_kind.
Qed.

Lemma canonicalJson_kind v w r r' :
  canonicalJson v +:+ r = canonicalJson w +:+ r' -> json_kind v = json_kind w.
Proof.
  destruct (canonicalJson_head v) as (c & t & -> & <-).
  destruct (canonicalJson_head w) as (d & u & -> & <-).
  rewrite !app_cons_s. intros E. by injection E as -> _.
Qed.

Lemma canonicalJson_obj l :
  canonicalJson (JObj l) = "{" +:+ join "," (map
    (fun kv => member_text (kv.1, canonicalJson kv.2)) (sort_by entry_leb l)) +:+ "}".
Proof.
  cbn [canonicalJson]. rewrite (sort_by_map_values canonicalJson).
  by rewrite map_map.
Qed.

Definition canonical_readable (v : json) : Prop :=
  json_wf v = true -> forall w r r', json_wf w = true ->
  at_stop r = true -> at_stop r' = true ->
  canonicalJson v +:+ r = canonicalJson w +:+ r' -> jequiv v w /\ r = r'.

Lemma canonical_readable_arr l : Forall canonical_readable l -> canonical_readable (JArr l).
Proof.
  intros IH Hl w r r' Hw Hr Hr' E. pose proof (canonicalJson_kind _ _ _ _ E) as K.
  destruct w as [|[]|n|s|l'|l']; try done. cbn in E. rewrite !app_cons_s, !app_nil_s in E.
  apply string_tail_inj in E. rewrite !app_assoc_s in E. cbn in Hl, Hw.
  apply forallb_Forall in Hl, Hw.
  apply (separated_split canonicalJson jequiv (fun v => json_wf v = true) "]") in E as [HF ->].
  - split; [by constructor|done].
  - done.
  - done.
  - intros v _. destruct (canonicalJson_head v) as (c & t & E' & Hk). exists c, t.
    split; [done|]. intros ->. by destruct v as [|[]| | | |].
  - apply Forall_and; split; [done|]. eapply Forall_impl; [apply Forall_and; split; [exact IH|exact Hl]|].
    intros v [Hv Hwf]. intros; by apply Hv.
  - done.
Qed.

Lemma canonical_readable_obj l :
  Forall (fun kv => canonical_readable kv.2) l -> canonical_readable (JObj l).
Proof.
  intros IH Hl w r r' Hw Hr Hr' E. pose proof (canonicalJson_kind _ _ _ _ E) as K.
  destruct w as [|[]|n|s|l'|l']; try done. rewrite !canonicalJson_obj in E.
  rewrite !app_cons_s, !app_nil_s in E. apply string_tail_inj in E. rewrite !app_assoc_s in E.
  cbn in Hl, Hw. apply andb_true_iff in Hl as [_ Hl%forallb_Forall], Hw as [_ Hw%forallb_Forall].
  apply (separated_split (fun kv => member_text (kv.1, canonicalJson kv.2))
    (fun a b => a.1 = b.1 /\ jequiv a.2 b.2) (fun kv => json_wf kv.2 = true) "}") in E as [HF ->].
  - split; [|done]. eapply jequiv_obj; [|exact HF|]; by rewrite sort_by_perm.
  - done.
  - done.
  - intros kv _. eexists _, _; split; [reflexivity|done].
  - rewrite sort_by_perm. apply Forall_and; split; [done|].
    eapply Forall_impl; [apply Forall_and; split; [exact IH|exact Hl]|].
    intros [k v] [Hv Hwf] [k' v'] r1 r1' Hwf' Hr1 Hr1'. unfold member_text; cbn [fst snd].
    rewrite !app_assoc_s. intros [-> E2]%json_quote_split.
    rewrite !app_cons_s, !app_nil_s in E2. apply string_tail_inj in E2.
    by apply Hv in E2 as [? ->].
  - by rewrite sort_by_perm.
Qed.

Lemma canonicalJson_readable v : canonical_readable v.
Proof.
  induction v as [|b|n|s|l IH|l IH] using json_nested_ind;
    [| | | |by apply canonical_readable_arr|by apply canonical_readable_obj];
    intros Hv w r r' Hw Hr Hr' E; pose proof (canonicalJson_kind _ _ _ _ E) as K.
  - destruct w as [|[]| | | |]; try done. apply (inj (String.append "null")) in E as ->.
    split; [constructor|done].
  - destruct b, w as [|[]| | | |]; try done; apply (inj (String.append _)) in E as ->;
      (split; [constructor|done]).
  - destruct w as [|[]|n'| | |]; try done. apply str_of_Z_split in E as [-> ->]; [|done..].
    split; [constructor|done].
  - destruct w as [|[]| |s'| |]; try done. apply json_quote_split in E as [-> ->].
    split; [constructor|done].
Qed.
End canonical_injective.

(** Code-point order, a collation that has the laws. *)
Definition code_point_collation : Collation.
Proof.
  refine {| locale_leb := String.leb |}.
  - apply string_leb_total.
  - apply string_leb_trans.
  - intros a b _ _. apply String.leb_antisym.
Defined.

Lemma canonicalJson_determines `{Collation} (v w : json) :
  json_wf v = true -> json_wf w = true -> canonicalJson v = canonicalJson w -> jequiv v w.
Proof.
  intros Hv Hw E. destruct (canonicalJson_readable v Hv w "" "") as [Heq _]; [done..| |done].
  by rewrite E.
Qed.

(** Equivalent objects have equivalent values under each key. *)
Lemma jequiv_obj_member l l' k v v' :
  json_wf (JObj l') = true -> jequiv (JObj l) (JObj l') -> (k, v) ∈ l -> (k, v') ∈ l' -> jequiv v v'.
Proof.
  intros Hwf Hj Hv Hv'. inversion Hj as [| | | | |? ? m m' Hm Hmm Hm']; subst.
  rewrite Hm in Hv. apply list_elem_of_lookup_1 in Hv as [i Hi].
  destruct (Forall2_lookup_l _ _ _ _ _ Hmm Hi) as ([k' w] & Hw & E & Hvw). simpl in *. subst k'.
  apply list_elem_of_lookup_2 in Hw. rewrite Hm' in Hw.
  enough (w = v') by congruence.
  cbn in Hwf. bools. apply list_elem_of_lookup_1 in Hw as [a Ha], Hv' as [b Hb].
  assert (a = b) as ->; [|congruence].
  eapply (NoDup_lookup l'.*1); [done|rewrite list_lookup_fmap, Ha; done|rewrite list_lookup_fmap, Hb; done].
Qed.

(** A [jsonb] column changes nothing but the order of keys. *)
Lemma jequiv_jsonb v : jequiv v (jsonb v).
Proof.
  induction v as [|b|n|s|l IH|l IH] using json_nested_ind; cbn; try constructor.
  - induction IH; constructor; auto.
  - apply (jequiv_obj _ _ l (map (fun kv => (kv.1, jsonb kv.2)) l)); [done| |by rewrite sort_by_perm].
    induction IH; constructor; auto.
Qed.

Lemma json_wf_jsonb v : json_wf v = true -> json_wf (jsonb v) = true.
Proof.
  induction v as [|b|n|s|l IH|l IH] using json_nested_ind; cbn [jsonb json_wf]; try done.
  - rewrite !forallb_Forall. intros W. induction W as [|x l Hx W IHW]; [constructor|].
    apply Forall_cons in IH as [IHx IH]. constructor; auto.
  - rewrite !andb_true_iff, !bool_decide_eq_true, !forallb_Forall, !sort_by_perm. intros [[Hnd Hp] Hw].
    split_and!.
    + by rewrite <- list_fmap_compose.
    + by apply Forall_fmap.
    + apply Forall_fmap, Forall_forall. intros kv Hkv. rewrite Forall_forall in IH, Hw. by apply IH, Hw.
Qed.

Lemma canonicalJson_jsonb `{Collation} v : json_wf v = true -> canonicalJson (jsonb v) = canonicalJson v.
Proof. intros W. symmetry. apply canonicalJson_respects; [done|apply jequiv_jsonb]. Qed.

(** Also: [canonicalJson] is a faithful fingerprint of a value: two well-formed
    values have the same canonical text exactly when they are equal up to the
    order of object keys, at every depth.  (So a [jsonb] round trip, which
    reorders keys, keeps the text, and no other change does.) *)
Theorem canonicalJson_iff `{Collation} (v w : json) :
  json_wf v = true -> json_wf w = true ->
  (canonicalJson v = canonicalJson w <-> jequiv v w).
Proof.
  intros Hv Hw. split; [|by apply canonicalJson_respects].
  by apply canonicalJson_determines.
Qed.

Definition sample_payload : json :=
  JObj [("peers", JArr [JObj [("publicKey", JStr "k"); ("keepaliveSeconds", JNum 25)]])].
Definition sample_payload_jsonb : json :=
  JObj [("peers", JArr [JObj [("keepaliveSeconds", JNum 25); ("publicKey", JStr "k")]])].

Lemma canonicalJson_iff_witness :
  @canonicalJson code_point_collation sample_payload
  = @canonicalJson code_point_collation sample_payload_jsonb.
Proof.
  apply (@canonicalJson_iff code_point_collation sample_payload sample_payload_jsonb);
    [reflexivity|reflexivity|].
  apply (jequiv_obj _ _ _ [("peers", JArr [JObj [("keepaliveSeconds", JNum 25); ("publicKey", JStr "k")]])] (reflexivity _));
    [|reflexivity].
  constructor; [split; [reflexivity|]|constructor].
  apply jequiv_arr. constructor; [|constructor].
  apply (jequiv_obj _ _ [("keepaliveSeconds", JNum 25); ("publicKey", JStr "k")]
           [("keepaliveSeconds", JNum 25); ("publicKey", JStr "k")]).
  - apply Permutation_swap.
  - repeat constructor.
  - reflexivity.
Defined.
