(* ===== verification/Text.v ===== *)
(** * Dates and bytes as text

    [Date.prototype.toISOString] (proleptic Gregorian calendar, UTC) and the
    [hex] encoding of [Buffer], the two textual encodings whose injectivity
    the hashes and signatures of the program rest on.  A byte string is a
    [string] of 8-bit characters. *)

From S2P Require Import Prelude Json.
Open Scope Z_scope.

(** [lia] reads divisions by constants. *)
#[local] Ltac Zify.zify_post_hook ::= Z.to_euclidean_division_equations.

(** ** Fixed-width decimal numbers *)

Definition digit (n : Z) : ascii := ascii_of_nat (Z.to_nat (48 + n)).

(** The last [w] decimal digits of [n]. *)
Fixpoint digits (w : nat) (n : Z) : string :=
  match w with
  | O => ""
  | S w' => digits w' (n / 10) +:+ String (digit (n mod 10)) ""
  end.

Lemma digit_inj m n : 0 <= m < 10 -> 0 <= n < 10 -> digit m = digit n -> m = n.
Proof.
  intros Hm Hn H. unfold digit in H.
  apply (f_equal nat_of_ascii) in H. rewrite !nat_ascii_embedding in H; lia.
Qed.

Lemma length_app_s (a b : string) : String.length (a +:+ b) = (String.length a + String.length b)%nat.
Proof. induction a as [|c a IH]; [done|]. rewrite app_cons_s. cbn [String.length]. rewrite IH. lia. Qed.

Lemma length_digits w n : String.length (digits w n) = w.
Proof.
  revert n; induction w as [|w IH]; intros n; simpl; [done|].
  rewrite length_app_s, IH. simpl. lia.
Qed.

(** Two concatenations whose first parts have the same length agree part by part. *)
Lemma append_inj a a' b b' :
  String.length a = String.length a' -> a +:+ b = a' +:+ b' -> a = a' /\ b = b'.
Proof.
  revert a'; induction a as [|c a IH]; intros [|c' a'] Hl; simpl in *; try done.
  rewrite !app_cons_s. injection Hl as Hl. intros E.
  pose proof (f_equal (String.get 0) E) as E0. simpl in E0. injection E0 as ->.
  apply string_tail_inj in E. by destruct (IH a' Hl E) as [-> ->].
Qed.

Lemma digits_inj w m n :
  0 <= m < 10 ^ Z.of_nat w -> 0 <= n < 10 ^ Z.of_nat w -> digits w m = digits w n -> m = n.
Proof.
  revert m n; induction w as [|w IH]; intros m n Hm Hn H; [simpl in *; lia|].
  rewrite Nat2Z.inj_succ, Z.pow_succ_r in Hm, Hn by lia.
  apply append_inj in H as [H1 H2]; [|by rewrite !length_digits].
  injection H2 as H2. apply digit_inj in H2; [|apply Z.mod_pos_bound; lia..].
  apply IH in H1; [|split; [apply Z.div_pos; lia|apply Z.div_lt_upper_bound; lia]..].
  rewrite (Z.div_mod m 10), (Z.div_mod n 10) by lia. by rewrite H1, H2.
Qed.

(** ** The calendar *)

(** The day of the era [d] as a day of a 365-day calendar, and the day of the
    era on which year [y] starts. *)
Definition era_day (d : Z) : Z := d - d / 1460 + d / 36524 - d / 146096.
Definition era_start (y : Z) : Z := 365 * y + y / 4 - y / 100.

(** Year, month and day of a day count since 1970-01-01. *)
Definition civil_from_days (days : Z) : Z * Z * Z :=
  let z := days + 719468 in
  let era := z / 146097 in
  let doe := z mod 146097 in
  let yoe := era_day doe / 365 in
  let doy := doe - era_start yoe in
  let mp := (5 * doy + 2) / 153 in
  let d := doy - (153 * mp + 2) / 5 + 1 in
  let m := if mp <? 10 then mp + 3 else mp - 9 in
  (yoe + era * 400 + (if m <=? 2 then 1 else 0), m, d).

(** [Date.UTC(y, m - 1, d)] in days. *)
Definition days_from_civil (ymd : Z * Z * Z) : Z :=
  let '(y, m, d) := ymd in
  let y' := y - (if m <=? 2 then 1 else 0) in
  let yoe := y' mod 400 in
  let mp := if 2 <? m then m - 3 else m + 9 in
  let doy := (153 * mp + 2) / 5 + d - 1 in
  y' / 400 * 146097 + (era_start yoe + doy) - 719468.

(** The month of a day, twelve times the year plus its number from 0. *)
Definition DAY : Z := 86400000.
Definition month_of_day (d : Z) : Z := let '(y, m, _) := civil_from_days d in 12 * y + (m - 1).
Definition month_of (t : Z) : Z := month_of_day (t / DAY).

Lemma era_day_mono a b : 0 <= a <= b -> era_day a <= era_day b.
Proof.
  intros H. unfold era_day.
  assert (b / 1460 - a / 1460 <= b - a) by lia.
  assert (a / 146096 = a / 36524 / 4) as -> by (rewrite Z.div_div by lia; done).
  assert (b / 146096 = b / 36524 / 4) as -> by (rewrite Z.div_div by lia; done).
  assert (a / 36524 <= b / 36524) by (apply Z.div_le_mono; lia). lia.
Qed.

(** The 365-day calendar reaches year [y] on the day year [y] starts. *)
Lemma era_day_start y :
  0 <= y < 400 -> 365 * y <= era_day (era_start y) /\ (0 < y -> era_day (era_start y - 1) < 365 * y).
Proof.
  intros H.
  assert (forallb (fun n => let y := Z.of_nat n in
      (365 * y <=? era_day (era_start y)) && ((y <=? 0) || (era_day (era_start y - 1) <? 365 * y)))
    (seq 0 400) = true) as E by (vm_compute; reflexivity).
  rewrite forallb_forall in E. specialize (E (Z.to_nat y)). cbv zeta in E.
  rewrite Z2Nat.id in E by lia. destruct (andb_prop _ _ (E ltac:(apply in_seq; lia))) as [E1 E2].
  apply Z.leb_le in E1. split; [done|]. intros Hy.
  rewrite (proj2 (Z.leb_gt y 0)) in E2 by lia. by apply Z.ltb_lt.
Qed.

Lemma year_of_era_bounds doe :
  0 <= doe < 146097 ->
  let yoe := era_day doe / 365 in 0 <= yoe <= 399 /\ 0 <= doe - era_start yoe <= 365.
Proof.
  intros H yoe.
  assert (0 <= yoe <= 399) as Hy.
  { pose proof (era_day_mono 0 doe ltac:(lia)) as Hlo.
    pose proof (era_day_mono doe 146096 ltac:(lia)) as Hhi.
    change (era_day 0) with 0 in Hlo. change (era_day 146096) with 145999 in Hhi. subst yoe. lia. }
  split; [done|].
  assert (365 * yoe <= era_day doe < 365 * (yoe + 1)) as Hd by (subst yoe; lia).
  destruct (era_day_start yoe ltac:(lia)) as [_ Hlo]. split.
  - destruct (Z_lt_le_dec doe (era_start yoe)) as [L|]; [|lia]. exfalso.
    destruct (Z.eq_dec yoe 0) as [E|]; [rewrite E in L; unfold era_start in L; simpl in L; lia|].
    pose proof (era_day_mono doe (era_start yoe - 1) ltac:(lia)). lia.
  - destruct (Z.eq_dec yoe 399) as [E|]; [rewrite E; unfold era_start; simpl; lia|].
    destruct (era_day_start (yoe + 1) ltac:(lia)) as [Hhi _].
    assert (era_start (yoe + 1) <= era_start yoe + 366) by (unfold era_start; lia).
    destruct (Z_lt_le_dec doe (era_start (yoe + 1))) as [|L]; [lia|]. exfalso.
    pose proof (era_day_mono (era_start (yoe + 1)) doe) as Hm.
    assert (0 <= era_start (yoe + 1)) by (unfold era_start; lia). lia.
Qed.

Lemma civil_roundtrip days : days_from_civil (civil_from_days days) = days.
Proof.
  unfold civil_from_days, days_from_civil.
  pose proof (Z.mod_pos_bound (days + 719468) 146097 ltac:(lia)) as Hdoe.
  pose proof (Z.div_mod (days + 719468) 146097 ltac:(lia)) as Hz.
  set (era := (days + 719468) / 146097) in *.
  set (doe := (days + 719468) mod 146097) in *.
  destruct (year_of_era_bounds doe Hdoe) as [Hyoe Hdoy].
  set (yoe := era_day doe / 365) in *.
  set (doy := doe - era_start yoe) in *.
  set (mp := (5 * doy + 2) / 153).
  assert (Hmp : 0 <= mp <= 11) by (subst mp; lia).
  set (c := if (if mp <? 10 then mp + 3 else mp - 9) <=? 2 then 1 else 0).
  replace (yoe + era * 400 + c - c) with (yoe + era * 400) by lia.
  rewrite Z.div_add, Z.mod_add, Z.div_small, Z.mod_small by lia.
  assert ((if 2 <? (if mp <? 10 then mp + 3 else mp - 9)
           then (if mp <? 10 then mp + 3 else mp - 9) - 3
           else (if mp <? 10 then mp + 3 else mp - 9) + 9) = mp) as ->.
  { destruct (Z.ltb_spec mp 10); [rewrite (proj2 (Z.ltb_lt 2 (mp + 3))) by lia; lia|].
    rewrite (proj2 (Z.ltb_ge 2 (mp - 9))) by lia. lia. }
  subst doy. lia.
Qed.

(** ** [toISOString] *)

Definition year_text (y : Z) : string :=
  if (0 <=? y) && (y <=? 9999) then digits 4 y
  else if y <? 0 then "-" +:+ digits 6 (- y) else "+" +:+ digits 6 y.

Definition toISOString (t : Z) : string :=
  let '(y, m, d) := civil_from_days (t / 86400000) in
  let ms := t mod 86400000 in
  year_text y +:+ "-" +:+ digits 2 m +:+ "-" +:+ digits 2 d +:+ "T"
  +:+ digits 2 (ms / 3600000) +:+ ":" +:+ digits 2 (ms / 60000 mod 60) +:+ ":"
  +:+ digits 2 (ms / 1000 mod 60) +:+ "." +:+ digits 3 (ms mod 1000) +:+ "Z".

(** The instants of the years 0000 to 9999, whose text has the common form. *)
Definition iso_range (t : Z) : bool :=
  let '(y, m, d) := civil_from_days (t / 86400000) in (0 <=? y) && (y <=? 9999).

Lemma civil_bounds days :
  let '(_, m, d) := civil_from_days days in 1 <= m <= 12 /\ 1 <= d <= 31.
Proof.
  unfold civil_from_days.
  pose proof (Z.mod_pos_bound (days + 719468) 146097 ltac:(lia)) as Hdoe.
  destruct (year_of_era_bounds _ Hdoe) as [_ Hdoy].
  set (doy := (days + 719468) mod 146097 - era_start _) in *. clearbody doy. clear Hdoe.
  set (mp := (5 * doy + 2) / 153).
  assert (0 <= mp <= 11) by (subst mp; lia).
  split; [|subst mp; lia]. destruct (Z.ltb_spec mp 10); lia.
Qed.

(** One field of a fixed-width text. *)
Lemma field_inj w m n r r' :
  0 <= m < 10 ^ Z.of_nat w -> 0 <= n < 10 ^ Z.of_nat w ->
  digits w m +:+ r = digits w n +:+ r' -> m = n /\ r = r'.
Proof.
  intros Hm Hn H. apply append_inj in H as [H1 H2]; [|by rewrite !length_digits].
  split; [|done]. eapply digits_inj; eauto.
Qed.

Lemma sep_inj c r r' : String c "" +:+ r = String c "" +:+ r' -> r = r'.
Proof. intros H. by apply append_inj in H as [_ H]. Qed.

(** Distinct instants of the years 0000 to 9999 print differently. *)
Lemma toISOString_inj t t' :
  iso_range t = true -> iso_range t' = true -> toISOString t = toISOString t' -> t = t'.
Proof.
  unfold iso_range, toISOString.
  pose proof (civil_roundtrip (t / 86400000)) as R. pose proof (civil_roundtrip (t' / 86400000)) as R'.
  pose proof (civil_bounds (t / 86400000)) as B. pose proof (civil_bounds (t' / 86400000)) as B'.
  destruct (civil_from_days (t / 86400000)) as [[y m] d].
  destruct (civil_from_days (t' / 86400000)) as [[y' m'] d'].
  intros I I'. unfold year_text. rewrite I, I'. bools.
  change (10 ^ Z.of_nat 2) with 100. intros E.
  apply field_inj in E as [-> E%sep_inj]; [|simpl; lia..].
  apply field_inj in E as [-> E%sep_inj]; [|simpl; lia..].
  apply field_inj in E as [-> E%sep_inj]; [|simpl; lia..].
  apply field_inj in E as [Eh E%sep_inj]; [|simpl; lia..].
  apply field_inj in E as [Em E%sep_inj]; [|simpl; lia..].
  apply field_inj in E as [Es E%sep_inj]; [|simpl; lia..].
  apply field_inj in E as [Ems _]; [|simpl; lia..].
  assert (t / 86400000 = t' / 86400000) by congruence. lia.
Qed.

(** ** Hexadecimal *)

(** [Buffer.toString("hex")] *)
Fixpoint to_hex (s : string) : string :=
  match s with
  | EmptyString => EmptyString
  | String c s' =>
      let n := nat_of_ascii c in
      String (hex_digit (n / 16)) (String (hex_digit (n mod 16)) (to_hex s'))
  end.

Definition hex_value (c : ascii) : option nat :=
  let n := nat_of_ascii c in
  if ((48 <=? n) && (n <=? 57))%nat then Some (n - 48)%nat
  else if ((97 <=? n) && (n <=? 102))%nat then Some (n - 87)%nat
  else if ((65 <=? n) && (n <=? 70))%nat then Some (n - 55)%nat
  else None.

(** [Buffer.from(s, "hex")]: decoding stops at the first pair that is not
    two hexadecimal digits. *)
Fixpoint from_hex (s : string) : string :=
  match s with
  | String a (String b s') =>
      match hex_value a, hex_value b with
      | Some x, Some y => String (ascii_of_nat (16 * x + y)) (from_hex s')
      | _, _ => ""
      end
  | _ => ""
  end.

Lemma hex_byte_roundtrip c :
  hex_value (hex_digit (nat_of_ascii c / 16)) = Some (nat_of_ascii c / 16)%nat /\
  hex_value (hex_digit (nat_of_ascii c mod 16)) = Some (nat_of_ascii c mod 16)%nat /\
  ascii_of_nat (16 * (nat_of_ascii c / 16) + nat_of_ascii c mod 16) = c.
Proof.
  split_and!.
  - destruct c as [[] [] [] [] [] [] [] []]; reflexivity.
  - destruct c as [[] [] [] [] [] [] [] []]; reflexivity.
  - rewrite <- Nat.div_mod_eq. apply ascii_nat_embedding.
Qed.

Lemma from_to_hex s : from_hex (to_hex s) = s.
Proof.
  induction s as [|c s IH]; [done|]. cbn [to_hex from_hex].
  destruct (hex_byte_roundtrip c) as (-> & -> & ->). by rewrite IH.
Qed.

#[export] Instance to_hex_inj : Inj (=) (=) to_hex.
Proof. intros a b H. by rewrite <- (from_to_hex a), <- (from_to_hex b), H. Qed.
