(* ===== verification/Domain.v ===== *)
(** * The domain: [src/src/domain/types.ts], [errors.ts], [policy-ir.ts]

    String-literal unions are inductive types, interfaces are records, a
    [Date] is its time value in milliseconds, an optional field is an
    [option]. *)

From S2P Require Import Prelude Json Text.
Open Scope Z_scope.

Notation UUID := string (only parsing).
Notation Date := Z (only parsing).

Inductive Platform := linux | windows | macos | ios | ipados | container.

Inductive SecurityZone :=
  | ZONE_PROD_DATA | ZONE_PROD_APP | ZONE_STAGING | ZONE_DEV
  | ZONE_ADMIN_MGMT | ZONE_FORENSIC_ISOLATION.

Inductive Severity := INFO | WARN | CRITICAL | EMERGENCY.
Inductive NodeType := CLIENT | SERVER | RELAY | EGRESS.
Inductive PolicyAction := ALLOW | DENY | ISOLATE.
Inductive Protocol := TCP | UDP | ICMP | ANY.

#[export] Instance Platform_eq_dec : EqDecision Platform.
Proof. solve_decision. Defined.
#[export] Instance SecurityZone_eq_dec : EqDecision SecurityZone.
Proof. solve_decision. Defined.
#[export] Instance Severity_eq_dec : EqDecision Severity.
Proof. solve_decision. Defined.
#[export] Instance NodeType_eq_dec : EqDecision NodeType.
Proof. solve_decision. Defined.
#[export] Instance PolicyAction_eq_dec : EqDecision PolicyAction.
Proof. solve_decision. Defined.
#[export] Instance Protocol_eq_dec : EqDecision Protocol.
Proof. solve_decision. Defined.

Record DevicePosture := {
  osCurrent : bool; diskEncrypted : bool; secureBoot : bool;
  firewallEnabled : bool; agentHealthy : bool; bannedProcessFound : bool;
  assessedAt : Date
}.

Record Device := mkDevice {
  d_id : UUID; hostname : string; hardwareId : string; platform : Platform;
  osVersion : string; publicAttestationKey : option string;
  compromised : bool; revoked : bool; posture : DevicePosture;
  createdAt : Date; updatedAt : Date; lastPostureAt : option Date;
  agentVersion : option string; quarantineReason : option string
}.

(** [UNASSIGNED_REGION]: the column default of [mesh_nodes.region]. *)
Definition UNASSIGNED_REGION : string := "unassigned".

Record MeshNode := mkNode {
  n_id : UUID; deviceId : UUID; wireGuardPublicKey : string;
  internalIpv4 : string; internalIpv6 : string; listenPort : Z;
  nodeType : NodeType; zone : SecurityZone; region : option string;
  active : bool; lastHandshake : option Date
}.

(** [attributes] and [sourceIp] of an [IdentityContext] are carried and never
    read by the services; they are left out. *)
Record IdentityContext := { userId : UUID; roles : list string; mfa : bool }.

Record ResourceContext := {
  resource : string; r_zone : SecurityZone; protocol : Protocol; port : option Z
}.

Record NetworkPolicy := {
  p_id : UUID; p_name : string;
  sourceZones : list SecurityZone; destinationZones : list SecurityZone;
  protocols : list Protocol; destinationPorts : list Z;
  p_action : PolicyAction; requiredRoles : list string; requiresJit : bool;
  priority : Z; p_version : Z; p_active : bool
}.

Record AccessDecision := {
  allowed : bool; action : PolicyAction; reason : string;
  policyId : option UUID; decisionId : UUID; expiresAt : Date
}.

Record JitGrant := mkGrant {
  g_id : UUID; g_userId : UUID; targetResource : string;
  targetZone : SecurityZone; justification : string; approvedBy : option UUID;
  grantedAt : Date; g_expiresAt : Date; terminated : bool;
  terminationReason : option string
}.

Record SecurityEvent := {
  e_id : UUID; e_nodeId : option UUID; e_at : Date; severity : Severity;
  engine : string; e_type : string; description : string;
  metadata : list (string * json)
}.

Record AuditRecord := mkAudit {
  sequence : Z; a_at : Date; actor : string; a_action : string; subject : string;
  payload : json; previousHash : string; a_hash : string
}.

(** [src/src/domain/errors.ts] *)
Definition NotFoundError (entity : string) : exn := DomainError (entity +:+ " not found") "NOT_FOUND".
Definition ConflictError (message : string) : exn := DomainError message "CONFLICT".
Definition AuthorizationError (message : string) : exn := DomainError message "FORBIDDEN".
Definition ValidationError (message : string) : exn := DomainError message "INVALID_ARGUMENT".

#[export] Instance DevicePosture_eq_dec : EqDecision DevicePosture.
Proof. solve_decision. Defined.
#[export] Instance Device_eq_dec : EqDecision Device.
Proof. solve_decision. Defined.
#[export] Instance MeshNode_eq_dec : EqDecision MeshNode.
Proof. solve_decision. Defined.
#[export] Instance NetworkPolicy_eq_dec : EqDecision NetworkPolicy.
Proof. solve_decision. Defined.
#[export] Instance JitGrant_eq_dec : EqDecision JitGrant.
Proof. solve_decision. Defined.

(** The literals of the unions, as they stand in JSON and SQL. *)
Definition zone_name (z : SecurityZone) : string :=
  match z with
  | ZONE_PROD_DATA => "ZONE_PROD_DATA" | ZONE_PROD_APP => "ZONE_PROD_APP"
  | ZONE_STAGING => "ZONE_STAGING" | ZONE_DEV => "ZONE_DEV"
  | ZONE_ADMIN_MGMT => "ZONE_ADMIN_MGMT"
  | ZONE_FORENSIC_ISOLATION => "ZONE_FORENSIC_ISOLATION"
  end.
Definition protocol_name (p : Protocol) : string :=
  match p with TCP => "TCP" | UDP => "UDP" | ICMP => "ICMP" | ANY => "ANY" end.
Definition action_name (a : PolicyAction) : string :=
  match a with ALLOW => "ALLOW" | DENY => "DENY" | ISOLATE => "ISOLATE" end.

Definition platform_name (p : Platform) : string :=
  match p with
  | linux => "linux" | windows => "windows" | macos => "macos" | ios => "ios"
  | ipados => "ipados" | container => "container"
  end.
Definition node_type_name (t : NodeType) : string :=
  match t with CLIENT => "CLIENT" | SERVER => "SERVER" | RELAY => "RELAY" | EGRESS => "EGRESS" end.
Definition severity_name (s : Severity) : string :=
  match s with INFO => "INFO" | WARN => "WARN" | CRITICAL => "CRITICAL" | EMERGENCY => "EMERGENCY" end.

(** ** The entities as JSON values: what [JSON.stringify] and a [jsonb] column
    make of them.  A [Date] is its ISO text, an absent field is left out. *)
Definition jdate (t : Date) : json := JStr (toISOString t).
Definition jopt (k : string) (o : option json) : list (string * json) :=
  match o with Some v => [(k, v)] | None => [] end.
Definition jstrs (l : list string) : json := JArr (map JStr l).

Definition posture_json (p : DevicePosture) : json := JObj
  [("osCurrent", JBool p.(osCurrent)); ("diskEncrypted", JBool p.(diskEncrypted));
   ("secureBoot", JBool p.(secureBoot)); ("firewallEnabled", JBool p.(firewallEnabled));
   ("agentHealthy", JBool p.(agentHealthy)); ("bannedProcessFound", JBool p.(bannedProcessFound));
   ("assessedAt", jdate p.(assessedAt))].

Definition device_json (d : Device) : list (string * json) :=
  [("id", JStr d.(d_id)); ("hostname", JStr d.(hostname)); ("hardwareId", JStr d.(hardwareId));
   ("platform", JStr (platform_name d.(platform))); ("osVersion", JStr d.(osVersion));
   ("compromised", JBool d.(compromised)); ("revoked", JBool d.(revoked));
   ("posture", posture_json d.(posture)); ("createdAt", jdate d.(createdAt));
   ("updatedAt", jdate d.(updatedAt))]
  ++ jopt "publicAttestationKey" (JStr <$> d.(publicAttestationKey))
  ++ jopt "lastPostureAt" (jdate <$> d.(lastPostureAt))
  ++ jopt "agentVersion" (JStr <$> d.(agentVersion))
  ++ jopt "quarantineReason" (JStr <$> d.(quarantineReason)).

Definition node_json (n : MeshNode) : list (string * json) :=
  [("id", JStr n.(n_id)); ("deviceId", JStr n.(deviceId));
   ("wireGuardPublicKey", JStr n.(wireGuardPublicKey)); ("internalIpv4", JStr n.(internalIpv4));
   ("internalIpv6", JStr n.(internalIpv6)); ("listenPort", JNum n.(listenPort));
   ("nodeType", JStr (node_type_name n.(nodeType))); ("zone", JStr (zone_name n.(zone)))]
  ++ jopt "region" (JStr <$> n.(region)) ++ [("active", JBool n.(active))]
  ++ jopt "lastHandshake" (jdate <$> n.(lastHandshake)).

Definition policy_json (p : NetworkPolicy) : list (string * json) :=
  [("id", JStr p.(p_id)); ("name", JStr p.(p_name));
   ("sourceZones", jstrs (map zone_name p.(sourceZones)));
   ("destinationZones", jstrs (map zone_name p.(destinationZones)));
   ("protocols", jstrs (map protocol_name p.(protocols)));
   ("destinationPorts", JArr (map JNum p.(destinationPorts)));
   ("action", JStr (action_name p.(p_action))); ("requiredRoles", jstrs p.(requiredRoles));
   ("requiresJit", JBool p.(requiresJit)); ("priority", JNum p.(priority));
   ("version", JNum p.(p_version)); ("active", JBool p.(p_active))].

Definition grant_json (g : JitGrant) : list (string * json) :=
  [("id", JStr g.(g_id)); ("userId", JStr g.(g_userId));
   ("targetResource", JStr g.(targetResource)); ("targetZone", JStr (zone_name g.(targetZone)));
   ("justification", JStr g.(justification))]
  ++ jopt "approvedBy" (JStr <$> g.(approvedBy))
  ++ [("grantedAt", jdate g.(grantedAt)); ("expiresAt", jdate g.(g_expiresAt));
      ("terminated", JBool g.(terminated))]
  ++ jopt "terminationReason" (JStr <$> g.(terminationReason)).

Definition event_json (e : SecurityEvent) : json := JObj (
  [("id", JStr e.(e_id))] ++ jopt "nodeId" (JStr <$> e.(e_nodeId))
  ++ [("at", jdate e.(e_at)); ("severity", JStr (severity_name e.(severity)));
      ("engine", JStr e.(engine)); ("type", JStr e.(e_type));
      ("description", JStr e.(description)); ("metadata", JObj e.(metadata))]).

(** [{...o, k: v}] *)
Definition jset (k : string) (v : json) (o : list (string * json)) : list (string * json) :=
  List.filter (fun kv => negb (String.eqb kv.1 k)) o ++ [(k, v)].

(** [o[k]] for an object. *)
Definition jlookup (k : string) (o : list (string * json)) : option json :=
  snd <$> List.find (fun kv => String.eqb kv.1 k) o.

(** A [jsonb] column keeps the member under each key. *)
Lemma jlookup_jsonb k o : jlookup k (jsonb_members o) = jsonb <$> jlookup k o.
Proof.
  unfold jlookup, jsonb_members. rewrite find_sort_same.
  - induction o as [|kv o IH]; simpl; [done|]. by destruct (String.eqb kv.1 k).
  - intros x y Hx%String.eqb_eq Hy%String.eqb_eq. unfold jsonb_leb. rewrite Hx, Hy, Nat.eqb_refl.
    rewrite (proj2 (Nat.ltb_ge _ _)) by lia. simpl. by destruct (string_leb_total k k).
Qed.

(** Decimal digits, as [Number(s)] reads them. *)
Fixpoint read_digits (acc : Z) (s : string) : option Z :=
  match s with
  | EmptyString => Some acc
  | String c s' =>
      let n := Z.of_nat (nat_of_ascii c) in
      if (48 <=? n) && (n <=? 57) then read_digits (10 * acc + (n - 48)) s' else None
  end.

(** [Number(v)] of a scalar; [None] is [NaN].  Numeric strings are read in
    decimal integer notation. *)
Definition js_number (v : json) : option Z :=
  match v with
  | JNum n => Some n
  | JNull => Some 0
  | JBool b => Some (if b then 1 else 0)
  | JStr s =>
      match trim s with
      | EmptyString => Some 0
      | String c s' =>
          if Ascii.eqb c "-" && truthy s' then Z.opp <$> read_digits 0 s'
          else read_digits 0 (String c s')
      end
  | JArr _ | JObj _ => None
  end.

(** [v.k] *)
Definition get_prop (k : string) (v : json) : res (option json) :=
  match v with
  | JObj l => Ok (jlookup k l)
  | JNull => Throw (JsError ("Cannot read properties of null (reading '" +:+ k +:+ "')"))
  | _ => Ok None
  end.

(** [!!v] *)
Definition js_truthy (v : option json) : bool :=
  match v with
  | None | Some JNull | Some (JBool false) => false
  | Some (JNum n) => negb (n =? 0)
  | Some (JStr s) => truthy s
  | Some _ => true
  end.
