(* ===== verification/Words.v ===== *)
(** * Text cut into words and lines

    [s.split(/\s+/)], the reading of a line into words, and the numerals that
    [Number] reads back.  The lemmas say that a text written from words, one
    space apart, and from lines, one newline each, is cut into the same words
    and lines again. *)

From S2P Require Import Prelude Json Text Domain.
Open Scope Z_scope.

Definition newline : ascii := ascii_of_nat 10.
Definition nl : string := String newline "".

(** [s.split(/\s+/)] *)
Fixpoint split_spaces (s : string) : list string :=
  match s with
  | EmptyString => [""]
  | String c s' =>
      if is_space c then
        match s' with
        | String d _ => if is_space d then split_spaces s' else "" :: split_spaces s'
        | EmptyString => ["" ; ""]
        end
      else match split_spaces s' with
           | w :: ws => String c w :: ws
           | [] => [String c ""]
           end
  end.

(** A word is not empty and has no white space. *)
Definition word (w : string) : bool := truthy w && all_chars (fun c => negb (is_space c)) w.

(** ** Characters of a concatenation *)

Lemma app_nil_r_s s : s +:+ "" = s.
Proof. induction s as [|c s IH]; [done|]. by rewrite app_cons_s, IH. Qed.

Lemma all_chars_app p a b : all_chars p (a +:+ b) = all_chars p a && all_chars p b.
Proof.
  induction a as [|c a IH]; [done|]. rewrite app_cons_s. cbn [all_chars]. rewrite IH.
  by rewrite andb_assoc.
Qed.

Lemma all_chars_impl (p q : ascii -> bool) s :
  (forall c, p c = true -> q c = true) -> all_chars p s = true -> all_chars q s = true.
Proof.
  intros H. induction s as [|c s IH]; [done|]. cbn [all_chars].
  rewrite !andb_true_iff. naive_solver.
Qed.

Lemma all_chars_join p sep ws :
  all_chars p sep = true -> Forall (fun w => all_chars p w = true) ws -> all_chars p (join sep ws) = true.
Proof.
  intros Hsep Hws. induction Hws as [|w ws Hw Hws IH]; [done|].
  destruct ws as [|w' ws]; [done|].
  change (join sep (w :: w' :: ws)) with (w +:+ sep +:+ join sep (w' :: ws)).
  by rewrite !all_chars_app, Hw, Hsep, IH.
Qed.

(** ** Words *)

Lemma split_spaces_word w : all_chars (fun c => negb (is_space c)) w = true -> split_spaces w = [w].
Proof.
  induction w as [|c w IH]; [done|]. cbn [all_chars split_spaces]. intros [Hc Hw]%andb_true_iff.
  apply negb_true_iff in Hc. by rewrite Hc, (IH Hw).
Qed.

Lemma split_spaces_cons w s :
  all_chars (fun c => negb (is_space c)) w = true -> head_not is_space s = true -> s <> "" ->
  split_spaces (w +:+ String " " s) = w :: split_spaces s.
Proof.
  intros Hw Hs Hne. induction w as [|c w IH].
  - rewrite app_nil_s. cbn. destruct s as [|d s]; [done|]. cbn in Hs.
    apply negb_true_iff in Hs. by rewrite Hs.
  - rewrite app_cons_s. cbn [all_chars] in Hw. apply andb_true_iff in Hw as [Hc Hw].
    apply negb_true_iff in Hc. cbn [split_spaces]. by rewrite Hc, IH.
Qed.

Lemma join_words_head ws :
  Forall (fun w => word w = true) ws -> ws <> [] ->
  head_not is_space (join " " ws) = true /\ join " " ws <> "".
Proof.
  intros Hws Hne. destruct Hws as [|w ws Hw _]; [done|]. unfold word in Hw.
  apply andb_true_iff in Hw as [Ht Hc]. destruct w as [|c w]; [done|].
  cbn [all_chars] in Hc. apply andb_true_iff in Hc as [Hc _].
  destruct ws as [|w' ws]; [by split|].
  change (join " " (String c w :: w' :: ws)) with (String c w +:+ " " +:+ join " " (w' :: ws)).
  rewrite app_cons_s. by split.
Qed.

Lemma split_spaces_join ws :
  Forall (fun w => word w = true) ws -> ws <> [] -> split_spaces (join " " ws) = ws.
Proof.
  intros Hws Hne. induction Hws as [|w ws Hw Hws IH]; [done|].
  apply andb_true_iff in Hw as [_ Hw]. destruct ws as [|w' ws]; [by apply split_spaces_word|].
  change (join " " (w :: w' :: ws)) with (w +:+ " " +:+ join " " (w' :: ws)).
  rewrite app_cons_s, app_nil_s. destruct (join_words_head (w' :: ws) Hws) as [Hh Hn]; [done|].
  rewrite split_spaces_cons by done. by rewrite IH.
Qed.

(** ** Trimming *)

Lemma trim_end_space s : trim_end (s +:+ " ") = trim_end s.
Proof. induction s as [|c s IH]; [done|]. rewrite app_cons_s. cbn [trim_end]. by rewrite IH. Qed.

Lemma trim_end_app s t : t <> "" -> trim_end t = t -> trim_end (s +:+ t) = s +:+ t.
Proof.
  intros Hne Ht. induction s as [|c s IH]; [done|]. rewrite app_cons_s. cbn [trim_end]. rewrite IH.
  destruct (s +:+ t) eqn:E; [|done]. destruct s; [rewrite app_nil_s in E; congruence|].
  by rewrite app_cons_s in E.
Qed.

Lemma trim_end_word w : all_chars (fun c => negb (is_space c)) w = true -> trim_end w = w.
Proof.
  induction w as [|c w IH]; [done|]. cbn [all_chars trim_end]. intros [Hc Hw]%andb_true_iff.
  rewrite (IH Hw). destruct w; [|done]. apply negb_true_iff in Hc. by rewrite Hc.
Qed.

Lemma trim_start_head s : head_not is_space s = true -> trim_start s = s.
Proof. destruct s as [|c s]; [done|]. cbn. intros Hc%negb_true_iff. by rewrite Hc. Qed.

Lemma trim_end_join ws : Forall (fun w => word w = true) ws -> trim_end (join " " ws) = join " " ws.
Proof.
  intros Hws. induction Hws as [|w ws Hw Hws IH]; [done|].
  destruct ws as [|w' ws].
  - apply andb_true_iff in Hw as [_ Hw]. by apply trim_end_word.
  - change (join " " (w :: w' :: ws)) with (w +:+ " " +:+ join " " (w' :: ws)).
    destruct (join_words_head (w' :: ws) Hws) as [_ Hn]; [done|].
    rewrite (trim_end_app w); [done| |].
    + by rewrite app_cons_s.
    + by rewrite (trim_end_app " ").
Qed.

(** A line of words, with the trailing space some programs print. *)
Lemma words_of_line ws trailing :
  Forall (fun w => word w = true) ws -> ws <> [] ->
  split_spaces (trim (join " " ws +:+ if trailing : bool then " " else "")) = ws.
Proof.
  intros Hws Hne. destruct (join_words_head ws Hws Hne) as [Hh Hn]. unfold trim.
  rewrite trim_start_head.
  - destruct trailing; [rewrite trim_end_space|rewrite app_nil_r_s]; rewrite trim_end_join by done;
      by apply split_spaces_join.
  - destruct (join " " ws); [done|]. by rewrite app_cons_s.
Qed.

(** ** Lines *)

Lemma split_on_line c a b :
  all_chars (fun d => negb (Ascii.eqb c d)) a = true -> split_on c (a +:+ String c b) = a :: split_on c b.
Proof.
  intros Ha. induction a as [|d a IH].
  - rewrite app_nil_s. cbn [split_on]. rewrite Ascii.eqb_refl.
    destruct (split_on c b) eqn:E; [|done]. destruct b as [|e b]; [done|].
    cbn in E. by destruct (split_on c b), (Ascii.eqb c e).
  - rewrite app_cons_s. cbn [all_chars] in Ha. apply andb_true_iff in Ha as [Hd Ha].
    apply negb_true_iff in Hd. cbn [split_on]. by rewrite (IH Ha), Hd.
Qed.

Lemma split_on_none c a : all_chars (fun d => negb (Ascii.eqb c d)) a = true -> split_on c a = [a].
Proof.
  induction a as [|d a IH]; [done|]. cbn [all_chars split_on]. intros [Hd Ha]%andb_true_iff.
  apply negb_true_iff in Hd. by rewrite (IH Ha), Hd.
Qed.

Lemma split_on_cons c s : exists w ws, split_on c s = w :: ws.
Proof.
  induction s as [|d s (w & ws & E)]; cbn [split_on]; [by eexists _, _|]. rewrite E.
  destruct (Ascii.eqb c d); by eexists _, _.
Qed.

(** What holds of the separator and of the parts holds of the text. *)
Lemma split_on_chars p c s :
  p c = true -> Forall (fun w => all_chars p w = true) (split_on c s) -> all_chars p s = true.
Proof.
  intros Hc. induction s as [|d s IH]; [done|]. cbn [split_on all_chars].
  destruct (split_on_cons c s) as (w & ws & E). rewrite E in *.
  destruct (Ascii.eqb_spec c d) as [<-|_].
  - intros Hall. rewrite Hc. apply IH. by inversion Hall.
  - intros Hall. inversion Hall as [|? ? Hw Hws]; subst. cbn [all_chars] in Hw.
    apply andb_true_iff in Hw as [-> Hw]. apply IH. by constructor.
Qed.

(** Lines, each ended by a newline. *)
Lemma split_on_lines c ls :
  Forall (fun l => all_chars (fun d => negb (Ascii.eqb c d)) l = true) ls ->
  split_on c (foldr (fun l rest => l +:+ String c rest) "" ls) = ls ++ [""].
Proof.
  intros Hls. induction Hls as [|l ls Hl _ IH]; [done|]. cbn [foldr].
  by rewrite split_on_line, IH.
Qed.

(** Lines with a newline between them. *)
Lemma split_on_join c ls :
  Forall (fun l => all_chars (fun d => negb (Ascii.eqb c d)) l = true) ls -> ls <> [] ->
  split_on c (join (String c "") ls) = ls.
Proof.
  intros Hls Hne. induction Hls as [|l ls Hl Hls IH]; [done|].
  destruct ls as [|l' ls]; [by apply split_on_none|].
  change (join (String c "") (l :: l' :: ls)) with (l +:+ String c "" +:+ join (String c "") (l' :: ls)).
  rewrite app_cons_s, app_nil_s. rewrite split_on_line by done. by rewrite IH.
Qed.

Lemma word_no_newline w : all_chars (fun c => negb (is_space c)) w = true ->
  all_chars (fun d => negb (Ascii.eqb newline d)) w = true.
Proof.
  apply all_chars_impl. intros c. destruct (Ascii.eqb_spec newline c) as [<-|]; done.
Qed.

(** ** Numerals *)

Lemma read_digits_digit a n s :
  (n < 10)%N -> read_digits a (String (pretty_N_char n) s) = read_digits (10 * a + Z.of_N n) s.
Proof.
  intros Hn. cbn [read_digits].
  assert (Z.of_nat (nat_of_ascii (pretty_N_char n)) = 48 + Z.of_N n) as ->.
  { assert (Forall (fun k => Z.of_nat (nat_of_ascii (pretty_N_char (N.of_nat k))) = 48 + Z.of_nat k) (seq 0 10))
      as Hd by (by repeat constructor).
    eapply Forall_forall in Hd; [|apply (elem_of_seq 0 10 (N.to_nat n)); lia].
    rewrite N2Nat.id in Hd. rewrite Hd. lia. }
  replace (48 <=? 48 + Z.of_N n) with true by (symmetry; lia).
  replace (48 + Z.of_N n <=? 57) with true by (symmetry; lia).
  f_equal. lia.
Qed.

Lemma read_digits_go x s : read_digits 0 (pretty_N_go x s) = read_digits (Z.of_N x) s.
Proof.
  revert s. induction (N.lt_wf_0 x) as [x _ IH]; intros s.
  destruct (decide (0 < x)%N) as [Hx|Hx]; [|by replace x with 0%N by lia].
  rewrite pretty_N_go_step by done. rewrite IH by (by apply N.div_lt).
  rewrite read_digits_digit by (by apply N.mod_upper_bound). f_equal.
  rewrite (N.div_mod x 10) at 3 by done. lia.
Qed.

Lemma read_digits_pretty (x : N) : read_digits 0 (pretty x) = Some (Z.of_N x).
Proof. unfold pretty, pretty_N. case_decide; [by subst|]. by rewrite read_digits_go. Qed.

Lemma num_char_no_space c : num_char c = true -> is_space c = false.
Proof.
  unfold num_char, is_space. rewrite orb_true_iff, andb_true_iff, !Nat.leb_le, Nat.eqb_eq.
  intros Hc. apply orb_false_iff. rewrite andb_false_iff, !Nat.leb_gt, Nat.eqb_neq. lia.
Qed.

Lemma str_of_Z_word z : word (str_of_Z z) = true.
Proof.
  unfold word. destruct (str_of_Z_cons z) as (c & t & E & _). rewrite E at 1. cbn [truthy].
  apply andb_true_iff. split; [done|]. apply (all_chars_impl num_char); [|apply str_of_Z_num].
  intros d Hd. by rewrite (num_char_no_space d Hd).
Qed.

(** [Number(String(n))] is [n]. *)
Lemma js_number_numeral z : js_number (JStr (str_of_Z z)) = Some z.
Proof.
  unfold js_number. pose proof (str_of_Z_word z) as [Hn Hw]%andb_true_iff.
  assert (trim (str_of_Z z) = str_of_Z z) as ->.
  { unfold trim. destruct (str_of_Z z) as [|c s]; [done|]. cbn [all_chars] in Hw.
    pose proof Hw as [Hc _]%andb_true_iff. apply negb_true_iff in Hc. cbn [trim_start]. rewrite Hc.
    by apply trim_end_word. }
  destruct z as [|q|q]; [done| |].
  - assert (read_digits 0 (str_of_Z (Zpos q)) = Some (Zpos q)) as E by apply (read_digits_pretty (Npos q)).
    destruct (str_of_Z_cons (Zpos q)) as (c & t & Ec & _). rewrite Ec in *.
    destruct (Ascii.eqb_spec c "-") as [->|]; [|done]. done.
  - change (str_of_Z (Zneg q)) with ("-" +:+ pretty (Npos q)).
    rewrite app_cons_s, app_nil_s. cbn [Ascii.eqb Bool.eqb andb].
    pose proof (read_digits_pretty (Npos q)) as E.
    destruct (truthy (pretty (Npos q))) eqn:Et; [by rewrite E|].
    apply negb_false_iff, String.eqb_eq in Et. rewrite Et in E. done.
Qed.

(** ** Prefixes *)

Lemma substring_all s n : (String.length s <= n)%nat -> String.substring 0 n s = s.
Proof. revert n; induction s as [|c s IH]; intros [|n] H; simpl in *; [done..|lia|]. by rewrite IH by lia. Qed.

Lemma substring_app p s n :
  (String.length s <= n)%nat -> String.substring (String.length p) n (p +:+ s) = s.
Proof. intros H. induction p as [|c p IH]; simpl; [by apply substring_all|done]. Qed.

Lemma startsWith_split p s : startsWith p s = true -> exists t, s = p +:+ t.
Proof.
  unfold startsWith. revert s. induction p as [|c p IH]; intros s; [by exists s|]. destruct s as [|d s]; [done|].
  cbn [String.prefix]. destruct (ascii_dec c d) as [->|]; [|intros H; discriminate H]. intros H. destruct (IH s H) as [t ->]. by exists t.
Qed.

Lemma startsWith_app p s : startsWith p (p +:+ s) = true.
Proof.
  unfold startsWith. induction p as [|c p IH]; simpl; [by destruct s|]. by destruct (ascii_dec c c).
Qed.
