(* ===== verification/Database.v ===== *)
(** * The Postgres tables the services share

    One record per row type of [src/db/*.sql], one field of [Db] per table.
    A keyed table is a finite map from its primary key; a table read with an
    [ORDER BY] or appended to is the list of its rows in insertion order.
    Statements are executed one at a time; the constraints a statement can
    violate (PRIMARY KEY, UNIQUE, REFERENCES) are written out in the
    operations as a [PgError] with the SQLSTATE. *)

From S2P Require Import Prelude Json Text Domain.
Open Scope Z_scope.

Record OutboxRow := {
  o_topic : string; o_payload : json; o_published : bool;
  o_attempts : Z; o_error : option string
}.

(** [controller_commands] *)
Record CommandRow := mkCommand {
  c_id : string; c_node : string; c_type : string; c_payload : json;
  c_priority : Z; c_issued : Date; c_not_before : Date; c_expires : Date;
  c_acknowledged : option Date; c_result : option json
}.

(** [command_acknowledgements] *)
Record AckRow := mkAck {
  k_command : string; k_node : string; k_type : string;
  k_issued : Date; k_acknowledged : Date; k_status : string; k_details : json
}.

Inductive CommitStatus := STAGED | COMMITTED | ROLLED_BACK_COMMIT.
#[export] Instance CommitStatus_eq_dec : EqDecision CommitStatus.
Proof. solve_decision. Defined.

(** [policy_commits] *)
Record CommitRow := mkCommit {
  pc_policies : list NetworkPolicy; pc_status : CommitStatus;
  pc_initiated_by : string; pc_finalized : option Date
}.

(** [NodeRolloutStatus] of [src/src/ports/infrastructure.ts] *)
Inductive NodeRolloutStatus := PENDING | SUCCEEDED | FAILED | TIMED_OUT | ROLLED_BACK.
#[export] Instance NodeRolloutStatus_eq_dec : EqDecision NodeRolloutStatus.
Proof. solve_decision. Defined.

(** [policy_rollout_nodes] *)
Record RolloutRow := mkRollout {
  ro_commit : string; ro_node : string; ro_status : NodeRolloutStatus;
  ro_acknowledged : option Date; ro_details : json
}.

(** [Route] of [src/src/agent/reconciler.ts] *)
Record Route := mkRoute {
  destination : string; gateway : option string; interfaceName : string; metric : Z
}.
#[export] Instance Route_eq_dec : EqDecision Route.
Proof. solve_decision. Defined.

(** [node_desired_state] *)
Record DesiredStateRow := mkDesired {
  ds_revision : Z; ds_routes : list Route; ds_dns : list string;
  ds_kill_switch : bool; ds_integrity : list (string * string);
  ds_updated : Date; ds_updated_by : option string
}.

(** [key_rotations] *)
Record KeyRotationRow := mkRotation {
  kr_node : string; kr_epoch : Z; kr_key : string; kr_at : Date
}.

(** [certificates] *)
Record CertificateRow := mkCertificate {
  ce_id : string; ce_node : string; ce_issuer : string; ce_serial : string;
  ce_subject : string; ce_issued : Date; ce_expires : Date; ce_revoked : bool;
  ce_reason : option string; ce_revoked_at : option Date
}.

(** [incidents] *)
Record IncidentRow := mkIncident {
  in_id : string; in_title : string; in_severity : Severity; in_open : bool;
  in_node : option string; in_opened : Date; in_closed : option Date; in_metadata : list (string * json)
}.

Record Db := mkDb {
  pg_now : Date;
  json_in : string -> option json;
  uuid_next : Z;
  devices : gmap string Device;
  mesh_nodes : gmap string MeshNode;
  network_policies : gmap string NetworkPolicy;
  jit_grants : gmap string JitGrant;
  event_months : gset Z;
  security_events : list SecurityEvent;
  audit_chain : list AuditRecord;
  audit_identity : Z;
  event_outbox : list OutboxRow;
  controller_commands : list CommandRow;
  command_acknowledgements : list AckRow;
  policy_commits : gmap string CommitRow;
  policy_rollout_nodes : list RolloutRow;
  node_desired_state : gmap string DesiredStateRow;
  key_rotations : list KeyRotationRow;
  certificates : list CertificateRow;
  incidents : list IncidentRow
}.

(** [pg_now] is the server's [now()] and [json_in] how it reads a text as JSON;
    [uuid_next] stands behind the [gen_random_uuid()] defaults; [audit_identity] is
    the next value of the IDENTITY column [audit_chain.sequence]; [event_months] are
    the months [security_events] has a partition for. *)
Definition set_pg_now (v : Date) (db : Db) : Db :=
  mkDb v db.(json_in) db.(uuid_next) db.(devices) db.(mesh_nodes) db.(network_policies) db.(jit_grants) db.(event_months) db.(security_events) db.(audit_chain) db.(audit_identity) db.(event_outbox) db.(controller_commands) db.(command_acknowledgements) db.(policy_commits) db.(policy_rollout_nodes) db.(node_desired_state) db.(key_rotations) db.(certificates) db.(incidents).
Definition set_uuid_next (v : Z) (db : Db) : Db :=
  mkDb db.(pg_now) db.(json_in) v db.(devices) db.(mesh_nodes) db.(network_policies) db.(jit_grants) db.(event_months) db.(security_events) db.(audit_chain) db.(audit_identity) db.(event_outbox) db.(controller_commands) db.(command_acknowledgements) db.(policy_commits) db.(policy_rollout_nodes) db.(node_desired_state) db.(key_rotations) db.(certificates) db.(incidents).
Definition set_devices (v : gmap string Device) (db : Db) : Db :=
  mkDb db.(pg_now) db.(json_in) db.(uuid_next) v db.(mesh_nodes) db.(network_policies) db.(jit_grants) db.(event_months) db.(security_events) db.(audit_chain) db.(audit_identity) db.(event_outbox) db.(controller_commands) db.(command_acknowledgements) db.(policy_commits) db.(policy_rollout_nodes) db.(node_desired_state) db.(key_rotations) db.(certificates) db.(incidents).
Definition set_mesh_nodes (v : gmap string MeshNode) (db : Db) : Db :=
  mkDb db.(pg_now) db.(json_in) db.(uuid_next) db.(devices) v db.(network_policies) db.(jit_grants) db.(event_months) db.(security_events) db.(audit_chain) db.(audit_identity) db.(event_outbox) db.(controller_commands) db.(command_acknowledgements) db.(policy_commits) db.(policy_rollout_nodes) db.(node_desired_state) db.(key_rotations) db.(certificates) db.(incidents).
Definition set_network_policies (v : gmap string NetworkPolicy) (db : Db) : Db :=
  mkDb db.(pg_now) db.(json_in) db.(uuid_next) db.(devices) db.(mesh_nodes) v db.(jit_grants) db.(event_months) db.(security_events) db.(audit_chain) db.(audit_identity) db.(event_outbox) db.(controller_commands) db.(command_acknowledgements) db.(policy_commits) db.(policy_rollout_nodes) db.(node_desired_state) db.(key_rotations) db.(certificates) db.(incidents).
Definition set_jit_grants (v : gmap string JitGrant) (db : Db) : Db :=
  mkDb db.(pg_now) db.(json_in) db.(uuid_next) db.(devices) db.(mesh_nodes) db.(network_policies) v db.(event_months) db.(security_events) db.(audit_chain) db.(audit_identity) db.(event_outbox) db.(controller_commands) db.(command_acknowledgements) db.(policy_commits) db.(policy_rollout_nodes) db.(node_desired_state) db.(key_rotations) db.(certificates) db.(incidents).
Definition set_event_months (v : gset Z) (db : Db) : Db :=
  mkDb db.(pg_now) db.(json_in) db.(uuid_next) db.(devices) db.(mesh_nodes) db.(network_policies) db.(jit_grants) v db.(security_events) db.(audit_chain) db.(audit_identity) db.(event_outbox) db.(controller_commands) db.(command_acknowledgements) db.(policy_commits) db.(policy_rollout_nodes) db.(node_desired_state) db.(key_rotations) db.(certificates) db.(incidents).
Definition set_security_events (v : list SecurityEvent) (db : Db) : Db :=
  mkDb db.(pg_now) db.(json_in) db.(uuid_next) db.(devices) db.(mesh_nodes) db.(network_policies) db.(jit_grants) db.(event_months) v db.(audit_chain) db.(audit_identity) db.(event_outbox) db.(controller_commands) db.(command_acknowledgements) db.(policy_commits) db.(policy_rollout_nodes) db.(node_desired_state) db.(key_rotations) db.(certificates) db.(incidents).
Definition set_audit_chain (v : list AuditRecord) (db : Db) : Db :=
  mkDb db.(pg_now) db.(json_in) db.(uuid_next) db.(devices) db.(mesh_nodes) db.(network_policies) db.(jit_grants) db.(event_months) db.(security_events) v db.(audit_identity) db.(event_outbox) db.(controller_commands) db.(command_acknowledgements) db.(policy_commits) db.(policy_rollout_nodes) db.(node_desired_state) db.(key_rotations) db.(certificates) db.(incidents).
Definition set_audit_identity (v : Z) (db : Db) : Db :=
  mkDb db.(pg_now) db.(json_in) db.(uuid_next) db.(devices) db.(mesh_nodes) db.(network_policies) db.(jit_grants) db.(event_months) db.(security_events) db.(audit_chain) v db.(event_outbox) db.(controller_commands) db.(command_acknowledgements) db.(policy_commits) db.(policy_rollout_nodes) db.(node_desired_state) db.(key_rotations) db.(certificates) db.(incidents).
Definition set_event_outbox (v : list OutboxRow) (db : Db) : Db :=
  mkDb db.(pg_now) db.(json_in) db.(uuid_next) db.(devices) db.(mesh_nodes) db.(network_policies) db.(jit_grants) db.(event_months) db.(security_events) db.(audit_chain) db.(audit_identity) v db.(controller_commands) db.(command_acknowledgements) db.(policy_commits) db.(policy_rollout_nodes) db.(node_desired_state) db.(key_rotations) db.(certificates) db.(incidents).
Definition set_controller_commands (v : list CommandRow) (db : Db) : Db :=
  mkDb db.(pg_now) db.(json_in) db.(uuid_next) db.(devices) db.(mesh_nodes) db.(network_policies) db.(jit_grants) db.(event_months) db.(security_events) db.(audit_chain) db.(audit_identity) db.(event_outbox) v db.(command_acknowledgements) db.(policy_commits) db.(policy_rollout_nodes) db.(node_desired_state) db.(key_rotations) db.(certificates) db.(incidents).
Definition set_command_acknowledgements (v : list AckRow) (db : Db) : Db :=
  mkDb db.(pg_now) db.(json_in) db.(uuid_next) db.(devices) db.(mesh_nodes) db.(network_policies) db.(jit_grants) db.(event_months) db.(security_events) db.(audit_chain) db.(audit_identity) db.(event_outbox) db.(controller_commands) v db.(policy_commits) db.(policy_rollout_nodes) db.(node_desired_state) db.(key_rotations) db.(certificates) db.(incidents).
Definition set_policy_commits (v : gmap string CommitRow) (db : Db) : Db :=
  mkDb db.(pg_now) db.(json_in) db.(uuid_next) db.(devices) db.(mesh_nodes) db.(network_policies) db.(jit_grants) db.(event_months) db.(security_events) db.(audit_chain) db.(audit_identity) db.(event_outbox) db.(controller_commands) db.(command_acknowledgements) v db.(policy_rollout_nodes) db.(node_desired_state) db.(key_rotations) db.(certificates) db.(incidents).
Definition set_policy_rollout_nodes (v : list RolloutRow) (db : Db) : Db :=
  mkDb db.(pg_now) db.(json_in) db.(uuid_next) db.(devices) db.(mesh_nodes) db.(network_policies) db.(jit_grants) db.(event_months) db.(security_events) db.(audit_chain) db.(audit_identity) db.(event_outbox) db.(controller_commands) db.(command_acknowledgements) db.(policy_commits) v db.(node_desired_state) db.(key_rotations) db.(certificates) db.(incidents).
Definition set_node_desired_state (v : gmap string DesiredStateRow) (db : Db) : Db :=
  mkDb db.(pg_now) db.(json_in) db.(uuid_next) db.(devices) db.(mesh_nodes) db.(network_policies) db.(jit_grants) db.(event_months) db.(security_events) db.(audit_chain) db.(audit_identity) db.(event_outbox) db.(controller_commands) db.(command_acknowledgements) db.(policy_commits) db.(policy_rollout_nodes) v db.(key_rotations) db.(certificates) db.(incidents).
Definition set_key_rotations (v : list KeyRotationRow) (db : Db) : Db :=
  mkDb db.(pg_now) db.(json_in) db.(uuid_next) db.(devices) db.(mesh_nodes) db.(network_policies) db.(jit_grants) db.(event_months) db.(security_events) db.(audit_chain) db.(audit_identity) db.(event_outbox) db.(controller_commands) db.(command_acknowledgements) db.(policy_commits) db.(policy_rollout_nodes) db.(node_desired_state) v db.(certificates) db.(incidents).
Definition set_certificates (v : list CertificateRow) (db : Db) : Db :=
  mkDb db.(pg_now) db.(json_in) db.(uuid_next) db.(devices) db.(mesh_nodes) db.(network_policies) db.(jit_grants) db.(event_months) db.(security_events) db.(audit_chain) db.(audit_identity) db.(event_outbox) db.(controller_commands) db.(command_acknowledgements) db.(policy_commits) db.(policy_rollout_nodes) db.(node_desired_state) db.(key_rotations) v db.(incidents).
Definition set_incidents (v : list IncidentRow) (db : Db) : Db :=
  mkDb db.(pg_now) db.(json_in) db.(uuid_next) db.(devices) db.(mesh_nodes) db.(network_policies) db.(jit_grants) db.(event_months) db.(security_events) db.(audit_chain) db.(audit_identity) db.(event_outbox) db.(controller_commands) db.(command_acknowledgements) db.(policy_commits) db.(policy_rollout_nodes) db.(node_desired_state) db.(key_rotations) db.(certificates) v.

(** A reader of JSON texts for evaluation. *)
Definition sample_json_in (s : string) : option json := if String.eqb s "{}" then Some (JObj []) else None.

(** The database the migrations leave: the partitions of this month and the next. *)
Definition empty_db (now : Date) : Db :=
  mkDb now sample_json_in 1 ∅ ∅ ∅ ∅ {[month_of now; month_of now + 1]} [] [] 1 [] [] [] ∅ [] ∅ [] [] [].

(** The rows of a keyed table. *)
Definition rows {A} (m : gmap string A) : list A := (map_to_list m).*2.

Lemma elem_of_rows {A} (m : gmap string A) x :
  x ∈ rows m <-> exists k, m !! k = Some x.
Proof.
  unfold rows. rewrite list_elem_of_fmap. split.
  - intros ([k y] & -> & H). exists k. by apply elem_of_map_to_list.
  - intros (k & H). exists (k, x). split; [done|]. by apply elem_of_map_to_list.
Qed.

(** [gen_random_uuid()] *)
Definition fresh_uuid : St Db string := fun db =>
  (set_uuid_next (db.(uuid_next) + 1) db, Ok (str_of_Z db.(uuid_next))).
