(* ===== verification/Repositories.v ===== *)
(** * [PgRepositories] and [TransactionalOutbox]

    [src/src/infrastructure/postgres/repositories.ts] and [outbox.ts]: the
    production implementation of the repository ports of
    [src/src/ports/repositories.ts] and of [EventBus].  Identifiers are values
    of uuid columns; the columns an [ON CONFLICT ... DO UPDATE] leaves alone
    keep their stored value. *)

From S2P Require Import Prelude Json Text Domain Database.
Open Scope Z_scope.

(** SQLSTATE 23505 and 23503. *)
Definition unique_violation : exn := PgError "23505".
Definition foreign_key_violation : exn := PgError "23503".

Definition when_truthy (o : option string) : option string :=
  if truthy_opt o then o else None.

(** [device(x)], [node(x)]: what a row reads back as.  Optional text columns
    read back as absent when empty; [region] always has a value. *)
Definition device (x : Device) : Device :=
  mkDevice x.(d_id) x.(hostname) x.(hardwareId) x.(platform) x.(osVersion)
    (when_truthy x.(publicAttestationKey)) x.(compromised) x.(revoked) x.(posture)
    x.(createdAt) x.(updatedAt) x.(lastPostureAt)
    (when_truthy x.(agentVersion)) (when_truthy x.(quarantineReason)).

Definition node (x : MeshNode) : MeshNode :=
  mkNode x.(n_id) x.(deviceId) x.(wireGuardPublicKey) x.(internalIpv4) x.(internalIpv6)
    x.(listenPort) x.(nodeType) x.(zone)
    (Some (default UNASSIGNED_REGION x.(region))) x.(active) x.(lastHandshake).

Definition findByHardwareId (hw : string) (db : Db) : option Device :=
  device <$> List.find (fun d => String.eqb d.(hardwareId) hw) (rows db.(devices)).

Definition findByPublicKey (key : string) (db : Db) : option MeshNode :=
  node <$> List.find (fun n => String.eqb n.(wireGuardPublicKey) key) (rows db.(mesh_nodes)).

(** [get(id)] looks in four tables and returns what it finds first. *)
Inductive Entity :=
  | EDevice (d : Device) | ENode (n : MeshNode)
  | EPolicy (p : NetworkPolicy) | EGrant (g : JitGrant).

Definition repo_get (id : string) (db : Db) : option Entity :=
  match db.(devices) !! id with
  | Some d => Some (EDevice (device d))
  | None =>
  match db.(mesh_nodes) !! id with
  | Some n => Some (ENode (node n))
  | None =>
  match db.(network_policies) !! id with
  | Some p => Some (EPolicy p)
  | None => EGrant <$> db.(jit_grants) !! id
  end end end.

(** The callers' view of [get]: the entity they ask for.  The four tables draw
    their keys from one uuid space, so another kind of entity is found only
    for an id of that kind; where a caller goes on with whatever [get] returned,
    its model uses [repo_get]. *)
Definition get_device (id : string) (db : Db) : option Device :=
  match repo_get id db with Some (EDevice d) => Some d | _ => None end.
Definition get_node (id : string) (db : Db) : option MeshNode :=
  match repo_get id db with Some (ENode n) => Some n | _ => None end.
Definition get_grant (id : string) (db : Db) : option JitGrant :=
  match repo_get id db with Some (EGrant g) => Some g | _ => None end.

(** Another row already has this value in a UNIQUE column. *)
Definition taken {A} (f : A -> string) (v self : string) (m : gmap string A) : bool :=
  existsb (fun kv => negb (String.eqb kv.1 self) && String.eqb (f kv.2) v) (map_to_list m).

Definition saveDevice (d : Device) : St Db unit := fun db =>
  match db.(devices) !! d.(d_id) with
  | Some old =>
      (set_devices (<[d.(d_id) := mkDevice old.(d_id) d.(hostname) old.(hardwareId)
         old.(platform) d.(osVersion) old.(publicAttestationKey) d.(compromised)
         d.(revoked) d.(posture) old.(createdAt) db.(pg_now) d.(lastPostureAt)
         d.(agentVersion) d.(quarantineReason)]> db.(devices)) db, Ok tt)
  | None =>
      if taken hardwareId d.(hardwareId) d.(d_id) db.(devices)
      then (db, Throw unique_violation)
      else (set_devices (<[d.(d_id) := d]> db.(devices)) db, Ok tt)
  end.

Definition saveNode (n : MeshNode) : St Db unit := fun db =>
  if taken wireGuardPublicKey n.(wireGuardPublicKey) n.(n_id) db.(mesh_nodes)
  then (db, Throw unique_violation)
  else match db.(mesh_nodes) !! n.(n_id) with
  | Some old =>
      (set_mesh_nodes (<[n.(n_id) := mkNode old.(n_id) old.(deviceId)
         n.(wireGuardPublicKey) old.(internalIpv4) old.(internalIpv6) old.(listenPort)
         old.(nodeType) n.(zone)
         (match n.(region) with Some r => Some r | None => old.(region) end)
         n.(active) n.(lastHandshake)]> db.(mesh_nodes)) db, Ok tt)
  | None =>
      if taken internalIpv4 n.(internalIpv4) n.(n_id) db.(mesh_nodes)
         || taken internalIpv6 n.(internalIpv6) n.(n_id) db.(mesh_nodes)
      then (db, Throw unique_violation)
      else if bool_decide (is_Some (db.(devices) !! n.(deviceId)))
      then (set_mesh_nodes (<[n.(n_id) := n]> db.(mesh_nodes)) db, Ok tt)
      else (db, Throw foreign_key_violation)
  end.

Definition savePolicy (p : NetworkPolicy) : St Db unit := fun db =>
  if taken p_name p.(p_name) p.(p_id) db.(network_policies)
  then (db, Throw unique_violation)
  else (set_network_policies (<[p.(p_id) := p]> db.(network_policies)) db, Ok tt).

Definition saveGrant (g : JitGrant) : St Db unit := fun db =>
  let row := match db.(jit_grants) !! g.(g_id) with
    | Some old => mkGrant old.(g_id) old.(g_userId) old.(targetResource) old.(targetZone)
        old.(justification) g.(approvedBy) old.(grantedAt) old.(g_expiresAt)
        g.(terminated) g.(terminationReason)
    | None => g
    end in
  (set_jit_grants (<[g.(g_id) := row]> db.(jit_grants)) db, Ok tt).

(** [save(value)] goes by the fields the value has. *)
Definition save (v : Entity) : St Db unit :=
  match v with
  | EDevice d => saveDevice d
  | ENode n => saveNode n
  | EPolicy p => savePolicy p
  | EGrant g => saveGrant g
  end.

Definition entity_json (v : Entity) : list (string * json) :=
  match v with
  | EDevice d => device_json d
  | ENode n => node_json n
  | EPolicy p => policy_json p
  | EGrant g => grant_json g
  end.

(** [list()]: the active nodes by id. *)
Definition list_nodes (db : Db) : list MeshNode :=
  map node (sort_by (fun a b => String.leb a.(n_id) b.(n_id))
    (List.filter active (rows db.(mesh_nodes)))).

(** [listAll()]: every device by id. *)
Definition listAll (db : Db) : list Device :=
  map device (sort_by (fun a b => String.leb a.(d_id) b.(d_id)) (rows db.(devices))).

(** [listActive(now)]: the grants that are neither terminated nor expired. *)
Definition listActive_grants (now : Date) (db : Db) : list JitGrant :=
  sort_by (fun a b => a.(g_expiresAt) <=? b.(g_expiresAt))
    (List.filter (fun g => negb g.(terminated) && (now <? g.(g_expiresAt))) (rows db.(jit_grants))).

(** [listActive()]: [ORDER BY priority DESC, policy_id]. *)
Definition policy_order (a b : NetworkPolicy) : bool :=
  (b.(priority) <? a.(priority))
  || ((a.(priority) =? b.(priority)) && String.leb a.(p_id) b.(p_id)).
Definition listActive_policies (db : Db) : list NetworkPolicy :=
  sort_by policy_order (List.filter p_active (rows db.(network_policies))).

(** [append] of an event: the row goes to the partition of its month, and without
    one the insert fails; the primary key is the id and the time. *)
Definition stored_event (e : SecurityEvent) : SecurityEvent :=
  {| e_id := e.(e_id); e_nodeId := e.(e_nodeId); e_at := e.(e_at); severity := e.(severity);
     engine := e.(engine); e_type := e.(e_type); description := e.(description);
     metadata := jsonb_members e.(metadata) |}.

Definition event_refused (e : SecurityEvent) (db : Db) : option exn :=
  if negb (bool_decide (month_of e.(e_at) ∈ db.(event_months))) then Some (PgError "23514")
  else if existsb (fun x => String.eqb x.(e_id) e.(e_id) && (x.(e_at) =? e.(e_at))) db.(security_events)
  then Some unique_violation else None.

Definition append_event (e : SecurityEvent) : St Db unit := fun db =>
  match event_refused e db with
  | Some err => (db, Throw err)
  | None => (set_security_events (db.(security_events) ++ [stored_event e]) db, Ok tt)
  end.

(** The row of an audit record: the IDENTITY column chooses the [sequence], and
    the payload is a [jsonb] column. *)
Definition stored_audit (sequence : Z) (r : AuditRecord) : AuditRecord :=
  mkAudit sequence r.(a_at) r.(actor) r.(a_action) r.(subject) (jsonb r.(payload)) r.(previousHash) r.(a_hash).

(** [append] of an audit record.  The identity value is consumed even when the
    UNIQUE [event_hash] refuses the row. *)
Definition append_audit (r : AuditRecord) : St Db unit := fun db =>
  let db' := set_audit_identity (db.(audit_identity) + 1) db in
  if existsb (fun x => String.eqb x.(a_hash) r.(a_hash)) db.(audit_chain)
  then (db', Throw unique_violation)
  else (set_audit_chain (db.(audit_chain) ++ [stored_audit db.(audit_identity) r]) db', Ok tt).

(** [recent(limit)], newest first, [1 <= limit <= 500]. *)
Definition recent (limit : Z) (db : Db) : list SecurityEvent :=
  take (Z.to_nat (Z.max 1 (Z.min limit 500)))
    (sort_by (fun a b => b.(e_at) <=? a.(e_at)) db.(security_events)).

(** [last()] and [chain()] *)
Definition audit_last (db : Db) : option AuditRecord := last db.(audit_chain).
Definition chain (db : Db) : list AuditRecord := db.(audit_chain).

(** [TransactionalOutbox.publish] *)
Definition publish (topic : string) (event : json) : St Db unit :=
  modify (fun db => set_event_outbox (db.(event_outbox) ++
    [{| o_topic := topic; o_payload := event; o_published := false;
        o_attempts := 0; o_error := None |}]) db).

(** ** What the queries return *)

Lemma policy_order_total a b : policy_order a b = true \/ policy_order b a = true.
Proof.
  unfold policy_order. rewrite !orb_true_iff, !andb_true_iff, !Z.ltb_lt, !Z.eqb_eq.
  destruct (Z.lt_total a.(priority) b.(priority)) as [?|[?|?]]; [auto| |auto].
  destruct (string_leb_total a.(p_id) b.(p_id)); auto.
Qed.

Lemma policy_order_trans a b c :
  policy_order a b = true -> policy_order b c = true -> policy_order a c = true.
Proof.
  unfold policy_order. rewrite !orb_true_iff, !andb_true_iff, !Z.ltb_lt, !Z.eqb_eq.
  intros [?|[? H1]] [?|[? H2]]; [left; lia..|].
  right. split; [lia|]. eauto using string_leb_trans.
Qed.

Lemma elem_of_listActive_policies p db :
  p ∈ listActive_policies db <-> p ∈ rows db.(network_policies) /\ p.(p_active) = true.
Proof. unfold listActive_policies. by rewrite elem_of_sort_by, elem_of_List_filter. Qed.

Lemma elem_of_listActive_grants now g db :
  g ∈ listActive_grants now db <->
  g ∈ rows db.(jit_grants) /\ g.(terminated) = false /\ now < g.(g_expiresAt).
Proof.
  unfold listActive_grants.
  by rewrite elem_of_sort_by, elem_of_List_filter, andb_true_iff, negb_true_iff, Z.ltb_lt.
Qed.

Lemma elem_of_list_nodes n db :
  n ∈ list_nodes db <-> exists m, m ∈ rows db.(mesh_nodes) /\ m.(active) = true /\ n = node m.
Proof.
  unfold list_nodes. rewrite elem_of_List_map. setoid_rewrite elem_of_sort_by.
  setoid_rewrite elem_of_List_filter. naive_solver.
Qed.

(** ** The constraints of the schema

    Primary keys are the ids, UNIQUE columns do not repeat, every node belongs
    to a device.  Every [save] keeps them, whatever value it is given. *)
Definition unique_column {A} (f : A -> string) (m : gmap string A) : Prop :=
  forall k k' x x', m !! k = Some x -> m !! k' = Some x' -> f x = f x' -> k = k'.

Definition keyed {A} (f : A -> string) (m : gmap string A) : Prop :=
  forall k x, m !! k = Some x -> f x = k.

Record db_ok (db : Db) : Prop := {
  devices_keyed : keyed d_id db.(devices);
  nodes_keyed : keyed n_id db.(mesh_nodes);
  policies_keyed : keyed p_id db.(network_policies);
  grants_keyed : keyed g_id db.(jit_grants);
  hardware_unique : unique_column hardwareId db.(devices);
  public_key_unique : unique_column wireGuardPublicKey db.(mesh_nodes);
  ipv4_unique : unique_column internalIpv4 db.(mesh_nodes);
  ipv6_unique : unique_column internalIpv6 db.(mesh_nodes);
  policy_name_unique : unique_column p_name db.(network_policies);
  node_device : forall k n, db.(mesh_nodes) !! k = Some n -> is_Some (db.(devices) !! n.(deviceId))
}.

Lemma taken_false {A} (f : A -> string) v self (m : gmap string A) :
  taken f v self m = false <-> forall k x, m !! k = Some x -> f x = v -> k = self.
Proof.
  unfold taken. rewrite existsb_elem_false. split.
  - intros H k x Hk Hv. specialize (H (k, x) ltac:(by apply elem_of_map_to_list)). simpl in H.
    apply andb_false_iff in H as [H|H]; bools; [done|]. congruence.
  - intros H [k x] Hk%elem_of_map_to_list. simpl.
    destruct (String.eqb_spec (f x) v); [|by rewrite andb_false_r].
    rewrite (H k x) by done. by rewrite String.eqb_refl.
Qed.

Lemma keyed_insert {A} (f : A -> string) k x (m : gmap string A) :
  keyed f m -> f x = k -> keyed f (<[k := x]> m).
Proof. intros H Hx k' y [[-> ->]|[? ?]]%lookup_insert_Some; auto. Qed.

Lemma keyed_update {A} (f : A -> string) k x x' (m : gmap string A) :
  keyed f m -> m !! k = Some x -> f x' = f x -> keyed f (<[k := x']> m).
Proof. intros H Hk Hf. apply keyed_insert; [done|]. rewrite Hf. by apply H. Qed.

(** A row whose value of the column no other row has can be written. *)
Lemma unique_insert {A} (f : A -> string) k x (m : gmap string A) :
  unique_column f m -> (forall k' y, m !! k' = Some y -> f y = f x -> k' = k) ->
  unique_column f (<[k := x]> m).
Proof.
  intros H Hx k1 k2 y1 y2 [[<- <-]|[? H1]]%lookup_insert_Some [[<- <-]|[? H2]]%lookup_insert_Some E.
  - done.
  - symmetry. by apply (Hx k2 y2).
  - by apply (Hx k1 y1).
  - by apply (H k1 k2 y1 y2).
Qed.

(** Rewriting a row without changing the column. *)
Lemma unique_update {A} (f : A -> string) k x x' (m : gmap string A) :
  unique_column f m -> m !! k = Some x -> f x' = f x -> unique_column f (<[k := x']> m).
Proof.
  intros H Hk Hf. apply unique_insert; [done|]. intros k' y Hy E.
  apply (H k' k y x); congruence.
Qed.

#[export] Hint Resolve keyed_insert keyed_update unique_update : ts.

Lemma saveDevice_ok d db : db_ok db -> db_ok (saveDevice d db).1.
Proof.
  intros []. unfold saveDevice. destruct (db.(devices) !! d.(d_id)) as [old|] eqn:E.
  - constructor; simpl; eauto with ts.
    intros k n Hn. rewrite lookup_insert_is_Some'. eauto.
  - destruct (taken _ _ _ _) eqn:T; [by constructor|]. rewrite taken_false in T.
    constructor; simpl; eauto using unique_insert with ts.
    intros k n Hn. rewrite lookup_insert_is_Some'. eauto.
Qed.

Lemma saveNode_ok n db : db_ok db -> db_ok (saveNode n db).1.
Proof.
  intros []. unfold saveNode.
  destruct (taken wireGuardPublicKey _ _ _) eqn:T; [by constructor|]. rewrite taken_false in T.
  destruct (db.(mesh_nodes) !! n.(n_id)) as [old|] eqn:E.
  - constructor; simpl; eauto using unique_insert with ts.
    intros k m [[<- <-]|[? ?]]%lookup_insert_Some; simpl; eauto.
  - destruct (_ || _) eqn:U; [by constructor|]. bools. rewrite taken_false in *.
    case_bool_decide; [|by constructor].
    constructor; simpl; eauto using unique_insert with ts.
    intros k m [[<- <-]|[? ?]]%lookup_insert_Some; simpl; eauto.
Qed.

Lemma savePolicy_ok p db : db_ok db -> db_ok (savePolicy p db).1.
Proof.
  intros []. unfold savePolicy. destruct (taken _ _ _ _) eqn:T; [by constructor|].
  rewrite taken_false in T. constructor; simpl; eauto using unique_insert with ts.
Qed.

Lemma saveGrant_ok g db : db_ok db -> db_ok (saveGrant g db).1.
Proof.
  intros []. unfold saveGrant. destruct (db.(jit_grants) !! g.(g_id)) as [old|] eqn:E;
    constructor; simpl; eauto with ts.
Qed.

(** Also: no [save], of any value in any state that satisfies the schema, breaks
    a key, a UNIQUE column or the reference of a node to its device; a save the
    constraints refuse throws and changes nothing. *)
Theorem save_keeps_constraints v db :
  db_ok db ->
  db_ok (save v db).1 /\ (is_ok (save v db).2 = false -> (save v db).1 = db).
Proof.
  intros H. split.
  - destruct v; [by apply saveDevice_ok|by apply saveNode_ok|by apply savePolicy_ok|by apply saveGrant_ok].
  - unfold save, saveDevice, saveNode, savePolicy, saveGrant.
    repeat case_match; simplify_eq/=; done.
Qed.

Lemma empty_db_ok now : db_ok (empty_db now).
Proof. constructor; done. Qed.

Definition sample_posture : DevicePosture :=
  {| osCurrent := true; diskEncrypted := true; secureBoot := true; firewallEnabled := true;
     agentHealthy := true; bannedProcessFound := false; assessedAt := 0 |}.
Definition sample_device (id hw : string) : Device :=
  mkDevice id "host" hw linux "6.1" None false false sample_posture 0 0 None None None.
Definition sample_node (id dev key ip : string) : MeshNode :=
  mkNode id dev key ip ip 51820 CLIENT ZONE_DEV None true None.

Lemma save_keeps_constraints_witness :
  let db := (save (EDevice (sample_device "d1" "hw1")) (empty_db 0)).1 in
  db_ok db /\ (save (EDevice (sample_device "d2" "hw1")) db).1 = db.
Proof.
  intros db.
  destruct (save_keeps_constraints (EDevice (sample_device "d1" "hw1")) (empty_db 0) (empty_db_ok 0)) as [H _].
  split; [exact H|].
  destruct (save_keeps_constraints (EDevice (sample_device "d2" "hw1")) db H) as [_ H2].
  apply H2. vm_compute. reflexivity.
Defined.
