(* ===== verification/PolicyDecision.v ===== *)
(** * The policy decision point

    [PolicyDecisionService] ([src/src/application/policy.ts]), [JitService]
    ([jit.ts]) and [HmacDecisionSigner]
    ([src/src/infrastructure/hmac-decision-signer.ts]) over the repositories.
    HMAC-SHA256 is a parameter [hmac key message]; what tampering could
    otherwise achieve is stated as a collision of it. *)

From S2P Require Import Prelude Json Text Domain Database Repositories.
Open Scope Z_scope.

Definition postureOk (d : Device) : bool :=
  negb d.(revoked) && negb d.(compromised) && d.(posture).(osCurrent)
  && d.(posture).(diskEncrypted) && d.(posture).(secureBoot)
  && d.(posture).(firewallEnabled) && d.(posture).(agentHealthy)
  && negb d.(posture).(bannedProcessFound).

(** [!r.port || ...]: port 0 and no port are both falsy. *)
Definition port_given (o : option Z) : option Z :=
  match o with Some 0 => None | _ => o end.

Definition matches (p : NetworkPolicy) (n : MeshNode) (r : ResourceContext) (roles : list string) : bool :=
  includes p.(sourceZones) n.(zone) && includes p.(destinationZones) r.(r_zone)
  && (includes p.(protocols) ANY || includes p.(protocols) r.(protocol))
  && match port_given r.(port) with
     | None => true
     | Some q => match p.(destinationPorts) with [] => true | ports => includes ports q end
     end
  && forallb (includes roles) p.(requiredRoles).

Definition hasJit (userId : string) (r : ResourceContext) (now : Date) (db : Db) : bool :=
  existsb (fun g => String.eqb g.(g_userId) userId && bool_decide (g.(targetZone) = r.(r_zone))
    && String.eqb g.(targetResource) r.(resource) && negb g.(terminated) && (now <? g.(g_expiresAt)))
    (listActive_grants now db).

Definition by_priority (a b : NetworkPolicy) : bool := b.(priority) <=? a.(priority).

(** The loop over the sorted policies: the first match decides. *)
Fixpoint first_match (jit : bool) (n : MeshNode) (r : ResourceContext)
    (roles : list string) (ps : list NetworkPolicy) : PolicyAction * string * option string :=
  match ps with
  | [] => (DENY, "default deny", None)
  | p :: ps' =>
      if negb (matches p n r roles) then first_match jit n r roles ps'
      else if p.(requiresJit) && negb jit
      then (DENY, "active JIT grant required", Some p.(p_id))
      else (p.(p_action), "policy " +:+ p.(p_name), Some p.(p_id))
  end.

Section signer.
Context (hmac : string -> string -> string).

(** [HmacDecisionSigner.body] *)
Definition body (d : AccessDecision) : string := json_stringify (JObj
  [("decisionId", JStr d.(decisionId)); ("allowed", JBool d.(allowed));
   ("action", JStr (action_name d.(action))); ("reason", JStr d.(reason));
   ("policyId", match d.(policyId) with Some p => JStr p | None => JNull end);
   ("expiresAt", jdate d.(expiresAt))]).

Definition sign (secret : string) (d : AccessDecision) : string := to_hex (hmac secret (body d)).

Definition verify (secret : string) (d : AccessDecision) (signature : string) : bool :=
  let expected := from_hex (sign secret d) in
  let actual := from_hex signature in
  (String.length expected =? String.length actual)%nat && String.eqb expected actual.

(** [PolicyDecisionService.decide]: [now] is [clock.now()], [id] is
    [ids.next()]. *)
Definition decide (secret : string) (authorizationRefreshMs now : Z) (id : string)
    (identity : IdentityContext) (device : Device) (node : MeshNode)
    (resource : ResourceContext) (db : Db) : AccessDecision * string :=
  let '(action, reason, policyId) :=
    if negb identity.(mfa) then (DENY, "MFA required", None)
    else if negb (postureOk device) || negb node.(active) then (DENY, "device is not trusted", None)
    else first_match (hasJit identity.(userId) resource now db) node resource
           identity.(roles) (sort_by by_priority (listActive_policies db)) in
  let decision := {| allowed := bool_decide (action = ALLOW); action := action; reason := reason;
    policyId := when_truthy policyId; decisionId := id;
    expiresAt := now + authorizationRefreshMs |} in
  (decision, sign secret decision).
End signer.

(** ** [JitService] *)

Definition request (id : string) (now : Date) (userId targetResource : string)
    (targetZone : SecurityZone) (durationMinutes : Z) (justification : string) : St Db JitGrant :=
  if (String.length (trim justification) <? 12)%nat
  then throw (ValidationError "a meaningful justification is required")
  else
    let grant := mkGrant id userId targetResource targetZone justification None now
                   (now + durationMinutes * 60000) false None in
    save (EGrant grant) ;;;
    publish "security.jit.requested" (JObj (grant_json grant)) ;;;
    mret grant.

(** [{...g, approvedBy}]: on a grant the field is replaced, on any other entity
    it is an extra field no column stores. *)
Definition with_approval (approverId : string) (v : Entity) : Entity :=
  match v with
  | EGrant g => EGrant (mkGrant g.(g_id) g.(g_userId) g.(targetResource) g.(targetZone)
      g.(justification) (Some approverId) g.(grantedAt) g.(g_expiresAt) g.(terminated)
      g.(terminationReason))
  | v => v
  end.
Definition with_termination (reason : string) (v : Entity) : Entity :=
  match v with
  | EGrant g => EGrant (mkGrant g.(g_id) g.(g_userId) g.(targetResource) g.(targetZone)
      g.(justification) g.(approvedBy) g.(grantedAt) g.(g_expiresAt) true (Some reason))
  | v => v
  end.

Definition approve (grantId approverId : string) (approverRoles : list string) : St Db Entity :=
  if negb (includes approverRoles "security-approver")
  then throw (AuthorizationError "security approver role required")
  else
    let* g := gets (repo_get grantId) in
    match g with
    | None => throw (NotFoundError "JIT grant")
    | Some g =>
        let updated := with_approval approverId g in
        save updated ;;;
        publish "security.jit.approved"
          (JObj (jset "approvedBy" (JStr approverId) (entity_json g))) ;;;
        mret updated
    end.

Definition terminate (grantId reason : string) : St Db Entity :=
  let* g := gets (repo_get grantId) in
  match g with
  | None => throw (NotFoundError "JIT grant")
  | Some g =>
      let updated := with_termination reason g in
      save updated ;;;
      publish "security.jit.terminated"
        (JObj (jset "terminationReason" (JStr reason) (jset "terminated" (JBool true) (entity_json g)))) ;;;
      mret updated
  end.

(** ** What a decision means *)

Lemma first_match_find jit n r roles ps :
  first_match jit n r roles ps =
  match List.find (fun p => matches p n r roles) ps with
  | None => (DENY, "default deny", None)
  | Some p =>
      if p.(requiresJit) && negb jit then (DENY, "active JIT grant required", Some p.(p_id))
      else (p.(p_action), "policy " +:+ p.(p_name), Some p.(p_id))
  end.
Proof. induction ps as [|p ps IH]; simpl; [done|]. destruct (matches p n r roles); done. Qed.

(** The database already returns the policies by priority, so the sort of the
    service changes nothing. *)
Lemma listActive_by_priority db : sort_by by_priority (listActive_policies db) = listActive_policies db.
Proof.
  apply sort_by_id.
  pose proof (sort_by_sorted policy_order policy_order_total policy_order_trans
    (List.filter p_active (rows db.(network_policies)))) as H.
  unfold listActive_policies. induction H as [|p l Hl IH Hall]; constructor; [done|].
  eapply Forall_impl; [exact Hall|]. intros q Hq. unfold by_priority, policy_order in *.
  apply Z.leb_le. apply orb_true_iff in Hq as [?|?]; bools; lia.
Qed.

(** The policy that governs a request: the matching active policy of highest
    priority, and among equals the one of least id. *)
Definition governing (n : MeshNode) (r : ResourceContext) (roles : list string) (db : Db) : option NetworkPolicy :=
  first_best policy_order (fun p => matches p n r roles) (List.filter p_active (rows db.(network_policies))).

Lemma first_match_governing jit n r roles db :
  first_match jit n r roles (sort_by by_priority (listActive_policies db)) =
  match governing n r roles db with
  | None => (DENY, "default deny", None)
  | Some p =>
      if p.(requiresJit) && negb jit then (DENY, "active JIT grant required", Some p.(p_id))
      else (p.(p_action), "policy " +:+ p.(p_name), Some p.(p_id))
  end.
Proof.
  rewrite listActive_by_priority, first_match_find. unfold governing, listActive_policies.
  by rewrite (find_sort_by _ _ policy_order_total policy_order_trans).
Qed.

Lemma governing_Some n r roles db p :
  governing n r roles db = Some p ->
  p ∈ rows db.(network_policies) /\ p.(p_active) = true /\ matches p n r roles = true /\
  forall q, q ∈ rows db.(network_policies) -> q.(p_active) = true -> matches q n r roles = true ->
    policy_order p q = true.
Proof.
  intros H. apply (first_best_Some _ _ policy_order_total policy_order_trans) in H
    as (Hm & Hbest & l1 & l2 & E & _).
  assert (p ∈ List.filter p_active (rows db.(network_policies))) as [? ?]%elem_of_List_filter
    by (rewrite E; set_solver).
  split_and!; [done..|]. intros q Hq Ha. apply Hbest. by apply elem_of_List_filter.
Qed.

Lemma governing_None n r roles db :
  governing n r roles db = None <->
  forall q, q ∈ rows db.(network_policies) -> q.(p_active) = true -> matches q n r roles = false.
Proof.
  unfold governing. rewrite first_best_None. setoid_rewrite elem_of_List_filter. naive_solver.
Qed.

(** A grant that is live for the user on exactly this resource. *)
Definition live_grant (userId : string) (r : ResourceContext) (now : Date) (db : Db) : Prop :=
  exists g, g ∈ rows db.(jit_grants) /\ g.(g_userId) = userId /\ g.(targetZone) = r.(r_zone) /\
    g.(targetResource) = r.(resource) /\ g.(terminated) = false /\ now < g.(g_expiresAt).

Lemma hasJit_spec userId r now db : hasJit userId r now db = true <-> live_grant userId r now db.
Proof.
  unfold hasJit, live_grant. rewrite existsb_elem. setoid_rewrite elem_of_listActive_grants.
  split.
  - intros (g & (? & ? & ?) & Hg). bools. exists g. naive_solver.
  - intros (g & Hr & <- & E & <- & T & L). exists g. rewrite !String.eqb_refl, T.
    rewrite bool_decide_eq_true_2, (proj2 (Z.ltb_lt _ _)) by done. done.
Qed.

(** The policy is about a request: zones, protocol, port (a request without one,
    or with port 0, is about every port) and roles. *)
Record covers (p : NetworkPolicy) (n : MeshNode) (r : ResourceContext) (roles : list string) : Prop := {
  cv_from : n.(zone) ∈ p.(sourceZones);
  cv_to : r.(r_zone) ∈ p.(destinationZones);
  cv_protocol : ANY ∈ p.(protocols) \/ r.(protocol) ∈ p.(protocols);
  cv_port : forall q, r.(port) = Some q -> q <> 0 -> p.(destinationPorts) = [] \/ q ∈ p.(destinationPorts);
  cv_roles : forall x, x ∈ p.(requiredRoles) -> x ∈ roles
}.

(** No active policy that covers the request comes before this one: by
    priority, and by id among equals. *)
Record governs (p : NetworkPolicy) (n : MeshNode) (r : ResourceContext) (roles : list string) (db : Db) : Prop := {
  gv_stored : p ∈ rows db.(network_policies);
  gv_active : p.(p_active) = true;
  gv_covers : covers p n r roles;
  gv_first : forall q, q ∈ rows db.(network_policies) -> q.(p_active) = true -> covers q n r roles ->
    q.(priority) < p.(priority) \/ (q.(priority) = p.(priority) /\ String.leb p.(p_id) q.(p_id) = true)
}.

Record trusted (d : Device) : Prop := {
  tr_standing : d.(revoked) = false /\ d.(compromised) = false;
  tr_posture : d.(posture).(osCurrent) = true /\ d.(posture).(diskEncrypted) = true /\ d.(posture).(secureBoot) = true /\
    d.(posture).(firewallEnabled) = true /\ d.(posture).(agentHealthy) = true /\ d.(posture).(bannedProcessFound) = false
}.

Lemma port_covered (ports : list Z) (o : option Z) :
  match port_given o with None => true | Some q => match ports with [] => true | x :: l => includes (x :: l) q end end = true <->
  forall q, o = Some q -> q <> 0 -> ports = [] \/ q ∈ ports.
Proof.
  destruct o as [q|]; [|naive_solver]. destruct (Z.eq_dec q 0) as [->|N]; [naive_solver|].
  replace (port_given (Some q)) with (Some q) by (by destruct q).
  destruct ports as [|x ports]; [naive_solver|]. rewrite includes_spec. split; [intros ? ? [= <-]; auto|].
  intros H. destruct (H q eq_refl N); [discriminate|done].
Qed.

Lemma matches_covers p n r roles : matches p n r roles = true <-> covers p n r roles.
Proof.
  unfold matches. rewrite !andb_true_iff, orb_true_iff, !includes_spec, port_covered, forallb_Forall, Forall_forall.
  setoid_rewrite includes_spec. split.
  - intros [[[[? ?] ?] ?] ?]. by split.
  - by intros [].
Qed.

Lemma postureOk_trusted d : postureOk d = true <-> trusted d.
Proof.
  unfold postureOk. rewrite !andb_true_iff, !negb_true_iff. split.
  - intros [[[[[[[? ?] ?] ?] ?] ?] ?] ?]. by repeat split.
  - intros [[? ?] (? & ? & ? & ? & ? & ?)]. by repeat split.
Qed.

Lemma governing_governs n r roles db p :
  keyed p_id db.(network_policies) -> governing n r roles db = Some p <-> governs p n r roles db.
Proof.
  intros K. assert (forall q, policy_order p q = true <->
    q.(priority) < p.(priority) \/ (q.(priority) = p.(priority) /\ String.leb p.(p_id) q.(p_id) = true)) as O.
  { intros q. unfold policy_order. rewrite orb_true_iff, andb_true_iff, Z.ltb_lt, Z.eqb_eq. split; intros [?|[? ?]]; auto. }
  split.
  - intros G. apply governing_Some in G as (? & ? & ? & F). split; [done..|by apply matches_covers|].
    intros q ? ? ?. apply O, F; [done..|]. by apply matches_covers.
  - intros [R A C F]. destruct (governing n r roles db) as [p'|] eqn:G.
    + apply governing_Some in G as (R' & A' & M' & F').
      specialize (F' p R A (proj2 (matches_covers _ _ _ _) C)).
      specialize (F p' R' A' (proj1 (matches_covers _ _ _ _) M')).
      unfold policy_order in F'. rewrite orb_true_iff, andb_true_iff, Z.ltb_lt, Z.eqb_eq in F'.
      f_equal. apply elem_of_rows in R as [k R], R' as [k' R'].
      assert (p_id p = p_id p') as E by (apply String.leb_antisym; destruct F as [?|[? ?]], F' as [?|[? ?]]; lia || done).
      rewrite (K _ _ R), (K _ _ R') in E. congruence.
    + rewrite governing_None in G. apply matches_covers in C. rewrite G in C by done. discriminate.
Qed.

(** C1: access is allowed exactly when the caller has MFA, the device is
    trusted and its node active, and the governing policy, the active policy
    that covers zones, protocol, port and roles with the highest priority (least id
    among equals), says ALLOW and, if it requires a just-in-time grant, the caller
    holds a live one for this very resource.  In every other case the decision
    is not to allow. *)
Theorem decide_allows_iff hmac secret ms now id identity device node resource db :
  keyed p_id db.(network_policies) ->
  (decide hmac secret ms now id identity device node resource db).1.(allowed) = true <->
  identity.(mfa) = true /\ trusted device /\ node.(active) = true /\
  exists p, governs p node resource identity.(roles) db /\ p.(p_action) = ALLOW /\
    (p.(requiresJit) = true -> live_grant identity.(userId) resource now db).
Proof.
  intros K. unfold decide. rewrite first_match_governing, <-postureOk_trusted.
  setoid_rewrite <-(fun p => governing_governs node resource (roles identity) db p K).
  destruct (mfa identity); simpl; [|by split; [|intros [? _]]].
  destruct (postureOk device); simpl; [|by split; [|intros (_ & ? & _)]].
  destruct (active node); simpl; [|by split; [|intros (_ & _ & ? & _)]].
  destruct (governing _ _ _ _) as [p|]; simpl; [|by split; [|intros (_ & _ & _ & ? & ? & _)]].
  pose proof (hasJit_spec (userId identity) resource now db) as J.
  split.
  - intros H. split_and!; [done..|]. exists p. split; [done|].
    destruct (requiresJit p), (hasJit _ _ _ _); simpl in *; bools; naive_solver.
  - intros (_ & _ & _ & q & [= <-] & Ha & Hj). rewrite Ha.
    destruct (requiresJit p); simpl; [|done]. rewrite (proj2 J) by auto. done.
Qed.

(** The action, reason and policy of the decision, branch by branch. *)
Definition verdict (now : Date) (identity : IdentityContext) (device : Device) (node : MeshNode)
    (resource : ResourceContext) (db : Db) : PolicyAction * string * option string :=
  if negb identity.(mfa) then (DENY, "MFA required", None)
  else if negb (postureOk device && node.(active)) then (DENY, "device is not trusted", None)
  else match governing node resource identity.(roles) db with
  | None => (DENY, "default deny", None)
  | Some p =>
      if p.(requiresJit) && negb (hasJit identity.(userId) resource now db)
      then (DENY, "active JIT grant required", Some p.(p_id))
      else (p.(p_action), "policy " +:+ p.(p_name), Some p.(p_id))
  end.

Lemma decide_verdict hmac secret ms now id identity device node resource db :
  let d := (decide hmac secret ms now id identity device node resource db).1 in
  let '(a, why, pol) := verdict now identity device node resource db in
  d = {| allowed := bool_decide (a = ALLOW); action := a; reason := why;
         policyId := when_truthy pol; decisionId := id; expiresAt := now + ms |}.
Proof.
  unfold decide, verdict. rewrite first_match_governing, negb_andb.
  by repeat case_match; simplify_eq/=.
Qed.

(** ** Signatures of decisions *)

Lemma action_name_inj a b : action_name a = action_name b -> a = b.
Proof. by destruct a, b. Qed.

(** One member of an object whose keys are known: the value ends where the
    next member starts. *)
Lemma quoted_member s s' r r' :
  json_quote s +:+ r = json_quote s' +:+ r' -> s = s' /\ r = r'.
Proof. apply json_quote_split. Qed.

Lemma literal_inj a r r' : a +:+ r = a +:+ r' -> r = r'.
Proof. intros H. by apply append_inj in H as [_ H]. Qed.

Lemma body_text d : body d =
  "{" +:+ (json_quote "decisionId" +:+ ":") +:+ json_quote d.(decisionId) +:+
  ("," +:+ json_quote "allowed" +:+ ":") +:+ (if d.(allowed) then "true" else "false") +:+
  ("," +:+ json_quote "action" +:+ ":") +:+ json_quote (action_name d.(action)) +:+
  ("," +:+ json_quote "reason" +:+ ":") +:+ json_quote d.(reason) +:+
  ("," +:+ json_quote "policyId" +:+ ":") +:+
  (match d.(policyId) with Some p => json_quote p | None => "null" end) +:+
  ("," +:+ json_quote "expiresAt" +:+ ":") +:+ json_quote (toISOString d.(expiresAt)) +:+ "}".
Proof.
  unfold body, jdate. cbn [json_stringify map]. unfold join. cbn [String.concat fst snd].
  rewrite !app_assoc_s. destruct (allowed d), (policyId d); reflexivity.
Qed.

(** Two decisions with an expiry in the common range and the same signed text
    are the same decision. *)
Lemma body_inj d d' :
  iso_range d.(expiresAt) = true -> iso_range d'.(expiresAt) = true -> body d = body d' -> d = d'.
Proof.
  intros R R'. rewrite !body_text. intros E.
  apply literal_inj, literal_inj, quoted_member in E as [E1 E]. apply literal_inj in E.
  assert (allowed d = allowed d') as E2.
  { destruct (allowed d), (allowed d'); [done| | |done]; discriminate E. }
  rewrite E2 in E. apply literal_inj, literal_inj, quoted_member in E as [E3%action_name_inj E].
  apply literal_inj, quoted_member in E as [E4 E]. apply literal_inj in E.
  assert (policyId d = policyId d' /\ toISOString (expiresAt d) = toISOString (expiresAt d')) as [E5 E6].
  { destruct (policyId d) as [p|], (policyId d') as [p'|]; try discriminate E.
    - apply quoted_member in E as [-> E]. by apply literal_inj, quoted_member in E as [-> _].
    - apply literal_inj, literal_inj, quoted_member in E as [-> _]. done. }
  apply toISOString_inj in E6; [|done..].
  destruct d, d'; simpl in *; congruence.
Qed.

(** Also: a signature made by the decision point verifies, and verifies no other
    decision: if a decision [d'] is accepted with the signature of [d] then
    [d' = d], or two different texts with the same HMAC under the secret are at
    hand. *)
Theorem decision_signature_sound hmac secret d d' :
  iso_range d.(expiresAt) = true -> iso_range d'.(expiresAt) = true ->
  verify hmac secret d (sign hmac secret d) = true /\
  (verify hmac secret d' (sign hmac secret d) = true ->
   d' = d \/ exists x y, x <> y /\ hmac secret x = hmac secret y).
Proof.
  intros R R'. unfold verify, sign. rewrite !from_to_hex. split.
  - by rewrite Nat.eqb_refl, String.eqb_refl.
  - intros [_ E]%andb_true_iff. bools.
    destruct (String.eqb_spec (body d') (body d)) as [B|B]; [left; by apply body_inj|].
    right. by exists (body d'), (body d).
Qed.

Definition toy_hmac (key message : string) : string := key +:+ message.
Definition sample_decision : AccessDecision :=
  {| allowed := true; action := ALLOW; reason := "policy p"; policyId := Some "p1";
     decisionId := "x"; expiresAt := 1700000000000 |}.

Definition web_policy : NetworkPolicy :=
  {| p_id := "p1"; p_name := "web"; sourceZones := [ZONE_DEV]; destinationZones := [ZONE_PROD_APP]; protocols := [ANY];
     destinationPorts := [443]; p_action := ALLOW; requiredRoles := ["dev"]; requiresJit := false; priority := 10;
     p_version := 1; p_active := true |}.
Definition web_db : Db := set_network_policies {["p1" := web_policy]} (empty_db 0).
Definition web_request : ResourceContext :=
  {| resource := "web"; r_zone := ZONE_PROD_APP; protocol := ANY; port := Some 443 |}.

Lemma decide_allows_iff_witness :
  trusted (sample_device "d1" "hw1") /\ exists p, governs p (sample_node "n1" "d1" "k1" "10.144.0.2") web_request ["dev"] web_db /\ p.(p_action) = ALLOW.
Proof.
  destruct (proj1 (decide_allows_iff toy_hmac "s" 1000 0 "x" {| userId := "u"; roles := ["dev"]; mfa := true |}
    (sample_device "d1" "hw1") (sample_node "n1" "d1" "k1" "10.144.0.2") web_request web_db
    ltac:(intros k x H; change (({["p1" := web_policy]} : gmap string NetworkPolicy) !! k = Some x) in H; apply lookup_singleton_Some in H as [<- <-]; reflexivity)) ltac:(vm_compute; reflexivity)) as (_ & T & _ & p & G & A & _).
  split; [exact T|exists p; split; [exact G|exact A]].
Defined.

Lemma decision_signature_sound_witness :
  verify toy_hmac "s" sample_decision (sign toy_hmac "s" sample_decision) = true.
Proof.
  destruct (decision_signature_sound toy_hmac "s" sample_decision sample_decision) as [H _].
  - vm_compute; reflexivity.
  - vm_compute; reflexivity.
  - exact H.
Defined.

(** ** Just-in-time grants *)

Lemma save_grant_fresh g db :
  db.(jit_grants) !! g.(g_id) = None ->
  save (EGrant g) db = (set_jit_grants (<[g.(g_id) := g]> db.(jit_grants)) db, Ok tt).
Proof. intros H. simpl. unfold saveGrant. by rewrite H. Qed.

(** Also: a request alone is enough: from the moment [request] returns, and with
    no call of [approve], the grant counts as live for the requesting user until
    it expires, so [decide] takes it for an active just-in-time grant. *)
Theorem unapproved_request_is_live id now userId resource zone minutes why db :
  (12 <= String.length (trim why))%nat -> db.(jit_grants) !! id = None ->
  exists db' g, request id now userId resource zone minutes why db = (db', Ok g) /\
    g.(approvedBy) = None /\
    forall t proto port, t < now + minutes * 60000 ->
      hasJit userId {| resource := resource; r_zone := zone; protocol := proto; port := port |} t db' = true.
Proof.
  intros Hwhy Hid. unfold request. rewrite (proj2 (Nat.ltb_ge _ _)) by done.
  set (g := mkGrant id userId resource zone why None now (now + minutes * 60000) false None).
  rewrite (bind_ok _ _ _ _ _ (save_grant_fresh g db Hid)).
  eexists _, g. split; [reflexivity|]. split; [done|]. intros t proto port Ht.
  apply hasJit_spec. exists g. simpl. split; [|done].
  apply elem_of_rows. exists id. apply lookup_insert_eq.
Qed.

Lemma unapproved_request_is_live_witness :
  let r := request "g1" 0 "alice" "db" ZONE_PROD_DATA 15 "incident 4711 on db" (empty_db 0) in
  exists g, r.2 = Ok g /\ g.(approvedBy) = None.
Proof.
  destruct (unapproved_request_is_live "g1" 0 "alice" "db" ZONE_PROD_DATA 15
    "incident 4711 on db" (empty_db 0)) as (db' & g & E & Ha & _).
  - vm_compute. lia.
  - reflexivity.
  - exists g. cbv zeta. rewrite E. split; [reflexivity|exact Ha].
Defined.

(** The rows [terminate] leaves live: all but the one it names. *)
Lemma repo_get_grant id db g :
  db.(devices) !! id = None -> db.(mesh_nodes) !! id = None -> db.(network_policies) !! id = None ->
  db.(jit_grants) !! id = Some g -> repo_get id db = Some (EGrant g).
Proof. intros H1 H2 H3 H4. unfold repo_get. by rewrite H1, H2, H3, H4. Qed.

(** Also: terminating a grant takes effect at once and on that grant only: after
    [terminate] a user has a live grant exactly when another grant than the
    terminated one was live before. *)
Theorem terminate_revokes id why db g :
  db_ok db -> db.(devices) !! id = None -> db.(mesh_nodes) !! id = None ->
  db.(network_policies) !! id = None -> db.(jit_grants) !! id = Some g ->
  exists db' e, terminate id why db = (db', Ok e) /\
    forall u r t, live_grant u r t db' <->
      exists k h, k <> id /\ db.(jit_grants) !! k = Some h /\ h.(g_userId) = u /\
        h.(targetZone) = r.(r_zone) /\ h.(targetResource) = r.(resource) /\
        h.(terminated) = false /\ t < h.(g_expiresAt).
Proof.
  intros Hok H1 H2 H3 H4. unfold terminate, gets, mbind, St_bind.
  rewrite (repo_get_grant id db g) by done. simpl. unfold saveGrant. simpl.
  assert (g_id g = id) as -> by (by apply (grants_keyed _ Hok)). rewrite H4. do 2 eexists. split; [reflexivity|].
  intros u r t. unfold live_grant. setoid_rewrite elem_of_rows. simpl. split.
  - intros (h & (k & [[<- <-]|[? Hk]]%lookup_insert_Some) & Hh); simpl in Hh; [naive_solver|].
    exists k, h. naive_solver.
  - intros (k & h & Hne & Hk & Hh). exists h. split; [|done]. exists k.
    by rewrite lookup_insert_ne by done.
Qed.

Lemma terminate_revokes_witness :
  let g := mkGrant "g1" "alice" "db" ZONE_PROD_DATA "why" None 0 900000 false None in
  let db := set_jit_grants {[ "g1" := g ]} (empty_db 0) in
  let r := {| resource := "db"; r_zone := ZONE_PROD_DATA; protocol := TCP; port := None |} in
  ~ live_grant "alice" r 1000 (terminate "g1" "done" db).1.
Proof.
  intros g db r.
  destruct (terminate_revokes "g1" "done" db g) as (db' & e & E & H).
  - constructor; try done; simpl.
    intros k x [<- <-]%lookup_singleton_Some. reflexivity.
  - reflexivity.
  - reflexivity.
  - reflexivity.
  - vm_compute. reflexivity.
  - rewrite E. simpl. intros (k & h & Hk & Hh & _)%H.
    simpl in Hh. apply lookup_singleton_Some in Hh as [Hh _]. congruence.
Defined.
