(* ===== verification/AuditChain.v ===== *)
(** * The hash-chained audit log

    [AuditService] ([src/src/application/audit.ts]) over the [audit_chain]
    table.  [digest] is the injected [Hasher] (SHA-256 in production); what a
    forger could otherwise achieve is stated as a collision of it. *)

From S2P Require Import Prelude Json Text Domain Database Repositories.
Open Scope Z_scope.

Section audit.
Context `{Collation} (digest : string -> string).

(** The object both [record] and [verify] hash. *)
Definition audit_content (sequence : Z) (at_ : Date) (actor action subject : string)
    (payload : json) (previousHash : string) : json := JObj
  [("sequence", JNum sequence); ("at", jdate at_); ("actor", JStr actor);
   ("action", JStr action); ("subject", JStr subject); ("payload", payload);
   ("previousHash", JStr previousHash)].

Definition audit_digest (sequence : Z) (at_ : Date) (actor action subject : string)
    (payload : json) (previousHash : string) : string :=
  digest (canonicalJson (audit_content sequence at_ actor action subject payload previousHash)).

Definition last_hash (o : option AuditRecord) : string :=
  match o with Some r => r.(a_hash) | None => "GENESIS" end.
Definition last_sequence (o : option AuditRecord) : Z :=
  match o with Some r => r.(sequence) | None => 0 end.

Definition record (actor action subject : string) (payload : json) (now : Date) : St Db AuditRecord :=
  let* l := gets audit_last in
  let previousHash := last_hash l in
  let sequence := last_sequence l + 1 in
  let r := mkAudit sequence now actor action subject payload previousHash
             (audit_digest sequence now actor action subject payload previousHash) in
  append_audit r ;;;
  mret r.

Fixpoint verify_from (previous : string) (l : list AuditRecord) : bool :=
  match l with
  | [] => true
  | r :: l' =>
      let expected := audit_digest r.(sequence) r.(a_at) r.(actor) r.(a_action) r.(subject)
                        r.(payload) r.(previousHash) in
      if negb (String.eqb r.(previousHash) previous) || negb (String.eqb r.(a_hash) expected)
      then false else verify_from r.(a_hash) l'
  end.

(** [AuditService.verify] *)
Definition verify (db : Db) : bool := verify_from "GENESIS" (chain db).

(** ** The chain grows correctly *)

Lemma verify_from_app previous l1 l2 :
  verify_from previous (l1 ++ l2) =
  verify_from previous l1 && verify_from (match last l1 with Some r => r.(a_hash) | None => previous end) l2.
Proof.
  revert previous; induction l1 as [|r l1 IH]; intros previous; [done|].
  cbn [app verify_from]. destruct (_ || _); [done|]. rewrite IH, last_cons. by destruct (last l1).
Qed.

Lemma verify_snoc l r :
  verify_from "GENESIS" (l ++ [r]) = true <->
  verify_from "GENESIS" l = true /\ r.(previousHash) = last_hash (last l) /\
  r.(a_hash) = audit_digest r.(sequence) r.(a_at) r.(actor) r.(a_action) r.(subject) r.(payload) r.(previousHash).
Proof.
  rewrite verify_from_app, andb_true_iff. cbn [verify_from]. fold (last_hash (last l)).
  destruct (String.eqb_spec r.(previousHash) (last_hash (last l))) as [E|E],
    (String.eqb_spec r.(a_hash) (audit_digest r.(sequence) r.(a_at) r.(actor)
      r.(a_action) r.(subject) r.(payload) r.(previousHash))) as [F|F];
    cbn [negb orb]; clear -E F; tauto || (split; [intros [? ?]; done|tauto]).
Qed.

(** The identity column is about to hand out the number [record] expects. *)
Definition in_step (db : Db) : Prop := db.(audit_identity) = last_sequence (audit_last db) + 1.

Definition hash_taken (h : string) (db : Db) : bool :=
  existsb (fun x => String.eqb x.(a_hash) h) db.(audit_chain).

(** The record [record] builds. *)
Definition next_record (actor action subject : string) (payload : json) (now : Date) (db : Db) : AuditRecord :=
  let sequence := last_sequence (audit_last db) + 1 in
  let previousHash := last_hash (audit_last db) in
  mkAudit sequence now actor action subject payload previousHash
    (audit_digest sequence now actor action subject payload previousHash).

Lemma record_run actor action subject payload now db :
  let r := next_record actor action subject payload now db in
  let db1 := set_audit_identity (db.(audit_identity) + 1) db in
  record actor action subject payload now db =
  if hash_taken r.(a_hash) db then (db1, Throw unique_violation)
  else (set_audit_chain (chain db ++ [stored_audit db.(audit_identity) r]) db1, Ok r).
Proof.
  cbv zeta. unfold record, gets, mbind, St_bind, append_audit, hash_taken. simpl.
  by destruct (existsb _ _).
Qed.

(** The digest of a record does not change when its payload goes through the
    [jsonb] column. *)
Lemma audit_digest_jsonb n t a b c p h :
  json_wf p = true -> audit_digest n t a b c (jsonb p) h = audit_digest n t a b c p h.
Proof.
  intros W. unfold audit_digest, audit_content. f_equal. cbn [canonicalJson map fst snd].
  by rewrite (canonicalJson_jsonb p W).
Qed.

(** ** Tampering *)

Definition record_wf (r : AuditRecord) : Prop := json_wf r.(payload) = true /\ iso_range r.(a_at) = true.

(** Equal records, the payload up to the order of its keys. *)
Record record_equiv (r r' : AuditRecord) : Prop := {
  re_sequence : r.(sequence) = r'.(sequence); re_at : r.(a_at) = r'.(a_at);
  re_actor : r.(actor) = r'.(actor); re_action : r.(a_action) = r'.(a_action);
  re_subject : r.(subject) = r'.(subject); re_payload : jequiv r.(payload) r'.(payload);
  re_previous : r.(previousHash) = r'.(previousHash); re_hash : r.(a_hash) = r'.(a_hash)
}.

Lemma audit_content_wf n t a b c p h : json_wf p = true -> json_wf (audit_content n t a b c p h) = true.
Proof. intros Hp. unfold audit_content. cbn. rewrite Hp. reflexivity. Qed.

(** What an equal digest says about the hashed fields. *)
Lemma audit_digest_inj n t a b c p h n' t' a' b' c' p' h' :
  json_wf p = true -> json_wf p' = true -> iso_range t = true -> iso_range t' = true ->
  audit_digest n t a b c p h = audit_digest n' t' a' b' c' p' h' ->
  (n = n' /\ t = t' /\ a = a' /\ b = b' /\ c = c' /\ jequiv p p' /\ h = h') \/ collision digest.
Proof.
  intros Wp Wp' Rt Rt' E. unfold audit_digest in E.
  destruct (String.eqb_spec (canonicalJson (audit_content n t a b c p h))
    (canonicalJson (audit_content n' t' a' b' c' p' h'))) as [C|C]; [left|right; by eexists _, _].
  apply canonicalJson_determines in C; [|by apply audit_content_wf..].
  pose proof (audit_content_wf n' t' a' b' c' p' h' Wp') as Hwf.
  assert (forall k v v', (k, v) ∈ _ -> (k, v') ∈ _ -> jequiv v v') as M
    by (intros k v v'; by apply (jequiv_obj_member _ _ k v v' Hwf)).
  assert (jequiv (JNum n) (JNum n')) as X1 by (apply (M "sequence"); set_solver).
  assert (jequiv (jdate t) (jdate t')) as X2 by (apply (M "at"); set_solver).
  assert (jequiv (JStr a) (JStr a')) as X3 by (apply (M "actor"); set_solver).
  assert (jequiv (JStr b) (JStr b')) as X4 by (apply (M "action"); set_solver).
  assert (jequiv (JStr c) (JStr c')) as X5 by (apply (M "subject"); set_solver).
  assert (jequiv p p') as X6 by (apply (M "payload"); set_solver).
  assert (jequiv (JStr h) (JStr h')) as X7 by (apply (M "previousHash"); set_solver).
  inversion X1; inversion X2 as [| | |? Et| |]; inversion X3; inversion X4; inversion X5; inversion X7.
  split_and!; auto using toISOString_inj.
Qed.

Lemma verified_tail_equiv l l' r r' :
  record_wf r -> record_wf r' ->
  verify_from "GENESIS" (l ++ [r]) = true -> verify_from "GENESIS" (l' ++ [r']) = true ->
  r.(a_hash) = r'.(a_hash) -> (record_equiv r r' /\ last_hash (last l) = last_hash (last l')) \/ collision digest.
Proof.
  intros [Wp Wt] [Wp' Wt'] V V' E.
  apply verify_snoc in V as (V & P & D), V' as (V' & P' & D').
  assert (audit_digest (sequence r) (a_at r) (actor r) (a_action r) (subject r) (payload r) (previousHash r)
    = audit_digest (sequence r') (a_at r') (actor r') (a_action r') (subject r') (payload r') (previousHash r'))
    as X by congruence.
  destruct (audit_digest_inj _ _ _ _ _ _ _ _ _ _ _ _ _ _ Wp Wp' Wt Wt' X)
    as [(? & ? & ? & ? & ? & ? & ?)|?]; [left|by right].
  split; [by constructor|congruence].
Qed.

Lemma verified_chains_agree l l' :
  Forall record_wf l -> Forall record_wf l' ->
  verify_from "GENESIS" l = true -> verify_from "GENESIS" l' = true ->
  length l = length l' -> last_hash (last l) = last_hash (last l') ->
  Forall2 record_equiv l l' \/ collision digest.
Proof.
  revert l'; induction l as [|r l IH] using rev_ind; intros l' Hl Hl' V V' Hlen E.
  - destruct l'; [by left|done].
  - destruct l' as [|r' l' _] using rev_ind; [rewrite length_app in Hlen; simpl in Hlen; lia|].
    rewrite !length_app in Hlen; simpl in Hlen. rewrite !last_snoc in E. cbn in E.
    apply Forall_app in Hl as [Hl Hr], Hl' as [Hl' Hr'].
    rewrite Forall_singleton in Hr, Hr'.
    destruct (verified_tail_equiv l l' r r' Hr Hr' V V' E) as [[Hrr Hlast]|?]; [|by right].
    apply verify_snoc in V as (V & _), V' as (V' & _).
    destruct (IH l') as [?|?]; [done..|lia|done| |by right].
    left. by apply Forall2_app; [|constructor].
Qed.
End audit.

(** ** The properties *)

(** What [record] does to a log that verifies. *)
Lemma record_step `{Collation} digest actor action subject payload now db :
  json_wf payload = true -> verify digest db = true -> in_step db ->
  let r := next_record digest actor action subject payload now db in
  match record digest actor action subject payload now db with
  | (db', Ok r') => r' = r /\ chain db' = chain db ++ [stored_audit r.(sequence) r] /\
      verify digest db' = true /\ in_step db'
  | (db', Throw e) => chain db' = chain db /\ e = unique_violation /\
      exists x, x ∈ chain db /\ x.(a_hash) = r.(a_hash)
  end.
Proof.
  intros W V S r. rewrite record_run. unfold in_step in *. fold r.
  destruct (hash_taken _ _) eqn:T.
  - unfold hash_taken in T. apply existsb_elem in T as (x & Hx & E). bools. eauto.
  - assert (sequence r = audit_identity db) as Q by (unfold r, next_record; by rewrite S).
    rewrite <- Q. unfold verify, chain, audit_last. simpl. split_and!; [done..| |].
    + apply verify_snoc. split; [done|]. split; [done|]. simpl. by rewrite audit_digest_jsonb.
    + rewrite last_snoc. simpl. done.
Qed.

(** A log in order: it verifies, its identity column is in step, and its records
    are well formed and numbered below the next identity. *)
Record sound_chain `{Collation} (digest : string -> string) (db : Db) : Prop := {
  sc_verify : verify digest db = true; sc_step : in_step db;
  sc_records : Forall (fun r => record_wf r /\ r.(sequence) < db.(audit_identity)) (chain db)
}.

Lemma verify_from_digest `{Collation} digest l : forall previous r,
  verify_from digest previous l = true -> r ∈ l ->
  r.(a_hash) = audit_digest digest r.(sequence) r.(a_at) r.(actor) r.(a_action) r.(subject) r.(payload) r.(previousHash).
Proof.
  induction l as [|x l IH]; intros previous r V Hr; [set_solver|]. cbn [verify_from] in V.
  destruct (_ || _) eqn:E; [done|]. apply orb_false_iff in E as [_ E].
  apply elem_of_cons in Hr as [->|Hr]; [|by eapply IH]. by apply negb_false_iff, String.eqb_eq in E.
Qed.

(** On such a log [record] always succeeds, unless the digest collides: the hash
    of a record with a new number is the hash of no other. *)
Lemma record_sound `{Collation} digest actor action subject payload now db :
  json_wf payload = true -> iso_range now = true -> sound_chain digest db ->
  (exists db' r, record digest actor action subject payload now db = (db', Ok r) /\
     chain db' = chain db ++ [stored_audit r.(sequence) r] /\
     r = next_record digest actor action subject payload now db /\
     sound_chain digest db') \/ collision digest.
Proof.
  intros W T [V S F]. pose proof (record_step digest actor action subject payload now db W V S) as R.
  cbv zeta in R. rewrite record_run in R |- *. cbv zeta in R |- *. destruct (hash_taken _ _).
  - right. destruct R as (_ & _ & x & Hx & E). rewrite (verify_from_digest _ _ _ _ V Hx) in E.
    rewrite Forall_forall in F. destruct (F x Hx) as [[Wx Tx] Lt].
    destruct (audit_digest_inj _ _ _ _ _ _ _ _ _ _ _ _ _ _ _ Wx W Tx T E) as [(E1 & _)|?]; [|done].
    unfold in_step in S. lia.
  - left. destruct R as (_ & C & V' & S'). eexists _, _. split; [reflexivity|]. split; [exact C|].
    split; [done|]. constructor; [done..|]. rewrite C. apply Forall_app. split.
    + eapply Forall_impl; [exact F|]. intros x [Wx Lx]. split; [done|simpl; lia].
    + apply Forall_singleton. split; [split; [by apply json_wf_jsonb|done]|]. simpl. unfold in_step in S. lia.
Qed.

(** C6: recording keeps the log verifiable.  From a log that verifies and whose
    identity column is in step, [record] either appends the record it returns
    and leaves a log that verifies and is in step, or throws the unique violation
    of [event_hash] because an existing record has the very same hash, and leaves
    the records untouched.  The record carries the caller's actor, action, subject
    and payload, the next number and the hash of the record before it, and its hash
    is the digest of the canonical text of all of these; the payload is stored with
    its keys in the order of the [jsonb] column, which the check does not notice. *)
Theorem record_keeps_verify `{Collation} digest actor action subject payload now db :
  json_wf payload = true -> verify digest db = true -> in_step db ->
  let n := match audit_last db with Some l => l.(sequence) + 1 | None => 1 end in
  let previous := match audit_last db with Some l => l.(a_hash) | None => "GENESIS" end in
  let hash := digest (canonicalJson (JObj
    [("sequence", JNum n); ("at", JStr (toISOString now)); ("actor", JStr actor); ("action", JStr action);
     ("subject", JStr subject); ("payload", payload); ("previousHash", JStr previous)])) in
  match record digest actor action subject payload now db with
  | (db', Ok r) =>
      r = mkAudit n now actor action subject payload previous hash /\
      chain db' = chain db ++ [mkAudit n now actor action subject (jsonb payload) previous hash] /\
      verify digest db' = true /\ in_step db'
  | (db', Throw e) => chain db' = chain db /\ e = unique_violation /\ exists x, x ∈ chain db /\ x.(a_hash) = hash
  end.
Proof.
  intros W V S n previous hash. pose proof (record_step digest actor action subject payload now db W V S) as R.
  assert (next_record digest actor action subject payload now db
    = mkAudit n now actor action subject payload previous hash) as N.
  { unfold next_record, last_sequence, last_hash, n, hash, previous. by destruct (audit_last db). }
  cbv zeta in R. rewrite N in R. by destruct (record _ _ _ _ _ _ _) as [db' [r|e]].
Qed.

(** C7: the log is tamper-evident.  Two verifying logs of the same length with
    the same final hash are the same log, record by record and field by field
    (payloads up to the order of object keys), unless two different texts with
    the same digest are at hand: no record can be changed, removed, inserted or
    reordered under a fixed head. *)
Theorem verify_tamper_evident `{Collation} digest db db' :
  Forall record_wf (chain db) -> Forall record_wf (chain db') ->
  verify digest db = true -> verify digest db' = true ->
  length (chain db) = length (chain db') ->
  last_hash (audit_last db) = last_hash (audit_last db') ->
  Forall2 record_equiv (chain db) (chain db') \/ collision digest.
Proof. intros. by apply verified_chains_agree. Qed.

(** Also: the log depends on the identity column staying in step.  When it is
    not, which is what a refused insert leaves behind, since it consumes an
    identity value, the next record that is stored makes [verify] fail although
    nobody tampered with the log, unless the digest collides. *)
Theorem identity_gap_breaks_verify `{Collation} digest actor action subject payload now db db' r :
  json_wf payload = true -> iso_range now = true -> ~ in_step db ->
  record digest actor action subject payload now db = (db', Ok r) ->
  verify digest db' = false \/ collision digest.
Proof.
  intros Wp Wt S R. rewrite record_run in R. destruct (hash_taken _ _); simplify_eq.
  destruct (verify digest _) eqn:V; [right|by left].
  unfold verify, chain in V. simpl in V. apply verify_snoc in V as (_ & _ & D). simpl in D.
  unfold next_record in D. simpl in D.
  rewrite audit_digest_jsonb in D by done.
  destruct (audit_digest_inj _ _ _ _ _ _ _ _ _ _ _ _ _ _ _ Wp Wp Wt Wt D) as [(E & _)|?]; [|done].
  by destruct S.
Qed.

(** A digest for evaluation. *)
Definition toy_digest (s : string) : string := s.

Definition sample_log : Db :=
  (@record code_point_collation toy_digest "alice" "POLICY_COMMIT" "c1" (JObj [("n", JNum 1)]) 1000 (empty_db 0)).1.

Lemma record_keeps_verify_witness :
  @verify code_point_collation toy_digest
    (@record code_point_collation toy_digest "bob" "JIT" "g1" sample_payload 2000 sample_log).1 = true.
Proof.
  pose proof (@record_keeps_verify code_point_collation toy_digest "bob" "JIT" "g1" sample_payload 2000
    sample_log ltac:(reflexivity)) as P.
  assert (@verify code_point_collation toy_digest sample_log = true) as V by (vm_compute; reflexivity).
  assert (in_step sample_log) as S by (vm_compute; reflexivity).
  specialize (P V S). revert P.
  destruct (@record _ _ _ _ _ _ _ _) as [db' [r|e]] eqn:E.
  - intros (_ & _ & P & _). exact P.
  - vm_compute in E. discriminate E.
Defined.

Lemma verify_tamper_evident_witness :
  Forall2 record_equiv (chain sample_log) (chain sample_log) \/ collision toy_digest.
Proof.
  apply (@verify_tamper_evident code_point_collation toy_digest sample_log sample_log).
  - vm_compute chain. constructor; [split; vm_compute; reflexivity|constructor].
  - vm_compute chain. constructor; [split; vm_compute; reflexivity|constructor].
  - vm_compute; reflexivity.
  - vm_compute; reflexivity.
  - reflexivity.
  - reflexivity.
Defined.

Lemma identity_gap_breaks_verify_witness :
  let db := set_audit_identity 7 sample_log in
  let run := @record code_point_collation toy_digest "bob" "JIT" "g1" (JObj []) 2000 db in
  @verify code_point_collation toy_digest run.1 = false \/ collision toy_digest.
Proof.
  intros db run.
  destruct run as [db' [r|e]] eqn:E.
  - apply (@identity_gap_breaks_verify code_point_collation toy_digest "bob" "JIT" "g1" (JObj []) 2000 db db' r).
    + reflexivity.
    + vm_compute; reflexivity.
    + intros S. vm_compute in S. discriminate S.
    + exact E.
  - vm_compute in E. discriminate E.
Defined.
