(* ===== verification/CommandQueue.v ===== *)
(** * The durable command queue and key rotation

    [PgCommandQueue], [PgKeyRotationLedger]
    ([src/services/mesh-controller/]) and [KeyRotationSchedulerService]
    ([src/src/application/key-rotation-scheduler.ts]).  Rows that tie in an
    [ORDER BY] keep their insertion order. *)

From S2P Require Import Prelude Json Text Domain Database Repositories.
Open Scope Z_scope.

(** ** [PgCommandQueue] *)

Record QueuedCommand := { q_id : string; q_type : string; q_payload : json }.

Definition minute : Z := 60000.
Definition day : Z := 86400000.

(** The payload goes into a [jsonb] column; every caller passes an object. *)
Definition enqueue (nodeId type : string) (payload : json) (priority ttlMinutes : Z) : St Db unit := fun db =>
  if bool_decide (is_Some (db.(mesh_nodes) !! nodeId)) then
    (let* id := fresh_uuid in
     modify (fun db => set_controller_commands (db.(controller_commands) ++
       [mkCommand id nodeId type (jsonb payload) priority db.(pg_now) db.(pg_now)
          (db.(pg_now) + ttlMinutes * minute) None None]) db)) db
  else (db, Throw foreign_key_violation).

(** The default arguments of [enqueue]. *)
Definition default_priority : Z := 100.
Definition default_ttl : Z := 60.

(** [acknowledged_at IS NULL AND expires_at > now()] *)
Definition live (now : Date) (c : CommandRow) : bool :=
  negb (bool_decide (is_Some c.(c_acknowledged))) && (now <? c.(c_expires)).

Definition hasPending (nodeId type : string) (db : Db) : bool :=
  existsb (fun c => String.eqb c.(c_node) nodeId && String.eqb c.(c_type) type && live db.(pg_now) c)
    db.(controller_commands).

Definition deliverable (nodeId : string) (now : Date) (c : CommandRow) : bool :=
  String.eqb c.(c_node) nodeId && live now c && (c.(c_not_before) <=? now).

(** [ORDER BY priority DESC, issued_at] *)
Definition command_order (a b : CommandRow) : bool :=
  (b.(c_priority) <? a.(c_priority))
  || ((a.(c_priority) =? b.(c_priority)) && (a.(c_issued) <=? b.(c_issued))).

Definition pending_rows (nodeId : string) (limit : nat) (db : Db) : list CommandRow :=
  take limit (sort_by command_order
    (List.filter (deliverable nodeId db.(pg_now)) db.(controller_commands))).

Definition pending (nodeId : string) (limit : nat) (db : Db) : list QueuedCommand :=
  map (fun c => {| q_id := c.(c_id); q_type := c.(c_type); q_payload := c.(c_payload) |})
    (pending_rows nodeId limit db).

(** The status an acknowledgement is recorded with: the [ok] of the result
    counts only when it is a boolean. *)
Definition ack_status (result : json) : string :=
  match result with
  | JObj o => match jlookup "ok" o with
      | Some (JBool true) => "SUCCEEDED"
      | Some (JBool false) => "FAILED"
      | _ => "ACKNOWLEDGED"
      end
  | _ => "ACKNOWLEDGED"
  end.

Definition mark_acknowledged (commandId : string) (now : Date) (stored : option json) (c : CommandRow) : CommandRow :=
  if String.eqb c.(c_id) commandId then
    mkCommand c.(c_id) c.(c_node) c.(c_type) c.(c_payload) c.(c_priority) c.(c_issued)
      c.(c_not_before) c.(c_expires) (Some now) stored
  else c.

(** [result] is the parameter of two [jsonb] columns, as it is and as [result ?? {}].
    The UPDATE takes effect before the INSERT is tried; the INSERT fails on a
    command that was acknowledged before (PRIMARY KEY (command_id, node_id)). *)
Definition acknowledge (commandId : string) (result : json) : St Db unit := fun db =>
  match jsonb_param db.(json_in) result with
  | Throw e => (db, Throw e)
  | Ok stored =>
      let row := List.find (fun c => String.eqb c.(c_id) commandId) db.(controller_commands) in
      let db1 := set_controller_commands
        (map (mark_acknowledged commandId db.(pg_now) stored) db.(controller_commands)) db in
      match row with
      | None => (db1, Ok tt)
      | Some c =>
          if existsb (fun k => String.eqb k.(k_command) commandId && String.eqb k.(k_node) c.(c_node))
               db.(command_acknowledgements)
          then (db1, Throw unique_violation)
          else (set_command_acknowledgements (db.(command_acknowledgements) ++
                  [mkAck commandId c.(c_node) c.(c_type) c.(c_issued) db.(pg_now)
                     (ack_status result) (default (JObj []) stored)]) db1, Ok tt)
      end
  end.

Definition latestAcknowledgement (nodeId commandType : string) (db : Db) : option AckRow :=
  head (sort_by (fun a b => b.(k_acknowledged) <=? a.(k_acknowledged))
    (List.filter (fun k => String.eqb k.(k_node) nodeId && String.eqb k.(k_type) commandType
       && String.eqb k.(k_status) "SUCCEEDED") db.(command_acknowledgements))).

(** ** [PgKeyRotationLedger] *)

(** [SELECT COALESCE(MAX(epoch),0) ... WHERE node_id=$1] *)
Definition max_epoch (nodeId : string) (l : list KeyRotationRow) : Z :=
  foldr (fun r m => if String.eqb r.(kr_node) nodeId then Z.max r.(kr_epoch) m else m) 0 l.

Definition epoch_taken (nodeId : string) (epoch : Z) (l : list KeyRotationRow) : bool :=
  existsb (fun r => String.eqb r.(kr_node) nodeId && (r.(kr_epoch) =? epoch)) l.

(** The attempts of [rotate].  [others k] are the rotations other replicas
    commit between the SELECT and the INSERT of attempt [k]. *)
Fixpoint rotate_from (others : nat -> list KeyRotationRow) (attempts k : nat)
    (nodeId newPublicKey : string) : St Db Z := fun db =>
  match attempts with
  | O => (db, Throw (JsError ("could not allocate a key-rotation epoch for node " +:+ nodeId
            +:+ " after 5 attempts (concurrent rotations?)")))
  | S attempts' =>
      let nextEpoch := max_epoch nodeId db.(key_rotations) + 1 in
      let db1 := set_key_rotations (db.(key_rotations) ++ others k) db in
      if negb (bool_decide (is_Some (db1.(mesh_nodes) !! nodeId))) then (db1, Throw foreign_key_violation)
      else if epoch_taken nodeId nextEpoch db1.(key_rotations)
      then rotate_from others attempts' (S k) nodeId newPublicKey db1
      else (set_key_rotations (db1.(key_rotations) ++
              [mkRotation nodeId nextEpoch newPublicKey db.(pg_now)]) db1, Ok nextEpoch)
  end.

Definition rotate (others : nat -> list KeyRotationRow) (nodeId newPublicKey : string) : St Db Z :=
  rotate_from others 5 0 nodeId newPublicKey.

Definition last_rotated (nodeId : string) (l : list KeyRotationRow) : option Date :=
  foldr (fun r m => if String.eqb r.(kr_node) nodeId
    then Some (match m with Some t => Z.max r.(kr_at) t | None => r.(kr_at) end) else m) None l.

Definition nodesOverdueForRotation (maxAgeDays : Z) (now : Date) (db : Db) : list string :=
  List.filter (fun n => match last_rotated n db.(key_rotations) with
      | Some t => t <? now - maxAgeDays * day
      | None => false
      end)
    (remove_dups (map kr_node db.(key_rotations))).

(** ** [KeyRotationSchedulerService.run] *)
Definition rotation_command : string := "ROTATE_IDENTITY_REQUIRED".

Definition run_rotation_scheduler (maxAgeDays : Z) (now : Date) : St Db (list string) :=
  let* overdue := gets (nodesOverdueForRotation maxAgeDays now) in
  for_each overdue (fun nodeId =>
    let* p := gets (hasPending nodeId rotation_command) in
    if (p : bool) then mret tt else enqueue nodeId rotation_command (JObj []) 200 default_ttl) ;;;
  mret overdue.

(** ** Delivery *)

Lemma command_order_total a b : command_order a b = true \/ command_order b a = true.
Proof.
  unfold command_order. rewrite !orb_true_iff, !andb_true_iff, !Z.ltb_lt, !Z.eqb_eq, !Z.leb_le. lia.
Qed.

Lemma command_order_trans a b c :
  command_order a b = true -> command_order b c = true -> command_order a c = true.
Proof.
  unfold command_order. rewrite !orb_true_iff, !andb_true_iff, !Z.ltb_lt, !Z.eqb_eq, !Z.leb_le. lia.
Qed.

(** Also: a poll returns deliverable commands of the node only (not acknowledged,
    not expired, not before their time), at most [limit] of them, most urgent
    first and oldest first among equals, and leaves out a deliverable command
    only when [limit] commands at least as urgent were returned. *)
Theorem pending_most_urgent nodeId limit db :
  let sel := pending_rows nodeId limit db in
  (length sel <= limit)%nat /\
  StronglySorted (fun a b => command_order a b = true) sel /\
  (forall c, c ∈ sel -> c ∈ db.(controller_commands) /\ deliverable nodeId db.(pg_now) c = true) /\
  (forall c, c ∈ db.(controller_commands) -> deliverable nodeId db.(pg_now) c = true ->
     c ∈ sel \/ (length sel = limit /\ forall d, d ∈ sel -> command_order d c = true)).
Proof.
  intros sel. unfold sel, pending_rows.
  set (all := sort_by command_order (List.filter _ _)).
  assert (Hall : forall c, c ∈ all <-> c ∈ db.(controller_commands) /\ deliverable nodeId db.(pg_now) c = true)
    by (intros c; unfold all; by rewrite elem_of_sort_by, elem_of_List_filter).
  pose proof (sort_by_sorted command_order command_order_total command_order_trans
    (List.filter (deliverable nodeId db.(pg_now)) db.(controller_commands))) as Hs. fold all in Hs.
  rewrite <- (take_drop limit all) in Hs. apply StronglySorted_app_inv in Hs as (Hs & _ & Hle).
  split_and!; [rewrite length_take; lia|done| |].
  - intros c Hc. apply Hall. rewrite <- (take_drop limit all). apply elem_of_app. by left.
  - intros c Hc Hd. assert (c ∈ all) as Ha by (by apply Hall).
    rewrite <- (take_drop limit all) in Ha. apply elem_of_app in Ha as [Ha|Ha]; [by left|right].
    split; [|intros d Hd'; by apply Hle].
    rewrite length_take. enough (limit <= length all)%nat by lia.
    destruct (decide (limit <= length all)%nat); [done|].
    rewrite drop_ge in Ha by lia. inversion Ha.
Qed.

(** ** The queue's invariant *)

Record queue_ok (db : Db) : Prop := {
  command_ids : NoDup (map c_id db.(controller_commands));
  command_ids_used : forall c, c ∈ db.(controller_commands) ->
    exists n, c.(c_id) = str_of_Z n /\ n < db.(uuid_next);
  acks_marked : forall k, k ∈ db.(command_acknowledgements) ->
    exists c, c ∈ db.(controller_commands) /\ c.(c_id) = k.(k_command) /\ is_Some c.(c_acknowledged)
}.

Lemma command_id_inj db c c' :
  queue_ok db -> c ∈ db.(controller_commands) -> c' ∈ db.(controller_commands) ->
  c.(c_id) = c'.(c_id) -> c = c'.
Proof.
  intros [Hnd _ _] Hc Hc' E. by apply (NoDup_map_inj c_id db.(controller_commands)).
Qed.

(** The row a successful [enqueue] adds. *)
Definition new_command (nodeId type : string) (payload : json) (priority ttl : Z) (db : Db) : CommandRow :=
  mkCommand (str_of_Z db.(uuid_next)) nodeId type (jsonb payload) priority db.(pg_now) db.(pg_now)
    (db.(pg_now) + ttl * minute) None None.

Lemma enqueue_run nodeId type payload priority ttl db :
  is_Some (db.(mesh_nodes) !! nodeId) ->
  enqueue nodeId type payload priority ttl db =
  (set_controller_commands (db.(controller_commands) ++ [new_command nodeId type payload priority ttl db])
     (set_uuid_next (db.(uuid_next) + 1) db), Ok tt).
Proof. intros H. unfold enqueue. by rewrite bool_decide_eq_true_2. Qed.

Lemma enqueue_unknown nodeId type payload priority ttl db :
  db.(mesh_nodes) !! nodeId = None ->
  enqueue nodeId type payload priority ttl db = (db, Throw foreign_key_violation).
Proof. intros H. unfold enqueue. rewrite H. by rewrite bool_decide_eq_false_2 by (intros []; done). Qed.

Lemma enqueue_queue_ok nodeId type payload priority ttl db :
  queue_ok db -> queue_ok (enqueue nodeId type payload priority ttl db).1.
Proof.
  intros Hq. destruct (db.(mesh_nodes) !! nodeId) eqn:E; [|by rewrite enqueue_unknown].
  rewrite enqueue_run by eauto. destruct Hq as [H1 H2 H3]. constructor; simpl.
  - rewrite map_app. apply NoDup_snoc; [done|].
    intros (c & Ec & Hc)%elem_of_List_map. destruct (H2 c Hc) as (n & En & Hn).
    simpl in Ec. rewrite En in Ec. apply (inj str_of_Z) in Ec. lia.
  - intros c [Hc|Hc]%elem_of_app.
    + destruct (H2 c Hc) as (n & ? & ?). exists n. split; [done|lia].
    + apply list_elem_of_singleton in Hc as ->. exists db.(uuid_next). split; [done|lia].
  - intros k Hk. destruct (H3 k Hk) as (c & ? & ?). exists c.
    split; [apply elem_of_app; by left|done].
Qed.

(** What [acknowledge] does to a command that is waiting. *)
Lemma acknowledge_run id result stored db c :
  jsonb_param db.(json_in) result = Ok stored ->
  queue_ok db -> c ∈ db.(controller_commands) -> c.(c_id) = id -> c.(c_acknowledged) = None ->
  acknowledge id result db =
  (set_command_acknowledgements (db.(command_acknowledgements) ++
     [mkAck id c.(c_node) c.(c_type) c.(c_issued) db.(pg_now) (ack_status result) (default (JObj []) stored)])
   (set_controller_commands (map (mark_acknowledged id db.(pg_now) stored) db.(controller_commands)) db), Ok tt).
Proof.
  intros Hp Hq Hc Hid Hn. unfold acknowledge. rewrite Hp.
  assert (List.find (fun c => String.eqb c.(c_id) id) db.(controller_commands) = Some c) as ->.
  { destruct (List.find _ _) as [d|] eqn:F.
    - apply find_elem in F as [Hd E]. bools. f_equal. by apply (command_id_inj db); [..|congruence].
    - rewrite find_None_elem in F. specialize (F c Hc). bools. done. }
  destruct (existsb _ _) eqn:X; [|done]. apply existsb_elem in X as (k & Hk & E). bools.
  destruct (acks_marked _ Hq k Hk) as (d & Hd & Ed & [t Ht]).
  assert (d = c) by (apply (command_id_inj db); [done..|congruence]). congruence.
Qed.

Lemma mark_acknowledged_id id now stored c : (mark_acknowledged id now stored c).(c_id) = c.(c_id).
Proof. unfold mark_acknowledged. by destruct (String.eqb _ _). Qed.

Lemma mark_acknowledged_done id now stored c :
  is_Some c.(c_acknowledged) -> is_Some (mark_acknowledged id now stored c).(c_acknowledged).
Proof. unfold mark_acknowledged. destruct (String.eqb _ _); [by eauto|done]. Qed.

Lemma acknowledge_queue_ok id result stored db c :
  jsonb_param db.(json_in) result = Ok stored ->
  queue_ok db -> c ∈ db.(controller_commands) -> c.(c_id) = id -> c.(c_acknowledged) = None ->
  queue_ok (acknowledge id result db).1.
Proof.
  intros Hp Hq Hc Hid Hn. rewrite (acknowledge_run id result stored db c) by done.
  destruct Hq as [H1 H2 H3]. constructor; simpl.
  - by rewrite map_map, (map_ext _ c_id (mark_acknowledged_id _ _ _)).
  - intros d (x & -> & Hx)%elem_of_List_map. rewrite mark_acknowledged_id. auto.
  - intros k [Hk|Hk]%elem_of_app.
    + destruct (H3 k Hk) as (d & Hd & Ed & Hs). exists (mark_acknowledged id db.(pg_now) stored d).
      split_and!; [apply elem_of_List_map; by eauto|by rewrite mark_acknowledged_id|].
      by apply mark_acknowledged_done.
    + apply list_elem_of_singleton in Hk as ->. simpl.
      exists (mark_acknowledged id db.(pg_now) stored c).
      split_and!; [apply elem_of_List_map; by eauto|by rewrite mark_acknowledged_id|].
      unfold mark_acknowledged. rewrite (proj2 (String.eqb_eq _ _)) by done. by eauto.
Qed.

(** C39: acknowledging a waiting command removes exactly that command from
    delivery, for good: the call succeeds and keeps the queue's invariant, no
    poll of any node at any later time returns the command again, every other
    command is untouched, and one acknowledgement row is added whose status is
    SUCCEEDED or FAILED by the boolean [ok] of the result and ACKNOWLEDGED
    without one.  A result the driver cannot send to a [jsonb] column (a text that
    is no JSON, an array that is not empty) is refused and changes nothing. *)
Theorem acknowledge_delivers_once id result db c :
  queue_ok db -> c ∈ db.(controller_commands) -> c.(c_id) = id -> c.(c_acknowledged) = None ->
  match jsonb_param db.(json_in) result with
  | Throw e => acknowledge id result db = (db, Throw e)
  | Ok stored => exists db', acknowledge id result db = (db', Ok tt) /\ queue_ok db' /\
      (forall t node limit q, q ∈ pending node limit (set_pg_now t db') -> q.(q_id) <> id) /\
      (forall d, d.(c_id) <> id -> (d ∈ db'.(controller_commands) <-> d ∈ db.(controller_commands))) /\
      db'.(command_acknowledgements) = db.(command_acknowledgements) ++
        [mkAck id c.(c_node) c.(c_type) c.(c_issued) db.(pg_now) (ack_status result) (default (JObj []) stored)]
  end.
Proof.
  intros Hq Hc Hid Hn. destruct (jsonb_param _ _) as [stored|e] eqn:Hp; [|unfold acknowledge; by rewrite Hp].
  eexists. split; [by apply (acknowledge_run id result stored db c)|].
  split_and!.
  - pose proof (acknowledge_queue_ok id result stored db c Hp Hq Hc Hid Hn) as H.
    by rewrite (acknowledge_run id result stored db c) in H.
  - intros t node limit q (x & -> & Hx)%elem_of_List_map E. simpl in E.
    unfold pending_rows in Hx. assert (x ∈ sort_by command_order (List.filter (deliverable node t)
      (map (mark_acknowledged id db.(pg_now) stored) db.(controller_commands)))) as Hs.
    { eapply elem_of_subseteq; [|exact Hx]. intros y Hy. rewrite <- (take_drop limit).
      apply elem_of_app. by left. }
    rewrite elem_of_sort_by, elem_of_List_filter in Hs. destruct Hs as [Hm Hd].
    apply elem_of_List_map in Hm as (y & -> & Hy). rewrite mark_acknowledged_id in E.
    unfold deliverable, live, mark_acknowledged in Hd. rewrite E, String.eqb_refl in Hd. simpl in Hd.
    by bools.
  - intros d Hd. simpl. rewrite elem_of_List_map. split.
    + intros (x & -> & Hx). rewrite mark_acknowledged_id in Hd. unfold mark_acknowledged.
      by rewrite (proj2 (String.eqb_neq _ _)).
    + intros Hx. exists d. split; [|done]. unfold mark_acknowledged.
      by rewrite (proj2 (String.eqb_neq _ _)).
  - done.
Qed.

Definition sample_db : Db :=
  set_mesh_nodes {[ "n1" := sample_node "n1" "d1" "key1" "10.144.0.1" ]} (empty_db 1000).

Lemma empty_queue_ok now : queue_ok (empty_db now).
Proof. constructor; simpl; [constructor|intros c Hc; inversion Hc..]. Qed.

Lemma acknowledge_delivers_once_witness :
  let db := (enqueue "n1" "QUARANTINE" (JObj []) 200 60 sample_db).1 in
  length (pending "n1" 20 db) = 1%nat /\
  pending "n1" 20 (acknowledge "1" (JObj [("ok", JBool true)]) db).1 = [].
Proof.
  intros db. split; [vm_compute; reflexivity|].
  assert (queue_ok db) as Hq.
  { apply enqueue_queue_ok. destruct (empty_queue_ok 1000). by constructor. }
  destruct (acknowledge_delivers_once "1" (JObj [("ok", JBool true)]) db
    (new_command "n1" "QUARANTINE" (JObj []) 200 60 sample_db) Hq) as (db' & E & _ & H & _).
  - vm_compute. left.
  - vm_compute. reflexivity.
  - reflexivity.
  - rewrite E. simpl. revert H. vm_compute in E. injection E as <-. intros _. vm_compute. reflexivity.
Defined.

(** ** The rotation scheduler *)

(** How many live commands of a type a node has. *)
Definition waiting (type nodeId : string) (db : Db) : nat :=
  length (List.filter (fun c => String.eqb c.(c_node) nodeId && String.eqb c.(c_type) type && live db.(pg_now) c)
    db.(controller_commands)).

Lemma hasPending_waiting nodeId type db : hasPending nodeId type db = (0 <? waiting type nodeId db)%nat.
Proof.
  unfold hasPending, waiting. induction (controller_commands db) as [|c l IH]; simpl; [done|].
  by destruct (_ && _).
Qed.

Lemma enqueue_waiting nodeId type payload priority ttl n db :
  0 < ttl -> is_Some (db.(mesh_nodes) !! nodeId) ->
  waiting type n (enqueue nodeId type payload priority ttl db).1
  = (waiting type n db + if String.eqb nodeId n then 1 else 0)%nat.
Proof.
  intros Ht H. rewrite enqueue_run by done. unfold waiting. simpl.
  rewrite List.filter_app, length_app. f_equal. simpl.
  rewrite String.eqb_refl, andb_true_r. destruct (String.eqb nodeId n); [|done].
  unfold live. simpl. rewrite (proj2 (Z.ltb_lt _ _)) by (unfold minute; lia). done.
Qed.

(** The steps of the scheduler change the queue only. *)
Definition same_but_queue (db db' : Db) : Prop :=
  db'.(pg_now) = db.(pg_now) /\ db'.(mesh_nodes) = db.(mesh_nodes) /\
  db'.(key_rotations) = db.(key_rotations) /\ exists l, db'.(controller_commands) = db.(controller_commands) ++ l.

Lemma scheduler_loop l db :
  (forall n, n ∈ l -> is_Some (db.(mesh_nodes) !! n)) ->
  exists db', for_each l (fun nodeId =>
      let* p := gets (hasPending nodeId rotation_command) in
      if (p : bool) then mret tt else enqueue nodeId rotation_command (JObj []) 200 default_ttl) db = (db', Ok tt)
    /\ same_but_queue db db'
    /\ forall n, waiting rotation_command n db' =
         if includes l n then Nat.max 1 (waiting rotation_command n db) else waiting rotation_command n db.
Proof.
  revert db; induction l as [|x l IH]; intros db Hl.
  { exists db. split_and!; [done|split_and!; try done; exists []; by rewrite app_nil_r|done]. }
  set (db1 := if hasPending x rotation_command db then db
              else (enqueue x rotation_command (JObj []) 200 default_ttl db).1).
  assert (Hx : is_Some (db.(mesh_nodes) !! x)) by (apply Hl; left).
  assert (H1 : same_but_queue db db1).
  { unfold db1. destruct (hasPending _ _ _); [|rewrite enqueue_run by done];
      split_and!; try done; [exists []; by rewrite app_nil_r|by eexists]. }
  assert (Hw : forall n, waiting rotation_command n db1 =
    if String.eqb x n then Nat.max 1 (waiting rotation_command n db) else waiting rotation_command n db).
  { intros n. unfold db1. rewrite hasPending_waiting.
    destruct (Nat.ltb_spec 0 (waiting rotation_command x db)); [|rewrite enqueue_waiting by done];
      destruct (String.eqb_spec x n); subst; lia. }
  destruct H1 as (N1 & M1 & K1 & c1 & C1).
  destruct (IH db1) as (db2 & E2 & (N2 & M2 & K2 & c2 & C2) & W2).
  { intros n Hn. rewrite M1. apply Hl. by right. }
  exists db2. split_and!.
  - cbn [for_each]. rewrite (bind_ok _ _ db db1 tt); [exact E2|].
    unfold mbind, St_bind, gets, db1. destruct (hasPending _ _ _); [done|]. by rewrite enqueue_run.
  - split_and!; [congruence..|]. exists (c1 ++ c2). by rewrite C2, C1, app_assoc.
  - intros n. rewrite W2, Hw. unfold includes. rewrite (bool_decide_ext (n ∈ x :: l) (x = n \/ n ∈ l))
      by (rewrite elem_of_cons; naive_solver).
    destruct (String.eqb_spec x n); repeat case_bool_decide; try lia; naive_solver.
Qed.

(** Also: a run of the scheduler leaves every overdue node with a live rotation
    request and never piles a second one on a node that has one: the number of
    live requests of a node becomes at least one if it is overdue and stays as
    it was otherwise; it is raised only from zero.  The run reports exactly the
    overdue nodes and only appends to the queue. *)
Theorem scheduler_requests_once maxAgeDays now db :
  (forall r, r ∈ db.(key_rotations) -> is_Some (db.(mesh_nodes) !! r.(kr_node))) ->
  exists db', run_rotation_scheduler maxAgeDays now db = (db', Ok (nodesOverdueForRotation maxAgeDays now db)) /\
    same_but_queue db db' /\
    forall n, waiting rotation_command n db' =
      if includes (nodesOverdueForRotation maxAgeDays now db) n
      then Nat.max 1 (waiting rotation_command n db) else waiting rotation_command n db.
Proof.
  intros Hfk. destruct (scheduler_loop (nodesOverdueForRotation maxAgeDays now db) db) as (db' & E & H).
  { intros n [Hn _]%elem_of_List_filter. apply elem_of_remove_dups, elem_of_List_map in Hn as (r & -> & Hr).
    auto. }
  exists db'. split; [|done]. unfold run_rotation_scheduler, gets. cbn [mbind St_bind].
  unfold mbind at 1, St_bind at 1. by rewrite (bind_ok _ _ _ _ _ E).
Qed.

(** A node is overdue when it has rotated, and its latest rotation is older
    than the window. *)
Lemma last_rotated_spec nodeId l t :
  last_rotated nodeId l = Some t ->
  (exists r, r ∈ l /\ r.(kr_node) = nodeId /\ r.(kr_at) = t) /\
  forall r, r ∈ l -> r.(kr_node) = nodeId -> r.(kr_at) <= t.
Proof.
  revert t; induction l as [|r l IH]; intros t; simpl; [done|].
  destruct (String.eqb_spec r.(kr_node) nodeId) as [En|En].
  - destruct (last_rotated nodeId l) as [u|] eqn:L; intros [= <-].
    + destruct (IH u eq_refl) as [(q & Hq & Eq & Et) Hmax]. split.
      * destruct (Z.max_spec (kr_at r) u) as [[? ->]|[? ->]];
          [exists q; split; [by right|done]|exists r; split; [by left|done]].
      * intros p [->|Hp]%elem_of_cons Ep; [lia|]. specialize (Hmax p Hp Ep). lia.
    + split; [exists r; split; [left|done]|]. intros p [->|Hp]%elem_of_cons Ep; [lia|].
      exfalso. clear IH. induction l as [|q l IHl]; [inversion Hp|]. simpl in L.
      destruct (String.eqb_spec (kr_node q) nodeId); [done|].
      apply elem_of_cons in Hp as [->|Hp]; [done|auto].
  - intros L. destruct (IH t L) as [(q & Hq & Eq & Et) Hmax]. split; [exists q; split; [by right|done]|].
    intros p [->|Hp]%elem_of_cons Ep; [done|auto].
Qed.

(** The nodes [nodesOverdueForRotation] reports: those that have rotated and
    whose every rotation is older than the window. *)
Lemma elem_of_overdue maxAgeDays now db n :
  n ∈ nodesOverdueForRotation maxAgeDays now db <->
  (exists r, r ∈ db.(key_rotations) /\ r.(kr_node) = n) /\
  forall r, r ∈ db.(key_rotations) -> r.(kr_node) = n -> r.(kr_at) < now - maxAgeDays * day.
Proof.
  unfold nodesOverdueForRotation. rewrite elem_of_List_filter, elem_of_remove_dups, elem_of_List_map.
  destruct (last_rotated n (key_rotations db)) as [t|] eqn:L.
  - apply last_rotated_spec in L as [(q & Hq & Eq & Et) Hmax]. rewrite Z.ltb_lt. split.
    + intros [(r & -> & Hr) Ht]. split; [by eauto|]. intros p Hp Ep. specialize (Hmax p Hp Ep). lia.
    + intros [(r & Hr & <-) Hall]. split; [by eauto|]. specialize (Hall q Hq Eq). lia.
  - split; [intros [_ ?]; done|]. intros [(r & Hr & <-) _]. exfalso.
    induction (key_rotations db) as [|q l IHl]; [inversion Hr|]. simpl in L.
    destruct (String.eqb_spec (kr_node q) (kr_node r)); [done|].
    apply elem_of_cons in Hr as [->|Hr]; [done|auto].
Qed.

Lemma scheduler_requests_once_witness :
  let db := set_key_rotations [mkRotation "n1" 1 "k" 0] sample_db in
  let run := run_rotation_scheduler 30 (31 * day) db in
  waiting rotation_command "n1" run.1 = 1%nat /\
  waiting rotation_command "n1" (run_rotation_scheduler 30 (31 * day) run.1).1 = 1%nat.
Proof.
  intros db run.
  destruct (scheduler_requests_once 30 (31 * day) db) as (db1 & E1 & S1 & W1).
  { intros r Hr. apply list_elem_of_singleton in Hr as ->. by eexists. }
  assert (run.1 = db1) as R by (unfold run; rewrite E1; reflexivity). rewrite R.
  destruct S1 as (_ & M1 & K1 & _).
  destruct (scheduler_requests_once 30 (31 * day) db1) as (db2 & E2 & _ & W2).
  { rewrite K1, M1. intros r Hr. apply list_elem_of_singleton in Hr as ->. by eexists. }
  rewrite E2. simpl. rewrite W2, W1.
  split; [vm_compute; reflexivity|].
  unfold nodesOverdueForRotation at 1. rewrite K1. vm_compute. reflexivity.
Defined.

(** ** Epochs of the rotation ledger *)

Lemma max_epoch_nonneg nodeId l : 0 <= max_epoch nodeId l.
Proof. induction l as [|r l IH]; simpl; [lia|]. destruct (String.eqb _ _); lia. Qed.

Lemma max_epoch_ge nodeId l r : r ∈ l -> r.(kr_node) = nodeId -> r.(kr_epoch) <= max_epoch nodeId l.
Proof.
  induction l as [|q l IH]; [intros H; inversion H|]. simpl.
  intros [->|Hr]%elem_of_cons E; [rewrite (proj2 (String.eqb_eq _ _)) by done; lia|].
  specialize (IH Hr E). destruct (String.eqb _ _); lia.
Qed.

Lemma max_epoch_app nodeId l l' : max_epoch nodeId (l ++ l') = Z.max (max_epoch nodeId l) (max_epoch nodeId l').
Proof.
  induction l as [|r l IH]; simpl; [pose proof (max_epoch_nonneg nodeId l'); lia|].
  rewrite IH. destruct (String.eqb _ _); lia.
Qed.

(** The key of the table. *)
Definition ledger_key (r : KeyRotationRow) : string * Z := (r.(kr_node), r.(kr_epoch)).

Lemma epoch_taken_spec nodeId e l : epoch_taken nodeId e l = true <-> (nodeId, e) ∈ map ledger_key l.
Proof.
  unfold epoch_taken. rewrite existsb_elem, elem_of_List_map. unfold ledger_key. split.
  - intros (r & Hr & H). bools. subst. eauto.
  - intros (r & [= -> ->] & Hr). exists r. by rewrite String.eqb_refl, Z.eqb_refl.
Qed.

(** Also: a rotation is given an epoch above every epoch the node had when it
    started, no other rotation has or gets that epoch, and the new key is the
    last row of the ledger.  It can fail only when other replicas rotated the
    same node during every one of the five attempts. *)
Theorem rotate_allocates_epoch others nodeId key db :
  is_Some (db.(mesh_nodes) !! nodeId) ->
  match rotate others nodeId key db with
  | (db', Ok e) =>
      max_epoch nodeId db.(key_rotations) < e /\
      exists before, db'.(key_rotations) = before ++ [mkRotation nodeId e key db.(pg_now)] /\
        (nodeId, e) ∉ map ledger_key before /\ db.(key_rotations) `prefix_of` before
  | (_, Throw _) => forall k, (k < 5)%nat -> exists r, r ∈ others k /\ r.(kr_node) = nodeId
  end.
Proof.
  unfold rotate.
  enough (G : forall n k db0, is_Some (db0.(mesh_nodes) !! nodeId) ->
    match rotate_from others n k nodeId key db0 with
    | (db', Ok e) =>
        max_epoch nodeId db0.(key_rotations) < e /\
        exists before, db'.(key_rotations) = before ++ [mkRotation nodeId e key db0.(pg_now)] /\
          (nodeId, e) ∉ map ledger_key before /\ db0.(key_rotations) `prefix_of` before
    | (_, Throw _) => forall j, (k <= j < k + n)%nat -> exists r, r ∈ others j /\ r.(kr_node) = nodeId
    end).
  { intros H. specialize (G 5%nat 0%nat db H). destruct (rotate_from _ _ _ _ _ _) as [db' [e|x]]; [done|].
    intros j Hj. apply G. lia. }
  clear db. induction n as [|n IH]; intros k db0 H; [simpl; intros j Hj; lia|].
  cbn [rotate_from]. simpl (mesh_nodes _). rewrite bool_decide_eq_true_2 by done. cbn [negb].
  set (e := max_epoch nodeId (key_rotations db0) + 1). simpl (key_rotations _).
  destruct (epoch_taken nodeId e (key_rotations db0 ++ others k)) eqn:T.
  - set (db1 := set_key_rotations (key_rotations db0 ++ others k) db0).
    specialize (IH (S k) db1 H).
    destruct (rotate_from others n (S k) nodeId key db1) as [db' [e'|x]].
    + destruct IH as (He & before & E & Hn & Hp). simpl in He. rewrite max_epoch_app in He.
      split; [lia|]. exists before. split_and!; [done..|]. etrans; [|exact Hp]. by apply prefix_app_r.
    + intros j Hj. destruct (decide (j = k)) as [->|]; [|apply IH; lia].
      apply epoch_taken_spec in T. rewrite map_app in T. apply elem_of_app in T as [T|T].
      * apply elem_of_List_map in T as (r & [= En Ee] & Hr).
        pose proof (max_epoch_ge nodeId (key_rotations db0) r Hr (eq_sym En)). subst e. lia.
      * apply elem_of_List_map in T as (r & [= En Ee] & Hr). eauto.
  - split; [subst e; lia|]. exists (key_rotations db0 ++ others k). split_and!; [done| |by apply prefix_app_r].
    rewrite <- epoch_taken_spec. congruence.
Qed.

Lemma rotate_allocates_epoch_witness :
  let others k := match k with O => [mkRotation "n1" 1 "other" 1000] | _ => [] end in
  exists db', rotate others "n1" "mine" sample_db = (db', Ok 2) /\
    max_epoch "n1" (key_rotations sample_db) < 2.
Proof.
  intros others. pose proof (rotate_allocates_epoch others "n1" "mine" sample_db) as P.
  destruct (rotate others "n1" "mine" sample_db) as [db' [e|x]] eqn:E.
  - assert (e = 2) as -> by (vm_compute in E; congruence).
    exists db'. split; [reflexivity|]. apply P. vm_compute. by eexists.
  - vm_compute in E. discriminate E.
Defined.
