(* ===== verification/Enforcer.v ===== *)
(** * Compiling and enforcing policies

    [PolicyCompiler] ([src/src/application/policy-compiler.ts]),
    [firewallRulesFor] and [PgPolicyEnforcer]
    ([src/src/infrastructure/pg-policy-enforcer.ts]).  SHA-256 is a parameter. *)

From S2P Require Import Prelude Json Text Domain Database Repositories CommandQueue.
Open Scope Z_scope.

(** ** [PolicyCompiler] *)

Record PolicyIrRule := mkRule {
  ru_id : string; ru_source : list SecurityZone; ru_destination : list SecurityZone;
  ru_protocols : list Protocol; ru_ports : list Z; ru_action : PolicyAction; ru_log : bool
}.

Record PolicyIrDocument := {
  ir_version : Z; ir_generatedAt : Date; ir_checksum : string; ir_rules : list PolicyIrRule
}.

Definition zones : list string :=
  ["ZONE_PROD_DATA"; "ZONE_PROD_APP"; "ZONE_STAGING"; "ZONE_DEV"; "ZONE_ADMIN_MGMT";
   "ZONE_FORENSIC_ISOLATION"].

Definition known_zone (z : SecurityZone) : bool := includes zones (zone_name z).

(** The callback of [map]: it validates and translates one policy. *)
Definition compile_policy (p : NetworkPolicy) : res PolicyIrRule :=
  if negb (forallb known_zone p.(sourceZones)) || negb (forallb known_zone p.(destinationZones))
  then Throw (ValidationError ("invalid zone in " +:+ p.(p_name)))
  else if existsb (fun x => (x <? 1) || (65535 <? x)) p.(destinationPorts)
  then Throw (ValidationError ("invalid port in " +:+ p.(p_name)))
  else Ok (mkRule p.(p_id) p.(sourceZones) p.(destinationZones) p.(protocols)
             p.(destinationPorts) p.(p_action) true).

Fixpoint map_res {A B} (f : A -> res B) (l : list A) : res (list B) :=
  match l with
  | [] => Ok []
  | x :: l' =>
      match f x with
      | Throw e => Throw e
      | Ok y => match map_res f l' with Ok ys => Ok (y :: ys) | Throw e => Throw e end
      end
  end.

Definition rule_json (r : PolicyIrRule) : json := JObj
  [("id", JStr r.(ru_id)); ("source", jstrs (map zone_name r.(ru_source)));
   ("destination", jstrs (map zone_name r.(ru_destination)));
   ("protocols", jstrs (map protocol_name r.(ru_protocols))); ("ports", JArr (map JNum r.(ru_ports)));
   ("action", JStr (action_name r.(ru_action))); ("log", JBool r.(ru_log))].

Definition higher_priority (a b : NetworkPolicy) : bool := b.(priority) <=? a.(priority).

Definition compile (sha256 : string -> string) (policies : list NetworkPolicy) (now : Date) : res PolicyIrDocument :=
  match map_res compile_policy (sort_by higher_priority (List.filter p_active policies)) with
  | Throw e => Throw e
  | Ok rules => Ok {| ir_version := 1; ir_generatedAt := now;
      ir_checksum := to_hex (sha256 (json_stringify (JArr (map rule_json rules)))); ir_rules := rules |}
  end.

(** The platform plans. *)
Definition csv (l : list string) : string := join "," l.
Definition ports_csv (l : list Z) : string := csv (map str_of_Z l).

Definition linux_ebpf (ir : PolicyIrDocument) : list (string * string) :=
  map (fun r => (csv (map zone_name r.(ru_source)) +:+ "|" +:+ csv (map zone_name r.(ru_destination))
      +:+ "|" +:+ csv (map protocol_name r.(ru_protocols)) +:+ "|" +:+ ports_csv r.(ru_ports),
    action_name r.(ru_action))) ir.(ir_rules).
Definition linux_nftables (ir : PolicyIrDocument) : list string :=
  map (fun r => toLowerCase (action_name r.(ru_action)) +:+ " " +:+ csv (map protocol_name r.(ru_protocols))
    +:+ " dport { " +:+ ports_csv r.(ru_ports) +:+ " } comment " +:+ r.(ru_id)) ir.(ir_rules).

Record WfpFilter := { wf_name : string; wf_layer : string; wf_action : string;
  wf_zones : string; wf_protocols : string; wf_ports : string }.
Definition windows_plan (ir : PolicyIrDocument) : list WfpFilter :=
  map (fun r => {| wf_name := "BAPC-" +:+ r.(ru_id); wf_layer := "ALE_AUTH_CONNECT_V4_V6";
    wf_action := if bool_decide (r.(ru_action) = ALLOW) then "PERMIT" else "BLOCK";
    wf_zones := csv (map zone_name r.(ru_source)) +:+ "->" +:+ csv (map zone_name r.(ru_destination));
    wf_protocols := csv (map protocol_name r.(ru_protocols)); wf_ports := ports_csv r.(ru_ports) |}) ir.(ir_rules).

Record AppleRule := { ap_matchNetworks : list SecurityZone; ap_action : string }.
Definition apple_plan (ir : PolicyIrDocument) : list AppleRule :=
  map (fun r => {| ap_matchNetworks := r.(ru_destination);
    ap_action := if bool_decide (r.(ru_action) = ALLOW) then "allow" else "drop" |}) ir.(ir_rules).

(** ** [firewallRulesFor] *)
Definition firewallRulesFor (policies : list NetworkPolicy) : json :=
  JArr (map (fun p => JObj
    [("id", JStr p.(p_id));
     ("action", JStr (if bool_decide (p.(p_action) = ALLOW) then "ALLOW" else "DENY"));
     ("protocols", jstrs (map protocol_name p.(protocols)));
     ("ports", JArr (map JNum p.(destinationPorts)));
     ("sourceZones", jstrs (map zone_name p.(sourceZones)));
     ("destinationZones", jstrs (map zone_name p.(destinationZones)))]) policies).

(** ** [PgPolicyEnforcer] *)
Definition SYSTEM_INITIATOR : string := "00000000-0000-0000-0000-000000000000".


Definition insert_commit (commitId : string) (policies : list NetworkPolicy) (by_ : string) : St Db unit := fun db =>
  match db.(policy_commits) !! commitId with
  | Some _ => (db, Throw unique_violation)
  | None => (set_policy_commits (<[commitId := mkCommit policies STAGED by_ None]> db.(policy_commits)) db, Ok tt)
  end.

Definition set_commit_status (commitId : string) (st : CommitStatus) : St Db unit :=
  modify (fun db => set_policy_commits (alter (fun c => mkCommit c.(pc_policies) st c.(pc_initiated_by)
    (Some db.(pg_now))) commitId db.(policy_commits)) db).

(** [for (const node of nodes) await queue.enqueue(node.id, type, payload, priority)] *)
Definition broadcast (type : string) (payload : json) (priority : Z) (nodes : list MeshNode) : St Db unit :=
  for_each nodes (fun n => enqueue n.(n_id) type payload priority default_ttl).

Definition stage (sha256 : string -> string) (now : Date) (commitId : string)
    (policies : list NetworkPolicy) (initiatedBy : option string) : St Db (list string) :=
  lift_res (compile sha256 policies now) ;;;
  insert_commit commitId policies (default SYSTEM_INITIATOR initiatedBy) ;;;
  let rules := firewallRulesFor policies in
  let* nodes := gets list_nodes in
  broadcast "APPLY_FIREWALL" (JObj [("commitId", JStr commitId); ("defaultAction", JStr "DENY"); ("rules", rules)])
    default_priority nodes ;;;
  mret (map n_id nodes).

Definition commit (commitId : string) : St Db unit := set_commit_status commitId COMMITTED.

Definition rollback (commitId : string) : St Db unit :=
  set_commit_status commitId ROLLED_BACK_COMMIT ;;;
  let* nodes := gets list_nodes in
  broadcast "ROLLBACK_FIREWALL" (JObj [("commitId", JStr commitId)]) 200 nodes.

Definition isolateNode (nodeId : string) : St Db unit :=
  let* n := gets (repo_get nodeId) in
  match n with
  | None => mret tt
  | Some _ => enqueue nodeId "QUARANTINE" (JObj [("reason", JStr "policy enforcement point")]) 200 default_ttl
  end.

Definition restoreNode (nodeId : string) : St Db unit :=
  let* n := gets (repo_get nodeId) in
  match n with
  | None => mret tt
  | Some _ => enqueue nodeId "RESTORE" (JObj []) 200 default_ttl
  end.

(** ** Broadcasts *)

(** A fresh command of the broadcast, live for the default time. *)
Definition broadcast_command (type : string) (payload : json) (priority : Z) (now : Date)
    (n : MeshNode) (c : CommandRow) : Prop :=
  c.(c_node) = n.(n_id) /\ c.(c_type) = type /\ c.(c_payload) = jsonb payload /\ c.(c_priority) = priority /\
  c.(c_acknowledged) = None /\ c.(c_not_before) = now /\ c.(c_expires) = now + default_ttl * minute.

Lemma broadcast_run type payload priority nodes db :
  (forall n, n ∈ nodes -> is_Some (db.(mesh_nodes) !! n.(n_id))) ->
  exists u l, broadcast type payload priority nodes db =
      (set_controller_commands (db.(controller_commands) ++ l) (set_uuid_next u db), Ok tt) /\
    Forall2 (broadcast_command type payload priority db.(pg_now)) nodes l.
Proof.
  revert db; induction nodes as [|n nodes IH]; intros db Hn.
  { exists db.(uuid_next), []. split; [|constructor]. rewrite app_nil_r. by destruct db. }
  set (c := new_command n.(n_id) type payload priority default_ttl db).
  set (db1 := set_controller_commands (db.(controller_commands) ++ [c]) (set_uuid_next (db.(uuid_next) + 1) db)).
  destruct (IH db1) as (u & l & E & H); [intros m Hm; apply Hn; by right|].
  exists u, (c :: l). split; [|by constructor].
  unfold broadcast. cbn [for_each].
  rewrite (bind_ok _ _ db db1 tt) by (apply enqueue_run, Hn; left).
  unfold broadcast in E. rewrite E. unfold db1. simpl. by rewrite <- app_assoc.
Qed.

(** The nodes a broadcast goes to can all be written to. *)
Lemma list_nodes_present db n : db_ok db -> n ∈ list_nodes db -> is_Some (db.(mesh_nodes) !! n.(n_id)).
Proof.
  intros Hok (m & Hm & _ & ->)%elem_of_list_nodes. apply elem_of_rows in Hm as (k & Hk).
  simpl. rewrite (nodes_keyed _ Hok k m Hk). by eauto.
Qed.

Lemma compile_policy_ok p :
  is_ok (compile_policy p) = true <-> Forall (fun x => 1 <= x <= 65535) p.(destinationPorts).
Proof.
  unfold compile_policy.
  assert (forall l, forallb known_zone l = true) as Hz.
  { intros l. apply forallb_Forall, Forall_forall. intros z _. by destruct z. }
  rewrite !Hz. simpl. rewrite Forall_forall.
  destruct (existsb _ _) eqn:E.
  - apply existsb_elem in E as (x & Hx & B). split; [done|]. intros H. specialize (H x Hx).
    apply orb_true_iff in B as [B|B]; bools; lia.
  - rewrite existsb_elem_false in E. split; [|done]. intros _ x Hx. specialize (E x Hx). bools. lia.
Qed.

Lemma map_res_spec {A B} (f : A -> res B) l :
  match map_res f l with
  | Ok ys => Forall2 (fun x y => f x = Ok y) l ys
  | Throw e => exists x, x ∈ l /\ f x = Throw e
  end.
Proof.
  induction l as [|x l IH]; simpl; [constructor|].
  destruct (f x) as [y|e] eqn:E; [|exists x; split; [left|done]].
  destruct (map_res f l) as [ys|e]; [by constructor|].
  destruct IH as (z & Hz & Ez). exists z. split; [by right|done].
Qed.

(** Also: compilation accepts a policy set exactly when every active policy names
    only ports 1..65535 (zones are well-typed), and then yields one rule per
    active policy, in order of falling priority, with the policy's own zones,
    protocols, ports and action. *)
Theorem compile_accepts_iff sha256 policies now :
  (is_ok (compile sha256 policies now) = true <->
   forall p, p ∈ policies -> p.(p_active) = true -> Forall (fun x => 1 <= x <= 65535) p.(destinationPorts)) /\
  forall doc, compile sha256 policies now = Ok doc ->
    exists ps, ps ≡ₚ List.filter p_active policies /\
      StronglySorted (fun a b => higher_priority a b = true) ps /\
      doc.(ir_rules) = map (fun p => mkRule p.(p_id) p.(sourceZones) p.(destinationZones)
        p.(protocols) p.(destinationPorts) p.(p_action) true) ps.
Proof.
  unfold compile. set (ps := sort_by higher_priority (List.filter p_active policies)).
  assert (forall p, p ∈ ps <-> p ∈ policies /\ p.(p_active) = true) as Hps
    by (intros p; unfold ps; by rewrite elem_of_sort_by, elem_of_List_filter).
  pose proof (map_res_spec compile_policy ps) as H.
  destruct (map_res compile_policy ps) as [rules|e]; split.
  - split; [|done]. intros _ p Hp Ha. apply compile_policy_ok.
    assert (p ∈ ps) as [i Hi]%list_elem_of_lookup_1 by (by apply Hps).
    destruct (Forall2_lookup_l _ _ _ _ _ H Hi) as (y & _ & E). by rewrite E.
  - intros doc [= <-]. exists ps. split_and!; [apply sort_by_perm|apply sort_by_sorted|].
    + intros a b. unfold higher_priority. rewrite !Z.leb_le. lia.
    + intros a b c. unfold higher_priority. rewrite !Z.leb_le. lia.
    + simpl. clear Hps. induction H as [|p r ps' rs E _ IH]; [done|]. cbn [map]. f_equal; [|done].
      unfold compile_policy in E. repeat case_match; congruence.
  - simpl. split; [done|]. intros Hall. destruct H as (p & Hp & E). apply Hps in Hp as [Hp Ha].
    specialize (Hall p Hp Ha). apply compile_policy_ok in Hall. by rewrite E in Hall.
  - done.
Qed.

(** Also: staging is all or nothing.  It either records the commit as STAGED and
    queues, for every node active at that moment and for no other, one live
    APPLY_FIREWALL command that carries the commit, denies by default and holds
    the rules of the given policies, and returns exactly those nodes; or it
    throws (a port out of range, a commit id in use) and nothing has changed. *)
Theorem stage_all_or_nothing sha256 now commitId policies initiatedBy db :
  db_ok db ->
  match stage sha256 now commitId policies initiatedBy db with
  | (db', Ok ids) =>
      ids = map n_id (list_nodes db) /\ db.(policy_commits) !! commitId = None /\
      db'.(policy_commits) = <[commitId := mkCommit policies STAGED (default SYSTEM_INITIATOR initiatedBy) None]>
        db.(policy_commits) /\
      exists l, db'.(controller_commands) = db.(controller_commands) ++ l /\
        Forall2 (broadcast_command "APPLY_FIREWALL" (JObj [("commitId", JStr commitId);
          ("defaultAction", JStr "DENY"); ("rules", firewallRulesFor policies)]) default_priority db.(pg_now))
          (list_nodes db) l
  | (db', Throw e) => db' = db
  end.
Proof.
  intros Hok. unfold stage, lift_res, insert_commit, mbind, St_bind, gets.
  destruct (compile sha256 policies now) as [doc|e]; [|done].
  destruct (db.(policy_commits) !! commitId) eqn:C; [done|].
  set (db1 := set_policy_commits _ db).
  destruct (broadcast_run "APPLY_FIREWALL" (JObj [("commitId", JStr commitId);
    ("defaultAction", JStr "DENY"); ("rules", firewallRulesFor policies)]) default_priority (list_nodes db1) db1)
    as (u & l & E & H).
  { intros n Hn. by apply (list_nodes_present db). }
  rewrite E. simpl. split_and!; [done..|]. by exists l.
Qed.

(** Also: a rollback reaches the whole fleet: it always succeeds, marks the commit
    as rolled back and queues a live, high-priority ROLLBACK_FIREWALL command for
    every node active at that moment, whatever that node had reported before. *)
Theorem rollback_reaches_fleet commitId db :
  db_ok db ->
  exists db' l, rollback commitId db = (db', Ok tt) /\
    (forall c, db.(policy_commits) !! commitId = Some c ->
       exists c', db'.(policy_commits) !! commitId = Some c' /\ c'.(pc_status) = ROLLED_BACK_COMMIT /\
         c'.(pc_finalized) = Some db.(pg_now)) /\
    db'.(controller_commands) = db.(controller_commands) ++ l /\
    Forall2 (broadcast_command "ROLLBACK_FIREWALL" (JObj [("commitId", JStr commitId)]) 200 db.(pg_now))
      (list_nodes db) l.
Proof.
  intros Hok. unfold rollback, set_commit_status, modify, mbind, St_bind, gets.
  set (db1 := set_policy_commits _ db).
  destruct (broadcast_run "ROLLBACK_FIREWALL" (JObj [("commitId", JStr commitId)]) 200 (list_nodes db1) db1)
    as (u & l & E & H).
  { intros n Hn. by apply (list_nodes_present db). }
  rewrite E. do 2 eexists. split_and!; [done| |done|done].
  intros c Hc. unfold db1. simpl. eexists. rewrite lookup_alter_eq, Hc. done.
Qed.

Lemma sample_db_ok : db_ok (set_devices {[ "d1" := sample_device "d1" "hw1" ]} sample_db).
Proof.
  constructor; simpl; try done;
    try (intros k x [<- <-]%lookup_singleton_Some; first [reflexivity|by eexists]);
    intros k k' x x' [<- <-]%lookup_singleton_Some [<- <-]%lookup_singleton_Some; done.
Qed.

Definition sample_policy (ports : list Z) : NetworkPolicy :=
  {| p_id := "p1"; p_name := "p"; sourceZones := [ZONE_DEV]; destinationZones := [ZONE_STAGING];
     protocols := [TCP]; destinationPorts := ports; p_action := ALLOW; requiredRoles := [];
     requiresJit := false; priority := 10; p_version := 1; p_active := true |}.

Lemma stage_all_or_nothing_witness :
  let db := set_devices {[ "d1" := sample_device "d1" "hw1" ]} sample_db in
  (stage (fun s => s) 0 "c1" [sample_policy [70000]] None db).1 = db /\
  (stage (fun s => s) 0 "c1" [sample_policy [443]] None db).2 = Ok ["n1"].
Proof.
  intros db. split; [|vm_compute; reflexivity].
  pose proof (stage_all_or_nothing (fun s => s) 0 "c1" [sample_policy [70000]] None db sample_db_ok) as P.
  destruct (stage _ _ _ _ _ _) as [db' [ids|e]] eqn:E; [vm_compute in E; discriminate E|exact P].
Defined.

Lemma rollback_reaches_fleet_witness :
  let db := set_devices {[ "d1" := sample_device "d1" "hw1" ]} sample_db in
  exists db', rollback "c1" db = (db', Ok tt).
Proof.
  intros db. destruct (rollback_reaches_fleet "c1" db sample_db_ok) as (db' & l & E & _).
  exists db'. exact E.
Defined.
