(* ===== verification/Rollout.v ===== *)
(** * Per-node rollout tracking

    The port [RolloutStore] of [src/src/ports/infrastructure.ts] as a class with
    its laws, and its two implementations: [PgRolloutStore]
    ([src/src/infrastructure/pg-rollout-store.ts]) and [InMemoryRolloutStore]
    ([in-memory-rollout-store.ts]). *)

From S2P Require Import Prelude Json Text Domain Database Repositories CommandQueue.
Open Scope Z_scope.

Record NodeRolloutRecord := mkRecord {
  rr_node : string; rr_status : NodeRolloutStatus; rr_acknowledged : option Date; rr_details : json
}.

Class RolloutStore (S : Type) := {
  start : string -> list string -> St S unit;
  refresh : string -> St S (list NodeRolloutRecord);
  finalizeTimeouts : string -> St S unit;
  markRolledBack : string -> St S unit;
  summary : string -> S -> list NodeRolloutRecord
}.

(** What a refresh may do to a record: decide it if it is pending. *)
Definition advances (r r' : NodeRolloutRecord) : Prop :=
  r'.(rr_node) = r.(rr_node) /\
  (r'.(rr_status) = r.(rr_status) \/
   r.(rr_status) = PENDING /\ (r'.(rr_status) = SUCCEEDED \/ r'.(rr_status) = FAILED)).

Definition time_out (st : NodeRolloutStatus) : NodeRolloutStatus :=
  match st with PENDING => TIMED_OUT | st => st end.

(** Node and status of a record. *)
Definition outcome (r : NodeRolloutRecord) : string * NodeRolloutStatus := (r.(rr_node), r.(rr_status)).

(** Each call but [summary] may fail, as a query does when the database is away; no
    failure adds or removes a record. *)
Class RolloutLaws (S : Type) `{RolloutStore S} := {
  start_law c ns s s' : summary c s = [] -> start c ns s = (s', Ok tt) ->
    NoDup (map rr_node (summary c s')) /\
    (forall r, r ∈ summary c s' -> r.(rr_status) = PENDING) /\
    (forall n, n ∈ ns <-> n ∈ map rr_node (summary c s'));
  refresh_law c s : match refresh c s with
    | (s', Ok l) => l = summary c s' /\ Forall2 advances (summary c s) (summary c s')
    | (s', Throw _) => map rr_node (summary c s') = map rr_node (summary c s)
    end;
  finalize_law c s : match finalizeTimeouts c s with
    | (s', Ok _) => map outcome (summary c s') = map (fun r => (r.(rr_node), time_out r.(rr_status))) (summary c s)
    | (s', Throw _) => map rr_node (summary c s') = map rr_node (summary c s)
    end;
  rolled_back_law c s : match markRolledBack c s with
    | (s', Ok _) => map outcome (summary c s') = map (fun r => (r.(rr_node), ROLLED_BACK)) (summary c s)
    | (s', Throw _) => map rr_node (summary c s') = map rr_node (summary c s)
    end
}.

(** ** [PgRolloutStore] *)

Definition of_commit (c : string) (r : RolloutRow) : bool := String.eqb r.(ro_commit) c.

(** One INSERT ... ON CONFLICT DO NOTHING of [start]; the references to the
    commit and to the node are checked for a row that is inserted. *)
Definition insert_rollout (c n : string) : St Db unit := fun db =>
  if existsb (fun r => of_commit c r && String.eqb r.(ro_node) n) db.(policy_rollout_nodes)
  then (db, Ok tt)
  else if bool_decide (is_Some (db.(policy_commits) !! c)) && bool_decide (is_Some (db.(mesh_nodes) !! n))
  then (set_policy_rollout_nodes (db.(policy_rollout_nodes) ++ [mkRollout c n PENDING None (JObj [])]) db, Ok tt)
  else (db, Throw foreign_key_violation).

Definition pg_start (c : string) (ns : list string) : St Db unit := for_each ns (insert_rollout c).

(** [details->>'commitId' = $1] *)
Definition details_commit (v : json) : option string :=
  match v with
  | JObj o => match jlookup "commitId" o with
      | Some (JStr s) => Some s
      | Some (JNum n) => Some (str_of_Z n)
      | Some (JBool b) => Some (if b then "true" else "false")
      | _ => None
      end
  | _ => None
  end.

Definition pg_acks (c : string) (db : Db) : list AckRow :=
  List.filter (fun k => String.eqb k.(k_type) "APPLY_FIREWALL"
    && bool_decide (details_commit k.(k_details) = Some c)) db.(command_acknowledgements).

(** The UPDATE for one acknowledgement: only a pending row is decided. *)
Definition apply_ack (c : string) (k : AckRow) (r : RolloutRow) : RolloutRow :=
  if of_commit c r && String.eqb r.(ro_node) k.(k_node) && bool_decide (r.(ro_status) = PENDING)
  then mkRollout r.(ro_commit) r.(ro_node)
         (if String.eqb k.(k_status) "SUCCEEDED" then SUCCEEDED else FAILED)
         (Some k.(k_acknowledged)) k.(k_details)
  else r.

Definition pg_summary (c : string) (db : Db) : list NodeRolloutRecord :=
  map (fun r => mkRecord r.(ro_node) r.(ro_status) r.(ro_acknowledged) r.(ro_details))
    (List.filter (of_commit c) db.(policy_rollout_nodes)).

Definition pg_refresh (c : string) : St Db (list NodeRolloutRecord) :=
  let* acks := gets (pg_acks c) in
  for_each acks (fun k => modify (fun db =>
    set_policy_rollout_nodes (map (apply_ack c k) db.(policy_rollout_nodes)) db)) ;;;
  gets (pg_summary c).

Definition with_status (st : NodeRolloutStatus) (r : RolloutRow) : RolloutRow :=
  mkRollout r.(ro_commit) r.(ro_node) st r.(ro_acknowledged) r.(ro_details).

Definition pg_finalizeTimeouts (c : string) : St Db unit :=
  modify (fun db => set_policy_rollout_nodes (map (fun r =>
    if of_commit c r && bool_decide (r.(ro_status) = PENDING) then with_status TIMED_OUT r else r)
    db.(policy_rollout_nodes)) db).

Definition pg_markRolledBack (c : string) : St Db unit :=
  modify (fun db => set_policy_rollout_nodes (map (fun r =>
    if of_commit c r then with_status ROLLED_BACK r else r) db.(policy_rollout_nodes)) db).

#[export] Instance PgRolloutStore : RolloutStore Db := {
  start := pg_start; refresh := pg_refresh; finalizeTimeouts := pg_finalizeTimeouts;
  markRolledBack := pg_markRolledBack; summary := pg_summary
}.

(** ** [InMemoryRolloutStore]: a map of maps; a [Map] keeps the first position
    of a key that is set again. *)
Notation MemRollout := (gmap string (list NodeRolloutRecord)).

Definition mem_summary (c : string) (m : MemRollout) : list NodeRolloutRecord := default [] (m !! c).

Definition set_status (st : NodeRolloutStatus) (r : NodeRolloutRecord) : NodeRolloutRecord :=
  mkRecord r.(rr_node) st r.(rr_acknowledged) r.(rr_details).

(** [rows.set(nodeId, {...})] for each id *)
Definition mem_rows (ns : list string) : list NodeRolloutRecord :=
  foldl (fun l n => if existsb (fun r => String.eqb r.(rr_node) n) l then l
                    else l ++ [mkRecord n PENDING None (JObj [])]) [] ns.

Definition mem_start (c : string) (ns : list string) : St MemRollout unit :=
  modify (fun m => <[c := mem_rows ns]> m).
Definition mem_finalizeTimeouts (c : string) : St MemRollout unit :=
  modify (alter (map (fun r => if bool_decide (r.(rr_status) = PENDING) then set_status TIMED_OUT r else r)) c).
Definition mem_markRolledBack (c : string) : St MemRollout unit :=
  modify (alter (map (set_status ROLLED_BACK)) c).

#[export] Instance InMemoryRolloutStore : RolloutStore MemRollout := {
  start := mem_start; refresh c := gets (mem_summary c); finalizeTimeouts := mem_finalizeTimeouts;
  markRolledBack := mem_markRolledBack; summary := mem_summary
}.

(** ** The laws, for the in-memory store *)

Lemma mem_rows_spec ns :
  NoDup (map rr_node (mem_rows ns)) /\ (forall r, r ∈ mem_rows ns -> r.(rr_status) = PENDING) /\
  forall n, n ∈ ns <-> n ∈ map rr_node (mem_rows ns).
Proof.
  unfold mem_rows. induction ns as [|n ns IH] using rev_ind.
  { simpl. split_and!; [constructor|intros r Hr; inversion Hr|done]. }
  rewrite foldl_snoc. set (l := foldl _ [] ns) in *. destruct IH as (H1 & H2 & H3).
  destruct (existsb _ l) eqn:E.
  - apply existsb_elem in E as (r & Hr & E). bools. split_and!; [done..|].
    intros m. rewrite elem_of_app, H3, list_elem_of_singleton.
    split; [intros [?| ->]; [done|]|auto]. apply elem_of_List_map. eauto.
  - rewrite existsb_elem_false in E. rewrite map_app. split_and!.
    + apply NoDup_snoc; [done|]. intros (r & Er & Hr)%elem_of_List_map.
      specialize (E r Hr). simpl in Er. bools. congruence.
    + intros r [Hr|Hr]%elem_of_app; [auto|]. by apply list_elem_of_singleton in Hr as ->.
    + intros m. rewrite !elem_of_app, H3. done.
Qed.

Lemma mem_summary_alter f c m :
  mem_summary c (alter (map f) c m) = map f (mem_summary c m).
Proof. unfold mem_summary. rewrite lookup_alter_eq. by destruct (m !! c). Qed.

#[export] Instance mem_rollout_laws : RolloutLaws MemRollout.
Proof.
  constructor.
  - intros c ns s s' _ [= <-]. simpl. unfold mem_summary. rewrite lookup_insert_eq. apply mem_rows_spec.
  - intros c s. simpl. split; [done|]. apply Forall2_same_length_lookup. split; [done|].
    intros i r r' -> [= <-]. split; [done|by left].
  - intros c s. simpl. rewrite mem_summary_alter, map_map.
    apply map_ext. intros r. case_bool_decide as E; unfold outcome; simpl; [by rewrite E|].
    by destruct (rr_status r).
  - intros c s. simpl. by rewrite mem_summary_alter, map_map.
Qed.

(** ** The laws, for the Postgres store *)

(** Updates that keep the commit of a row commute with selecting a commit. *)
Lemma filter_of_commit_map f c l :
  (forall r, (f r).(ro_commit) = r.(ro_commit)) ->
  List.filter (of_commit c) (map f l) = map f (List.filter (of_commit c) l).
Proof.
  intros Hf. induction l as [|r l IH]; [done|]. simpl. unfold of_commit at 1. rewrite Hf.
  fold (of_commit c r). destruct (of_commit c r); simpl; by rewrite IH.
Qed.

Definition record_of (r : RolloutRow) : NodeRolloutRecord :=
  mkRecord r.(ro_node) r.(ro_status) r.(ro_acknowledged) r.(ro_details).

Lemma pg_summary_map f c db :
  (forall r, (f r).(ro_commit) = r.(ro_commit)) ->
  pg_summary c (set_policy_rollout_nodes (map f db.(policy_rollout_nodes)) db)
  = map (fun r => record_of (f r)) (List.filter (of_commit c) db.(policy_rollout_nodes)).
Proof. intros Hf. unfold pg_summary. simpl. by rewrite filter_of_commit_map, map_map. Qed.

Lemma elem_of_commit_rows c db r :
  r ∈ List.filter (of_commit c) db.(policy_rollout_nodes) -> of_commit c r = true.
Proof. by intros [_ ?]%elem_of_List_filter. Qed.

Lemma apply_ack_commit c k r : (apply_ack c k r).(ro_commit) = r.(ro_commit).
Proof. unfold apply_ack. by destruct (_ && _). Qed.

Lemma apply_ack_advances c k r : advances (record_of r) (record_of (apply_ack c k r)).
Proof.
  unfold apply_ack, advances. destruct (_ && _) eqn:E; simpl; [|by auto]. bools.
  split; [done|]. right. split; [done|]. destruct (String.eqb _ _); auto.
Qed.

Lemma advances_trans r1 r2 r3 : advances r1 r2 -> advances r2 r3 -> advances r1 r3.
Proof.
  intros [N1 H1] [N2 H2]. split; [congruence|].
  destruct H1 as [E1|[P1 S1]], H2 as [E2|[P2 S2]].
  - left. congruence.
  - right. rewrite <- E1. auto.
  - right. rewrite E2. auto.
  - right. auto.
Qed.

Lemma advances_refl r : advances r r.
Proof. split; [done|by left]. Qed.

(** The loop of [refresh] is the composition of the updates, row by row. *)
Lemma pg_refresh_rows c acks db :
  for_each acks (fun k => modify (fun db =>
    set_policy_rollout_nodes (map (apply_ack c k) db.(policy_rollout_nodes)) db)) db
  = (set_policy_rollout_nodes (map (fun r => foldl (fun r k => apply_ack c k r) r acks)
       db.(policy_rollout_nodes)) db, Ok tt).
Proof.
  rewrite for_each_modify. f_equal. revert db; induction acks as [|k acks IH]; intros db; simpl.
  - rewrite map_id. by destruct db.
  - rewrite IH. simpl. by rewrite map_map.
Qed.

Lemma pg_refresh_run c db :
  let f r := foldl (fun r k => apply_ack c k r) r (pg_acks c db) in
  let db' := set_policy_rollout_nodes (map f db.(policy_rollout_nodes)) db in
  pg_refresh c db = (db', Ok (pg_summary c db')).
Proof.
  intros f db'. unfold pg_refresh. change (mbind ?k (gets ?g) db) with (k (g db) db).
  cbn beta. by rewrite (bind_ok _ _ _ _ _ (pg_refresh_rows c (pg_acks c db) db)).
Qed.

Lemma fold_acks_commit c acks r : (foldl (fun r k => apply_ack c k r) r acks).(ro_commit) = r.(ro_commit).
Proof. revert r; induction acks as [|k acks IH]; intros r; [done|]. simpl. by rewrite IH, apply_ack_commit. Qed.

Lemma fold_acks_advances c acks r :
  advances (record_of r) (record_of (foldl (fun r k => apply_ack c k r) r acks)).
Proof.
  revert r; induction acks as [|k acks IH]; intros r; [apply advances_refl|]. simpl.
  eapply advances_trans; [apply (apply_ack_advances c k)|apply IH].
Qed.

(** Rows of a commit are inserted once per node. *)
Lemma insert_rollout_rows c n db db' :
  insert_rollout c n db = (db', Ok tt) ->
  pg_summary c db' = (if includes (map rr_node (pg_summary c db)) n then pg_summary c db
                      else pg_summary c db ++ [mkRecord n PENDING None (JObj [])]).
Proof.
  unfold insert_rollout. assert (existsb (fun r => of_commit c r && String.eqb r.(ro_node) n) db.(policy_rollout_nodes)
    = includes (map rr_node (pg_summary c db)) n) as <-.
  { apply eq_true_iff_eq. rewrite existsb_elem, includes_spec. unfold pg_summary. rewrite map_map.
    rewrite elem_of_List_map. setoid_rewrite elem_of_List_filter. simpl. split.
    - intros (r & Hr & E). bools. eauto.
    - intros (r & -> & Hr & E). exists r. by rewrite E, String.eqb_refl. }
  destruct (existsb _ _); [by intros [= <-]|]. destruct (_ && _); [|done]. intros [= <-].
  unfold pg_summary. simpl. rewrite List.filter_app, map_app. simpl. unfold of_commit at 2.
  simpl. by rewrite String.eqb_refl.
Qed.

Lemma pg_start_rows c ns db db' :
  pg_start c ns db = (db', Ok tt) ->
  NoDup (map rr_node (pg_summary c db)) -> (forall r, r ∈ pg_summary c db -> r.(rr_status) = PENDING) ->
  NoDup (map rr_node (pg_summary c db')) /\ (forall r, r ∈ pg_summary c db' -> r.(rr_status) = PENDING) /\
  forall n, n ∈ map rr_node (pg_summary c db') <-> n ∈ ns \/ n ∈ map rr_node (pg_summary c db).
Proof.
  revert db; induction ns as [|x ns IH]; intros db E H1 H2.
  { injection E as <-. split_and!; [done..|]. intros n. split; [auto|intros [H|H]; [inversion H|done]]. }
  unfold pg_start in E. cbn [for_each] in E. apply bind_inv_ok in E as (db1 & [] & E1 & E).
  apply insert_rollout_rows in E1.
  destruct (includes (map rr_node (pg_summary c db)) x) eqn:I.
  - apply includes_spec in I. destruct (IH db1 E) as (A & B & C); [by rewrite E1..|].
    split_and!; [done..|]. intros n. rewrite C, E1, elem_of_cons. naive_solver.
  - assert (x ∉ map rr_node (pg_summary c db)) as Hx by (rewrite <- includes_spec; congruence).
    destruct (IH db1 E) as (A & B & C).
    + rewrite E1, map_app. by apply NoDup_snoc.
    + rewrite E1. intros r [Hr|Hr]%elem_of_app; [auto|]. by apply list_elem_of_singleton in Hr as ->.
    + split_and!; [done..|]. intros n. rewrite C, E1, map_app, elem_of_app, elem_of_cons. simpl.
      rewrite list_elem_of_singleton. tauto.
Qed.

#[export] Instance pg_rollout_laws : RolloutLaws Db.
Proof.
  constructor.
  - intros c ns s s' H0 E. simpl in *. destruct (pg_start_rows c ns s s' E) as (A & B & C).
    + rewrite H0. constructor.
    + rewrite H0. intros r Hr. inversion Hr.
    + split_and!; [done..|]. intros n. rewrite C, H0. simpl. split; [auto|intros [?|H]; [done|inversion H]].
  - intros c s. cbn [refresh summary PgRolloutStore]. rewrite pg_refresh_run. split; [done|].
    rewrite pg_summary_map by (intros; apply fold_acks_commit). unfold pg_summary.
    apply Forall2_fmap, Forall_Forall2_diag, Forall_true. intros r. apply fold_acks_advances.
  - intros c s. cbn [finalizeTimeouts markRolledBack summary PgRolloutStore]. unfold pg_finalizeTimeouts, pg_markRolledBack, modify.
    rewrite pg_summary_map by (intros r; by destruct (_ && _)).
    unfold pg_summary. rewrite !map_map. apply map_ext_in. intros r Hr%list_elem_of_In.
    apply elem_of_commit_rows in Hr. rewrite Hr. simpl. unfold outcome, record_of.
    case_bool_decide as E; simpl; [by rewrite E|]. by destruct (ro_status r).
  - intros c s. cbn [finalizeTimeouts markRolledBack summary PgRolloutStore]. unfold pg_finalizeTimeouts, pg_markRolledBack, modify.
    rewrite pg_summary_map by (intros r; by destruct (of_commit c r)).
    unfold pg_summary. rewrite !map_map. apply map_ext_in. intros r Hr%list_elem_of_In.
    apply elem_of_commit_rows in Hr. by rewrite Hr.
Qed.

(** ** Success is only what a node reported *)

Lemma fold_acks_success c acks r :
  (foldl (fun r k => apply_ack c k r) r acks).(ro_status) = SUCCEEDED ->
  r.(ro_status) = SUCCEEDED \/ exists k, k ∈ acks /\ k.(k_node) = r.(ro_node) /\ k.(k_status) = "SUCCEEDED".
Proof.
  revert r; induction acks as [|k acks IH]; intros r E; [by left|]. simpl in E.
  apply IH in E. unfold apply_ack in E. destruct (_ && _) eqn:B; simpl in E.
  - bools. destruct E as [E|(k' & Hk & E1 & E2)].
    + right. exists k. destruct (String.eqb_spec k.(k_status) "SUCCEEDED"); [|done].
      split; [left|done].
    + right. exists k'. split; [by right|done].
  - destruct E as [E|(k' & Hk & ?)]; [by left|]. right. exists k'. split; [by right|done].
Qed.

Lemma fold_acks_pending c acks r k :
  of_commit c r = true -> k ∈ acks -> k.(k_node) = r.(ro_node) ->
  (foldl (fun r k => apply_ack c k r) r acks).(ro_status) <> PENDING.
Proof.
  assert (Hd : forall acks r, r.(ro_status) <> PENDING ->
    (foldl (fun r k => apply_ack c k r) r acks).(ro_status) <> PENDING).
  { clear. induction acks as [|k acks IH]; intros r Hr; [done|]. simpl. apply IH.
    unfold apply_ack. rewrite (bool_decide_eq_false_2 _ Hr), andb_false_r. done. }
  revert r; induction acks as [|k' acks IH]; intros r Hc Hk En; [inversion Hk|]. simpl.
  apply elem_of_cons in Hk as [->|Hk].
  - apply Hd. unfold apply_ack. rewrite Hc, En, String.eqb_refl. simpl.
    case_bool_decide; [|done]. simpl. by destruct (String.eqb _ _).
  - apply IH; [|done|]; unfold apply_ack; by destruct (_ && _).
Qed.

(** Also: in the Postgres store a node counts as SUCCEEDED only because it said so:
    after a refresh every SUCCEEDED record was SUCCEEDED already or the table
    holds an APPLY_FIREWALL acknowledgement of that node for that very commit
    with status SUCCEEDED; and every node with an acknowledgement for the commit
    has left PENDING. *)
Theorem refresh_reports_truth c db :
  let db' := (pg_refresh c db).1 in
  (forall r, r ∈ pg_summary c db' -> r.(rr_status) = SUCCEEDED ->
     (exists q, q ∈ pg_summary c db /\ q.(rr_node) = r.(rr_node) /\ q.(rr_status) = SUCCEEDED) \/
     exists k, k ∈ db.(command_acknowledgements) /\ k.(k_type) = "APPLY_FIREWALL" /\
       details_commit k.(k_details) = Some c /\ k.(k_node) = r.(rr_node) /\ k.(k_status) = "SUCCEEDED") /\
  (forall r k, r ∈ pg_summary c db' -> k ∈ pg_acks c db -> k.(k_node) = r.(rr_node) -> r.(rr_status) <> PENDING).
Proof.
  intros db'. unfold db'. rewrite pg_refresh_run. cbn [fst].
  rewrite pg_summary_map by (intros; apply fold_acks_commit). split.
  - intros r (q & -> & Hq)%elem_of_List_map E. simpl in E.
    assert (ro_node (foldl (fun r k => apply_ack c k r) q (pg_acks c db)) = ro_node q) as En
      by apply (fold_acks_advances c (pg_acks c db) q).
    simpl. rewrite En. apply fold_acks_success in E as [E|(k & Hk & E1 & E2)]; [left|right].
    + exists (record_of q). split; [|done]. unfold pg_summary. apply elem_of_List_map. by eauto.
    + apply elem_of_List_filter in Hk as [Hk B]. bools. eauto 10.
  - intros r k (q & -> & Hq)%elem_of_List_map Hk En. simpl in *.
    apply (fold_acks_pending c (pg_acks c db) q k); [by eapply elem_of_commit_rows|done|].
    rewrite En. apply (fold_acks_advances c (pg_acks c db) q).
Qed.
