(* ===== verification/SafeApply.v ===== *)
(** * Applying policies with automatic rollback

    [SafeApplyService] ([src/src/application/safe-apply.ts]) against the
    interfaces it is constructed with: the rollout store of [Rollout.v], the
    policy enforcer and the event bus.  What happens outside the process while
    it waits is an environment: the readings of the clock, the answers of the
    probe and the changes other processes make to the shared state.  The
    fraction [nodeFailureThreshold] is a rational number. *)

From S2P Require Import Prelude Json Text Domain Database Repositories CommandQueue Enforcer Rollout.
Open Scope Z_scope.

(** [PolicyEnforcer] and [EventBus] *)
Class SafeApplyPorts (S : Type) := {
  port_stage : string -> list NetworkPolicy -> option string -> St S (list string);
  port_commit : string -> St S unit;
  port_rollback : string -> St S unit;
  port_publish : string -> json -> St S unit
}.

(** The enforcer and the bus leave the rollout records alone, and a rollback that
    returns has recalled the commit from the fleet. *)
Class PortsFrame (S : Type) `{RolloutStore S} `{SafeApplyPorts S} := {
  recalled : string -> S -> Prop;
  rollback_recalls c s s' : port_rollback c s = (s', Ok tt) -> recalled c s';
  publish_recalled c t e s : recalled c s -> recalled c (port_publish t e s).1;
  frame_stage c c' ps b s : summary c (port_stage c' ps b s).1 = summary c s;
  frame_commit c c' s : summary c (port_commit c' s).1 = summary c s;
  frame_rollback c c' s : summary c (port_rollback c' s).1 = summary c s;
  frame_publish c t e s : summary c (port_publish t e s).1 = summary c s
}.

(** The probe answers in time, or it does not. *)
Inductive ProbeOutcome := Answers (r : res bool) | Hangs.

(** [Promise.race([probe, sleep(remaining).then(() => false)])] *)
Definition race (o : ProbeOutcome) : res bool :=
  match o with Answers r => r | Hangs => Ok false end.

Record Env (S : Type) := {
  clock : nat -> Z;
  probe : nat -> ProbeOutcome;
  world : nat -> S -> S
}.
Arguments clock {S} _ _.
Arguments probe {S} _ _.
Arguments world {S} _ _ _.

Record SafeApplyConfig := {
  nodeFailureThreshold : Q;
  threshold_text : string;
  pollIntervalMs : Z
}.

Inductive RollbackReason := DatabaseUnreachable | NodesFailed (bad targetCount : nat).

Definition reason_text (cfg : SafeApplyConfig) (r : RollbackReason) : string :=
  match r with
  | DatabaseUnreachable => "control plane database unreachable"
  | NodesFailed bad n => str_of_Z (Z.of_nat bad) +:+ "/" +:+ str_of_Z (Z.of_nat n)
      +:+ " targeted node(s) failed to apply the policy (threshold " +:+ cfg.(threshold_text) +:+ ")"
  end.

Inductive ApplyResult :=
  | Committed (commitId : string)
  | RolledBack (commitId : string) (reason : string).

(** [SafeApplyService.failureReason] *)
Definition is_bad (includeTimedOut : bool) (r : NodeRolloutRecord) : bool :=
  match r.(rr_status) with FAILED => true | TIMED_OUT => includeTimedOut | _ => false end.

Definition failureReason (cfg : SafeApplyConfig) (statuses : list NodeRolloutRecord) (targetCount : nat)
    (includeTimedOut : bool) : option RollbackReason :=
  if (targetCount =? 0)%nat then None
  else
    let bad := length (List.filter (is_bad includeTimedOut) statuses) in
    if Qle_bool (inject_Z (Z.of_nat bad) / inject_Z (Z.of_nat targetCount)) cfg.(nodeFailureThreshold)
    then None else Some (NodesFailed bad targetCount).

(** [x < deadline] where the deadline is [NaN] for a timeout that is no number. *)
Definition before (x : Z) (deadline : option Z) : bool :=
  match deadline with Some d => x <? d | None => false end.

Definition is_terminal (r : NodeRolloutRecord) : bool := negb (bool_decide (r.(rr_status) = PENDING)).

Section service.
Context {S : Type} `{RolloutStore S} `{SafeApplyPorts S}.
Context (cfg : SafeApplyConfig) (env : Env S).

(** [waitForOutcome]: iteration [i] reads the clock for the loop test, for the
    race and for the sleep.  [None] when the fuel is used up. *)
Fixpoint waitForOutcome (fuel i : nat) (commitId : string) (targets : list string)
    (deadline : option Z) (s : S) : option (S * res (option RollbackReason)) :=
  match fuel with
  | O => None
  | Datatypes.S fuel' =>
      if before (env.(clock) (3 * i + 1)) deadline then
        match race (env.(probe) i) with
        | Throw e => Some (s, Throw e)
        | Ok false => Some (s, Ok (Some DatabaseUnreachable))
        | Ok true =>
            let s1 := env.(world) i s in
            let '(s2, r) := match targets with [] => (s1, Ok []) | _ => refresh commitId s1 end in
            match r with
            | Throw e => Some (s2, Throw e)
            | Ok statuses =>
                match failureReason cfg statuses (length targets) false with
                | Some why => Some (s2, Ok (Some why))
                | None =>
                    if (length targets =? 0)%nat || forallb is_terminal statuses then Some (s2, Ok None)
                    else waitForOutcome fuel' (Datatypes.S i) commitId targets deadline s2
                end
            end
        end
      else
        match finalizeTimeouts commitId s with
        | (s1, Throw e) => Some (s1, Throw e)
        | (s1, Ok _) => Some (s1, Ok (failureReason cfg (summary commitId s1) (length targets) true))
        end
  end.

(** The [catch] block. *)
Definition revert (commitId : string) : St S unit :=
  markRolledBack commitId ;;; port_rollback commitId.

(** What follows the wait inside [try]. *)
Definition conclude (commitId : string) (reason : option RollbackReason) : St S ApplyResult :=
  match reason with
  | Some why =>
      revert commitId ;;;
      port_publish "security.policy.rolled_back"
        (JObj [("commitId", JStr commitId); ("reason", JStr (reason_text cfg why))]) ;;;
      mret (RolledBack commitId (reason_text cfg why))
  | None =>
      port_commit commitId ;;;
      port_publish "security.policy.committed" (JObj [("commitId", JStr commitId)]) ;;;
      mret (Committed commitId)
  end.

Definition out_of_window (timeoutMs : option Z) : bool :=
  match timeoutMs with Some t => (t <? 5000) || (300000 <? t) | None => false end.

(** The part before [try]: stage, start tracking, announce. *)
Definition prepare (commitId : string) (at_ : Date) (policies : list NetworkPolicy) (timeoutMs : option Z)
    (initiatedBy : option string) : St S (list string) :=
  let* targets := port_stage commitId policies initiatedBy in
  start commitId targets ;;;
  port_publish "security.policy.staged" (JObj
    [("commitId", JStr commitId); ("at", jdate at_);
     ("timeoutMs", match timeoutMs with Some t => JNum t | None => JNull end);
     ("targetedNodeIds", jstrs targets)]) ;;;
  mret targets.

(** [apply]; [None] when the fuel of the wait is used up. *)
Definition apply (fuel : nat) (commitId : string) (at_ : Date) (policies : list NetworkPolicy)
    (timeoutMs : option Z) (initiatedBy : option string) (s : S) : option (S * res ApplyResult) :=
  if out_of_window timeoutMs
  then Some (s, Throw (ValidationError "rollback window must be between 5 and 300 seconds"))
  else
    match prepare commitId at_ policies timeoutMs initiatedBy s with
    | (s1, Throw e) => Some (s1, Throw e)
    | (s1, Ok targets) =>
        let deadline := (fun t => env.(clock) 0 + t) <$> timeoutMs in
        match waitForOutcome fuel 0 commitId targets deadline s1 with
        | None => None
        | Some (s2, r) =>
            Some (try_catch (fun s => match r with Throw e => (s, Throw e) | Ok why => conclude commitId why s end)
                    (fun e => revert commitId ;;; throw e) s2)
        end
    end.
End service.

(** ** What a commit means *)

Definition non_success (r : NodeRolloutRecord) : bool := negb (bool_decide (r.(rr_status) = SUCCEEDED)).

Lemma failureReason_None cfg statuses n late :
  failureReason cfg statuses n late = None -> n <> 0%nat ->
  (inject_Z (Z.of_nat (length (List.filter (is_bad late) statuses)))
   <= nodeFailureThreshold cfg * inject_Z (Z.of_nat n))%Q.
Proof.
  unfold failureReason. destruct (Nat.eqb_spec n 0) as [->|Hn]; [done|]. intros E _.
  destruct (Qle_bool _ _) eqn:B; [|done]. apply Qle_bool_iff in B.
  assert (0 < inject_Z (Z.of_nat n))%Q as Hpos by (unfold Qlt; simpl; lia).
  set (k := inject_Z (Z.of_nat (length _))) in *.
  apply (Qmult_le_compat_r _ _ (inject_Z (Z.of_nat n))) in B; [|by apply Qlt_le_weak].
  rewrite Qmult_comm, Qmult_div_r in B; [done|]. intros Z. rewrite Z in Hpos. done.
Qed.

Lemma filter_ext_elem {A} (p q : A -> bool) l :
  (forall x, x ∈ l -> p x = q x) -> List.filter p l = List.filter q l.
Proof. intros Hpq. apply filter_ext_in. intros x Hx. apply Hpq. by apply list_elem_of_In. Qed.

Section service_lemmas.
Context {S : Type} `{RolloutLaws S} `{!SafeApplyPorts S} `{!PortsFrame S}.
Context (cfg : SafeApplyConfig) (env : Env S) (commitId : string) (ids : list string).

(** Exactly the targeted nodes are tracked. *)
Definition tracked (s : S) : Prop := forall n, n ∈ ids <-> n ∈ map rr_node (summary commitId s).

(** ... and nothing but reports of the nodes has decided them. *)
Definition undecided (s : S) : Prop :=
  forall r, r ∈ summary commitId s -> r.(rr_status) = PENDING \/ r.(rr_status) = SUCCEEDED \/ r.(rr_status) = FAILED.

(** The condition a commit is allowed under. *)
Definition verified (s : S) : Prop :=
  tracked s /\ (forall r, r ∈ summary commitId s -> r.(rr_status) <> PENDING) /\
  (inject_Z (Z.of_nat (length (List.filter non_success (summary commitId s))))
   <= nodeFailureThreshold cfg * inject_Z (Z.of_nat (length ids)))%Q.

Lemma tracked_eq s s' : summary commitId s' = summary commitId s -> tracked s -> tracked s'.
Proof. intros E T n. by rewrite E. Qed.

Lemma tracked_outcomes s s' f :
  map outcome (summary commitId s') = map (fun r => (r.(rr_node), f r)) (summary commitId s) ->
  tracked s -> tracked s'.
Proof.
  intros E T n. assert (map rr_node (summary commitId s') = map rr_node (summary commitId s)) as ->; [|done].
  apply (f_equal (map fst)) in E. by rewrite !map_map in E.
Qed.

Lemma tracked_nodes s s' :
  map rr_node (summary commitId s') = map rr_node (summary commitId s) -> tracked s -> tracked s'.
Proof. intros E T n. by rewrite E. Qed.

Lemma refresh_tracked s s' :
  Forall2 advances (summary commitId s) (summary commitId s') -> tracked s -> undecided s ->
  tracked s' /\ undecided s'.
Proof.
  intros F T U. split.
  - intros n. rewrite (T n). assert (map rr_node (summary commitId s') = map rr_node (summary commitId s)) as ->; [|done].
    clear -F. induction F as [|r r' l l' [E _] F IH]; simpl; congruence.
  - intros r' [i Hi]%list_elem_of_lookup_1. destruct (Forall2_lookup_r _ _ _ _ _ F Hi) as (r & Hr & _ & A).
    apply list_elem_of_lookup_2 in Hr. specialize (U r Hr). destruct A as [->|[_ [-> | ->]]]; auto.
Qed.

Lemma verified_no_targets s : ids = [] -> tracked s -> verified s.
Proof.
  intros E T. assert (summary commitId s = []) as Hs.
  { destruct (summary commitId s) as [|r l] eqn:L; [done|]. exfalso.
    assert (rr_node r ∈ ids) as Hr by (apply T; rewrite L; left). rewrite E in Hr. inversion Hr. }
  split_and!; [done|rewrite Hs; intros r Hr; inversion Hr|].
  rewrite Hs, E. simpl. rewrite Qmult_0_r. apply Qle_refl.
Qed.

Lemma wait_outcome fuel i deadline s s' r :
  (forall i s, summary commitId (world env i s) = summary commitId s) ->
  tracked s -> undecided s ->
  waitForOutcome cfg env fuel i commitId ids deadline s = Some (s', r) ->
  tracked s' /\ (r = Ok None -> verified s').
Proof.
  intros Hw. revert i s. induction fuel as [|fuel IH]; intros i s T U E; [done|].
  cbn [waitForOutcome] in E. destruct (before _ _).
  - destruct (race _) as [[]|]; [|by simplify_eq..].
    assert (tracked (world env i s)) as T1 by (by apply (tracked_eq s)).
    assert (undecided (world env i s)) as U1 by (unfold undecided; by rewrite Hw).
    destruct (decide (ids = [])) as [Hi|Hi].
    { rewrite Hi in E. simpl in E. simplify_eq. split; [done|]. intros _. by apply verified_no_targets. }
    pose proof (refresh_law commitId (world env i s)) as F.
    assert ((match ids with [] => (world env i s, Ok []) | _ => refresh commitId (world env i s) end)
      = refresh commitId (world env i s)) as Er by (by destruct ids).
    rewrite Er in E. destruct (refresh commitId (world env i s)) as [s2 [l|e]];
      [|simplify_eq; split; [by apply (tracked_nodes (world env i s))|done]].
    destruct F as [-> F]. destruct (refresh_tracked _ _ F T1 U1) as [T2 U2].
    destruct (failureReason _ _ _ _) eqn:Fr; [by simplify_eq|].
    assert (length ids <> 0%nat) as Hlen by (by destruct ids).
    rewrite (proj2 (Nat.eqb_neq _ _)) in E by done. simpl in E.
    destruct (forallb is_terminal _) eqn:Ft; [|by eapply IH].
    simplify_eq. split; [done|]. intros _. apply forallb_Forall in Ft. rewrite Forall_forall in Ft.
    assert (forall r, r ∈ summary commitId s' -> r.(rr_status) <> PENDING) as Np.
    { intros r Hr. specialize (Ft r Hr). unfold is_terminal in Ft. by bools. }
    split_and!; [done..|]. rewrite (filter_ext_elem non_success (is_bad false)).
    + by apply failureReason_None.
    + intros r Hr. specialize (Np r Hr). unfold non_success, is_bad.
      destruct (U2 r Hr) as [E|[E|E]]; rewrite E in *; done.
  - pose proof (finalize_law commitId s) as O. destruct (finalizeTimeouts commitId s) as [s1 [[]|e]];
      simplify_eq; [|split; [by apply (tracked_nodes s)|done]].
    assert (tracked s') as T' by (by apply (tracked_outcomes s s' (fun r => time_out r.(rr_status)))).
    split; [done|]. intros [= Fr]. destruct (decide (ids = [])) as [Hi|Hi]; [by apply verified_no_targets|].
    assert (forall r, r ∈ summary commitId s' -> r.(rr_status) = TIMED_OUT \/ r.(rr_status) = SUCCEEDED \/ r.(rr_status) = FAILED) as D.
    { intros r Hr. assert (outcome r ∈ map outcome (summary commitId s')) as Ho by (apply elem_of_List_map; eauto).
      rewrite O in Ho. apply elem_of_List_map in Ho as (q & [= _ ->] & Hq).
      destruct (U q Hq) as [->|[-> | ->]]; auto. }
    split_and!; [done|intros r Hr; destruct (D r Hr) as [->|[-> | ->]]; done|].
    rewrite (filter_ext_elem non_success (is_bad true)).
    + apply failureReason_None; [done|by destruct ids].
    + intros r Hr. unfold non_success, is_bad. destruct (D r Hr) as [E|[E|E]]; rewrite E; done.
Qed.

(** Reverting keeps the records of the targets; when it returns it has marked every
    record and recalled the commit. *)
Definition taken_back (s : S) : Prop :=
  tracked s /\ (forall r, r ∈ summary commitId s -> r.(rr_status) = ROLLED_BACK) /\ recalled commitId s.

Lemma revert_takes_back s :
  tracked s ->
  match revert commitId s with (s', Ok _) => taken_back s' | (s', Throw _) => tracked s' end.
Proof.
  intros T. unfold revert, mbind, St_bind. pose proof (rolled_back_law commitId s) as O.
  destruct (markRolledBack commitId s) as [s1 [[]|e]]; [|by apply (tracked_nodes s)].
  assert (tracked s1) as T1 by (by apply (tracked_outcomes s s1 (fun _ => ROLLED_BACK))).
  pose proof (frame_rollback commitId commitId s1) as F.
  destruct (port_rollback commitId s1) as [s2 [[]|e]] eqn:E; simpl in F; [|by apply (tracked_eq s1)].
  split_and!; [by apply (tracked_eq s1)| |by apply (rollback_recalls commitId s1 s2)].
  intros r Hr. rewrite F in Hr.
  assert (outcome r ∈ map outcome (summary commitId s1)) as Ho by (apply elem_of_List_map; eauto).
  rewrite O in Ho. by apply elem_of_List_map in Ho as (q & [= _ ->] & _).
Qed.
End service_lemmas.

Section service_theorems.
Context {S : Type} `{RolloutLaws S} `{!SafeApplyPorts S} `{!PortsFrame S}.
Context (cfg : SafeApplyConfig) (env : Env S).

Lemma prepare_tracks c at_ policies timeoutMs by_ s s1 ids :
  summary c s = [] -> prepare c at_ policies timeoutMs by_ s = (s1, Ok ids) ->
  tracked c ids s1 /\ undecided c s1.
Proof.
  intros Hnil E. unfold prepare in E.
  apply bind_inv_ok in E as (sa & ids' & Ea & E). apply bind_inv_ok in E as (sb & [] & Eb & E).
  apply bind_inv_ok in E as (sc & [] & Ec & E). injection E as <- <-.
  assert (summary c sa = []) as Ha by (rewrite <- Hnil, <- (frame_stage c c policies by_ s), Ea; done).
  destruct (start_law c ids' sa sb Ha Eb) as (_ & P & Q).
  pose proof (frame_publish (S := S) c "security.policy.staged" (JObj
    [("commitId", JStr c); ("at", jdate at_);
     ("timeoutMs", match timeoutMs with Some t => JNum t | None => JNull end);
     ("targetedNodeIds", jstrs ids')]) sb) as F. rewrite Ec in F. simpl in F.
  split; [intros n; rewrite F; apply Q|]. intros r Hr. rewrite F in Hr. left. by apply P.
Qed.

(** How [apply] ends after staging: committed from a verified state, taken back, or
    with the error of the attempt to take it back. *)
Definition ended_well (c : string) (ids : list string) (s' : S) (r : res ApplyResult) : Prop :=
  match r with
  | Ok (Committed _) => verified cfg c ids s'
  | Ok (RolledBack c' _) => c' = c /\ taken_back c ids s'
  | Throw e => taken_back c ids s' \/ exists sf, revert c sf = (s', Throw e)
  end.

Lemma catch_reverts c ids s e :
  tracked c ids s -> let run := (revert c ;;; throw (A := ApplyResult) e) s in ended_well c ids run.1 run.2.
Proof.
  intros T. pose proof (revert_takes_back c ids s T) as R. unfold mbind, St_bind.
  destruct (revert c s) as [s1 [[]|e1]] eqn:E; [by left|]. right. by exists s.
Qed.

Lemma conclude_cases c ids s why :
  tracked c ids s -> (why = None -> verified cfg c ids s) ->
  match conclude cfg c why s with
  | (s', Ok out) => ended_well c ids s' (Ok out)
  | (s', Throw _) => tracked c ids s'
  end.
Proof.
  intros T V. unfold conclude, mbind, St_bind. destruct why as [why|].
  - pose proof (revert_takes_back c ids s T) as R. destruct (revert c s) as [s1 [[]|e]]; [|done].
    destruct R as (T1 & M & K).
    set (ev := JObj _). pose proof (frame_publish (S := S) c "security.policy.rolled_back" ev s1) as F.
    pose proof (publish_recalled (S := S) c "security.policy.rolled_back" ev s1 K) as K1.
    destruct (port_publish _ _ s1) as [s3 [[]|e]]; simpl in F, K1; [|by apply (tracked_eq c ids s1)].
    split; [done|]. split_and!; [by apply (tracked_eq c ids s1)| |done]. intros q. rewrite F. apply M.
  - specialize (V eq_refl). pose proof (frame_commit (S := S) c c s) as Fc.
    destruct (port_commit c s) as [s1 [[]|e]]; simpl in Fc; [|by apply (tracked_eq c ids s)].
    pose proof (frame_publish (S := S) c "security.policy.committed" (JObj [("commitId", JStr c)]) s1) as F.
    destruct (port_publish _ _ s1) as [s3 [[]|e]]; simpl in F; [|apply (tracked_eq c ids s); [congruence|done]].
    simpl. unfold verified, tracked in *. by rewrite F, Fc.
Qed.

Lemma conclude_outcome c ids s2 r :
  tracked c ids s2 -> (r = Ok None -> verified cfg c ids s2) ->
  let run := try_catch (fun s => match r with Throw e => (s, Throw e) | Ok why => conclude cfg c why s end)
               (fun e => revert c ;;; throw e) s2 in
  ended_well c ids run.1 run.2.
Proof.
  intros T V. cbv zeta. unfold try_catch. destruct r as [why|e]; [|by apply catch_reverts].
  pose proof (conclude_cases c ids s2 why T ltac:(intros ->; by apply V)) as C.
  destruct (conclude cfg c why s2) as [s3 [out|e]]; [done|by apply catch_reverts].
Qed.

Lemma apply_outcome fuel c at_ policies timeoutMs by_ s s1 ids s' r :
  (forall i s, summary c (world env i s) = summary c s) -> summary c s = [] ->
  out_of_window timeoutMs = false -> prepare c at_ policies timeoutMs by_ s = (s1, Ok ids) ->
  apply cfg env fuel c at_ policies timeoutMs by_ s = Some (s', r) -> ended_well c ids s' r.
Proof.
  intros Hw Hnil Ht Hp E. unfold apply in E. rewrite Ht, Hp in E.
  destruct (prepare_tracks _ _ _ _ _ _ _ _ Hnil Hp) as [T U].
  destruct (waitForOutcome _ _ _ _ _ _ _ _) as [[s2 o]|] eqn:W; [|done]. injection E as E.
  destruct (wait_outcome cfg env c ids _ _ _ _ _ _ Hw T U W) as [T2 V2].
  pose proof (conclude_outcome c ids s2 o T2 V2) as C. cbv zeta in C. rewrite E in C. done.
Qed.
End service_theorems.

(** ** Termination *)

(** How the clock relates to the timers: it does not go back, and a sleep lasts
    at least as long as it was asked to. *)
Record timers_ok {S} (cfg : SafeApplyConfig) (env : Env S) (deadline : Z) : Prop := {
  clock_mono : forall i, env.(clock) i <= env.(clock) (i + 1);
  sleep_waits : forall i, env.(clock) (3 * i + 3)
    + Z.min cfg.(pollIntervalMs) (Z.max 0 (deadline - env.(clock) (3 * i + 3))) <= env.(clock) (3 * i + 4)
}.

Lemma wait_terminates {S} `{RolloutLaws S} (cfg : SafeApplyConfig) (env : Env S) c ids d fuel i s :
  1 <= cfg.(pollIntervalMs) -> timers_ok cfg env d ->
  d - env.(clock) (3 * i + 1) < Z.of_nat fuel -> (0 < fuel)%nat ->
  waitForOutcome cfg env fuel i c ids (Some d) s <> None.
Proof.
  intros Hp [Hm Hs]. revert i s; induction fuel as [|fuel IH]; intros i s Hd Hf; [lia|].
  cbn [waitForOutcome before]. destruct (Z.ltb_spec (env.(clock) (3 * i + 1)) d).
  - destruct (race _) as [[]|]; [|done..].
    destruct (match ids with [] => _ | _ => _ end) as [s2 [st|e]]; [|done].
    destruct (failureReason _ _ _ _); [done|]. destruct (_ || _); [done|].
    pose proof (Hm (3 * i + 1)%nat). pose proof (Hm (3 * i + 2)%nat). pose proof (Hs i) as Hsi.
    replace (3 * i + 1 + 1)%nat with (3 * i + 2)%nat in * by lia.
    replace (3 * i + 2 + 1)%nat with (3 * i + 3)%nat in * by lia.
    apply IH; [|destruct fuel; [lia|lia]].
    replace (3 * Datatypes.S i + 1)%nat with (3 * i + 4)%nat by lia. lia.
  - destruct (finalizeTimeouts c s) as [s1 [|]]; done.
Qed.

(** ** The Postgres ports *)

Definition pg_ports (sha256 : string -> string) (now : Date) : SafeApplyPorts Db := {|
  port_stage := stage sha256 now; port_commit := commit; port_rollback := rollback; port_publish := publish
|}.

Lemma enqueue_frame {X} (g : Db -> X) nodeId type payload priority ttl db :
  (forall v db, g (set_controller_commands v db) = g db) -> (forall v db, g (set_uuid_next v db) = g db) ->
  g (enqueue nodeId type payload priority ttl db).1 = g db.
Proof.
  intros H1 H2. unfold enqueue. destruct (bool_decide _); [|done]. simpl. by rewrite H1, H2.
Qed.

(** What a rollback that returned leaves: the commit marked, and for every active
    node a ROLLBACK_FIREWALL command that nobody has acknowledged. *)
Definition pg_recalled (c : string) (db : Db) : Prop :=
  (forall row, db.(policy_commits) !! c = Some row -> row.(pc_status) = ROLLED_BACK_COMMIT) /\
  forall n, n ∈ list_nodes db -> exists k, k ∈ db.(controller_commands) /\
    broadcast_command "ROLLBACK_FIREWALL" (JObj [("commitId", JStr c)]) 200 db.(pg_now) n k.

Lemma enqueue_ok_run nodeId type payload priority ttl db db' :
  enqueue nodeId type payload priority ttl db = (db', Ok tt) -> is_Some (db.(mesh_nodes) !! nodeId).
Proof. destruct (db.(mesh_nodes) !! nodeId) eqn:E; [by eauto|]. by rewrite enqueue_unknown. Qed.

Lemma broadcast_ok_nodes type payload priority nodes db db' :
  broadcast type payload priority nodes db = (db', Ok tt) ->
  forall n, n ∈ nodes -> is_Some (db.(mesh_nodes) !! n.(n_id)).
Proof.
  revert db; induction nodes as [|n nodes IH]; intros db E m Hm; [inversion Hm|].
  unfold broadcast in E. cbn [for_each] in E. apply bind_inv_ok in E as (db1 & [] & E1 & E).
  pose proof (enqueue_ok_run _ _ _ _ _ _ _ E1) as Hn. apply elem_of_cons in Hm as [->|Hm]; [done|].
  rewrite enqueue_run in E1 by done. injection E1 as <-. by apply (IH _ E m Hm).
Qed.

Lemma rollback_pg_recalls c db db' : rollback c db = (db', Ok tt) -> pg_recalled c db'.
Proof.
  unfold rollback. intros E. apply bind_inv_ok in E as (db1 & [] & E1 & E).
  apply bind_inv_ok in E as (db2 & nodes & E2 & E). injection E2 as <- <-.
  destruct (broadcast_run "ROLLBACK_FIREWALL" (JObj [("commitId", JStr c)]) 200 (list_nodes db1) db1)
    as (u & l & R & F); [by apply (broadcast_ok_nodes _ _ _ _ _ _ E)|].
  rewrite R in E. injection E as <-. injection E1 as <-. split; simpl.
  - intros row. rewrite lookup_alter_eq. by destruct (policy_commits db !! c) as [x|]; intros [= <-].
  - intros n [i Hi]%list_elem_of_lookup_1. destruct (Forall2_lookup_l _ _ _ _ _ F Hi) as (k & Hk & B).
    exists k. split; [apply elem_of_app; right; by eapply list_elem_of_lookup_2|done].
Qed.

Lemma broadcast_frame c type payload priority nodes db :
  pg_summary c (broadcast type payload priority nodes db).1 = pg_summary c db.
Proof. apply (for_each_frame (pg_summary c)). intros n db'. by apply enqueue_frame. Qed.

#[export, refine] Instance pg_ports_frame sha256 now : @PortsFrame Db PgRolloutStore (pg_ports sha256 now) := {
  recalled := pg_recalled; rollback_recalls := rollback_pg_recalls
}.
Proof.
  - done.
  - intros c c' ps b s. simpl. unfold stage. apply (bind_frame (pg_summary c)); [done|]. intros _ s1.
    apply (bind_frame (pg_summary c)); [unfold insert_commit; by case_match|]. intros _ s2.
    apply (bind_frame (pg_summary c)); [done|]. intros nodes s3.
    apply (bind_frame (pg_summary c)); [apply broadcast_frame|done].
  - done.
  - intros c c' s. simpl. unfold rollback. apply (bind_frame (pg_summary c)); [done|]. intros _ s1.
    apply (bind_frame (pg_summary c)); [done|]. intros nodes s2. apply broadcast_frame.
  - done.
Defined.

(** ** The properties *)

(** C2: a rollout is reported COMMITTED only when it was verified: when [apply]
    returns COMMITTED, every node that staging targeted has a record, no record
    is pending, and the nodes that did not succeed are at most the configured
    fraction of the targets; with the default threshold 0 every targeted node
    has succeeded.  This holds for every rollout store with the laws of the
    port, whatever the clock, the probe and the rest of the system do meanwhile. *)
Theorem commit_only_if_verified {S} `{RolloutLaws S} `{!SafeApplyPorts S} `{!PortsFrame S}
    (cfg : SafeApplyConfig) (env : Env S) fuel c at_ policies timeoutMs by_ s s' c' :
  (forall i s, summary c (world env i s) = summary c s) -> summary c s = [] ->
  apply cfg env fuel c at_ policies timeoutMs by_ s = Some (s', Ok (Committed c')) ->
  exists ids, (prepare c at_ policies timeoutMs by_ s).2 = Ok ids /\ verified cfg c ids s' /\
    ((nodeFailureThreshold cfg == 0)%Q ->
     forall n, n ∈ ids -> exists r, r ∈ summary c s' /\ r.(rr_node) = n /\ r.(rr_status) = SUCCEEDED).
Proof.
  intros Hw Hnil E. destruct (out_of_window timeoutMs) eqn:Ht; [unfold apply in E; by rewrite Ht in E|].
  destruct (prepare c at_ policies timeoutMs by_ s) as [s1 [ids|e]] eqn:Hp;
    [|unfold apply in E; by rewrite Ht, Hp in E].
  pose proof (apply_outcome cfg env _ _ _ _ _ _ _ _ _ _ _ Hw Hnil Ht Hp E) as V. simpl in V.
  exists ids. split_and!; [done..|]. intros Hz n Hn. destruct V as (T & _ & L).
  rewrite Hz, Qmult_0_l in L. apply T, elem_of_List_map in Hn as (r & -> & Hr).
  exists r. split_and!; [done..|]. destruct (decide (rr_status r = SUCCEEDED)) as [|Hne]; [done|].
  assert (r ∈ List.filter non_success (summary c s')) as Hbad.
  { apply elem_of_List_filter. split; [done|]. unfold non_success. by rewrite bool_decide_eq_false_2. }
  destruct (List.filter non_success _); [inversion Hbad|]. exfalso.
  unfold Qle in L. simpl in L. lia.
Qed.

(** C3: a rollout that was staged and is not committed is taken back.  When [apply]
    returns ROLLED_BACK, every targeted node has a record, every record says
    ROLLED_BACK and the commit has been recalled: in Postgres it is marked, and a
    ROLLBACK_FIREWALL command is queued for every active node.  When it throws
    after staging, the same holds, or the exception is that of the attempt to take
    the rollout back.  A failure while staging (the commit, the commands, the
    records, the event) is passed on and nothing is taken back.  The store and the
    ports may fail at every call. *)
Theorem otherwise_rolled_back {S} `{RolloutLaws S} `{!SafeApplyPorts S} `{!PortsFrame S}
    (cfg : SafeApplyConfig) (env : Env S) fuel c at_ policies timeoutMs by_ s s' r :
  (forall i s, summary c (world env i s) = summary c s) -> summary c s = [] ->
  out_of_window timeoutMs = false ->
  apply cfg env fuel c at_ policies timeoutMs by_ s = Some (s', r) ->
  match prepare c at_ policies timeoutMs by_ s with
  | (s1, Throw e) => s' = s1 /\ r = Throw e
  | (s1, Ok ids) =>
      match r with
      | Ok (Committed _) => verified cfg c ids s'
      | Ok (RolledBack c' _) => c' = c /\ taken_back c ids s'
      | Throw e => taken_back c ids s' \/ exists sf, revert c sf = (s', Throw e)
      end
  end.
Proof.
  intros Hw Hnil Ht E. destruct (prepare c at_ policies timeoutMs by_ s) as [s1 [ids|e]] eqn:Hp.
  - apply (apply_outcome cfg env _ _ _ _ _ _ _ _ _ _ _ Hw Hnil Ht Hp E).
  - unfold apply in E. rewrite Ht, Hp in E. by simplify_eq.
Qed.

(** C10: [apply] ends.  With a poll interval of at least a millisecond and timers
    that wait at least as long as asked, the polling loop makes at most one round
    per millisecond of the window, even when the probe never answers, so [apply]
    returns or throws; a timeout that is not a number ends it at once. *)
Theorem apply_terminates {S} `{RolloutLaws S} `{!SafeApplyPorts S}
    (cfg : SafeApplyConfig) (env : Env S) c at_ policies timeoutMs by_ s :
  1 <= cfg.(pollIntervalMs) ->
  (forall t, timeoutMs = Some t -> timers_ok cfg env (env.(clock) 0 + t)) ->
  exists s' r, apply cfg env (Datatypes.S (Z.to_nat (default 0 timeoutMs))) c at_ policies timeoutMs by_ s = Some (s', r).
Proof.
  intros Hp Ht. unfold apply. destruct (out_of_window timeoutMs) eqn:W; [by eauto|].
  destruct (prepare c at_ policies timeoutMs by_ s) as [s1 [ids|e]]; [|by eauto].
  set (fuel := Datatypes.S _).
  assert (waitForOutcome cfg env fuel 0 c ids ((fun t => clock env 0 + t) <$> timeoutMs) s1 <> None) as Hn.
  { destruct timeoutMs as [t|]; cbn [fmap option_fmap option_map].
    - pose proof (Ht t eq_refl) as Hk. apply wait_terminates; [done..| |subst fuel; lia].
      pose proof (clock_mono _ _ _ Hk 0). unfold out_of_window in W. bools.
      simpl (3 * 0 + 1)%nat. simpl (0 + 1)%nat in *. subst fuel. simpl default. lia.
    - subst fuel. cbn [waitForOutcome before]. destruct (finalizeTimeouts c s1) as [s2 [|]]; done. }
  destruct (waitForOutcome _ _ _ _ _ _ _ _) as [[s2 o]|]; [|done].
  destruct (try_catch _ _ s2) as [s' r]. by eauto.
Qed.

(** ** A run over the Postgres ports *)

Definition sample_cfg : SafeApplyConfig :=
  {| nodeFailureThreshold := 0; threshold_text := "0"; pollIntervalMs := 1000 |}.

Definition fleet_db : Db := set_devices {[ "d1" := sample_device "d1" "hw1" ]} sample_db.

(** The node acknowledges its command while the service waits. *)
Definition sample_env (ack : json) : Env Db := {|
  clock := fun i => 1000 * Z.of_nat i;
  probe := fun _ => Answers (Ok true);
  world := fun i db => match i with O => (acknowledge "1" ack db).1 | _ => db end
|}.

Definition good_ack : json := JObj [("ok", JBool true); ("commitId", JStr "c1")].

Lemma acknowledge_summary c id result db : pg_summary c (acknowledge id result db).1 = pg_summary c db.
Proof. unfold acknowledge. by repeat case_match. Qed.

Lemma sample_world c ack i db : pg_summary c (world (sample_env ack) i db) = pg_summary c db.
Proof. destruct i; [apply acknowledge_summary|done]. Qed.

Lemma commit_only_if_verified_witness :
  exists s' ids, @apply Db PgRolloutStore (pg_ports (fun s => s) 0) sample_cfg (sample_env good_ack) 3 "c1" 0
      [sample_policy [443]] (Some 5000) None fleet_db = Some (s', Ok (Committed "c1")) /\
    @verified Db PgRolloutStore sample_cfg "c1" ids s'.
Proof.
  destruct (@apply Db PgRolloutStore (pg_ports (fun s => s) 0) sample_cfg (sample_env good_ack) 3 "c1" 0
      [sample_policy [443]] (Some 5000) None fleet_db) as [[s' [[c'|? ?]|e]]|] eqn:E;
    [|vm_compute in E; discriminate E..].
  assert (c' = "c1") as -> by (vm_compute in E; congruence).
  destruct (@commit_only_if_verified Db PgRolloutStore pg_rollout_laws (pg_ports (fun s => s) 0)
    (pg_ports_frame (fun s => s) 0) sample_cfg (sample_env good_ack) 3 "c1" 0 [sample_policy [443]]
    (Some 5000) None fleet_db s' "c1") as (ids & _ & V & _).
  - intros i s. apply sample_world.
  - reflexivity.
  - exact E.
  - exists s', ids. split; [reflexivity|exact V].
Defined.

(** Postgres behind a link: [fl_up] says of each coming call whether it reaches the
    database; when it is used up, calls do. *)
Record Flaky := mkFlaky { fl_db : Db; fl_up : list bool }.

Definition flaky {A} (m : St Db A) : St Flaky A := fun s =>
  match s.(fl_up) with
  | false :: up => (mkFlaky s.(fl_db) up, Throw (JsError "connect ECONNREFUSED"))
  | up => let '(db, r) := m s.(fl_db) in (mkFlaky db (tail up), r)
  end.

Lemma flaky_cases {A} (m : St Db A) s :
  (exists e, flaky m s = (mkFlaky s.(fl_db) (tail s.(fl_up)), Throw e)) \/
  flaky m s = (mkFlaky (m s.(fl_db)).1 (tail s.(fl_up)), (m s.(fl_db)).2).
Proof. unfold flaky. destruct (fl_up s) as [|[] up]; [right|right|left; by eexists]; by destruct (m (fl_db s)). Qed.

#[export] Instance FlakyStore : RolloutStore Flaky := {
  start c ns := flaky (pg_start c ns); refresh c := flaky (pg_refresh c);
  finalizeTimeouts c := flaky (pg_finalizeTimeouts c); markRolledBack c := flaky (pg_markRolledBack c);
  summary c s := pg_summary c s.(fl_db)
}.

#[export] Instance flaky_laws : RolloutLaws Flaky.
Proof.
  constructor.
  - intros c ns s s' H0 E. destruct (flaky_cases (pg_start c ns) s) as [[e X]|X]; cbn in E; rewrite X in E; [done|].
    injection E as <- E.
    refine (@start_law Db PgRolloutStore pg_rollout_laws c ns (fl_db s) (pg_start c ns (fl_db s)).1 H0 _).
    cbn [start PgRolloutStore]. by rewrite <- E, <- surjective_pairing.
  - intros c s. cbn. pose proof (@refresh_law Db PgRolloutStore pg_rollout_laws c (fl_db s)) as L. cbn in L.
    destruct (flaky_cases (pg_refresh c) s) as [[e X]|X]; rewrite X; [done|]. by destruct (pg_refresh c (fl_db s)).
  - intros c s. cbn. pose proof (@finalize_law Db PgRolloutStore pg_rollout_laws c (fl_db s)) as L. cbn in L.
    destruct (flaky_cases (pg_finalizeTimeouts c) s) as [[e X]|X]; rewrite X; [done|]. exact L.
  - intros c s. cbn. pose proof (@rolled_back_law Db PgRolloutStore pg_rollout_laws c (fl_db s)) as L. cbn in L.
    destruct (flaky_cases (pg_markRolledBack c) s) as [[e X]|X]; rewrite X; [done|]. exact L.
Qed.

Definition flaky_ports (sha256 : string -> string) (now : Date) : SafeApplyPorts Flaky := {|
  port_stage c ps b := flaky (stage sha256 now c ps b); port_commit c := flaky (commit c);
  port_rollback c := flaky (rollback c); port_publish t e := flaky (publish t e)
|}.

#[export, refine] Instance flaky_ports_frame sha256 now : @PortsFrame Flaky FlakyStore (flaky_ports sha256 now) := {
  recalled c s := pg_recalled c s.(fl_db)
}.
Proof.
  - intros c s s' E. destruct (flaky_cases (rollback c) s) as [[e X]|X]; cbn in E; rewrite X in E; [done|].
    injection E as <- E. apply (rollback_pg_recalls c (fl_db s)). cbn. by rewrite <- E, <- surjective_pairing.
  - intros c t e s K. cbn. destruct (flaky_cases (publish t e) s) as [[x X]|X]; rewrite X; exact K.
  - intros c c' ps b s. cbn. pose proof (@frame_stage Db _ _ (pg_ports_frame sha256 now) c c' ps b (fl_db s)) as F.
    destruct (flaky_cases (stage sha256 now c' ps b) s) as [[x X]|X]; rewrite X; [done|exact F].
  - intros c c' s. cbn. pose proof (@frame_commit Db _ _ (pg_ports_frame sha256 now) c c' (fl_db s)) as F.
    destruct (flaky_cases (commit c') s) as [[x X]|X]; rewrite X; [done|exact F].
  - intros c c' s. cbn. pose proof (@frame_rollback Db _ _ (pg_ports_frame sha256 now) c c' (fl_db s)) as F.
    destruct (flaky_cases (rollback c') s) as [[x X]|X]; rewrite X; [done|exact F].
  - intros c t e s. cbn. destruct (flaky_cases (publish t e) s) as [[x X]|X]; rewrite X; done.
Defined.

(** A node that reports a failure, and calls of which some do not arrive. *)
Definition bad_ack : json := JObj [("ok", JBool false); ("commitId", JStr "c1")].
Definition flaky_env : Env Flaky := {|
  clock := fun i => 1000 * Z.of_nat i;
  probe := fun _ => Answers (Ok true);
  world := fun i s => mkFlaky (world (sample_env bad_ack) i s.(fl_db)) s.(fl_up)
|}.
Definition flaky_apply (up : list bool) : option (Flaky * res ApplyResult) :=
  @apply Flaky FlakyStore (flaky_ports (fun s => s) 0) sample_cfg flaky_env 3 "c1" 0
    [sample_policy [443]] (Some 5000) None (mkFlaky fleet_db up).

Lemma otherwise_rolled_back_witness :
  (exists s' ids, flaky_apply [] = Some (s', Ok (RolledBack "c1" "1/1 targeted node(s) failed to apply the policy (threshold 0)")) /\
     @taken_back Flaky FlakyStore _ (flaky_ports_frame (fun s => s) 0) "c1" ids s') /\
  (exists s' e sf, flaky_apply [true; true; true; true; false; false] = Some (s', Throw e) /\
     @revert Flaky FlakyStore (flaky_ports (fun s => s) 0) "c1" sf = (s', Throw e)).
Proof.
  assert (forall up s' r, flaky_apply up = Some (s', r) -> _) as P
    by (intros up s' r E; exact (@otherwise_rolled_back Flaky FlakyStore flaky_laws (flaky_ports (fun s => s) 0)
      (flaky_ports_frame (fun s => s) 0) sample_cfg flaky_env 3 "c1" 0 [sample_policy [443]] (Some 5000) None
      (mkFlaky fleet_db up) s' r (fun i s => sample_world "c1" bad_ack i (fl_db s)) ltac:(reflexivity)
      ltac:(reflexivity) E)).
  split.
  - destruct (flaky_apply []) as [[s' r]|] eqn:E; [|vm_compute in E; discriminate E].
    specialize (P [] s' r E). destruct (prepare _ _ _ _ _ _) as [s1 [ids|e]] eqn:Hp; [|vm_compute in Hp; discriminate Hp].
    assert (r = Ok (RolledBack "c1" "1/1 targeted node(s) failed to apply the policy (threshold 0)")) as ->
      by (vm_compute in E; congruence).
    exists s', ids. split; [reflexivity|exact (proj2 P)].
  - destruct (flaky_apply [true; true; true; true; false; false]) as [[s' r]|] eqn:E; [|vm_compute in E; discriminate E].
    specialize (P _ s' r E). destruct (prepare _ _ _ _ _ _) as [s1 [ids|e]] eqn:Hp; [|vm_compute in Hp; discriminate Hp].
    destruct r as [[c|? ?]|e]; [vm_compute in E; discriminate E..|].
    destruct P as [(_ & M & _)|[sf R]]; [|by exists s', e, sf].
    exfalso. assert (match flaky_apply [true; true; true; true; false; false] with
      | Some (s, _) => map rr_status (summary "c1" s) = [FAILED] | None => False end) as X by (vm_compute; reflexivity).
    rewrite E in X. destruct (summary "c1" s') as [|q l]; [discriminate X|].
    specialize (M q ltac:(left)). injection X as X _. congruence.
Defined.

(** Also: when the event of the staging cannot be stored, [apply] throws before the
    part that rolls back: the commands stay queued, the records stay pending and
    the commit stays STAGED. *)
Theorem failed_announcement_strands_rollout :
  exists s' e, flaky_apply [true; true; false] = Some (s', Throw e) /\
    map rr_status (pg_summary "c1" s'.(fl_db)) = [PENDING] /\
    map q_type (pending "n1" 20 s'.(fl_db)) = ["APPLY_FIREWALL"] /\
    pc_status <$> s'.(fl_db).(policy_commits) !! "c1" = Some STAGED.
Proof. eexists _, _. split; [vm_compute; reflexivity|]. vm_compute. done. Qed.

Lemma apply_terminates_witness :
  exists s' r, @apply Db PgRolloutStore (pg_ports (fun s => s) 0) sample_cfg (sample_env good_ack) (S (Z.to_nat 5000)) "c1" 0
    [sample_policy [443]] (Some 5000) None fleet_db = Some (s', r).
Proof.
  apply (@apply_terminates Db PgRolloutStore pg_rollout_laws (pg_ports (fun s => s) 0) sample_cfg
    (sample_env good_ack) "c1" 0 [sample_policy [443]] (Some 5000) None fleet_db).
  - simpl. lia.
  - intros t [= <-]. constructor; simpl; intros i; lia.
Defined.
