(* ===== verification/Mesh.v ===== *)
(** * The mesh controller

    [AddressAllocator] and [MeshController]
    ([src/services/mesh-controller/controller.ts]), [RelayRoutingService]
    ([src/src/application/relay-routing.ts]), [PgRelayStore]
    ([src/services/relay-fleet/pg-relay-store.ts]), [PgMeshCommandSink] and
    [MeshControllerPeerDistributor].  Measured numbers (latency, load, capacity)
    are rationals; SHA-256 is a parameter. *)

From S2P Require Import Prelude Json Text Domain Database Repositories CommandQueue.
Open Scope Z_scope.

(** ** [AddressAllocator] *)

(** [n.toString(16)]; five digits are enough below 2^20. *)
Definition hex_char (n : Z) : ascii := hex_digit (Z.to_nat n).
Fixpoint hex_go (fuel : nat) (n : Z) (acc : string) : string :=
  match fuel with
  | O => acc
  | S fuel' =>
      let acc' := String (hex_char (n mod 16)) acc in
      if n <? 16 then acc' else hex_go fuel' (n / 16) acc'
  end.
Definition toString16 (n : Z) : string := hex_go 5 n "".

Definition ipv4_of (n : Z) : string :=
  let a := 10 + n / 254 in let b := n mod 254 + 1 in
  "10.144." +:+ str_of_Z (a mod 256) +:+ "." +:+ str_of_Z b.
Definition ipv6_of (n : Z) : string := "fd14:4b41:5043::" +:+ toString16 n.

(** The loop from [n], [k] rounds before the pool is exhausted. *)
Fixpoint next_from (used4 used6 : list string) (k : nat) (n : Z) : res (string * string) :=
  match k with
  | O => Throw (JsError "mesh address pool exhausted")
  | S k' =>
      if negb (includes used4 (ipv4_of n)) && negb (includes used6 (ipv6_of n))
      then Ok (ipv4_of n, ipv6_of n) else next_from used4 used6 k' (n + 1)
  end.

(** [AddressAllocator.next]: [n] runs from 2 to 65533. *)
Definition pool_size : nat := Z.to_nat 65532.
Definition next (used4 used6 : list string) : res (string * string) := next_from used4 used6 pool_size 2.

(** ** [RelayRoutingService] *)

Record RelayHealth := mkRelay {
  rh_id : string; rh_region : string; rh_endpoint : string; latencyMs : Q; loadPercent : Q;
  available : bool; lastHeartbeat : Date; activeSessions : Z; capacityPercent : Q;
  throughputBytesPerSec : Q
}.

Inductive PathKind := DIRECT | LOCAL_RELAY | REGIONAL_RELAY.
#[export] Instance PathKind_eq_dec : EqDecision PathKind.
Proof. solve_decision. Defined.

Record PathCandidate := mkPath { kind : PathKind; endpoint : string; score : Q }.

Definition penalty (r : RelayHealth) : Q := (r.(latencyMs) + r.(loadPercent) + r.(capacityPercent) * 2)%Q.

Definition Qlt_bool (a b : Q) : bool := negb (Qle_bool b a).

Definition healthy (now : Date) (r : RelayHealth) : bool :=
  r.(available) && (now - r.(lastHeartbeat) <? 45000) && Qlt_bool r.(loadPercent) 95
  && Qlt_bool r.(capacityPercent) 95.

Definition by_score (a b : PathCandidate) : bool := Qle_bool b.(score) a.(score).

Definition local_path (r : RelayHealth) : PathCandidate := mkPath LOCAL_RELAY r.(rh_endpoint) (800 - penalty r).
Definition regional_path (r : RelayHealth) : PathCandidate := mkPath REGIONAL_RELAY r.(rh_endpoint) (600 - penalty r).

Definition select (directEndpoint : option string) (local regional : list RelayHealth) (now : Date) : list PathCandidate :=
  sort_by by_score (
    match directEndpoint with Some e => if truthy e then [mkPath DIRECT e 1000] else [] | None => [] end
    ++ map local_path (List.filter (healthy now) local)
    ++ map regional_path (List.filter (healthy now) regional)).

(** ** [PgRelayStore]: the [relays] table *)

Record RelayRow := mkRelayRow {
  rl_region : string; rl_endpoint : string; rl_available : bool; rl_heartbeat : option Date;
  rl_instance : option string; rl_capacity_mbps : Z; rl_load : Q; rl_latency : Q; rl_sessions : Z;
  rl_throughput : Q
}.

Definition Qmin_bool (a b : Q) : Q := if Qle_bool a b then a else b.

Definition toHealth (id : string) (row : RelayRow) : RelayHealth :=
  let maxSessions := row.(rl_capacity_mbps) * 20 in
  mkRelay id row.(rl_region) row.(rl_endpoint) row.(rl_latency) row.(rl_load) row.(rl_available)
    (default 0 row.(rl_heartbeat)) row.(rl_sessions)
    (if 0 <? maxSessions then Qmin_bool 100 (inject_Z row.(rl_sessions) / inject_Z maxSessions * 100) else 0)%Q
    row.(rl_throughput).

Definition relay_insert (now : Date) (id region endpoint : string) (instanceId : option string)
    (capacityMbps : option Z) (t : gmap string RelayRow) : gmap string RelayRow :=
  let cap := default 1000 capacityMbps in
  <[id := match t !! id with
    | Some old => mkRelayRow region endpoint true (Some now) old.(rl_instance) cap old.(rl_load)
        old.(rl_latency) old.(rl_sessions) old.(rl_throughput)
    | None => mkRelayRow region endpoint true (Some now) instanceId cap 0 0 0 0
    end]> t.

Definition relay_remove (id : string) (t : gmap string RelayRow) : gmap string RelayRow := delete id t.

Record RelayHeartbeat := { hb_load : Q; hb_latency : Q; hb_sessions : Z; hb_throughput : Q }.

Definition relay_heartbeat (now : Date) (id : string) (h : RelayHeartbeat) (t : gmap string RelayRow) : gmap string RelayRow :=
  alter (fun old => mkRelayRow old.(rl_region) old.(rl_endpoint) true (Some now) old.(rl_instance)
    old.(rl_capacity_mbps) h.(hb_load) h.(hb_latency) h.(hb_sessions) h.(hb_throughput)) id t.

(** [list()]: [ORDER BY region, relay_id] *)
Definition relay_list (t : gmap string RelayRow) : list RelayHealth :=
  sort_by (fun a b => String.ltb a.(rh_region) b.(rh_region)
      || (String.eqb a.(rh_region) b.(rh_region) && String.leb a.(rh_id) b.(rh_id)))
    (map (fun kv => toHealth kv.1 kv.2) (map_to_list t)).

Definition candidates (now : Date) (t : gmap string RelayRow) : list RelayHealth :=
  map (fun kv => toHealth kv.1 kv.2)
    (List.filter (fun kv => kv.2.(rl_available) &&
       match kv.2.(rl_heartbeat) with Some h => now - 45000 <? h | None => false end) (map_to_list t)).

(** ** [MeshController] *)

Record MeshPeerPlan := mkPeer {
  pp_nodeId : string; pp_publicKey : string; pp_endpoint : option string;
  pp_allowedIps : list string; pp_keepalive : Z; pp_relay : bool
}.

Definition peer_payload (p : MeshPeerPlan) : json := JObj (
  [("publicKey", JStr p.(pp_publicKey)); ("allowedIps", jstrs p.(pp_allowedIps));
   ("keepaliveSeconds", JNum p.(pp_keepalive))]
  ++ (if truthy_opt p.(pp_endpoint) then jopt "endpoint" (JStr <$> p.(pp_endpoint)) else [])).

Definition applyPeersPayload (peers : list MeshPeerPlan) : json := JArr (map peer_payload peers).

Definition allowed (a b : SecurityZone) : bool :=
  if bool_decide (a = ZONE_FORENSIC_ISOLATION) || bool_decide (b = ZONE_FORENSIC_ISOLATION)
  then bool_decide (a = ZONE_ADMIN_MGMT) || bool_decide (b = ZONE_ADMIN_MGMT)
  else if bool_decide (a = ZONE_DEV) && bool_decide (b = ZONE_PROD_DATA) then false
  else true.

(** [selectRelayEndpoint]: [relays] is what the relay source answers, [None]
    when the controller has none. *)
Definition selectRelayEndpoint (relays : option (list RelayHealth)) (now : Date) (nodeRegion : string) : option string :=
  match relays with
  | None => None
  | Some candidates =>
      let knownRegion := negb (String.eqb nodeRegion UNASSIGNED_REGION) in
      let local := if knownRegion then List.filter (fun c => String.eqb c.(rh_region) nodeRegion) candidates else [] in
      let regional := if knownRegion then List.filter (fun c => negb (String.eqb c.(rh_region) nodeRegion)) candidates
                      else candidates in
      match head (select None local regional now) with
      | Some best => if negb (bool_decide (best.(kind) = DIRECT)) then Some best.(endpoint) else None
      | None => None
      end
  end.

Definition peers_for (relay : option string) (node : MeshNode) (all : list MeshNode) : list MeshPeerPlan :=
  map (fun p => mkPeer p.(n_id) p.(wireGuardPublicKey) (if truthy_opt relay then relay else None)
        [p.(internalIpv4) +:+ "/32"; p.(internalIpv6) +:+ "/128"] 25 (truthy_opt relay))
    (List.filter (fun p => allowed node.(zone) p.(zone))
      (List.filter (fun p => p.(active) && negb (String.eqb p.(n_id) node.(n_id))) all)).

Section controller.
Context `{Collation} (sha256 : string -> string).

Definition hash_json (v : json) : string := to_hex (sha256 (canonicalJson v)).

Definition planFor (relays : option (list RelayHealth)) (now : Date) (relayEndpoint : option string)
    (node : MeshNode) (all : list MeshNode) : list MeshPeerPlan * string :=
  let resolved := match relayEndpoint with
    | Some e => Some e
    | None => selectRelayEndpoint relays now (default UNASSIGNED_REGION node.(region))
    end in
  let peers := peers_for resolved node all in
  (peers, hash_json (applyPeersPayload peers)).

(** [PgMeshCommandSink.configure] and [sever] *)
Definition sink_configure (node : MeshNode) (peers : list MeshPeerPlan) : St Db unit :=
  enqueue node.(n_id) "APPLY_PEERS" (JObj [("peers", applyPeersPayload peers)]) default_priority default_ttl.
Definition sink_sever (nodeId : string) : St Db unit :=
  enqueue nodeId "QUARANTINE" (JObj [("reason", JStr "mesh topology quarantine")]) 200 default_ttl.

(** [MeshController.reconcile]; the result is the node, the number of peers and
    the topology hash. *)
Definition mesh_reconcile (relays : option (list RelayHealth)) (now : Date) (relayEndpoint : option string)
    (node : MeshNode) (all : list MeshNode) : St Db (string * nat * string) :=
  let '(peers, topologyHash) := planFor relays now relayEndpoint node all in
  sink_configure node peers ;;;
  mret (node.(n_id), length peers, topologyHash).

Definition mesh_quarantine (nodeId : string) : St Db unit := sink_sever nodeId.

(** [MeshControllerPeerDistributor.configure] *)
Definition distribute (relays : option (list RelayHealth)) (now : Date) (node : MeshNode)
    (existingPeers : list MeshNode) : St Db unit :=
  let all := existingPeers ++ [node] in
  for_each existingPeers (fun peer => mesh_reconcile relays now None peer all ;;; mret tt).
End controller.

(** ** Addresses *)

Fixpoint dec16 (v : Z) (s : string) : Z :=
  match s with
  | EmptyString => v
  | String c s' => dec16 (16 * v + Z.of_nat (default 0%nat (hex_value c))) s'
  end.

Lemma hex_char_value d : 0 <= d < 16 -> Z.of_nat (default 0%nat (hex_value (hex_char d))) = d.
Proof.
  intros Hd. assert (Forall (fun d => Z.of_nat (default 0%nat (hex_value (hex_char d))) = d)
    [0;1;2;3;4;5;6;7;8;9;10;11;12;13;14;15]) as H by (repeat constructor).
  rewrite Forall_forall in H. apply H. rewrite !elem_of_cons. lia.
Qed.

Lemma hex_go_S fuel n acc : hex_go (S fuel) n acc =
  if n <? 16 then String (hex_char (n mod 16)) acc else hex_go fuel (n / 16) (String (hex_char (n mod 16)) acc).
Proof. done. Qed.

Lemma dec16_go fuel n acc : 0 <= n < 16 ^ Z.of_nat (S fuel) -> dec16 0 (hex_go (S fuel) n acc) = dec16 n acc.
Proof.
  revert n acc; induction fuel as [|fuel IH]; intros n acc Hn; rewrite hex_go_S;
    pose proof (Z.mod_pos_bound n 16 ltac:(lia)); pose proof (Z.div_mod n 16 ltac:(lia)).
  - change (16 ^ Z.of_nat 1) with 16 in Hn. rewrite (proj2 (Z.ltb_lt _ _)) by lia.
    cbn [dec16]. rewrite hex_char_value by lia. rewrite Z.mod_small by lia. done.
  - rewrite Nat2Z.inj_succ, Z.pow_succ_r in Hn by lia.
    destruct (Z.ltb_spec n 16).
    + cbn [dec16]. rewrite hex_char_value by lia. rewrite Z.mod_small by lia. done.
    + rewrite IH; [cbn [dec16]; rewrite hex_char_value by lia; f_equal; lia|].
      split; [apply Z.div_pos; lia|apply Z.div_lt_upper_bound; lia].
Qed.

Lemma ipv6_of_inj m n : 0 <= m < 65536 -> 0 <= n < 65536 -> ipv6_of m = ipv6_of n -> m = n.
Proof.
  intros Hm Hn E. apply append_inj in E as [_ E]; [|done]. apply (f_equal (dec16 0)) in E.
  unfold toString16 in E. rewrite !dec16_go in E; [done|change (16 ^ Z.of_nat 5) with 1048576; lia..].
Qed.

Lemma ipv4_of_fields m n :
  ipv4_of m = ipv4_of n -> (10 + m / 254) mod 256 = (10 + n / 254) mod 256 /\ m mod 254 = n mod 254.
Proof.
  unfold ipv4_of. intros E. apply append_inj in E as [_ E]; [|done].
  apply (all_chars_split num_char) in E as [E1 E2]; [|apply str_of_Z_num..|done|done].
  apply append_inj in E2 as [_ E2]; [|done].
  apply (inj str_of_Z) in E1, E2. lia.
Qed.

(** The numbers whose IPv4 addresses do not repeat: below and above the wrap. *)
Lemma ipv4_of_inj m n :
  (2 <= m < 65024 /\ 2 <= n < 65024) \/ (65024 <= m < 65534 /\ 65024 <= n < 65534) ->
  ipv4_of m = ipv4_of n -> m = n.
Proof.
  intros H [E1 E2]%ipv4_of_fields.
  assert (m / 254 = n / 254) as E3.
  { destruct H as [[Hm Hn]|[Hm Hn]].
    - assert (0 <= m / 254 < 256) by (split; [apply Z.div_pos; lia|apply Z.div_lt_upper_bound; lia]).
      assert (0 <= n / 254 < 256) by (split; [apply Z.div_pos; lia|apply Z.div_lt_upper_bound; lia]).
      pose proof (Z.div_mod (10 + m / 254) 256). pose proof (Z.div_mod (10 + n / 254) 256).
      pose proof (Z.mod_pos_bound (10 + m / 254) 256). pose proof (Z.mod_pos_bound (10 + n / 254) 256). lia.
    - assert (256 <= m / 254 < 259) by (split; [apply Z.div_le_lower_bound; lia|apply Z.div_lt_upper_bound; lia]).
      assert (256 <= n / 254 < 259) by (split; [apply Z.div_le_lower_bound; lia|apply Z.div_lt_upper_bound; lia]).
      pose proof (Z.div_mod (10 + m / 254) 256). pose proof (Z.div_mod (10 + n / 254) 256).
      pose proof (Z.mod_pos_bound (10 + m / 254) 256). pose proof (Z.mod_pos_bound (10 + n / 254) 256). lia. }
  pose proof (Z.div_mod m 254). pose proof (Z.div_mod n 254). lia.
Qed.

(** Both addresses of [n] are free. *)
Definition free (used4 used6 : list string) (n : Z) : bool :=
  negb (includes used4 (ipv4_of n)) && negb (includes used6 (ipv6_of n)).

Lemma next_from_spec used4 used6 k n :
  match next_from used4 used6 k n with
  | Ok (v4, v6) => exists m, n <= m < n + Z.of_nat k /\ v4 = ipv4_of m /\ v6 = ipv6_of m /\
      free used4 used6 m = true /\ forall j, n <= j < m -> free used4 used6 j = false
  | Throw _ => forall j, n <= j < n + Z.of_nat k -> free used4 used6 j = false
  end.
Proof.
  revert n; induction k as [|k IH]; intros n; cbn [next_from]; [intros j Hj; lia|].
  fold (free used4 used6 n). destruct (free used4 used6 n) eqn:F.
  - exists n. split_and!; [lia|lia|done|done|done|]. intros j Hj. lia.
  - specialize (IH (n + 1)). destruct (next_from used4 used6 k (n + 1)) as [[v4 v6]|e].
    + destruct IH as (m & Hm & -> & -> & Fm & Hj). exists m. split_and!; [lia|lia|done|done|done|].
      intros j Hj'. destruct (Z.eq_dec j n) as [->|]; [done|]. apply Hj. lia.
    + intros j Hj. destruct (Z.eq_dec j n) as [->|]; [done|]. apply IH. lia.
Qed.

(** Counting: an injective address is taken by at most one number per lease. *)
Lemma taken_count (f : Z -> string) (l : list Z) (used : list string) :
  NoDup l -> (forall x y, x ∈ l -> y ∈ l -> f x = f y -> x = y) ->
  (length (List.filter (fun n => includes used (f n)) l) <= length used)%nat.
Proof.
  intros Hl Hf. rewrite <- (length_map f). apply NoDup_incl_length.
  - apply NoDup_ListNoDup. apply NoDup_fmap_2_strong.
    + intros x y [Hx _]%elem_of_List_filter [Hy _]%elem_of_List_filter. auto.
    + apply NoDup_ListNoDup, List.NoDup_filter. by apply NoDup_ListNoDup.
  - intros a Ha%list_elem_of_In. apply elem_of_List_map in Ha as (n & -> & Hn).
    apply elem_of_List_filter in Hn as [_ Hn]. apply list_elem_of_In. by apply includes_spec.
Qed.

Lemma filter_cover {A} (p q : A -> bool) l :
  (forall x, x ∈ l -> p x = true \/ q x = true) ->
  (length l <= length (List.filter p l) + length (List.filter q l))%nat.
Proof.
  induction l as [|x l IH]; intros H; [simpl; lia|].
  specialize (IH ltac:(intros y Hy; apply H; by right)).
  destruct (H x ltac:(left)) as [E|E]; simpl; rewrite E;
    [destruct (q x)|destruct (p x)]; simpl; lia.
Qed.

Lemma all_taken used4 used6 :
  (forall j, 2 <= j < 65534 -> free used4 used6 j = false) ->
  65532 <= Z.of_nat (length used6) + 2 * Z.of_nat (length used4).
Proof.
  intros H.
  assert (Hc : (length (seqZ 2 (65022 + 510)) <=
    length (List.filter (fun n => includes used4 (ipv4_of n)) (seqZ 2 (65022 + 510)))
    + length (List.filter (fun n => includes used6 (ipv6_of n)) (seqZ 2 (65022 + 510))))%nat).
  { apply filter_cover. intros j Hj%elem_of_seqZ. specialize (H j ltac:(lia)). unfold free in H.
    apply andb_false_iff in H as [H|H]; apply negb_false_iff in H; auto. }
  assert (H6 : (length (List.filter (fun n => includes used6 (ipv6_of n)) (seqZ 2 (65022 + 510))) <= length used6)%nat).
  { apply taken_count; [apply NoDup_seqZ|]. intros x y Hx%elem_of_seqZ Hy%elem_of_seqZ. apply ipv6_of_inj; lia. }
  assert (List.filter (fun n => includes used4 (ipv4_of n)) (seqZ 2 (65022 + 510)) =
    List.filter (fun n => includes used4 (ipv4_of n)) (seqZ 2 65022)
    ++ List.filter (fun n => includes used4 (ipv4_of n)) (seqZ (2 + 65022) 510)) as E
    by (rewrite seqZ_app by lia; apply List.filter_app).
  rewrite E, length_app in Hc. clear E.
  assert (H4 : (length (List.filter (fun n => includes used4 (ipv4_of n)) (seqZ 2 65022)) <= length used4)%nat).
  { apply taken_count; [apply NoDup_seqZ|]. intros x y Hx%elem_of_seqZ Hy%elem_of_seqZ. apply ipv4_of_inj. lia. }
  assert (H4' : (length (List.filter (fun n => includes used4 (ipv4_of n)) (seqZ (2 + 65022) 510)) <= length used4)%nat).
  { apply taken_count; [apply NoDup_seqZ|]. intros x y Hx%elem_of_seqZ Hy%elem_of_seqZ. apply ipv4_of_inj. lia. }
  rewrite length_seqZ in Hc. lia.
Qed.

(** Also: the allocator hands out a pair of addresses that is in no lease, the
    first such pair of the pool 2..65533; and it reports exhaustion only when
    the leases fill the pool, one number per IPv6 lease and at most two per IPv4
    lease (the IPv4 addresses repeat after 65024 numbers). *)
Theorem allocator_fresh used4 used6 :
  match next used4 used6 with
  | Ok (v4, v6) => v4 ∉ used4 /\ v6 ∉ used6 /\
      exists n, 2 <= n < 65534 /\ v4 = ipv4_of n /\ v6 = ipv6_of n /\
        forall m, 2 <= m < n -> ipv4_of m ∈ used4 \/ ipv6_of m ∈ used6
  | Throw _ => 65532 <= Z.of_nat (length used6) + 2 * Z.of_nat (length used4)
  end.
Proof.
  unfold next. pose proof (next_from_spec used4 used6 pool_size 2) as H.
  replace (2 + Z.of_nat pool_size) with 65534 in H by (unfold pool_size; rewrite Z2Nat.id; lia).
  destruct (next_from used4 used6 pool_size 2) as [[v4 v6]|e].
  - destruct H as (m & Hm & -> & -> & F & Hj). unfold free in F. bools.
    split_and!; [intros ?%includes_spec; congruence..|]. exists m. split_and!; [lia|lia|done|done|].
    intros j Hj'. specialize (Hj j Hj'). unfold free in Hj.
    apply andb_false_iff in Hj as [Hj|Hj]; bools; auto.
  - by apply all_taken.
Qed.

(** The addresses the DNS resolver answers blocked names with
    ([src/services/dns/resolver.ts]). *)
Definition sinkholeV4 : string := "10.144.0.53".
Definition sinkholeV6 : string := "fd14:4b41:5043::53".

(** Also: the pool contains the sinkhole addresses of the DNS resolver: with the
    81 first numbers leased, the next node is given the IPv6 address every
    blocked name resolves to; number 62536 has the IPv4 one. *)
Theorem allocator_hands_out_sinkhole :
  let leased := seqZ 2 81 in
  (exists v4, next (map ipv4_of leased) (map ipv6_of leased) = Ok (v4, sinkholeV6)) /\
  ipv4_of 62536 = sinkholeV4.
Proof.
  intros leased. split; [|vm_compute; reflexivity]. eexists.
  unfold next. assert (exists k, pool_size = (82 + k)%nat) as [k ->]
    by (exists (pool_size - 82)%nat; unfold pool_size; lia).
  vm_compute. reflexivity.
Qed.

(** ** Relay selection *)

Lemma by_score_total a b : by_score a b = true \/ by_score b a = true.
Proof. unfold by_score. rewrite !Qle_bool_iff. destruct (Qlt_le_dec (score a) (score b)); auto using Qlt_le_weak. Qed.

Lemma by_score_trans a b c : by_score a b = true -> by_score b c = true -> by_score a c = true.
Proof. unfold by_score. rewrite !Qle_bool_iff. eauto using Qle_trans. Qed.

Lemma elem_of_select d local regional now c :
  c ∈ select d local regional now <->
  (exists e, d = Some e /\ truthy e = true /\ c = mkPath DIRECT e 1000) \/
  (exists r, r ∈ local /\ healthy now r = true /\ c = local_path r) \/
  (exists r, r ∈ regional /\ healthy now r = true /\ c = regional_path r).
Proof.
  unfold select. rewrite elem_of_sort_by, !elem_of_app, !elem_of_List_map.
  setoid_rewrite elem_of_List_filter.
  assert (c ∈ match d with Some e => if truthy e then [mkPath DIRECT e 1000] else [] | None => [] end <->
    exists e, d = Some e /\ truthy e = true /\ c = mkPath DIRECT e 1000) as ->.
  { destruct d as [e|]; [destruct (truthy e) eqn:E|]; rewrite ?list_elem_of_singleton; split;
      [intros ->; eauto|intros (? & [= <-] & _ & ->); done|intros H; inversion H|
       intros (? & [= <-] & ? & _); congruence|intros H; inversion H|intros (? & ? & _); done]. }
  naive_solver.
Qed.

Lemma head_sorted {A} (leb : A -> A -> bool) l x :
  (forall a, leb a a = true) -> StronglySorted (fun a b => leb a b = true) l -> head l = Some x ->
  x ∈ l /\ forall y, y ∈ l -> leb x y = true.
Proof.
  intros Hr Hs E. destruct Hs as [|z l Hs Hall]; [done|]. injection E as ->. split; [left|].
  intros y [->|Hy]%elem_of_cons; [done|]. rewrite Forall_forall in Hall. auto.
Qed.

(** The tier-adjusted score of a relay for a node of the region. *)
Definition tier_score (nodeRegion : string) (r : RelayHealth) : Q :=
  if negb (String.eqb nodeRegion UNASSIGNED_REGION) && String.eqb r.(rh_region) nodeRegion
  then 800 - penalty r else 600 - penalty r.

(** Also: the endpoint the controller routes through belongs to a relay that is
    available, was heard from within 45 seconds and is below 95 % of load and
    capacity, and no healthy relay has a better score, where a relay of the
    node's own known region starts at 800 and any other at 600; without a healthy
    relay there is no endpoint (the peers are reached directly). *)
Theorem relay_choice_best relays now nodeRegion :
  match selectRelayEndpoint (Some relays) now nodeRegion with
  | Some e => exists r, r ∈ relays /\ healthy now r = true /\ r.(rh_endpoint) = e /\
      forall q, q ∈ relays -> healthy now q = true -> (tier_score nodeRegion q <= tier_score nodeRegion r)%Q
  | None => forall q, q ∈ relays -> healthy now q = false
  end.
Proof.
  unfold selectRelayEndpoint. set (known := negb _).
  set (local := if known then _ else _). set (regional := if known then _ else _).
  set (paths := select None local regional now).
  assert (Hsel : forall c, c ∈ paths <-> exists r, r ∈ relays /\ healthy now r = true /\
    c = mkPath (if known && String.eqb r.(rh_region) nodeRegion then LOCAL_RELAY else REGIONAL_RELAY)
          r.(rh_endpoint) (tier_score nodeRegion r)).
  { intros c. unfold paths. rewrite elem_of_select. unfold tier_score, local_path, regional_path. fold known. split.
    - intros [(e & ? & _)|[(r & Hr & Hh & ->)|(r & Hr & Hh & ->)]]; [done| |]; exists r.
      + unfold local in Hr. destruct known; [|inversion Hr]. apply elem_of_List_filter in Hr as [Hr E].
        by rewrite E.
      + unfold regional in Hr. destruct known; [apply elem_of_List_filter in Hr as [Hr E]; bools|]; [|done].
        rewrite (proj2 (String.eqb_neq _ _)) by done. done.
    - intros (r & Hr & Hh & ->). right. destruct (known && String.eqb r.(rh_region) nodeRegion) eqn:E; [left|right];
        exists r; (split; [|done]).
      + apply andb_true_iff in E as [Ek E]. unfold local. rewrite Ek. by apply elem_of_List_filter.
      + unfold regional. destruct known; [|done]. apply elem_of_List_filter. simpl in E. by rewrite E. }
  pose proof (sort_by_sorted by_score by_score_total by_score_trans
    ([] ++ map local_path (List.filter (healthy now) local) ++ map regional_path (List.filter (healthy now) regional)))
    as Hs. fold (select None local regional now) in Hs. fold paths in Hs.
  destruct (head paths) as [best|] eqn:Hb.
  - assert (forall a, by_score a a = true) as Hr by (intros a; apply Qle_bool_iff, Qle_refl).
    destruct (head_sorted _ _ _ Hr Hs Hb) as [Hin Hmax].
    pose proof Hin as (r & Hr1 & Hh & E)%Hsel. rewrite E. simpl.
    assert (negb (bool_decide ((if known && String.eqb r.(rh_region) nodeRegion then LOCAL_RELAY else REGIONAL_RELAY) = DIRECT)) = true)
      as -> by (by destruct (_ && _)).
    exists r. split_and!; [done..|]. intros q Hq Hhq.
    specialize (Hmax _ (proj2 (Hsel _) (ex_intro _ q (conj Hq (conj Hhq eq_refl))))).
    unfold by_score in Hmax. apply Qle_bool_iff in Hmax. rewrite E in Hmax. simpl in Hmax. done.
  - intros q Hq. destruct (healthy now q) eqn:Hh; [|done]. exfalso.
    assert (paths = []) as Hn by (by destruct paths).
    pose proof (proj2 (Hsel _) (ex_intro _ q (conj Hq (conj Hh eq_refl)))) as X. rewrite Hn in X. inversion X.
Qed.

(** A healthy relay of the node's own region under load, and an idle one elsewhere. *)
Definition busy_local : RelayHealth := mkRelay "l" "us-east-1" "local:1" 90 90 true 0 94 94 0.
Definition idle_regional : RelayHealth := mkRelay "r" "eu-west-1" "remote:1" 0 0 true 0 0 0 0.

(** Also: the tiers overlap: both relays are healthy and one is in the node's own
    region, yet the relay of the other region is chosen, because the penalty of
    the local one eats up its 200 points of lead. *)
Theorem regional_can_beat_local :
  healthy 0 busy_local = true /\ healthy 0 idle_regional = true /\
  selectRelayEndpoint (Some [busy_local; idle_regional]) 0 "us-east-1" = Some "remote:1".
Proof. vm_compute. done. Qed.

(** ** Topology *)

(** What a node is to be told about a peer. *)
Definition peer_of (relay : option string) (p : MeshNode) : MeshPeerPlan :=
  mkPeer p.(n_id) p.(wireGuardPublicKey) (if truthy_opt relay then relay else None)
    [p.(internalIpv4) +:+ "/32"; p.(internalIpv6) +:+ "/128"] 25 (truthy_opt relay).

Lemma elem_of_peers_for relay node all q :
  q ∈ peers_for relay node all <->
  exists p, p ∈ all /\ p.(active) = true /\ p.(n_id) <> node.(n_id) /\ allowed node.(zone) p.(zone) = true /\
    q = peer_of relay p.
Proof.
  unfold peers_for. rewrite elem_of_List_map. setoid_rewrite elem_of_List_filter.
  setoid_rewrite elem_of_List_filter. split.
  - intros (p & -> & (Hp & B) & Z). bools. eauto 10.
  - intros (p & Hp & Ha & Hne & Hz & ->). exists p. split_and!; [done..| |done].
    rewrite Ha, (proj2 (String.eqb_neq _ _)) by done. done.
Qed.

(** Also: the plan for a node lists exactly the other active nodes its zone may
    reach, each with its own key and its own two addresses as the only allowed
    source addresses; a node never peers with itself or with an inactive node; a
    quarantined (forensic) node is peered with management nodes only, both ways,
    and a development node is never given a production-data peer. *)
Theorem plan_peers_exact `{Collation} sha256 relays now relay node all :
  let peers := (planFor sha256 relays now relay node all).1 in
  (exists e, forall q, q ∈ peers <-> exists p, p ∈ all /\ p.(active) = true /\ p.(n_id) <> node.(n_id) /\
     allowed node.(zone) p.(zone) = true /\ q = peer_of e p) /\
  (forall p, allowed node.(zone) p.(zone) = true ->
     (node.(zone) = ZONE_FORENSIC_ISOLATION -> p.(zone) = ZONE_ADMIN_MGMT) /\
     (p.(zone) = ZONE_FORENSIC_ISOLATION -> node.(zone) = ZONE_ADMIN_MGMT) /\
     ~ (node.(zone) = ZONE_DEV /\ p.(zone) = ZONE_PROD_DATA)).
Proof.
  intros peers. split.
  - eexists. intros q. apply elem_of_peers_for.
  - intros p Ha. unfold allowed in Ha. destruct (zone node), (zone p); naive_solver.
Qed.

(** A configure command for a node, with the plan it carries. *)
Definition peers_command `{Collation} (sha256 : string -> string) (relays : option (list RelayHealth))
    (now : Date) (all : list MeshNode) (pg : Date) (p : MeshNode) (c : CommandRow) : Prop :=
  c.(c_node) = p.(n_id) /\ c.(c_type) = "APPLY_PEERS" /\
  c.(c_payload) = jsonb (JObj [("peers", applyPeersPayload (planFor sha256 relays now None p all).1)]) /\
  c.(c_acknowledged) = None /\ c.(c_not_before) = pg /\ c.(c_expires) = pg + default_ttl * minute.

Lemma mesh_reconcile_run `{Collation} sha256 relays now relay p all db :
  is_Some (db.(mesh_nodes) !! p.(n_id)) ->
  mesh_reconcile sha256 relays now relay p all db =
  (set_controller_commands (db.(controller_commands) ++
     [new_command p.(n_id) "APPLY_PEERS" (JObj [("peers", applyPeersPayload (planFor sha256 relays now relay p all).1)])
        default_priority default_ttl db]) (set_uuid_next (db.(uuid_next) + 1) db),
   Ok (p.(n_id), length (planFor sha256 relays now relay p all).1, (planFor sha256 relays now relay p all).2)).
Proof.
  intros Hp. unfold mesh_reconcile. destruct (planFor sha256 relays now relay p all) as [peers h].
  unfold sink_configure. by rewrite (bind_ok _ _ _ _ _ (enqueue_run _ _ _ _ _ _ Hp)).
Qed.

Lemma distribute_loop `{Collation} sha256 relays now all l db :
  (forall p, p ∈ l -> is_Some (db.(mesh_nodes) !! p.(n_id))) ->
  exists u cs, for_each l (fun peer => mesh_reconcile sha256 relays now None peer all ;;; mret tt) db
      = (set_controller_commands (db.(controller_commands) ++ cs) (set_uuid_next u db), Ok tt) /\
    Forall2 (peers_command sha256 relays now all db.(pg_now)) l cs.
Proof.
  revert db; induction l as [|p l IH]; intros db Hl.
  { exists db.(uuid_next), []. split; [|constructor]. rewrite app_nil_r. by destruct db. }
  pose proof (mesh_reconcile_run sha256 relays now None p all db (Hl p ltac:(left))) as E.
  set (c := new_command _ _ _ _ _ db) in E. set (db1 := set_controller_commands _ _) in E.
  destruct (IH db1) as (u & cs & E2 & F); [intros q Hq; apply Hl; by right|].
  exists u, (c :: cs). split; [|by constructor].
  cbn [for_each]. rewrite (bind_ok _ _ db db1 tt) by (by rewrite (bind_ok _ _ _ _ _ E)).
  rewrite E2. unfold db1. simpl. by rewrite <- app_assoc.
Qed.

(** Also: when a node joins, every node that was active before it is told: the
    distributor queues one live APPLY_PEERS command per existing peer, whose plan
    is computed over the existing peers and the new node together. *)
Theorem distributor_tells_everyone `{Collation} sha256 relays now node existing db :
  (forall p, p ∈ existing -> is_Some (db.(mesh_nodes) !! p.(n_id))) ->
  exists db' cs, distribute sha256 relays now node existing db = (db', Ok tt) /\
    db'.(controller_commands) = db.(controller_commands) ++ cs /\
    Forall2 (peers_command sha256 relays now (existing ++ [node]) db.(pg_now)) existing cs.
Proof.
  intros Hl. destruct (distribute_loop sha256 relays now (existing ++ [node]) existing db Hl) as (u & cs & E & F).
  eexists _, cs. split; [exact E|]. done.
Qed.

Lemma distributor_tells_everyone_witness :
  let peer := sample_node "n1" "d1" "key1" "10.144.0.1" in
  let node := sample_node "n2" "d2" "key2" "10.144.0.2" in
  exists db' cs, @distribute code_point_collation (fun s => s) None 0 node [peer] sample_db = (db', Ok tt) /\
    Forall2 (@peers_command code_point_collation (fun s => s) None 0 [peer; node] 1000) [peer] cs.
Proof.
  intros peer node.
  destruct (@distributor_tells_everyone code_point_collation (fun s => s) None 0 node [peer] sample_db)
    as (db' & cs & E & _ & F).
  - intros p Hp. apply list_elem_of_singleton in Hp as ->. by eexists.
  - exists db', cs. split; [exact E|exact F].
Defined.
