(* ===== verification/ThreatResponse.v ===== *)
(** * Responding to threats

    [ThreatResponseService] ([src/src/application/threat-response.ts]),
    [HeartbeatService] ([heartbeat.ts]), [SocService] ([soc.ts]), and the SOC
    console's actions ([src/apps/security-soc/backend.ts] and
    [pg-soc-actions.ts]).  The [ThreatSink] of production does nothing
    ([NoopThreatSink]); the clearance verifier is a parameter of [restore]. *)

From S2P Require Import Prelude Json Text Domain Database Repositories PolicyDecision CommandQueue Enforcer.
Open Scope Z_scope.

(** ** [ThreatResponseService] *)

(** [Number(event.metadata.score ?? 0)]; [None] is [NaN]. *)
Definition metadata_score (m : list (string * json)) : option Z :=
  match jlookup "score" m with
  | None | Some JNull => Some 0
  | Some v => js_number v
  end.

Definition at_least (n : option Z) (k : Z) : bool :=
  match n with Some n => k <=? n | None => false end.

Definition threat_level (e : SecurityEvent) : Z :=
  let n := metadata_score e.(metadata) in
  if bool_decide (e.(severity) = EMERGENCY) || at_least n 90 then 3
  else if bool_decide (e.(severity) = CRITICAL) || at_least n 70 then 2
  else if bool_decide (e.(severity) = WARN) || at_least n 40 then 1
  else 0.

Definition with_quarantine (c : bool) (updated : Date) (why : option string) (d : Device) : Device :=
  mkDevice d.(d_id) d.(hostname) d.(hardwareId) d.(platform) d.(osVersion) d.(publicAttestationKey)
    c d.(revoked) d.(posture) d.(createdAt) updated d.(lastPostureAt) d.(agentVersion) why.

Definition terminated_grant (why : string) (g : JitGrant) : JitGrant :=
  mkGrant g.(g_id) g.(g_userId) g.(targetResource) g.(targetZone) g.(justification) g.(approvedBy)
    g.(grantedAt) g.(g_expiresAt) true (Some why).

Definition save_device_opt (f : Device -> Device) (o : option Device) : St Db unit :=
  match o with Some d => save (EDevice (f d)) | None => mret tt end.

Definition handle (event : SecurityEvent) : St Db (Z * string) :=
  append_event event ;;;
  let level := threat_level event in
  if level =? 0 then mret (level, "OBSERVE")
  else if level =? 1 then
    publish "security.challenge.required" (JObj (jopt "nodeId" (JStr <$> event.(e_nodeId)))) ;;;
    mret (level, "REAUTHENTICATE")
  else match when_truthy event.(e_nodeId) with
  | None => mret (level, "MANUAL_REVIEW")
  | Some nodeId =>
      let* node := gets (get_node nodeId) in
      match node with
      | None => mret (level, "UNKNOWN_NODE")
      | Some node =>
          let* device := gets (get_device node.(deviceId)) in
          save_device_opt (with_quarantine true event.(e_at) (Some event.(description))) device ;;;
          let* grants := gets (listActive_grants event.(e_at)) in
          for_each (List.filter (fun g => bool_decide (g.(targetZone) = node.(zone))) grants)
            (fun g => save (EGrant (terminated_grant "security incident" g))) ;;;
          isolateNode node.(n_id) ;;;
          publish "diagnostics.forensic_access.ready"
            (JObj [("nodeId", JStr node.(n_id)); ("deviceId", JStr node.(deviceId)); ("level", JNum level)]) ;;;
          mret (level, "QUARANTINED")
      end
  end.

(** [restore]: the verifier returns who approved and the case. *)
Definition restore (clearance : string -> string -> Date -> St Db (json * json))
    (nodeId clearanceToken : string) (now : Date) : St Db unit :=
  let* approved := clearance clearanceToken nodeId now in
  let* node := gets (get_node nodeId) in
  match node with
  | None => throw (JsError "node not found")
  | Some node =>
      let* device := gets (get_device node.(deviceId)) in
      save_device_opt (with_quarantine false now None) device ;;;
      restoreNode nodeId ;;;
      publish "security.node.restored" (JObj [("nodeId", JStr nodeId);
        ("approvedBy", approved.1); ("caseId", approved.2)])
  end.

(** [FormatOnlyClearanceVerifier.verify] *)
Definition format_only_clearance (token nodeId : string) (now : Date) : St Db (json * json) :=
  if startsWith "diag-clearance:" token then mret (JStr "unverified", JStr "unverified")
  else throw (JsError "signed Diagnostics clearance required").

(** ** [HeartbeatService.accept] *)

Record Heartbeat := { h_nodeId : string; h_at : Date; h_posture : DevicePosture; h_agentVersion : string }.

Definition compliant (p : DevicePosture) : bool :=
  p.(osCurrent) && p.(diskEncrypted) && p.(secureBoot) && p.(firewallEnabled) && p.(agentHealthy)
  && negb p.(bannedProcessFound).

Definition with_heartbeat (h : Heartbeat) (d : Device) : Device :=
  mkDevice d.(d_id) d.(hostname) d.(hardwareId) d.(platform) d.(osVersion) d.(publicAttestationKey)
    d.(compromised) d.(revoked) h.(h_posture) d.(createdAt) h.(h_at) (Some h.(h_at))
    (Some h.(h_agentVersion)) d.(quarantineReason).

Definition accept (h : Heartbeat) (now : Date) : St Db bool :=
  let* node := gets (get_node h.(h_nodeId)) in
  match node with
  | None => throw (JsError "unregistered node")
  | Some node =>
      if 120000 <? Z.abs (now - h.(h_at)) then throw (JsError "stale heartbeat")
      else
        let* device := gets (get_device node.(deviceId)) in
        match device with
        | None => throw (JsError "device missing")
        | Some device =>
            save (EDevice (with_heartbeat h device)) ;;;
            let ok := compliant h.(h_posture) in
            publish (if ok then "security.heartbeat.accepted" else "security.posture.failed")
              (JObj [("nodeId", JStr h.(h_nodeId)); ("agentVersion", JStr h.(h_agentVersion));
                     ("compliant", JBool ok)]) ;;;
            mret ok
        end
  end.

(** ** The SOC *)

Record SocCounts := {
  sc_devices : nat; sc_revoked : nat; sc_compromised : nat; sc_nodes : nat; sc_activeNodes : nat;
  sc_activeJit : nat; sc_activePolicies : nat; sc_criticalEvents : nat
}.

(** [SocService.snapshot] *)
Definition snapshot (now : Date) (db : Db) : SocCounts * list MeshNode * list SecurityEvent :=
  let devices := listAll db in
  let nodes := list_nodes db in
  let events := recent 100 db in
  ({| sc_devices := length devices; sc_revoked := length (List.filter revoked devices);
      sc_compromised := length (List.filter compromised devices); sc_nodes := length nodes;
      sc_activeNodes := length (List.filter active nodes);
      sc_activeJit := length (listActive_grants now db);
      sc_activePolicies := length (listActive_policies db);
      sc_criticalEvents := length (List.filter (fun e =>
        bool_decide (e.(severity) = CRITICAL) || bool_decide (e.(severity) = EMERGENCY)) events) |},
   nodes, events).

(** [PgSocActions] *)
Definition soc_quarantine_action (id : string) (now : Date) (nodeId reason actor : string) : St Db unit :=
  handle {| e_id := id; e_nodeId := Some nodeId; e_at := now; severity := CRITICAL;
    engine := "soc-console"; e_type := "MANUAL_QUARANTINE"; description := reason;
    metadata := [("score", JNum 90); ("actor", JStr actor)] |} ;;;
  mret tt.

Definition emergencyLockdown_action (now : Date) (reason actor confirmation : string) : St Db unit :=
  let* nodes := gets list_nodes in
  let activeNodes := List.filter active nodes in
  for_each activeNodes (fun n => isolateNode n.(n_id)) ;;;
  let* activeGrants := gets (listActive_grants now) in
  for_each activeGrants (fun g => save (EGrant (terminated_grant ("emergency lockdown: " +:+ reason) g))) ;;;
  publish "security.emergency_lockdown" (JObj [("reason", JStr reason); ("actor", JStr actor);
    ("confirmation", JStr confirmation); ("at", jdate now);
    ("nodesIsolated", JNum (Z.of_nat (length activeNodes)));
    ("grantsTerminated", JNum (Z.of_nat (length activeGrants)))]).

(** [SecuritySocBackend] *)
Definition soc_quarantine (id : string) (now : Date) (nodeId reason actor : string) : St Db unit :=
  if (String.length (trim reason) <? 12)%nat then throw (JsError "quarantine reason must be meaningful")
  else soc_quarantine_action id now nodeId reason actor.

Definition soc_restore (clearance : string -> string -> Date -> St Db (json * json)) (now : Date)
    (nodeId actor clearanceToken : string) : St Db unit :=
  restore clearance nodeId clearanceToken now.

Definition emergencyLockdown (now : Date) (reason actor confirmation : string) : St Db unit :=
  if negb (String.eqb confirmation "LOCKDOWN") then throw (JsError "typed LOCKDOWN confirmation required")
  else if (String.length (trim reason) <? 20)%nat then throw (JsError "detailed emergency reason required")
  else emergencyLockdown_action now reason actor confirmation.

(** ** Containment *)

(** Terminating the listed grants touches these rows only. *)
Lemma terminate_grants why l db :
  keyed g_id db.(jit_grants) -> (forall g, g ∈ l -> db.(jit_grants) !! g.(g_id) <> None) ->
  exists m, for_each l (fun g => save (EGrant (terminated_grant why g))) db = (set_jit_grants m db, Ok tt) /\
    keyed g_id m /\
    (forall k g, m !! k = Some g -> k ∈ map g_id l -> g.(terminated) = true) /\
    (forall k, k ∉ map g_id l -> m !! k = db.(jit_grants) !! k).
Proof.
  revert db; induction l as [|g l IH]; intros db Hk Hl.
  { exists db.(jit_grants). split_and!; [by destruct db|done|intros k g _ H; inversion H|done]. }
  destruct (db.(jit_grants) !! g.(g_id)) as [old|] eqn:E; [|by destruct (Hl g ltac:(left))].
  assert (g_id old = g_id g) as Hid by (by apply Hk).
  set (row := mkGrant old.(g_id) old.(g_userId) old.(targetResource) old.(targetZone) old.(justification)
    g.(approvedBy) old.(grantedAt) old.(g_expiresAt) true (Some why)).
  set (db1 := set_jit_grants (<[g.(g_id) := row]> db.(jit_grants)) db).
  assert (Hrun : save (EGrant (terminated_grant why g)) db = (db1, Ok tt)).
  { simpl. unfold saveGrant. simpl. by rewrite E. }
  destruct (IH db1) as (m & Em & Hkm & Ht & Hf).
  { apply keyed_insert; done. }
  { intros h Hh. simpl. intros N. apply lookup_insert_None in N as [N _]. by destruct (Hl h ltac:(by right)). }
  exists m. split_and!; [|done| |].
  - cbn [for_each]. by rewrite (bind_ok _ _ _ _ _ Hrun), Em.
  - intros k h Hm [->|Hkl]%elem_of_cons; [|by eapply Ht].
    destruct (base.decide (g_id g ∈ map g_id l)) as [Hin|Hin]; [by eapply Ht|].
    rewrite (Hf _ Hin) in Hm. simpl in Hm. rewrite lookup_insert_eq in Hm. by injection Hm as <-.
  - intros k Hn. apply not_elem_of_cons in Hn as [Hn Hl']. rewrite (Hf k Hl'). simpl.
    by rewrite lookup_insert_ne by done.
Qed.

Lemma get_node_row id db n :
  get_node id db = Some n -> db_ok db ->
  exists r, db.(mesh_nodes) !! id = Some r /\ n = node r /\ n.(n_id) = id /\ db.(devices) !! id = None.
Proof.
  intros H Hok. unfold get_node, repo_get in H. destruct (db.(devices) !! id) eqn:D; [done|].
  destruct (db.(mesh_nodes) !! id) as [r|] eqn:N; [|by destruct (db.(network_policies) !! id), (db.(jit_grants) !! id)].
  injection H as <-. exists r. split_and!; try done. simpl. by apply (nodes_keyed _ Hok).
Qed.

Lemma get_device_row id db : get_device id db = device <$> db.(devices) !! id.
Proof.
  unfold get_device, repo_get.
  by destruct (db.(devices) !! id), (db.(mesh_nodes) !! id), (db.(network_policies) !! id), (db.(jit_grants) !! id).
Qed.

Lemma node_owner id db n :
  get_node id db = Some n -> db_ok db -> exists d, db.(devices) !! n.(deviceId) = Some d.
Proof.
  intros H Hok. destruct (get_node_row id db n H Hok) as (r & Hr & -> & _).
  destruct (node_device _ Hok id r Hr) as [d Hd]. by exists d.
Qed.

Lemma isolateNode_run id db :
  is_Some (db.(mesh_nodes) !! id) ->
  isolateNode id db = (set_controller_commands (db.(controller_commands) ++
    [new_command id "QUARANTINE" (JObj [("reason", JStr "policy enforcement point")]) 200 default_ttl db])
    (set_uuid_next (db.(uuid_next) + 1) db), Ok tt).
Proof.
  intros H. unfold isolateNode. change (mbind ?k (gets ?g) db) with (k (g db) db). cbn beta.
  destruct (repo_get id db) eqn:E; [by apply enqueue_run|].
  unfold repo_get in E. destruct H as [n Hn]. rewrite Hn in E. by destruct (db.(devices) !! id).
Qed.

(** The row a quarantine leaves behind for the device. *)
Definition quarantined_row (e : SecurityEvent) (now : Date) (d : Device) : Device :=
  mkDevice d.(d_id) d.(hostname) d.(hardwareId) d.(platform) d.(osVersion) d.(publicAttestationKey)
    true d.(revoked) d.(posture) d.(createdAt) now d.(lastPostureAt)
    (when_truthy d.(agentVersion)) (Some e.(description)).

Lemma handle_contains e db nodeId n d :
  db_ok db -> 2 <= threat_level e -> e.(e_nodeId) = Some nodeId -> truthy nodeId = true ->
  get_node nodeId db = Some n -> db.(devices) !! n.(deviceId) = Some d -> event_refused e db = None ->
  exists m db', handle e db = (db', Ok (threat_level e, "QUARANTINED")) /\
    db'.(devices) = <[n.(deviceId) := quarantined_row e db.(pg_now) d]> db.(devices) /\
    db'.(jit_grants) = m /\
    (forall k g, m !! k = Some g -> g.(targetZone) = n.(zone) -> g.(terminated) = true \/ g.(g_expiresAt) <= e.(e_at)) /\
    db'.(controller_commands) = db.(controller_commands) ++
      [new_command nodeId "QUARANTINE" (JObj [("reason", JStr "policy enforcement point")]) 200 default_ttl db] /\
    db'.(pg_now) = db.(pg_now).
Proof.
  intros Hok Hlev Hid Htr Hn Hd Hev.
  destruct (get_node_row nodeId db n Hn Hok) as (r & Hr & En & Eid & Hnd).
  assert (Hdid : d_id d = n.(deviceId)) by (by apply (devices_keyed _ Hok)).
  unfold handle. rewrite (bind_ok _ _ db (set_security_events (security_events db ++ [stored_event e]) db) tt)
    by (unfold append_event; by rewrite Hev).
  set (db0 := set_security_events _ db).
  rewrite (proj2 (Z.eqb_neq (threat_level e) 0)) by lia.
  rewrite (proj2 (Z.eqb_neq (threat_level e) 1)) by lia.
  assert (when_truthy (e_nodeId e) = Some nodeId) as -> by (rewrite Hid; unfold when_truthy, truthy_opt; by rewrite Htr).
  change (mbind ?k (gets ?g) db0) with (k (g db0) db0). cbn beta.
  change (get_node nodeId db0) with (get_node nodeId db). rewrite Hn. cbn match.
  change (mbind ?k (gets ?g) db0) with (k (g db0) db0). cbn beta.
  rewrite get_device_row. change (devices db0) with (devices db). rewrite Hd. cbn [fmap option_fmap option_map].
  set (db1 := set_devices (<[n.(deviceId) := quarantined_row e db.(pg_now) d]> db.(devices)) db0).
  rewrite (bind_ok _ _ db0 db1 tt).
  2: { unfold save_device_opt, save, saveDevice. simpl. rewrite Hdid, Hd. done. }
  change (mbind ?k (gets ?g) db1) with (k (g db1) db1). cbn beta.
  set (gs := List.filter _ (listActive_grants (e_at e) db1)).
  destruct (terminate_grants "security incident" gs db1) as (m & Em & Hkm & Ht & Hf).
  { apply (grants_keyed _ Hok). }
  { intros g [Hg _]%elem_of_List_filter. apply elem_of_listActive_grants in Hg as (Hg & _).
    apply elem_of_rows in Hg as (k & Hk). simpl in *. rewrite (grants_keyed _ Hok k g Hk). congruence. }
  rewrite (bind_ok _ _ _ _ _ Em).
  rewrite (bind_ok _ _ _ _ _ (isolateNode_run n.(n_id) (set_jit_grants m db1) ltac:(rewrite Eid; simpl; by exists r))).
  exists m. eexists. split; [done|]. split_and!; [done|done| |simpl; by rewrite Eid|done].
  intros k g Hk Hz. destruct (base.decide (k ∈ map g_id gs)) as [Hin|Hin]; [left; by eapply Ht|].
  rewrite (Hf k Hin) in Hk. simpl in Hk. destruct (terminated g) eqn:T; [by left|right].
  destruct (Z.le_gt_cases (g_expiresAt g) (e_at e)) as [|L]; [done|]. exfalso. apply Hin.
  rewrite <- (grants_keyed _ Hok k g Hk). apply elem_of_List_map. exists g. split; [done|].
  apply elem_of_List_filter. rewrite bool_decide_eq_true. split; [|done].
  apply elem_of_listActive_grants. split_and!; [apply elem_of_rows; by exists k|done|lia].
Qed.

(** ** The properties *)

Lemma compromised_untrusted d : d.(compromised) = true -> postureOk d = false.
Proof. intros H. unfold postureOk. rewrite H. by rewrite andb_false_r. Qed.

(** C8: a critical or emergency event on an enrolled node contains it, if it can be
    stored.  [handle] returns QUARANTINED; the node's device is marked compromised
    with the event's description as the reason; no just-in-time grant of the node's
    zone is live at the time of the event any more; a live QUARANTINE command of high
    priority is queued for the node; and the device as it is now stored is refused
    everything by the decision point, whoever asks and whatever else the database
    holds.  An event that the table refuses (a month without a partition, an id that
    is taken) makes [handle] throw before any of this, and nothing changes. *)
Theorem handle_quarantines e db nodeId n :
  db_ok db -> 2 <= threat_level e -> e.(e_nodeId) = Some nodeId -> truthy nodeId = true ->
  get_node nodeId db = Some n ->
  match event_refused e db with
  | Some err => handle e db = (db, Throw err)
  | None => exists db' d', handle e db = (db', Ok (threat_level e, "QUARANTINED")) /\
      get_device n.(deviceId) db' = Some d' /\ d'.(compromised) = true /\
      d'.(quarantineReason) = when_truthy (Some e.(description)) /\
      (forall g, g ∈ listActive_grants e.(e_at) db' -> g.(targetZone) <> n.(zone)) /\
      hasPending nodeId "QUARANTINE" db' = true /\
      (forall hmac secret ms now id identity node resource other,
         (decide hmac secret ms now id identity d' node resource other).1.(allowed) = false)
  end.
Proof.
  intros Hok Hlev Hid Htr Hn. destruct (event_refused e db) as [err|] eqn:Hev;
    [unfold handle; apply bind_throw; unfold append_event; by rewrite Hev|].
  destruct (node_owner nodeId db n Hn Hok) as [d Hd].
  destruct (handle_contains e db nodeId n d Hok Hlev Hid Htr Hn Hd Hev)
    as (m & db' & E & Edev & Ejit & Hg & Ecmd & Epg).
  exists db', (device (quarantined_row e db.(pg_now) d)).
  split_and!; [done|by rewrite get_device_row, Edev, lookup_insert_eq|done|done| | |].
  - intros g (Hr & Ht & Hx)%elem_of_listActive_grants Hz. apply elem_of_rows in Hr as (k & Hk).
    rewrite Ejit in Hk. destruct (Hg k g Hk Hz) as [T|T]; [congruence|lia].
  - unfold hasPending. rewrite Ecmd, Epg. apply existsb_elem.
    eexists. split; [apply elem_of_app; right; left|]. simpl. rewrite String.eqb_refl. simpl.
    unfold live. simpl. apply Z.ltb_lt. unfold default_ttl, minute. lia.
  - intros. destruct (allowed _) eqn:A; [|done]. exfalso. revert A. unfold decide.
    rewrite (compromised_untrusted (device (quarantined_row e (pg_now db) d))) by done. simpl.
    by destruct (mfa identity).
Qed.

(** Also: the threat level never falls when an event gets more severe or its score
    rises, and only the events of level 2 and 3 (severity CRITICAL or EMERGENCY,
    or a score of at least 70) can contain a node. *)
Theorem threat_level_monotone e e' n n' :
  metadata_score e.(metadata) = Some n -> metadata_score e'.(metadata) = Some n' -> n <= n' ->
  (match e.(severity) with INFO => 0 | WARN => 1 | CRITICAL => 2 | EMERGENCY => 3 end
   <= match e'.(severity) with INFO => 0 | WARN => 1 | CRITICAL => 2 | EMERGENCY => 3 end) ->
  threat_level e <= threat_level e' /\
  (2 <= threat_level e <-> e.(severity) = CRITICAL \/ e.(severity) = EMERGENCY \/ 70 <= n).
Proof.
  intros Hs Hs' Hn Hsev. unfold threat_level. rewrite Hs, Hs'. simpl.
  destruct (Z.leb_spec 90 n), (Z.leb_spec 90 n'), (Z.leb_spec 70 n), (Z.leb_spec 70 n'),
    (Z.leb_spec 40 n), (Z.leb_spec 40 n'); try lia;
    destruct (severity e), (severity e'); simpl in *; (split; [lia|]); split;
    first [intros _; by auto | intros _; right; right; lia | intros [?|[?|?]]; done || lia | lia].
Qed.

(** Also: a heartbeat never lifts a quarantine or a revocation: whatever posture it
    reports, the device keeps its flags and the reason; a heartbeat from an
    unknown node or more than two minutes off the clock is refused and changes
    nothing. *)
Theorem heartbeat_keeps_quarantine h now db n d :
  db_ok db -> get_node h.(h_nodeId) db = Some n -> get_device n.(deviceId) db = Some d ->
  if 120000 <? Z.abs (now - h.(h_at)) then accept h now db = (db, Throw (JsError "stale heartbeat"))
  else exists db' d', accept h now db = (db', Ok (compliant h.(h_posture))) /\
    get_device n.(deviceId) db' = Some d' /\ d'.(posture) = h.(h_posture) /\
    d'.(compromised) = d.(compromised) /\ d'.(revoked) = d.(revoked) /\
    d'.(quarantineReason) = d.(quarantineReason) /\
    d'.(publicAttestationKey) = d.(publicAttestationKey).
Proof.
  intros Hok Hn Hd. unfold accept. change (mbind ?k (gets ?g) db) with (k (g db) db). cbn beta. rewrite Hn.
  destruct (120000 <? Z.abs (now - h_at h)); [done|].
  change (mbind ?k (gets ?g) db) with (k (g db) db). cbn beta. rewrite Hd.
  rewrite get_device_row in Hd. destruct (db.(devices) !! n.(deviceId)) as [row|] eqn:R; [|done].
  injection Hd as <-. assert (d_id row = n.(deviceId)) as Hid by (by apply (devices_keyed _ Hok)).
  unfold save, saveDevice, mbind, St_bind. simpl. rewrite Hid, R.
  eexists. exists (device (mkDevice (d_id row) (hostname row) (hardwareId row) (platform row) (osVersion row)
    (publicAttestationKey row) (compromised row) (revoked row) (h_posture h) (createdAt row) (pg_now db)
    (Some (h_at h)) (Some (h_agentVersion h)) (when_truthy (quarantineReason row)))).
  split; [done|]. split.
  { rewrite get_device_row. simpl. rewrite lookup_insert_eq. simpl. rewrite Hid. done. }
  simpl. split_and!; try done. unfold when_truthy. destruct (truthy_opt (quarantineReason row)) eqn:T;
    [by rewrite T|done].
Qed.

(** The nodes a lockdown isolates are all of [list()]: the query returns active
    nodes only. *)
Lemma filter_active_nodes db : List.filter active (list_nodes db) = list_nodes db.
Proof.
  apply forallb_filter_id, forallb_Forall, Forall_forall.
  intros n (m & _ & Ha & ->)%elem_of_list_nodes. done.
Qed.

Definition isolation_command (now : Date) (n : MeshNode) (c : CommandRow) : Prop :=
  broadcast_command "QUARANTINE" (JObj [("reason", JStr "policy enforcement point")]) 200 now n c.

Lemma isolate_all l db :
  (forall n, n ∈ l -> is_Some (db.(mesh_nodes) !! n.(n_id))) ->
  exists u cs, for_each l (fun n => isolateNode n.(n_id)) db =
      (set_controller_commands (db.(controller_commands) ++ cs) (set_uuid_next u db), Ok tt) /\
    Forall2 (isolation_command db.(pg_now)) l cs.
Proof.
  revert db; induction l as [|n l IH]; intros db Hl.
  { exists db.(uuid_next), []. split; [|constructor]. rewrite app_nil_r. by destruct db. }
  pose proof (isolateNode_run n.(n_id) db (Hl n ltac:(left))) as E.
  set (c := new_command _ _ _ _ _ db) in E. set (db1 := set_controller_commands _ _) in E.
  destruct (IH db1) as (u & cs & E2 & F); [intros q Hq; apply Hl; by right|].
  exists u, (c :: cs). split; [|by constructor].
  cbn [for_each]. rewrite (bind_ok _ _ _ _ _ E), E2. unfold db1. simpl. by rewrite <- app_assoc.
Qed.

(** Also: the emergency lockdown works only with the typed confirmation and a
    detailed reason, otherwise it throws and nothing happens; when it works, every
    active node has a QUARANTINE command queued and no just-in-time grant is live
    any more. *)
Theorem lockdown_total now reason actor confirmation db :
  db_ok db ->
  if String.eqb confirmation "LOCKDOWN" && negb (String.length (trim reason) <? 20)%nat then
    exists db' cs, emergencyLockdown now reason actor confirmation db = (db', Ok tt) /\
      listActive_grants now db' = [] /\
      db'.(controller_commands) = db.(controller_commands) ++ cs /\
      Forall2 (isolation_command db.(pg_now)) (list_nodes db) cs
  else exists e, emergencyLockdown now reason actor confirmation db = (db, Throw e).
Proof.
  intros Hok. unfold emergencyLockdown. destruct (String.eqb confirmation "LOCKDOWN"); simpl; [|by eexists].
  destruct (String.length (trim reason) <? 20)%nat; simpl; [by eexists|].
  unfold emergencyLockdown_action. change (mbind ?k (gets ?g) db) with (k (g db) db). cbn beta.
  rewrite filter_active_nodes.
  destruct (isolate_all (list_nodes db) db) as (u & cs & E1 & F1).
  { intros n Hn. by apply list_nodes_present. }
  rewrite (bind_ok _ _ _ _ _ E1). set (db1 := set_controller_commands _ _).
  change (mbind ?k (gets ?g) db1) with (k (g db1) db1). cbn beta.
  destruct (terminate_grants ("emergency lockdown: " +:+ reason) (listActive_grants now db1) db1)
    as (m & E2 & Hk & Ht & Hf).
  { apply (grants_keyed _ Hok). }
  { intros g (Hg & _)%elem_of_listActive_grants. apply elem_of_rows in Hg as (k & Hk). simpl in *.
    rewrite (grants_keyed _ Hok k g Hk). congruence. }
  rewrite (bind_ok _ _ _ _ _ E2). eexists _, cs. split; [done|]. split_and!; [|done|done].
  apply elem_of_nil_inv. intros g (Hg & Hnt & Hx)%elem_of_listActive_grants.
  simpl in Hg. apply elem_of_rows in Hg as (k & Hg).
  destruct (base.decide (k ∈ map g_id (listActive_grants now db1))) as [Hin|Hin].
  - rewrite (Ht k g Hg Hin) in Hnt. done.
  - rewrite (Hf k Hin) in Hg. simpl in Hg. apply Hin. apply elem_of_List_map. exists g.
    split; [by rewrite (grants_keyed _ Hok k g Hg)|]. apply elem_of_listActive_grants.
    split_and!; [apply elem_of_rows; by exists k|done|done].
Qed.

Lemma restoreNode_run id db :
  is_Some (db.(mesh_nodes) !! id) ->
  restoreNode id db = (set_controller_commands (db.(controller_commands) ++
    [new_command id "RESTORE" (JObj []) 200 default_ttl db]) (set_uuid_next (db.(uuid_next) + 1) db), Ok tt).
Proof.
  intros H. unfold restoreNode. change (mbind ?k (gets ?g) db) with (k (g db) db). cbn beta.
  destruct (repo_get id db) eqn:E; [by apply enqueue_run|].
  unfold repo_get in E. destruct H as [n Hn]. rewrite Hn in E. by destruct (db.(devices) !! id).
Qed.

(** Also: a quarantine is lifted only with a clearance the verifier accepts.  When
    the verifier throws, [restore] throws the same error and has done nothing
    else; when it accepts, the device is no longer compromised and has no
    quarantine reason, and a live RESTORE command is queued for the node. *)
Theorem restore_needs_clearance clearance nodeId token now db n :
  let '(db1, answer) := clearance token nodeId now db in
  db_ok db1 -> get_node nodeId db1 = Some n ->
  match answer with
  | Throw e => restore clearance nodeId token now db = (db1, Throw e)
  | Ok _ => exists db' d', restore clearance nodeId token now db = (db', Ok tt) /\
      get_device n.(deviceId) db' = Some d' /\ d'.(compromised) = false /\ d'.(quarantineReason) = None /\
      hasPending nodeId "RESTORE" db' = true
  end.
Proof.
  destruct (clearance token nodeId now db) as [db1 [[by_ case]|e]] eqn:C; intros Hok Hn;
    unfold restore; [rewrite (bind_ok _ _ _ _ _ C)|by rewrite (bind_throw _ _ _ _ _ C)].
  change (mbind ?k (gets ?g) db1) with (k (g db1) db1). cbn beta. rewrite Hn.
  change (mbind ?k (gets ?g) db1) with (k (g db1) db1). cbn beta.
  destruct (node_owner nodeId db1 n Hn Hok) as [d Hd]. rewrite get_device_row, Hd.
  assert (Hdid : d_id d = n.(deviceId)) by (by apply (devices_keyed _ Hok)).
  destruct (get_node_row nodeId db1 n Hn Hok) as (r & Hr & En & Eid & Hnd).
  set (row := mkDevice d.(d_id) d.(hostname) d.(hardwareId) d.(platform) d.(osVersion) d.(publicAttestationKey)
    false d.(revoked) d.(posture) d.(createdAt) db1.(pg_now) d.(lastPostureAt) (when_truthy d.(agentVersion)) None).
  set (db2 := set_devices (<[n.(deviceId) := row]> db1.(devices)) db1).
  rewrite (bind_ok _ _ db1 db2 tt).
  2: { unfold save_device_opt, save, saveDevice. simpl. rewrite Hdid, Hd. done. }
  rewrite (bind_ok _ _ _ _ _ (restoreNode_run nodeId db2 ltac:(simpl; by exists r))).
  eexists _, (device row). split; [done|]. split_and!; [|done|done|].
  - rewrite get_device_row. simpl. by rewrite lookup_insert_eq.
  - unfold hasPending. apply existsb_elem. eexists. split; [apply elem_of_app; right; left|].
    simpl. rewrite String.eqb_refl. unfold live. simpl. apply Z.ltb_lt. unfold default_ttl, minute. lia.
Qed.

(** ** Witnesses *)

Definition fleet : Db := set_devices {[ "d1" := sample_device "d1" "hw1" ]} sample_db.
Definition sample_event (s : Severity) (score : Z) : SecurityEvent :=
  {| e_id := "e1"; e_nodeId := Some "n1"; e_at := 500; severity := s; engine := "ids"; e_type := "SCAN";
     description := "port scan from node"; metadata := [("score", JNum score)] |}.

Lemma handle_quarantines_witness :
  (exists db', handle (sample_event CRITICAL 10) fleet = (db', Ok (2, "QUARANTINED"))) /\
  handle (sample_event CRITICAL 10) (set_event_months ∅ fleet) = (set_event_months ∅ fleet, Throw (PgError "23514")).
Proof.
  split.
  - pose proof (handle_quarantines (sample_event CRITICAL 10) fleet "n1"
      (node (sample_node "n1" "d1" "key1" "10.144.0.1")) sample_db_ok ltac:(vm_compute; discriminate)
      ltac:(reflexivity) ltac:(reflexivity) ltac:(vm_compute; reflexivity)) as P.
    assert (event_refused (sample_event CRITICAL 10) fleet = None) as R by (vm_compute; reflexivity).
    rewrite R in P. destruct P as (db' & d' & E & _). exists db'. exact E.
  - refine (handle_quarantines (sample_event CRITICAL 10) (set_event_months ∅ fleet) "n1"
      (node (sample_node "n1" "d1" "key1" "10.144.0.1")) _ ltac:(vm_compute; discriminate)
      ltac:(reflexivity) ltac:(reflexivity) ltac:(vm_compute; reflexivity)).
    destruct sample_db_ok. constructor; assumption.
Defined.

Lemma threat_level_monotone_witness :
  threat_level (sample_event WARN 10) <= threat_level (sample_event WARN 75).
Proof.
  destruct (threat_level_monotone (sample_event WARN 10) (sample_event WARN 75) 10 75) as [H _].
  - reflexivity.
  - reflexivity.
  - lia.
  - simpl. lia.
  - exact H.
Defined.

Definition sample_heartbeat : Heartbeat :=
  {| h_nodeId := "n1"; h_at := 1000; h_posture := sample_posture; h_agentVersion := "1.2.0" |}.

Lemma heartbeat_keeps_quarantine_witness :
  exists db', accept sample_heartbeat 1000 fleet = (db', Ok true).
Proof.
  pose proof (heartbeat_keeps_quarantine sample_heartbeat 1000 fleet
    (node (sample_node "n1" "d1" "key1" "10.144.0.1")) (device (sample_device "d1" "hw1"))
    sample_db_ok ltac:(vm_compute; reflexivity) ltac:(vm_compute; reflexivity)) as P.
  simpl in P. destruct P as (db' & d' & E & _). exists db'. exact E.
Defined.

Lemma lockdown_total_witness :
  exists db', emergencyLockdown 0 "ransomware is spreading across zones" "ceo" "LOCKDOWN" fleet = (db', Ok tt).
Proof.
  pose proof (lockdown_total 0 "ransomware is spreading across zones" "ceo" "LOCKDOWN" fleet sample_db_ok) as P.
  destruct P as (db' & cs & E & _). exists db'. exact E.
Defined.

Lemma restore_needs_clearance_witness :
  (exists db', restore format_only_clearance "n1" "diag-clearance:x" 0 fleet = (db', Ok tt)) /\
  exists e, restore format_only_clearance "n1" "forged" 0 fleet = (fleet, Throw e).
Proof.
  split.
  - pose proof (restore_needs_clearance format_only_clearance "n1" "diag-clearance:x" 0 fleet
      (node (sample_node "n1" "d1" "key1" "10.144.0.1"))) as P.
    destruct (P sample_db_ok ltac:(vm_compute; reflexivity)) as (db' & d' & E & _). exists db'. exact E.
  - eexists. apply (restore_needs_clearance format_only_clearance "n1" "forged" 0 fleet
      (node (sample_node "n1" "d1" "key1" "10.144.0.1"))); [apply sample_db_ok|vm_compute; reflexivity].
Defined.
