(* ===== verification/Certificates.v ===== *)
(** * Certificates

    [PgCertificateStore] and [TrustCoreIssuer]
    ([src/services/trust-core/pg-certificate-store.ts], [issuer.ts],
    [trust-core-certificate-issuer.ts]).  The X.509 builder and the key provider
    sit behind one parameter: what [x509.create] answers for a certificate. *)

From S2P Require Import Prelude Json Text Domain Database Repositories CommandQueue.
Open Scope Z_scope.

(** ** [PgCertificateStore] *)

(** The issuer row is there from the start of the service; the node and the
    UNIQUE serial and id are checked. *)
Definition cert_save (r : CertificateRow) : St Db unit := fun db =>
  if existsb (fun c => String.eqb c.(ce_id) r.(ce_id) || String.eqb c.(ce_serial) r.(ce_serial)) db.(certificates)
  then (db, Throw unique_violation)
  else if bool_decide (is_Some (db.(mesh_nodes) !! r.(ce_node)))
  then (set_certificates (db.(certificates) ++ [r]) db, Ok tt)
  else (db, Throw foreign_key_violation).

Definition revoke_row (serial reason : string) (at_ : Date) (c : CertificateRow) : CertificateRow :=
  if String.eqb c.(ce_serial) serial then
    mkCertificate c.(ce_id) c.(ce_node) c.(ce_issuer) c.(ce_serial) c.(ce_subject) c.(ce_issued)
      c.(ce_expires) true (Some reason) (Some at_)
  else c.

Definition cert_revoke (serial reason : string) (at_ : Date) : St Db unit :=
  modify (fun db => set_certificates (map (revoke_row serial reason at_) db.(certificates)) db).

Definition activeCertificateFor (nodeId : string) (db : Db) : option string :=
  ce_serial <$> head (sort_by (fun a b => b.(ce_issued) <=? a.(ce_issued))
    (List.filter (fun c => String.eqb c.(ce_node) nodeId && negb c.(ce_revoked)) db.(certificates))).

Definition expiringWithin (days : Z) (db : Db) : list CertificateRow :=
  sort_by (fun a b => a.(ce_expires) <=? b.(ce_expires))
    (List.filter (fun c => negb c.(ce_revoked) && (c.(ce_expires) <? db.(pg_now) + days * day)) db.(certificates)).

(** [listRevoked()]: serial and time, oldest revocation first. *)
Definition listRevoked (db : Db) : list (string * Date) :=
  omap (fun c => (fun t => (c.(ce_serial), t)) <$> c.(ce_revoked_at))
    (sort_by (fun a b => default 0 a.(ce_revoked_at) <=? default 0 b.(ce_revoked_at))
      (List.filter (fun c => c.(ce_revoked) && bool_decide (is_Some c.(ce_revoked_at))) db.(certificates))).

(** ** [TrustCoreIssuer] *)

(** What the certificate is asked to say. *)
Record X509Input := {
  x_serial : string; x_subject : string; x_publicKeyPem : string;
  x_notBefore : Date; x_notAfter : Date; x_extensions : list (string * string)
}.

Record IssuedCertificate := { is_serial : string; is_pem : string; is_expiresAt : Date }.

Section issuer.
Context (x509_create : X509Input -> res string) (issuerId : string).

(** [serial] and [id] are the generated identifiers, [now] the clock. *)
Definition issueNode (serial id : string) (now : Date) (nodeId nodePublicKeyPem : string) (ttlMinutes : Z) :
    St Db IssuedCertificate :=
  if (ttlMinutes <? 5) || (1440 <? ttlMinutes) then throw (JsError "certificate TTL outside allowed range")
  else
    let expiresAt := now + ttlMinutes * 60000 in
    let subject := "CN=node:" +:+ nodeId +:+ ",OU=BAPC VPN Digital Security" in
    match x509_create {| x_serial := serial; x_subject := subject; x_publicKeyPem := nodePublicKeyPem;
        x_notBefore := now - 60000; x_notAfter := expiresAt;
        x_extensions := [("basicConstraints", "CA:FALSE"); ("keyUsage", "digitalSignature,keyAgreement");
          ("extendedKeyUsage", "clientAuth,serverAuth");
          ("subjectAltName", "URI:bapc:security:node:" +:+ nodeId)] |} with
    | Throw e => throw e
    | Ok pem =>
        cert_save (mkCertificate id nodeId issuerId serial subject now expiresAt false None None) ;;;
        mret {| is_serial := serial; is_pem := pem; is_expiresAt := expiresAt |}
    end.

Definition issuer_revoke (serial reason : string) (now : Date) : St Db unit :=
  if (String.length (trim reason) <? 5)%nat then throw (JsError "revocation reason required")
  else cert_revoke serial reason now.
End issuer.

(** ** Properties *)

Definition certs_ok (db : Db) : Prop := NoDup (map ce_serial db.(certificates)).

Lemma activeCertificate_spec nodeId db s :
  activeCertificateFor nodeId db = Some s ->
  exists c, c ∈ db.(certificates) /\ c.(ce_serial) = s /\ c.(ce_node) = nodeId /\ c.(ce_revoked) = false.
Proof.
  unfold activeCertificateFor. destruct (head _) as [c|] eqn:H; [|done]. intros [= <-].
  assert (c ∈ sort_by (fun a b => b.(ce_issued) <=? a.(ce_issued))
    (List.filter (fun c => String.eqb c.(ce_node) nodeId && negb c.(ce_revoked)) db.(certificates))) as Hc
    by (destruct (sort_by _ _); [done|injection H as ->; left]).
  rewrite elem_of_sort_by, elem_of_List_filter in Hc. destruct Hc as [Hc B]. bools. eauto.
Qed.

Lemma activeCertificate_None nodeId db :
  activeCertificateFor nodeId db = None <->
  forall c, c ∈ db.(certificates) -> c.(ce_node) = nodeId -> c.(ce_revoked) = true.
Proof.
  unfold activeCertificateFor. set (l := sort_by _ _).
  assert (Hl : forall c, c ∈ l <-> c ∈ db.(certificates) /\ (String.eqb c.(ce_node) nodeId && negb c.(ce_revoked)) = true)
    by (intros c; unfold l; by rewrite elem_of_sort_by, elem_of_List_filter).
  destruct l as [|c l'] eqn:E; simpl.
  - split; [|done]. intros _ c Hc En. destruct (ce_revoked c) eqn:R; [done|].
    assert (c ∈ []) as H; [|inversion H]. apply Hl. rewrite R, En, String.eqb_refl. done.
  - split; [done|]. intros H. destruct (proj1 (Hl c) ltac:(left)) as [Hc B]. bools.
    rewrite H in * by done. done.
Qed.

(** Also: an issued certificate is short-lived and on record.  Issuing refuses a
    lifetime outside 5 minutes to a day before anything is signed or stored; when
    it returns, the certificate expires [ttl] minutes after the clock and the
    store holds it, unrevoked, for that node under that serial; when it throws,
    nothing was stored. *)
Theorem issue_bounded x509 issuerId serial id now nodeId key ttl db :
  match issueNode x509 issuerId serial id now nodeId key ttl db with
  | (db', Ok c) => 5 <= ttl <= 1440 /\ c.(is_expiresAt) = now + ttl * 60000 /\ c.(is_serial) = serial /\
      (exists input, x509 input = Ok c.(is_pem) /\ input.(x_serial) = serial /\
         input.(x_notAfter) = c.(is_expiresAt) /\ input.(x_publicKeyPem) = key) /\
      db'.(certificates) = db.(certificates) ++ [mkCertificate id nodeId issuerId serial
        ("CN=node:" +:+ nodeId +:+ ",OU=BAPC VPN Digital Security") now c.(is_expiresAt) false None None]
  | (db', Throw _) => db' = db
  end.
Proof.
  unfold issueNode. destruct ((ttl <? 5) || (1440 <? ttl)) eqn:T; [done|]. bools.
  destruct (x509 _) as [pem|e] eqn:X; [|done].
  unfold cert_save, mbind, St_bind. destruct (existsb _ _); [done|]. simpl.
  destruct (bool_decide _); simpl; [|done]. split_and!; [lia|lia|done|done| |done].
  eexists. split; [exact X|]. done.
Qed.
