(* ===== verification/Correlation.v ===== *)
(** * Threat correlation

    [ThreatEngine] ([src/services/threat-engine/engine.ts]) over
    [PgThreatActionPort] and [PgIncidentPort], [ThreatCorrelator]
    ([correlator.ts]) over the port [ThreatSignalStore], and the two stores
    ([threat-signal-store.ts], [pg-threat-signal-store.ts]).  Confidences and
    weights are JavaScript numbers: rationals, the infinities and [NaN].  The copy of the signals that [open] puts into an
    incident's metadata is never read and left out. *)

From S2P Require Import Prelude Json Text Domain Database Repositories CommandQueue Enforcer Certificates ThreatResponse.
Open Scope Z_scope.

(** ** Numbers *)

Inductive number := NaN | NegInf | Fin (q : Q) | PosInf.

(** [a <= b] *)
Definition num_leb (a b : number) : bool :=
  match a, b with
  | NaN, _ | _, NaN => false
  | NegInf, _ | _, PosInf => true
  | Fin p, Fin q => Qle_bool p q
  | _, _ => false
  end.

(** [Math.max] and [Math.min] *)
Definition js_max (a b : number) : number :=
  match a, b with NaN, _ | _, NaN => NaN | _, _ => if num_leb a b then b else a end.
Definition js_min (a b : number) : number :=
  match a, b with NaN, _ | _, NaN => NaN | _, _ => if num_leb a b then a else b end.

Definition js_add (a b : number) : number :=
  match a, b with
  | NaN, _ | _, NaN | PosInf, NegInf | NegInf, PosInf => NaN
  | Fin p, Fin q => Fin (p + q)
  | PosInf, _ | _, PosInf => PosInf
  | NegInf, _ | _, NegInf => NegInf
  end.

Definition num_sign (a : number) : Z :=
  match a with NaN => 0 | NegInf => -1 | PosInf => 1 | Fin q => Z.sgn (Qnum q) end.
Definition js_mul (a b : number) : number :=
  match a, b with
  | NaN, _ | _, NaN => NaN
  | Fin p, Fin q => Fin (p * q)
  | _, _ => let s := num_sign a * num_sign b in if s =? 0 then NaN else if 0 <? s then PosInf else NegInf
  end.

(** [Math.round] *)
Definition round (q : Q) : Z := Qfloor (q + (1 # 2)).
Definition js_round (a : number) : number := match a with Fin q => Fin (inject_Z (round q)) | _ => a end.

(** [`${n}`] for an integer *)
Definition num_text (a : number) : string :=
  match a with NaN => "NaN" | NegInf => "-Infinity" | PosInf => "Infinity" | Fin q => str_of_Z (Qfloor q) end.
(** What [JSON.stringify] makes of an integer, an infinity or [NaN]. *)
Definition num_json (a : number) : json := match a with Fin q => JNum (Qfloor q) | _ => JNull end.

Record ThreatSignal := mkSignal {
  ts_node : option string; ts_kind : string; confidence : number; weight : number; ts_at : Date;
  ts_metadata : list (string * json)
}.

(** ** [ThreatEngine.score] *)

Definition contribution (s : ThreatSignal) : number :=
  js_mul (js_max (Fin 0) (js_min (Fin 1) s.(confidence))) (js_max (Fin 0) s.(weight)).

Definition raw_score (signals : list ThreatSignal) : number :=
  foldl (fun n s => js_add n (contribution s)) (Fin 0) signals.

Definition score (signals : list ThreatSignal) : number := js_min (Fin 100) (js_round (raw_score signals)).

Definition reaches (score : number) (k : Z) : bool := num_leb (Fin (inject_Z k)) score.

Definition tier (score : number) : Severity :=
  if reaches score 85 then EMERGENCY else if reaches score 65 then CRITICAL
  else if reaches score 35 then WARN else INFO.

(** ** [PgThreatActionPort] *)

Definition reauthenticate (nodeId : string) : St Db unit :=
  publish "security.challenge.required" (JObj [("nodeId", JStr nodeId)]).

Definition terminateJit (now : Date) (nodeId : string) : St Db unit :=
  let* node := gets (get_node nodeId) in
  match node with
  | None => mret tt
  | Some node =>
      let* grants := gets (listActive_grants now) in
      for_each (List.filter (fun g => bool_decide (g.(targetZone) = node.(zone)) && negb g.(terminated)) grants)
        (fun g => save (EGrant (terminated_grant "threat correlation" g)))
  end.

Definition revokeNodeCertificates (now : Date) (nodeId reason : string) : St Db unit :=
  let* cert := gets (activeCertificateFor nodeId) in
  match cert with Some serial => cert_revoke serial reason now | None => mret tt end.

Definition rotateMeshIdentity (nodeId : string) : St Db unit :=
  let* n := gets (repo_get nodeId) in
  match n with
  | None => mret tt
  | Some _ =>
      let* p := gets (hasPending nodeId rotation_command) in
      if (p : bool) then mret tt else enqueue nodeId rotation_command (JObj []) 200 default_ttl
  end.

(** ** [PgIncidentPort]

    [opened_at] is the column's default, [now()]. *)

Definition insert_incident (row_at : Date -> IncidentRow) : St Db unit := fun db =>
  let row := row_at db.(pg_now) in
  if existsb (fun i => String.eqb i.(in_id) row.(in_id)) db.(incidents) then (db, Throw unique_violation)
  else match row.(in_node) with
  | Some n =>
      if bool_decide (is_Some (db.(mesh_nodes) !! n)) then (set_incidents (db.(incidents) ++ [row]) db, Ok tt)
      else (db, Throw foreign_key_violation)
  | None => (set_incidents (db.(incidents) ++ [row]) db, Ok tt)
  end.

Definition incident_title (score : number) : string := "Correlated threat evaluation (score " +:+ num_text score +:+ ")".

Definition open (id : string) (nodeId : option string) (sev : Severity) (score : number) (signalCount : nat) : St Db unit :=
  let metadata := [("score", num_json score); ("signalCount", JNum (Z.of_nat signalCount))] in
  try_catch (insert_incident (fun opened => mkIncident id (incident_title score) sev true nodeId opened None metadata))
    (fun e =>
      match nodeId with
      | Some n =>
          if bool_decide (e = foreign_key_violation)
          then insert_incident (fun opened => mkIncident id (incident_title score) sev true None opened None
                 (metadata ++ [("unresolvedNodeId", JStr n)]))
          else throw e
      | None => throw e
      end).

Definition incident_event (id : string) (now : Date) (sev : Severity) (type desc : string)
    (metadata : list (string * json)) : St Db unit :=
  append_event {| e_id := id; e_nodeId := None; e_at := now; severity := sev;
    engine := "threat-correlator"; e_type := type; description := desc; metadata := metadata |}.

(** [primary_node_id::text=$1 OR metadata->>'unresolvedNodeId'=$1] *)
Definition about_node (nodeId : string) (i : IncidentRow) : bool :=
  bool_decide (i.(in_node) = Some nodeId)
  || match jlookup "unresolvedNodeId" i.(in_metadata) with Some (JStr s) => String.eqb s nodeId | _ => false end.

Definition close (eventId : string) (now : Date) (nodeId closedBy : string) : St Db nat :=
  let hit i := about_node nodeId i && i.(in_open) in
  let* ids := gets (fun db => map in_id (List.filter hit db.(incidents))) in
  modify (fun db => set_incidents (map (fun i => if hit i
    then mkIncident i.(in_id) i.(in_title) i.(in_severity) false i.(in_node) i.(in_opened) (Some now) i.(in_metadata)
    else i) db.(incidents)) db) ;;;
  match ids with
  | [] => mret 0%nat
  | _ => incident_event eventId now INFO "INCIDENT_RESOLVED"
           (str_of_Z (Z.of_nat (length ids)) +:+ " incident(s) resolved for node " +:+ nodeId)
           [("nodeId", JStr nodeId); ("closedBy", JStr closedBy); ("incidentIds", jstrs ids)] ;;;
         mret (length ids)
  end.

(** ** [ThreatEngine.evaluate] *)

Record Evaluation := { ev_score : number; ev_severity : Severity; ev_contained : bool }.

(** [signals.find(s => s.nodeId)?.nodeId] *)
Definition named_node (signals : list ThreatSignal) : option string :=
  match List.find (fun s => truthy_opt s.(ts_node)) signals with Some s => s.(ts_node) | None => None end.

(** What is done to the node, tier by tier. *)
Definition respond (now : Date) (nodeId : option string) (sev : Severity) : St Db unit :=
  match nodeId, sev with
  | Some n, WARN => reauthenticate n
  | Some n, CRITICAL => terminateJit now n ;;; isolateNode n
  | Some n, EMERGENCY =>
      terminateJit now n ;;; isolateNode n ;;;
      revokeNodeCertificates now n "emergency containment" ;;; rotateMeshIdentity n
  | _, _ => mret tt
  end.

Definition evaluate (incidentId eventId : string) (now : Date) (signals : list ThreatSignal) : St Db Evaluation :=
  let sc := score signals in
  let sev := tier sc in
  let nodeId := named_node signals in
  open incidentId nodeId sev sc (length signals) ;;;
  respond now nodeId sev ;;;
  incident_event eventId now sev "THREAT_EVALUATED" ("threat score " +:+ num_text sc)
    [("score", num_json sc); ("signalCount", JNum (Z.of_nat (length signals)));
     ("nodeId", match nodeId with Some n => JStr n | None => JNull end)] ;;;
  mret {| ev_score := sc; ev_severity := sev;
          ev_contained := bool_decide (is_Some nodeId) && reaches sc 65 |}.

(** [ThreatEngine.restore] *)
Definition engine_restore (eventId : string) (now : Date) (nodeId approvedBy : string) (forensicClearance : bool) : St Db unit :=
  if negb forensicClearance then throw (JsError "forensic clearance required before restore")
  else if (String.length (trim approvedBy) <? 3)%nat then throw (JsError "restore approver required")
  else
    restoreNode nodeId ;;;
    incident_event eventId now INFO "NODE_RESTORED" "node restored after forensic clearance"
      [("nodeId", JStr nodeId); ("approvedBy", JStr approvedBy)].

(** ** Signal stores *)

Definition UNATTRIBUTED : string := "__unattributed__".
Definition node_key (s : ThreatSignal) : string := default UNATTRIBUTED s.(ts_node).

Class ThreatSignalStore (S : Type) := {
  store_record : string -> ThreatSignal -> St S unit;
  store_window : string -> Z -> S -> S * list ThreatSignal;
  store_clear : string -> S -> S * nat;
  content : string -> S -> list ThreatSignal;
  stored : ThreatSignal -> res ThreatSignal
}.

Definition in_window (since : Z) (s : ThreatSignal) : bool := since <=? s.(ts_at).

(** What the correlator relies on; [content k] is what is kept for the key, and
    [stored] what is kept of a signal. *)
Class SignalStoreLaws (S : Type) `{ThreatSignalStore S} := {
  record_law k x s : node_key x = k -> x.(ts_node) <> Some UNATTRIBUTED ->
    match stored x with
    | Ok y => exists s', store_record k x s = (s', Ok tt) /\ content k s' ≡ₚ y :: content k s /\ y.(ts_at) = x.(ts_at)
    | Throw e => store_record k x s = (s, Throw e)
    end;
  window_law k since s :
    (store_window k since s).2 ≡ₚ List.filter (in_window since) (content k s) /\
    content k (store_window k since s).1 ≡ₚ List.filter (in_window since) (content k s);
  clear_law k s : (store_clear k s).2 = length (content k s) /\ content k (store_clear k s).1 = [];
  other_law k k' x since s : k <> k' ->
    content k' (store_record k x s).1 = content k' s /\
    content k' (store_window k since s).1 = content k' s /\
    content k' (store_clear k s).1 = content k' s
}.

(** [InMemoryThreatSignalStore] *)
Notation MemSignals := (gmap string (list ThreatSignal)).

Definition mem_content (k : string) (m : MemSignals) : list ThreatSignal := default [] (m !! k).
Definition mem_record (k : string) (x : ThreatSignal) : St MemSignals unit :=
  modify (fun m => <[k := mem_content k m ++ [x]]> m).
Definition mem_window (k : string) (since : Z) (m : MemSignals) : MemSignals * list ThreatSignal :=
  let kept := List.filter (in_window since) (mem_content k m) in
  (match kept with [] => delete k m | _ => <[k := kept]> m end, kept).
Definition mem_clear (k : string) (m : MemSignals) : MemSignals * nat :=
  (delete k m, length (mem_content k m)).

#[export] Instance InMemoryThreatSignalStore : ThreatSignalStore MemSignals := {
  store_record := mem_record; store_window := mem_window; store_clear := mem_clear; content := mem_content;
  stored x := Ok x
}.

(** [PgThreatSignalStore]: the rows of [threat_signal_window] in insertion order.
    The confidence is a [numeric(4,3)] and the weight a [numeric(10,2)] column: they
    round half away from zero, keep [NaN], and refuse what does not fit. *)
Notation PgSignals := (list (string * ThreatSignal)).

Definition numeric (precision scale : Z) (x : number) : res number :=
  match x with
  | NaN => Ok NaN
  | Fin q =>
      let m := inject_Z (10 ^ scale) in
      let n := (if Qle_bool 0 q then round (q * m) else - round (- q * m)) in
      if Z.abs n <? 10 ^ precision then Ok (Fin (Qred (inject_Z n / m))) else Throw (PgError "22003")
  | _ => Throw (PgError "22003")
  end.

Definition pg_stored (x : ThreatSignal) : res ThreatSignal :=
  match numeric 4 3 x.(confidence), numeric 10 2 x.(weight) with
  | Ok c, Ok w => Ok (mkSignal x.(ts_node) x.(ts_kind) c w x.(ts_at) (jsonb_members x.(ts_metadata)))
  | Throw e, _ | _, Throw e => Throw e
  end.

Definition toSignal (k : string) (row : ThreatSignal) : ThreatSignal :=
  mkSignal (if String.eqb k UNATTRIBUTED then None else Some k) row.(ts_kind) row.(confidence) row.(weight)
    row.(ts_at) row.(ts_metadata).

Definition pg_rows (k : string) (t : PgSignals) : list ThreatSignal :=
  map snd (List.filter (fun kv => String.eqb kv.1 k) t).
Definition pg_content (k : string) (t : PgSignals) : list ThreatSignal := map (toSignal k) (pg_rows k t).
Definition pg_record (k : string) (x : ThreatSignal) : St PgSignals unit := fun t =>
  match pg_stored x with Ok y => (t ++ [(k, y)], Ok tt) | Throw e => (t, Throw e) end.
Definition pg_window (k : string) (since : Z) (t : PgSignals) : PgSignals * list ThreatSignal :=
  let t' := List.filter (fun kv => negb (String.eqb kv.1 k && (kv.2.(ts_at) <? since))) t in
  (t', map (toSignal k) (sort_by (fun a b => a.(ts_at) <=? b.(ts_at)) (pg_rows k t'))).
Definition pg_clear (k : string) (t : PgSignals) : PgSignals * nat :=
  (List.filter (fun kv => negb (String.eqb kv.1 k)) t, length (pg_rows k t)).

#[export] Instance PgThreatSignalStore : ThreatSignalStore PgSignals := {
  store_record := pg_record; store_window := pg_window; store_clear := pg_clear; content := pg_content;
  stored := pg_stored
}.

(** ** [ThreatCorrelator] *)

Section correlator.
Context {S : Type} `{ThreatSignalStore S} (windowMs : Z).

Definition kept_since (k : string) (since : Z) : St S (list ThreatSignal) := fun s =>
  let '(s', kept) := store_window k since s in (s', Ok kept).

(** The batch [ingest] hands to the engine. *)
Definition correlate (signal : ThreatSignal) : St S (list ThreatSignal) :=
  let k := node_key signal in
  store_record k signal ;;; kept_since k (signal.(ts_at) - windowMs).

Definition ingest (incidentId eventId : string) (now : Date) (signal : ThreatSignal) (s : S) (db : Db) :
    S * (Db * res Evaluation) :=
  match correlate signal s with
  | (s', Ok kept) => (s', evaluate incidentId eventId now kept db)
  | (s', Throw e) => (s', (db, Throw e))
  end.

(** [dismiss]: [record] is the dismissal port. *)
Definition dismiss (record : string -> string -> nat -> St Db unit) (eventId : string) (now : Date)
    (nodeId dismissedBy : string) (s : S) (db : Db) : S * (Db * res nat) :=
  let '(s', count) := store_clear nodeId s in
  (s', (record nodeId dismissedBy count ;;; close eventId now nodeId dismissedBy ;;; mret count) db).

Definition activeSignalCount (nodeId : string) (now : Date) (s : S) : S * nat :=
  let '(s', l) := store_window nodeId (now - windowMs) s in (s', length l).
End correlator.

(** ** Scores *)

Definition is_nan (a : number) : bool := match a with NaN => true | _ => false end.
Definition is_inf (a : number) : bool := match a with PosInf => true | _ => false end.
Definition fin (a : number) : Q := match a with Fin q => q | _ => 0 end.

(** A contribution is [NaN], infinite, or finite and not negative. *)
Definition countable_part (a : number) : Prop := match a with NegInf => False | Fin q => (0 <= q)%Q | _ => True end.

Lemma js_max_countable a : countable_part (js_max (Fin 0) a).
Proof. destruct a as [| |q|]; simpl; try done. destruct (Qle_bool 0 q) eqn:E; [by apply Qle_bool_iff|done]. Qed.

Lemma js_mul_countable a b : countable_part a -> countable_part b -> countable_part (js_mul a b).
Proof.
  assert (forall q, (0 <= q)%Q -> 0 <= Z.sgn (Qnum q)) as S
    by (intros q H; unfold Qle in H; simpl in H; apply Z.sgn_nonneg; lia).
  destruct a as [| |p|], b as [| |q|]; simpl; try done; intros Hp Hq.
  - by apply Qmult_le_0_compat.
  - specialize (S p Hp). destruct (_ =? 0) eqn:E; [done|]. apply Z.eqb_neq in E.
    rewrite (proj2 (Z.ltb_lt _ _)); [done|lia].
  - specialize (S q Hq). destruct (Z.sgn (Qnum q)) eqn:E; done || lia.
Qed.

Lemma contribution_countable s : countable_part (contribution s).
Proof. apply js_mul_countable; apply js_max_countable. Qed.

(** The reduction of the engine over such numbers. *)
Lemma fold_js_add l : Forall countable_part l ->
  foldl js_add PosInf l = (if existsb is_nan l then NaN else PosInf) /\
  forall a, foldl js_add (Fin a) l =
    if existsb is_nan l then NaN else if existsb is_inf l then PosInf
    else Fin (foldl (fun n x => n + fin x)%Q a l).
Proof.
  assert (forall l, foldl js_add NaN l = NaN) as N by (intros k; by induction k).
  induction 1 as [|x l Hx _ [IHi IHf]]; [done|]. split.
  - destruct x; simpl; auto. done.
  - intros a. destruct x; simpl; auto. done.
Qed.

Definition total (l : list ThreatSignal) : Q := foldr (fun s n => fin (contribution s) + n)%Q 0%Q l.

Lemma fold_total l : forall a, (foldl (fun n x => n + fin x) a (map contribution l) == a + total l)%Q.
Proof.
  induction l as [|s l IH]; intros a; simpl; [by rewrite Qplus_0_r|].
  rewrite IH. by rewrite Qplus_assoc.
Qed.

Lemma round_comp q q' : (q == q')%Q -> round q = round q'.
Proof. intros E. unfold round. apply Qfloor_comp. by rewrite E. Qed.


(** The score without the reduction: [NaN] if a contribution is, the maximum if one
    is infinite, and else the rounded sum. *)
Lemma score_sum l :
  score l =
  if existsb is_nan (map contribution l) then NaN
  else if existsb is_inf (map contribution l) then Fin (inject_Z 100)
  else Fin (inject_Z (Z.min 100 (round (total l)))).
Proof.
  unfold score. assert (raw_score l = foldl js_add (Fin 0) (map contribution l)) as ->.
  { unfold raw_score. generalize (Fin 0). induction l as [|s l IH]; intros a; [done|]. simpl. apply IH. }
  destruct (fold_js_add (map contribution l)) as [_ ->]; [apply Forall_fmap, Forall_true; intros; apply contribution_countable|].
  destruct (existsb is_nan _); [done|]. destruct (existsb is_inf _); [done|]. simpl.
  rewrite (round_comp _ (total l)) by (rewrite fold_total; apply Qplus_0_l).
  unfold num_leb. destruct (Qle_bool 100 (inject_Z (round (total l)))) eqn:E.
  - apply Qle_bool_iff in E. change 100%Q with (inject_Z 100) in E. rewrite <- Zle_Qle in E. by rewrite Z.min_l.
  - assert (~ 100 <= round (total l)) as L.
    { intros L. apply not_true_iff_false in E. apply E. apply Qle_bool_iff. change 100%Q with (inject_Z 100). by rewrite <- Zle_Qle. }
    by rewrite Z.min_r by lia.
Qed.

#[export] Instance total_perm : Proper (Permutation ==> Qeq) total.
Proof.
  intros l l' H. induction H as [|s l l' _ IH|s s' l|l1 l2 l3 _ IH1 _ IH2]; simpl.
  - reflexivity.
  - by rewrite IH.
  - rewrite !Qplus_assoc. by rewrite (Qplus_comm (fin (contribution s'))).
  - by rewrite IH1.
Qed.

#[export] Instance existsb_contribution_perm p : Proper (Permutation ==> eq) (fun l => existsb p (map contribution l)).
Proof.
  intros l l' H. apply eq_true_iff_eq. rewrite !existsb_elem. apply (fmap_Permutation contribution) in H.
  change (contribution <$> l) with (map contribution l) in H. change (contribution <$> l') with (map contribution l') in H.
  by setoid_rewrite H.
Qed.

#[export] Instance score_perm : Proper (Permutation ==> eq) score.
Proof.
  intros l l' H. rewrite !score_sum.
  rewrite (existsb_contribution_perm is_nan _ _ H), (existsb_contribution_perm is_inf _ _ H).
  by rewrite (round_comp _ _ (total_perm _ _ H)).
Qed.










Lemma reaches_mono a k j : j <= k -> reaches a k = true -> reaches a j = true.
Proof.
  intros L. unfold reaches, num_leb. destruct a as [| |q|]; try done. rewrite !Qle_bool_iff. intros E.
  eapply Qle_trans; [|exact E]. by rewrite <- Zle_Qle.
Qed.


(** ** The stores have the laws *)

#[export] Instance mem_signal_laws : SignalStoreLaws MemSignals.
Proof.
  constructor.
  - intros k x s _ _. simpl. eexists. split; [done|]. unfold mem_content at 1. rewrite lookup_insert_eq. simpl.
    split; [|done]. rewrite Permutation_app_comm. done.
  - intros k since s. simpl. split; [done|]. unfold mem_content at 1.
    destruct (List.filter _ _) eqn:E; [by rewrite lookup_delete_eq|by rewrite lookup_insert_eq].
  - intros k s. simpl. split; [done|]. unfold mem_content. by rewrite lookup_delete_eq.
  - intros k k' x since s Hne. simpl. unfold mem_content. split_and!.
    + by rewrite lookup_insert_ne.
    + destruct (List.filter _ _); [by rewrite lookup_delete_ne|by rewrite lookup_insert_ne].
    + by rewrite lookup_delete_ne.
Qed.

Lemma pg_stored_spec x y : pg_stored x = Ok y -> y.(ts_node) = x.(ts_node) /\ y.(ts_at) = x.(ts_at).
Proof. unfold pg_stored. destruct (numeric 4 3 (confidence x)), (numeric 10 2 (weight x)); by intros [= <-]. Qed.

Lemma toSignal_own k x : node_key x = k -> x.(ts_node) <> Some UNATTRIBUTED -> toSignal k x = x.
Proof.
  intros <- Hn. unfold toSignal, node_key. destruct x as [[n|] ? ? ? ? ?]; simpl in *; [|done].
  destruct (String.eqb_spec n UNATTRIBUTED); [congruence|done].
Qed.

Lemma filter_filter {A} (p q : A -> bool) l :
  List.filter p (List.filter q l) = List.filter (fun x => p x && q x) l.
Proof.
  induction l as [|x l IH]; [done|]. simpl. destruct (q x); simpl; [destruct (p x); simpl|rewrite andb_false_r];
    by rewrite ?IH.
Qed.

Lemma filter_map {A B} (f : A -> B) (p : B -> bool) l :
  List.filter p (map f l) = map f (List.filter (fun x => p (f x)) l).
Proof. induction l as [|x l IH]; [done|]. simpl. destruct (p (f x)); simpl; by rewrite IH. Qed.

(** Pruning a key is filtering its own rows. *)
Lemma pg_rows_prune k since t :
  pg_rows k (List.filter (fun kv => negb (String.eqb kv.1 k && (kv.2.(ts_at) <? since))) t)
  = List.filter (in_window since) (pg_rows k t).
Proof.
  unfold pg_rows. rewrite filter_map, !filter_filter. f_equal. apply filter_ext. intros [k' x]. simpl.
  destruct (String.eqb k' k); simpl; [|by rewrite andb_false_r].
  unfold in_window. rewrite andb_true_r. by rewrite Z.leb_antisym.
Qed.

Lemma pg_rows_other k k' p t :
  k <> k' -> (forall x, p (k', x) = true) -> pg_rows k' (List.filter p t) = pg_rows k' t.
Proof.
  intros Hne Hp. unfold pg_rows. rewrite filter_filter. f_equal. apply filter_ext. intros [j x]. simpl.
  destruct (String.eqb_spec j k'); simpl; [subst; by rewrite Hp|done].
Qed.

#[export] Instance pg_signal_laws : SignalStoreLaws PgSignals.
Proof.
  constructor.
  - intros k x s Hk Hn. simpl. unfold pg_record. destruct (pg_stored x) as [y|e] eqn:E; [|done].
    destruct (pg_stored_spec x y E) as [Ey Ea]. eexists. split; [done|]. split; [|done].
    unfold pg_content, pg_rows. rewrite List.filter_app, !map_app. simpl. rewrite String.eqb_refl. simpl.
    rewrite (toSignal_own k y); [|unfold node_key in *; by rewrite Ey|by rewrite Ey]. rewrite Permutation_app_comm. done.
  - intros k since s. simpl. unfold pg_content. rewrite pg_rows_prune. split.
    + rewrite filter_map. apply fmap_Permutation. apply sort_by_perm.
    + by rewrite filter_map.
  - intros k s. simpl. unfold pg_content. rewrite length_map. split; [done|].
    unfold pg_rows. rewrite filter_filter.
    rewrite (filter_ext _ (fun _ => false)); [by induction s|]. intros [j x]. simpl. by destruct (String.eqb j k).
  - intros k k' x since s Hne. simpl. unfold pg_content. split_and!.
    + f_equal. unfold pg_record. destruct (pg_stored x); [|done]. cbn [fst]. unfold pg_rows. rewrite List.filter_app, map_app. simpl.
      rewrite (proj2 (String.eqb_neq k k')) by done. by rewrite app_nil_r.
    + f_equal. apply (pg_rows_other k); [done|]. intros y. simpl. by rewrite (proj2 (String.eqb_neq k' k)) by done.
    + f_equal. apply (pg_rows_other k); [done|]. intros y. simpl. by rewrite (proj2 (String.eqb_neq k' k)) by done.
Qed.

(** What is correlated: the new signal as it is stored and the kept ones that are in
    the window; a signal that cannot be stored is refused. *)
Lemma correlate_batch {S} `{SignalStoreLaws S} windowMs x (s : S) :
  x.(ts_node) <> Some UNATTRIBUTED ->
  match stored x with
  | Throw e => correlate windowMs x s = (s, Throw e)
  | Ok y => exists s' kept, correlate windowMs x s = (s', Ok kept) /\
      kept ≡ₚ List.filter (in_window (x.(ts_at) - windowMs)) (y :: content (node_key x) s) /\
      content (node_key x) s' ≡ₚ kept
  end.
Proof.
  intros Hn. unfold correlate. pose proof (record_law (node_key x) x s eq_refl Hn) as Hr.
  destruct (stored x) as [y|e]; [|by apply bind_throw]. destruct Hr as (s1 & E & Hc & _).
  rewrite (bind_ok _ _ _ _ _ E). unfold kept_since.
  destruct (window_law (node_key x) (ts_at x - windowMs) s1) as [H1 H2].
  destruct (store_window _ _ s1) as [s' kept]. simpl in *. exists s', kept.
  split; [done|]. split; [by rewrite H1, Hc|by rewrite H1, H2].
Qed.

(** Also: persistence does not change the verdict on a signal the columns hold
    exactly: the in-memory window and the Postgres window, holding the same signals
    for a node, hand the engine batches with the same signals, so it gets the same
    score and the same severity from either, and they again hold the same signals
    afterwards.  A weight that does not fit its column is refused by Postgres. *)
Theorem stores_agree windowMs x (m : MemSignals) (t : PgSignals) :
  x.(ts_node) <> Some UNATTRIBUTED -> mem_content (node_key x) m ≡ₚ pg_content (node_key x) t ->
  match pg_stored x with
  | Throw e => correlate windowMs x t = (t, Throw e)
  | Ok y => y = x -> exists m' t' kept kept',
      correlate windowMs x m = (m', Ok kept) /\ correlate windowMs x t = (t', Ok kept') /\
      kept ≡ₚ kept' /\ score kept = score kept' /\ mem_content (node_key x) m' ≡ₚ pg_content (node_key x) t'
  end.
Proof.
  intros Hn Hc. pose proof (correlate_batch windowMs x m Hn) as A. pose proof (correlate_batch windowMs x t Hn) as B.
  cbn [stored InMemoryThreatSignalStore PgThreatSignalStore content] in A, B.
  destruct (pg_stored x) as [y|e]; [|done]. intros ->.
  destruct A as (m' & k & Em & A1 & A2), B as (t' & k' & Et & B1 & B2). exists m', t', k, k'.
  assert (k ≡ₚ k') as E by (rewrite A1, B1; apply List_filter_perm; by constructor).
  split_and!; [done..|by rewrite E|by rewrite A2, B2].
Qed.

(** ** Containment by correlation *)

Lemma terminateJit_run now n db node :
  db_ok db -> get_node n db = Some node ->
  exists m, terminateJit now n db = (set_jit_grants m db, Ok tt) /\
    forall k g, m !! k = Some g -> g.(targetZone) = node.(zone) -> g.(terminated) = true \/ g.(g_expiresAt) <= now.
Proof.
  intros Hok Hn. unfold terminateJit. change (mbind ?k (gets ?g) db) with (k (g db) db). cbn beta. rewrite Hn.
  change (mbind ?k (gets ?g) db) with (k (g db) db). cbn beta. set (gs := List.filter _ _).
  destruct (terminate_grants "threat correlation" gs db) as (m & Em & _ & Ht & Hf).
  { apply (grants_keyed _ Hok). }
  { intros g [Hg _]%elem_of_List_filter. apply elem_of_listActive_grants in Hg as (Hg & _).
    apply elem_of_rows in Hg as (k & Hk). rewrite (grants_keyed _ Hok k g Hk). congruence. }
  exists m. split; [done|]. intros k g Hk Hz.
  destruct (decide (k ∈ map g_id gs)) as [Hin|Hin]; [left; by eapply Ht|].
  rewrite (Hf k Hin) in Hk. destruct (terminated g) eqn:T; [by left|right].
  destruct (Z.le_gt_cases (g_expiresAt g) now) as [|L]; [done|]. exfalso. apply Hin.
  rewrite <- (grants_keyed _ Hok k g Hk). apply elem_of_List_map. exists g. split; [done|].
  apply elem_of_List_filter. rewrite bool_decide_eq_true_2, T by done. split; [|done].
  apply elem_of_listActive_grants. split_and!; [apply elem_of_rows; by exists k|done|lia].
Qed.

(** The table of events is as it was. *)
Definition same_events (db db' : Db) : Prop :=
  db'.(security_events) = db.(security_events) /\ db'.(event_months) = db.(event_months).

Lemma rotateMeshIdentity_run n db :
  is_Some (db.(mesh_nodes) !! n) ->
  exists db', rotateMeshIdentity n db = (db', Ok tt) /\ hasPending n rotation_command db' = true /\
    (exists l, db'.(controller_commands) = db.(controller_commands) ++ l) /\ db'.(pg_now) = db.(pg_now) /\
    db'.(jit_grants) = db.(jit_grants) /\ db'.(certificates) = db.(certificates) /\
    db'.(incidents) = db.(incidents) /\ same_events db db'.
Proof.
  intros Hn. unfold rotateMeshIdentity. change (mbind ?k (gets ?g) db) with (k (g db) db). cbn beta.
  destruct (repo_get n db) eqn:E.
  - change (mbind ?k (gets ?g) db) with (k (g db) db). cbn beta.
    destruct (hasPending n rotation_command db) eqn:P.
    + exists db. split_and!; try done. exists []. by rewrite app_nil_r.
    + rewrite enqueue_run by done. eexists. split; [done|]. split_and!; try done; [|by eexists].
      unfold hasPending. apply existsb_elem. eexists. split; [apply elem_of_app; right; left|]. simpl.
      rewrite String.eqb_refl. unfold live. simpl. apply Z.ltb_lt. unfold default_ttl, minute. lia.
  - unfold repo_get in E. destruct Hn as [r Hr]. rewrite Hr in E. by destruct (db.(devices) !! n).
Qed.

(** A waiting command stays waiting when the queue only grows. *)
Lemma hasPending_mono n type db db' l :
  db'.(controller_commands) = db.(controller_commands) ++ l -> db'.(pg_now) = db.(pg_now) ->
  hasPending n type db = true -> hasPending n type db' = true.
Proof.
  intros E Ep. unfold hasPending. rewrite E, Ep, existsb_app. intros ->. done.
Qed.

Lemma revoke_certificates_run now n why db :
  exists db', revokeNodeCertificates now n why db = (db', Ok tt) /\
    db'.(controller_commands) = db.(controller_commands) /\ db'.(pg_now) = db.(pg_now) /\
    db'.(jit_grants) = db.(jit_grants) /\ db'.(mesh_nodes) = db.(mesh_nodes) /\ db'.(incidents) = db.(incidents) /\
    same_events db db' /\
    (forall s c, activeCertificateFor n db = Some s -> c ∈ db'.(certificates) -> c.(ce_serial) = s -> c.(ce_revoked) = true).
Proof.
  unfold revokeNodeCertificates. change (mbind ?k (gets ?g) db) with (k (g db) db). cbn beta.
  destruct (activeCertificateFor n db) as [s|]; eexists; (split; [done|]); split_and!; try done.
  intros s' c [= <-] (x & -> & Hx)%elem_of_List_map. unfold revoke_row.
  destruct (String.eqb_spec (ce_serial x) s) as [E|E]; [done|]. simpl. congruence.
Qed.

(** What containment leaves behind. *)
Record contained (now : Date) (n : string) (node : MeshNode) (sev : Severity) (db db' : Db) : Prop := {
  ct_quarantine : hasPending n "QUARANTINE" db' = true;
  ct_grants : forall g, g ∈ listActive_grants now db' -> g.(targetZone) <> node.(zone);
  ct_rotation : sev = EMERGENCY -> hasPending n rotation_command db' = true;
  ct_certificate : sev = EMERGENCY -> forall s c, activeCertificateFor n db = Some s ->
    c ∈ db'.(certificates) -> c.(ce_serial) = s -> c.(ce_revoked) = true
}.

Lemma respond_contains now n node sev db :
  db_ok db -> get_node n db = Some node -> sev = CRITICAL \/ sev = EMERGENCY ->
  exists db', respond now (Some n) sev db = (db', Ok tt) /\ db'.(incidents) = db.(incidents) /\ same_events db db' /\
    contained now n node sev db db'.
Proof.
  intros Hok Hn Hsev. destruct (get_node_row n db node Hn Hok) as (r & Hr & _ & _ & _).
  destruct (terminateJit_run now n db node Hok Hn) as (m & E1 & Hg).
  set (db1 := set_jit_grants m db) in *.
  pose proof (isolateNode_run n db1 ltac:(by exists r)) as E2.
  set (db2 := set_controller_commands _ _) in E2.
  assert (P2 : hasPending n "QUARANTINE" db2 = true).
  { unfold hasPending. apply existsb_elem. eexists. split; [apply elem_of_app; right; left|].
    simpl. rewrite String.eqb_refl. unfold live. simpl. apply Z.ltb_lt. unfold default_ttl, minute. lia. }
  assert (G : forall db', db'.(jit_grants) = m ->
    forall g, g ∈ listActive_grants now db' -> g.(targetZone) <> node.(zone)).
  { intros db' Ej g (Hin & Ht & Hx)%elem_of_listActive_grants Hz. rewrite Ej in Hin.
    apply elem_of_rows in Hin as (k & Hk). destruct (Hg k g Hk Hz); [congruence|lia]. }
  destruct Hsev as [->| ->].
  - exists db2. split; [simpl; by rewrite (bind_ok _ _ _ _ _ E1), E2|]. split; [done|]. split; [done|].
    constructor; [done|by apply G|done..].
  - destruct (revoke_certificates_run now n "emergency containment" db2) as (db3 & E3 & C3 & P3 & J3 & N3 & I3 & [V3 W3] & R3).
    destruct (rotateMeshIdentity_run n db3 ltac:(rewrite N3; by exists r)) as (db4 & E4 & H4 & (l & C4) & P4 & J4 & X4 & I4 & V4 & W4).
    exists db4. split.
    { simpl. by rewrite (bind_ok _ _ _ _ _ E1), (bind_ok _ _ _ _ _ E2), (bind_ok _ _ _ _ _ E3). }
    split; [by rewrite I4, I3|]. split; [split; [by rewrite V4, V3|by rewrite W4, W3]|]. constructor; [|apply G; by rewrite J4, J3|done|].
    + eapply (hasPending_mono _ _ db2 db4 l); [by rewrite C4, C3|by rewrite P4, P3|done].
    + intros _ s c Hs Hc. rewrite X4 in Hc. by apply (R3 s c).
Qed.

Lemma named_node_truthy signals n : named_node signals = Some n -> truthy n = true.
Proof.
  unfold named_node. destruct (List.find _ _) as [s|] eqn:F; [|done].
  intros E. apply find_elem in F as [_ F]. by rewrite E in F.
Qed.

(** Also: correlated evidence is acted on.  When the batch names an enrolled node
    and scores 65 or more, [evaluate] returns that the node is contained, and it
    is: a QUARANTINE command waits for the node and no just-in-time grant of its
    zone is live; from 85 on its current certificate is revoked and an identity
    rotation is requested too.  The evaluation records one open incident and
    one event, and below 65 nothing is queued for the node. *)
Theorem evaluate_contains incidentId eventId now signals db n node :
  db_ok db -> named_node signals = Some n -> get_node n db = Some node ->
  (forall i, i ∈ db.(incidents) -> i.(in_id) <> incidentId) ->
  month_of now ∈ db.(event_months) -> (forall e, e ∈ db.(security_events) -> e.(e_id) <> eventId) ->
  exists db' ev, evaluate incidentId eventId now signals db = (db', Ok ev) /\
    ev.(ev_score) = score signals /\ ev.(ev_contained) = reaches (score signals) 65 /\
    (exists i, db'.(incidents) = db.(incidents) ++ [i] /\ i.(in_id) = incidentId /\ i.(in_open) = true /\
       i.(in_node) = Some n) /\
    (exists e, db'.(security_events) = db.(security_events) ++ [e] /\ e.(e_id) = eventId) /\
    (if reaches (score signals) 65 then contained now n node (tier (score signals)) db db'
     else db'.(controller_commands) = db.(controller_commands)).
Proof.
  intros Hok Hname Hn Hid Hm He. destruct (get_node_row n db node Hn Hok) as (r & Hr & _ & _ & _).
  unfold evaluate. rewrite Hname. set (sc := score signals).
  set (i := mkIncident incidentId (incident_title sc) (tier sc) true (Some n) db.(pg_now) None
    [("score", num_json sc); ("signalCount", JNum (Z.of_nat (length signals)))]).
  set (db0 := set_incidents (db.(incidents) ++ [i]) db).
  rewrite (bind_ok _ _ db db0 tt).
  2: { unfold open, try_catch, insert_incident. simpl.
       assert (existsb (fun i => String.eqb (in_id i) incidentId) (incidents db) = false) as ->.
       { apply existsb_elem_false. intros x Hx. apply String.eqb_neq. by apply Hid. }
       by rewrite bool_decide_eq_true_2. }
  assert (Hok0 : db_ok db0) by (destruct Hok; by constructor).
  assert (exists db1, respond now (Some n) (tier sc) db0 = (db1, Ok tt) /\ db1.(incidents) = db0.(incidents) /\
    same_events db0 db1 /\ (if reaches sc 65 then contained now n node (tier sc) db0 db1
      else db1.(controller_commands) = db.(controller_commands))) as (db1 & E1 & I1 & [V1 W1] & C1).
  { unfold tier. destruct (reaches sc 65) eqn:L.
    - apply (respond_contains now n node _ db0 Hok0 Hn). destruct (reaches sc 85); auto.
    - assert (reaches sc 85 = false) as ->.
      { destruct (reaches sc 85) eqn:L5; [|done]. exfalso. apply not_true_iff_false in L. apply L.
        by apply (reaches_mono sc 85 65). }
      destruct (reaches sc 35); eexists; by split_and!. }
  rewrite (bind_ok _ _ _ _ _ E1). unfold incident_event, append_event.
  assert (forall e, e.(e_id) = eventId -> e.(e_at) = now -> event_refused e db1 = None) as F.
  { intros e Ei Ea. unfold event_refused. rewrite W1, V1, Ea, Ei. rewrite bool_decide_eq_true_2 by done. simpl.
    assert (existsb (fun x => String.eqb (e_id x) eventId && (e_at x =? now)) (security_events db) = false) as ->; [|done].
    apply existsb_elem_false. intros x Hx. by rewrite (proj2 (String.eqb_neq _ _) (He x Hx)). }
  unfold mbind at 1, St_bind at 1. rewrite F by done. eexists _, _. split; [done|]. simpl. split_and!; [done..| | |].
  - exists i. by rewrite I1.
  - eexists. by rewrite V1.
  - destruct (reaches sc 65); [|done]. destruct C1. by constructor.
Qed.

(** Also: the guard of [isolateNode] looks an id up among all entities.  For the id
    of a device (or any entity that is not a node) it passes, and the INSERT into
    the command queue then violates the reference to [mesh_nodes]: the call throws
    although there is no such node to isolate. *)
Theorem isolate_other_entity_throws id d db :
  db.(devices) !! id = Some d -> db.(mesh_nodes) !! id = None ->
  isolateNode id db = (db, Throw foreign_key_violation).
Proof.
  intros Hd Hn. unfold isolateNode. change (mbind ?k (gets ?g) db) with (k (g db) db). cbn beta.
  unfold repo_get. rewrite Hd. by apply enqueue_unknown.
Qed.

(** ** Witnesses *)

Definition signal (n : string) (c w : Q) (t : Date) : ThreatSignal := mkSignal (Some n) "AUTH_FAILURE" (Fin c) (Fin w) t [].

(** One signal without a number hides the others. *)
Example nan_signal_blinds :
  tier (score [signal "n1" 1 90 0]) = EMERGENCY /\
  tier (score [signal "n1" 1 90 0; mkSignal (Some "n1") "x" NaN (Fin 10) 0 []]) = INFO.
Proof. by vm_compute. Qed.

Lemma stores_agree_witness :
  let x := signal "n1" (1 # 2) 40 1000 in
  exists kept kept', (correlate 300000 x (∅ : MemSignals)).2 = Ok kept /\
    (correlate 300000 x ([] : PgSignals)).2 = Ok kept' /\ score kept = score kept'.
Proof.
  intros x. pose proof (stores_agree 300000 x ∅ [] ltac:(discriminate) ltac:(reflexivity)) as P.
  assert (pg_stored x = Ok x) as E by (vm_compute; reflexivity). rewrite E in P.
  destruct (P eq_refl) as (m' & t' & k & k' & Em & Et & _ & H & _).
  exists k, k'. rewrite Em, Et. split; [reflexivity|]. split; [reflexivity|exact H].
Defined.

Lemma evaluate_contains_witness :
  exists db' ev, evaluate "i1" "e1" 0 [signal "n1" 1 50 0; signal "n1" (9 # 10) 40 10] fleet = (db', Ok ev) /\
    ev.(ev_contained) = true.
Proof.
  destruct (evaluate_contains "i1" "e1" 0 [signal "n1" 1 50 0; signal "n1" (9 # 10) 40 10] fleet "n1"
    (node (sample_node "n1" "d1" "key1" "10.144.0.1"))) as (db' & ev & E & _ & Hc & _).
  - apply sample_db_ok.
  - reflexivity.
  - vm_compute. reflexivity.
  - intros i Hi. inversion Hi.
  - apply (bool_decide_eq_true_1 _). vm_compute. reflexivity.
  - intros e Hi. inversion Hi.
  - exists db', ev. split; [exact E|]. rewrite Hc. vm_compute. reflexivity.
Defined.

Lemma isolate_other_entity_throws_witness :
  isolateNode "d1" fleet = (fleet, Throw foreign_key_violation).
Proof.
  apply (isolate_other_entity_throws "d1" (sample_device "d1" "hw1") fleet); vm_compute; reflexivity.
Defined.
