(* ===== verification/Rest.v ===== *)
(** * The REST edge

    [src/src/api/rest/]: error classification ([errors.ts]), the rate limiter
    ([rate-limit.ts]), the idempotency keys ([idempotency.ts]), the replay nonces
    ([replay-guard.ts]) and the metrics registry ([metrics.ts]).  The two stores
    are classes: their operations, with a memory and a Postgres instance, and the
    laws the router relies on, which both instances satisfy. *)

From S2P Require Import Prelude Json Text Domain Database.
Open Scope Z_scope.

(** ** [asHttpError] *)

Definition exn_message (e : exn) : string :=
  match e with
  | DomainError m _ | HttpError _ m _ | JsError m => m
  | PgError c => "database error " +:+ c
  end.

(** [/a|b|c/i.test(message)] for literal alternatives *)
Definition mentions (words : list string) (message : string) : bool :=
  existsb (fun w => str_includes w (toLowerCase message)) words.

Definition asHttpError (e : exn) : Z * string * string :=
  match e with
  | HttpError status m code => (status, m, code)
  | _ =>
      let m := exn_message e in
      if mentions ["authorization"; "role required"; "token"] m then (403, m, "forbidden")
      else if mentions ["not found"; "missing"] m then (404, m, "not_found")
      else if mentions ["invalid"; "required"; "malformed"; "stale"] m then (400, m, "invalid_request")
      else (500, "internal request failure", "internal_error")
  end.

(** ** [MemoryRateLimiter] *)

Record RateLimitRule := { rl_limit : nat; rl_windowMs : Z }.

Notation Hits := (gmap string (list Z)).

Record RateLimitResult := mkResult { rl_allowed : bool; rl_remaining : Z; rl_resetAt : option Z }.

(** The hits of the window that ends now; [existing[0]!+windowMs] is [NaN] when
    there is none. *)
Definition recent_hits (now window : Z) (l : list Z) : list Z := List.filter (fun t => now - window <? t) l.

Definition check (key : string) (rule : RateLimitRule) (now : Z) (h : Hits) : Hits * RateLimitResult :=
  let existing := recent_hits now rule.(rl_windowMs) (default [] (h !! key)) in
  if (rule.(rl_limit) <=? length existing)%nat then
    (<[key := existing]> h,
     mkResult false 0 (match existing with t :: _ => Some (t + rule.(rl_windowMs)) | [] => None end))
  else
    (<[key := existing ++ [now]]> h,
     mkResult true (Z.of_nat rule.(rl_limit) - Z.of_nat (length (existing ++ [now]))) (Some (now + rule.(rl_windowMs)))).

(** [sweep] *)
Definition sweep (now : Z) (h : Hits) : Hits :=
  omap (fun l => match recent_hits now 3600000 l with [] => None | kept => Some kept end) h.

(** ** [IdempotencyStore] *)

Record StoredResponse := mkStored { st_status : Z; st_body : json }.

Class IdempotencyStore (S : Type) := {
  idem_get : Z -> string -> S -> option (string * StoredResponse);
  idem_put : Z -> string -> string -> string -> StoredResponse -> Z -> S -> S
}.

Record IdemRow := mkIdem { id_hash : string; id_response : StoredResponse; id_expires : Z }.

(** [MemoryIdempotencyStore]; an expired row is forgotten when it is looked up,
    which no later lookup can tell. *)
Definition mem_get (now : Z) (key : string) (m : gmap string IdemRow) : option (string * StoredResponse) :=
  match m !! key with
  | Some r => if r.(id_expires) <? now then None else Some (r.(id_hash), r.(id_response))
  | None => None
  end.
Definition mem_put (now : Z) (key actor hash : string) (resp : StoredResponse) (ttl : Z) (m : gmap string IdemRow) :
    gmap string IdemRow := <[key := mkIdem hash resp (now + ttl)]> m.

(** [PgIdempotencyStore]: [expires_at > now()], and an INSERT that does nothing
    when the key has a row. *)
Record PgIdem := { pg_idem : gmap string IdemRow }.
Definition pg_get (now : Z) (key : string) (t : PgIdem) : option (string * StoredResponse) :=
  match t.(pg_idem) !! key with
  | Some r => if now <? r.(id_expires) then Some (r.(id_hash), r.(id_response)) else None
  | None => None
  end.
Definition pg_put (now : Z) (key actor hash : string) (resp : StoredResponse) (ttl : Z) (t : PgIdem) : PgIdem :=
  match t.(pg_idem) !! key with
  | Some _ => t
  | None => {| pg_idem := <[key := mkIdem hash resp (now + ttl)]> t.(pg_idem) |}
  end.

#[export] Instance MemoryIdempotencyStore : IdempotencyStore (gmap string IdemRow) := {
  idem_get := mem_get; idem_put := mem_put
}.
#[export] Instance PgIdempotencyStore : IdempotencyStore PgIdem := {
  idem_get := pg_get; idem_put := pg_put
}.

(** ** [ReplayStore] *)

Class ReplayStore (S : Type) := { claim : Z -> string -> Z -> S -> S * bool }.

(** [MemoryReplayStore] *)
Definition mem_claim (now : Z) (nonce : string) (ttl : Z) (m : gmap string Z) : gmap string Z * bool :=
  match m !! nonce with
  | Some e => if now <? e then (m, false) else (<[nonce := now + ttl]> m, true)
  | None => (<[nonce := now + ttl]> m, true)
  end.

(** [PgReplayStore]: one row per nonce until it is purged. *)
Record PgNonces := { pg_nonces : gmap string Z }.
Definition pg_claim (now : Z) (nonce : string) (ttl : Z) (t : PgNonces) : PgNonces * bool :=
  match t.(pg_nonces) !! nonce with
  | Some _ => (t, false)
  | None => ({| pg_nonces := <[nonce := now + ttl]> t.(pg_nonces) |}, true)
  end.

#[export] Instance MemoryReplayStore : ReplayStore (gmap string Z) := { claim := mem_claim }.
#[export] Instance PgReplayStore : ReplayStore PgNonces := { claim := pg_claim }.

(** [hashRequestBody]; SHA-256 is a parameter. *)
Definition hashRequestBody (sha256 : string -> string) (v : json) : string := to_hex (sha256 (json_stringify v)).

(** ** [MetricsRegistry]

    A [Map] is the list of its entries in insertion order. *)
Fixpoint assoc_set {V} (k : string) (v : V) (l : list (string * V)) : list (string * V) :=
  match l with
  | [] => [(k, v)]
  | (k', v') :: l' => if String.eqb k' k then (k, v) :: l' else (k', v') :: assoc_set k v l'
  end.
Definition assoc_get {V} (k : string) (l : list (string * V)) : option V :=
  snd <$> List.find (fun kv => String.eqb kv.1 k) l.

Record MetricsRegistry := mkMetrics {
  counters : list (string * Z); labelSets : list (string * list (string * Z))
}.

Definition incr (name : string) (by_ : Z) (m : MetricsRegistry) : MetricsRegistry :=
  mkMetrics (assoc_set name (default 0 (assoc_get name m.(counters)) + by_) m.(counters)) m.(labelSets).

Definition label_key `{Collation} (labels : list (string * string)) : string :=
  join "," (map (fun kv => kv.1 +:+ "=" +:+ String dquote (kv.2 +:+ String dquote "")) (sort_by entry_leb labels)).

Definition incrLabeled `{Collation} (name : string) (labels : list (string * string)) (m : MetricsRegistry) :
    MetricsRegistry :=
  let key := label_key labels in
  let set := default [] (assoc_get name m.(labelSets)) in
  mkMetrics m.(counters) (assoc_set name (assoc_set key (default 0 (assoc_get key set) + 1) set) m.(labelSets)).

Definition newline : string := String (ascii_of_nat 10) "".

Definition render (m : MetricsRegistry) : string :=
  join newline (
    List.concat (map (fun c => ["# TYPE " +:+ c.1 +:+ " counter"; c.1 +:+ " " +:+ str_of_Z c.2]) m.(counters)) ++
    List.concat (map (fun s => ("# TYPE " +:+ s.1 +:+ " counter")
      :: map (fun lv => s.1 +:+ "{" +:+ lv.1 +:+ "} " +:+ str_of_Z lv.2) s.2) m.(labelSets)))
  +:+ newline.

(** ** The limiter against a full history

    A call of [check] on a key or a [sweep], each at its time. *)
Inductive LimiterEvent := Check (key : string) (now : Z) | Sweep (now : Z).
Definition event_time (e : LimiterEvent) : Z := match e with Check _ t | Sweep t => t end.

Section limiter.
Context (rule_of : string -> RateLimitRule).

Definition limiter_step (e : LimiterEvent) (h : Hits) : Hits * option bool :=
  match e with
  | Check k t => let '(h', r) := check k (rule_of k) t h in (h', Some r.(rl_allowed))
  | Sweep t => (sweep t h, None)
  end.

(** The reference keeps every call it ever allowed. *)
Notation History := (gmap string (list Z)).
Definition allowed_in (A : History) (k : string) : list Z := default [] (A !! k).
Definition reference_step (e : LimiterEvent) (A : History) : History * option bool :=
  match e with
  | Check k t =>
      let used := length (recent_hits t (rule_of k).(rl_windowMs) (allowed_in A k)) in
      if (used <? (rule_of k).(rl_limit))%nat then (<[k := allowed_in A k ++ [t]]> A, Some true)
      else (A, Some false)
  | Sweep _ => (A, None)
  end.

Fixpoint run_events {S} (step : LimiterEvent -> S -> S * option bool) (es : list LimiterEvent) (s : S) :
    S * list (option bool) :=
  match es with
  | [] => (s, [])
  | e :: es' =>
      let '(s1, d) := step e s in
      let '(s2, ds) := run_events step es' s1 in (s2, d :: ds)
  end.

(** What the limiter kept, cut to any window that ends later, is what the
    history holds of that window. *)
Definition agrees (T : Z) (h : Hits) (A : History) : Prop :=
  forall k n, T <= n ->
    recent_hits n (rule_of k).(rl_windowMs) (default [] (h !! k)) =
    recent_hits n (rule_of k).(rl_windowMs) (allowed_in A k).

Lemma recent_recent n now w w' l :
  now <= n -> w <= w' -> recent_hits n w (recent_hits now w' l) = recent_hits n w l.
Proof.
  intros Hn Hw. unfold recent_hits. induction l as [|t l IH]; simpl; [done|].
  destruct (now - w' <? t) eqn:E1, (n - w <? t) eqn:E2; simpl; rewrite ?E2, IH; try done.
  bools. lia.
Qed.

Lemma recent_app n w l l' : recent_hits n w (l ++ l') = recent_hits n w l ++ recent_hits n w l'.
Proof. unfold recent_hits. apply List.filter_app. Qed.

Lemma lookup_sweep now h k :
  default [] (sweep now h !! k) = recent_hits now 3600000 (default [] (h !! k)).
Proof.
  unfold sweep. rewrite lookup_omap. destruct (h !! k) as [l|]; simpl; [|done].
  by destruct (recent_hits now 3600000 l).
Qed.

Lemma agrees_step T e h A :
  (forall k, (rule_of k).(rl_windowMs) <= 3600000) -> agrees T h A -> T <= event_time e ->
  agrees (event_time e) (limiter_step e h).1 (reference_step e A).1 /\
  (limiter_step e h).2 = (reference_step e A).2.
Proof.
  intros Hw Hag HT. destruct e as [k t|t]; simpl in *.
  - unfold check. rewrite (Hag k t HT). set (r := recent_hits t _ (allowed_in A k)).
    destruct (rl_limit (rule_of k) <=? length r)%nat eqn:E.
    + apply Nat.leb_le in E. rewrite (proj2 (Nat.ltb_ge _ _) E). split; [|done].
      intros k' n Hn. simpl. destruct (base.decide (k' = k)) as [->|Hk].
      * rewrite lookup_insert_eq. simpl. apply recent_recent; lia.
      * rewrite lookup_insert_ne by done. apply Hag. lia.
    + apply Nat.leb_gt in E. rewrite (proj2 (Nat.ltb_lt _ _) E). split; [|done].
      intros k' n Hn. simpl. unfold allowed_in. destruct (base.decide (k' = k)) as [->|Hk].
      * rewrite !lookup_insert_eq. simpl. rewrite !recent_app. f_equal. apply recent_recent; lia.
      * rewrite !lookup_insert_ne by done. apply Hag. lia.
  - split; [|done]. intros k n Hn. rewrite lookup_sweep, recent_recent; [|done..]. apply Hag. lia.
Qed.

Fixpoint in_order (T : Z) (es : list LimiterEvent) : bool :=
  match es with [] => true | e :: es' => (T <=? event_time e) && in_order (event_time e) es' end.

Lemma run_agrees es : forall T h A,
  (forall k, (rule_of k).(rl_windowMs) <= 3600000) -> agrees T h A -> in_order T es = true ->
  (run_events limiter_step es h).2 = (run_events reference_step es A).2.
Proof.
  induction es as [|e es IH]; intros T h A Hw Hag Ho; [done|]. simpl in *. bools.
  destruct (agrees_step T e h A) as [Hag' Hd]; [done..|].
  destruct (limiter_step e h) as [h1 d1], (reference_step e A) as [A1 d2]. simpl in *. subst d2.
  specialize (IH _ _ _ Hw Hag' ltac:(done)).
  destruct (run_events limiter_step es h1), (run_events reference_step es A1). simpl in *. congruence.
Qed.

(** The calls allowed in the [windowMs] milliseconds that end at [t]. *)
Definition in_window (t w : Z) (l : list Z) : list Z := List.filter (fun x => (t - w <? x) && (x <=? t)) l.

Definition within_limits (A : History) : Prop :=
  forall k t, (length (in_window t (rule_of k).(rl_windowMs) (allowed_in A k)) <= (rule_of k).(rl_limit))%nat.

Lemma in_window_snoc_le t w l x :
  x <= t -> t - w < x ->
  (length (in_window t w l) <= length (recent_hits x w l))%nat.
Proof.
  intros Hx Hw. unfold in_window, recent_hits. induction l as [|y l IH]; simpl; [done|].
  destruct (t - w <? y) eqn:E1, (y <=? t) eqn:E2, (x - w <? y) eqn:E3; simpl; bools; lia.
Qed.

Lemma reference_within es : forall A,
  within_limits A -> within_limits (run_events reference_step es A).1.
Proof.
  induction es as [|e es IH]; intros A HA; [done|]. simpl.
  assert (within_limits (reference_step e A).1) as H1.
  { destruct e as [k t|t]; simpl; [|done].
    destruct (_ <? _)%nat eqn:E; [|done]. apply Nat.ltb_lt in E. intros k' t'. unfold allowed_in. simpl.
    destruct (base.decide (k' = k)) as [->|Hk]; [|rewrite lookup_insert_ne by done; apply HA].
    rewrite lookup_insert_eq. simpl. unfold in_window. rewrite List.filter_app, length_app.
    specialize (HA k t'). fold (allowed_in A k) in *. fold (in_window t' (rl_windowMs (rule_of k)) (allowed_in A k)).
    simpl. destruct ((t' - rl_windowMs (rule_of k) <? t) && (t <=? t')) eqn:E2; simpl; [|lia].
    bools. pose proof (in_window_snoc_le t' (rl_windowMs (rule_of k)) (allowed_in A k) t). lia. }
  specialize (IH _ H1). destruct (reference_step e A), (run_events _ es _); simpl in *. done.
Qed.
End limiter.

(** C22: The rate limiter decides exactly as one that remembers every call it
    ever allowed, over any interleaving of calls on any keys with sweeps, as
    long as time does not run backwards and no window is longer than the hour a
    sweep keeps; and so no key is ever allowed more than its limit in any
    window of its length. *)
Theorem rate_limit_exact (rule_of : string -> RateLimitRule) (es : list LimiterEvent) (T : Z) :
  (forall k, (rule_of k).(rl_windowMs) <= 3600000) -> in_order T es = true ->
  (run_events (limiter_step rule_of) es ∅).2 = (run_events (reference_step rule_of) es ∅).2 /\
  within_limits rule_of (run_events (reference_step rule_of) es ∅).1.
Proof.
  intros Hw Ho. split; [by apply (run_agrees rule_of es T)|].
  apply reference_within. intros k t. unfold allowed_in. rewrite lookup_empty. simpl. lia.
Qed.

Definition two_per_minute (k : string) : RateLimitRule := {| rl_limit := 2; rl_windowMs := 60000 |}.
Definition sample_calls : list LimiterEvent :=
  [Check "a" 0; Check "a" 10000; Check "b" 15000; Check "a" 20000; Sweep 30000; Check "a" 60000; Check "a" 60001].

Lemma rate_limit_exact_witness :
  (run_events (limiter_step two_per_minute) sample_calls ∅).2
    = [Some true; Some true; Some true; Some false; None; Some true; Some false] /\
  within_limits two_per_minute (run_events (reference_step two_per_minute) sample_calls ∅).1.
Proof.
  destruct (rate_limit_exact two_per_minute sample_calls 0) as [H1 H2]; [intros k; simpl; lia|reflexivity|].
  split; [rewrite H1; reflexivity|exact H2].
Defined.

(** ** What the router relies on *)

(** A row [k] with its hash, response and expiry is in force. *)
Class IdempotencyLaws (S : Type) `{IdempotencyStore S} := {
  stored : string -> string -> StoredResponse -> Z -> S -> Prop;
  vacant : string -> S -> Prop;
  get_stored k h r e now s : stored k h r e s -> now < e -> idem_get now k s = Some (h, r);
  get_vacant k now s : vacant k s -> idem_get now k s = None;
  put_vacant k h r ttl now actor s : vacant k s -> stored k h r (now + ttl) (idem_put now k actor h r ttl s);
  put_other k h r e k' h' r' ttl now actor s :
    k' <> k -> stored k h r e s -> stored k h r e (idem_put now k' actor h' r' ttl s)
}.

#[export] Instance MemoryIdempotencyLaws : IdempotencyLaws (gmap string IdemRow).
Proof.
  refine {| stored := fun k h r e m => m !! k = Some (mkIdem h r e);
            vacant := fun k m => m !! k = None |}; simpl.
  - intros k h r e now s E Hn. unfold mem_get. rewrite E. simpl.
    by rewrite (proj2 (Z.ltb_ge _ _)) by lia.
  - intros k now s E. unfold mem_get. by rewrite E.
  - intros. unfold mem_put. by rewrite lookup_insert_eq.
  - intros. unfold mem_put. by rewrite lookup_insert_ne.
Defined.

#[export] Instance PgIdempotencyLaws : IdempotencyLaws PgIdem.
Proof.
  refine {| stored := fun k h r e t => t.(pg_idem) !! k = Some (mkIdem h r e);
            vacant := fun k t => t.(pg_idem) !! k = None |}; simpl.
  - intros k h r e now s E Hn. unfold pg_get. rewrite E. simpl.
    by rewrite (proj2 (Z.ltb_lt _ _)).
  - intros k now s E. unfold pg_get. by rewrite E.
  - intros k h r ttl now actor s E. unfold pg_put. rewrite E. simpl. by rewrite lookup_insert_eq.
  - intros. unfold pg_put. destruct (pg_idem s !! k'); simpl; [done|]. by rewrite lookup_insert_ne.
Defined.

(** A nonce that was claimed is refused until it expires, whatever else is claimed. *)
Class ReplayLaws (S : Type) `{ReplayStore S} := {
  spent : string -> Z -> S -> Prop;
  claim_spends n ttl now s : (claim now n ttl s).2 = true -> spent n (now + ttl) (claim now n ttl s).1;
  claim_spent n e ttl now s : spent n e s -> now < e -> (claim now n ttl s).2 = false;
  claim_keeps n e m ttl now s : spent n e s -> now < e -> spent n e (claim now m ttl s).1
}.

#[export] Instance MemoryReplayLaws : ReplayLaws (gmap string Z).
Proof.
  refine {| spent := fun n e m => m !! n = Some e |}; simpl; unfold mem_claim.
  - intros n ttl now s. destruct (s !! n) as [e|] eqn:E; [destruct (now <? e) eqn:L|]; simpl; try done;
      intros _; by rewrite lookup_insert_eq.
  - intros n e ttl now s -> Hn. by rewrite (proj2 (Z.ltb_lt _ _) Hn).
  - intros n e m ttl now s E Hn. destruct (base.decide (m = n)) as [->|Hm].
    + rewrite E. by rewrite (proj2 (Z.ltb_lt _ _) Hn).
    + destruct (s !! m) as [e'|]; [destruct (now <? e')|]; simpl; rewrite ?lookup_insert_ne; done.
Defined.

#[export] Instance PgReplayLaws : ReplayLaws PgNonces.
Proof.
  refine {| spent := fun n e t => t.(pg_nonces) !! n = Some e |}; simpl; unfold pg_claim.
  - intros n ttl now s. destruct (pg_nonces s !! n) eqn:E; simpl; [done|]. intros _. by rewrite lookup_insert_eq.
  - intros n e ttl now s -> Hn. done.
  - intros n e m ttl now s E Hn. destruct (pg_nonces s !! m) eqn:Em; simpl; [done|].
    rewrite lookup_insert_ne; [done|]. congruence.
Defined.

(** Also: A row of the Postgres store that has expired but has not been purged
    makes its key useless: [put] does nothing, so a later [get] finds no
    response and a retry runs the handler again; the memory store renews it. *)
Theorem pg_expired_key_not_renewed (k actor h : string) (r : StoredResponse) (old : IdemRow) (t : PgIdem) (now ttl : Z) :
  t.(pg_idem) !! k = Some old -> old.(id_expires) <= now -> 0 < ttl ->
  (forall later, now <= later -> pg_get later k (pg_put now k actor h r ttl t) = None) /\
  mem_get now k (mem_put now k actor h r ttl t.(pg_idem)) = Some (h, r).
Proof.
  intros E He Ht. split.
  - intros later Hl. unfold pg_put. rewrite E. unfold pg_get. rewrite E.
    by rewrite (proj2 (Z.ltb_ge _ _)) by lia.
  - unfold mem_get, mem_put. rewrite lookup_insert_eq. simpl. by rewrite (proj2 (Z.ltb_ge _ _)) by lia.
Qed.

Lemma pg_expired_key_not_renewed_witness :
  let old := mkIdem "h0" (mkStored 200 JNull) 10 in
  let t := {| pg_idem := {["k" := old]} |} in
  pg_get 20 "k" (pg_put 20 "k" "alice" "h" (mkStored 200 JNull) 1000 t) = None.
Proof.
  simpl. apply (pg_expired_key_not_renewed "k" "alice" "h" (mkStored 200 JNull) (mkIdem "h0" (mkStored 200 JNull) 10)
    {| pg_idem := {["k" := mkIdem "h0" (mkStored 200 JNull) 10]} |} 20 1000); simpl; [reflexivity|lia..].
Defined.
