(* ===== verification/Router.v ===== *)
(** * The REST router and its bearer guard

    [src/src/api/rest/guard.ts] ([HmacBearerGuard]) and
    [src/src/api/rest/router.ts] ([RestRouter]): the whole request pipeline, from
    the URL to the response, over the stores of [Rest].  HMAC-SHA256, SHA-256,
    base64url and [JSON.parse] are parameters; a handler is a state change of the
    application that may throw.  Requests are handled one after another. *)

From S2P Require Import Prelude Json Text Domain Database Rest.
Open Scope Z_scope.

(** ** JavaScript's view of a parsed value *)

(** [`${v}`] *)
Fixpoint js_text (v : json) : string :=
  match v with
  | JNull => "null"
  | JBool true => "true"
  | JBool false => "false"
  | JNum n => str_of_Z n
  | JStr s => s
  | JArr l => join "," (map (fun x => match x with JNull => "" | _ => js_text x end) l)
  | JObj _ => "[object Object]"
  end.

(** ** [decodeURIComponent]

    On the bytes of the string; [None] is the [URIError]. *)
Definition percent_byte (s : string) : option (nat * string) :=
  match s with
  | String "%" (String a (String b s')) =>
      match hex_value a, hex_value b with
      | Some x, Some y => Some ((16 * x + y)%nat, s')
      | _, _ => None
      end
  | _ => None
  end.

(** How many bytes follow the first, and between what the second must lie. *)
Definition utf8_lead (b : nat) : option (nat * nat * nat) :=
  if (b <? 128)%nat then Some (0, 0, 0)%nat
  else if (b <? 194)%nat then None
  else if (b <? 224)%nat then Some (1, 128, 191)%nat
  else if (b =? 224)%nat then Some (2, 160, 191)%nat
  else if (b =? 237)%nat then Some (2, 128, 159)%nat
  else if (b <? 240)%nat then Some (2, 128, 191)%nat
  else if (b =? 240)%nat then Some (3, 144, 191)%nat
  else if (b <? 244)%nat then Some (3, 128, 191)%nat
  else if (b =? 244)%nat then Some (3, 128, 143)%nat
  else None.

Fixpoint continuation (n lo hi : nat) (s : string) : option (string * string) :=
  match n with
  | O => Some ("", s)
  | S n' =>
      match percent_byte s with
      | Some (b, s') =>
          if (lo <=? b)%nat && (b <=? hi)%nat then
            match continuation n' 128 191 s' with
            | Some (t, rest) => Some (String (ascii_of_nat b) t, rest)
            | None => None
            end
          else None
      | None => None
      end
  end.

Fixpoint decode_uri (fuel : nat) (s : string) : option string :=
  match fuel with
  | O => Some ""
  | S fuel' =>
      match s with
      | EmptyString => Some ""
      | String "%" _ =>
          match percent_byte s with
          | Some (b, s') =>
              match utf8_lead b with
              | Some (n, lo, hi) =>
                  match continuation n lo hi s' with
                  | Some (t, rest) => (fun r => String (ascii_of_nat b) (t +:+ r)) <$> decode_uri fuel' rest
                  | None => None
                  end
              | None => None
              end
          | None => None
          end
      | String c s' => String c <$> decode_uri fuel' s'
      end
  end.

(** Every step consumes a character, so the length is enough fuel. *)
Definition decodeURIComponent (s : string) : res string :=
  match decode_uri (String.length s) s with
  | Some t => Ok t
  | None => Throw (JsError "URI malformed")
  end.

(** ** Requests, routes and responses *)

Record Claims := mkClaims { sub : json; c_roles : list json; exp : json }.

Record Request := {
  rq_method : string; rq_url : string; rq_origin : option string; rq_authorization : option string;
  rq_nonce : option string; rq_idempotency : option string; rq_content_type : option string;
  rq_chunks : list string
}.

Inductive Body := BNone | BText (s : string) | BRaw (s : string) | BJson (v : json).
Record Response := mkResponse { rs_status : Z; rs_headers : list (string * string); rs_body : Body }.

Record RouteOptions := {
  idempotent : bool; rateLimit : option RateLimitRule; public : bool; replayProtected : bool
}.

(** What the handler is called with. *)
Record Ctx := { cx_claims : Claims; cx_body : json; cx_params : list (string * string); cx_query : string }.

(** A handler returns a value, possibly [undefined], or, on a [raw] route, a
    content type with a body. *)
Inductive Handler (A : Type) :=
  | JsonHandler (h : Ctx -> St A (option json))
  | RawHandler (h : Ctx -> St A (string * string)).
Arguments JsonHandler {A} _.
Arguments RawHandler {A} _.

(** The pattern of a path: each segment is a prefix and perhaps a [:key]. *)
Definition Segment : Type := string * option string.

Record Route (A : Type) := mkRoute {
  rt_method : string; rt_pattern : list Segment; rt_roles : list string;
  rt_handler : Handler A; rt_options : RouteOptions
}.
Arguments mkRoute {A} _ _ _ _ _.
Arguments rt_method {A} _.
Arguments rt_pattern {A} _.
Arguments rt_roles {A} _.
Arguments rt_handler {A} _.
Arguments rt_options {A} _.

Definition DEFAULT_RATE_LIMIT : RateLimitRule := {| rl_limit := 60; rl_windowMs := 60000 |}.

(** [add]: [:[^/]+] in the path becomes a group.  The paths are literal apart
    from their keys. *)
Definition segment_of (s : string) : Segment :=
  match String.index 0 ":" s with
  | Some i =>
      let key := String.substring (i + 1) (String.length s) s in
      if truthy key then (String.substring 0 i s, Some key) else (s, None)
  | None => (s, None)
  end.

Definition add {A} (method path : string) (roles : list string) (handler : Handler A) (options : RouteOptions)
    (routes : list (Route A)) : list (Route A) :=
  routes ++ [mkRoute method (map segment_of (split_on "/" path)) roles handler options].

(** [path.match(route.pattern)]: the groups, when the whole path matches. *)
Fixpoint match_segments (pattern : list Segment) (segs : list string) : option (list (string * string)) :=
  match pattern, segs with
  | [], [] => Some []
  | (prefix, None) :: p', s :: segs' =>
      if String.eqb prefix s then match_segments p' segs' else None
  | (prefix, Some key) :: p', s :: segs' =>
      let group := String.substring (String.length prefix) (String.length s) s in
      if startsWith prefix s && truthy group then cons (key, group) <$> match_segments p' segs' else None
  | _, _ => None
  end.
Definition path_match (pattern : list Segment) (path : string) : option (list (string * string)) :=
  match_segments pattern (split_on "/" path).

(** [Object.fromEntries(keys.map(...))] *)
Fixpoint decode_params (groups : list (string * string)) : res (list (string * string)) :=
  match groups with
  | [] => Ok []
  | (k, g) :: gs =>
      match decodeURIComponent g with
      | Ok v => match decode_params gs with Ok ps => Ok ((k, v) :: ps) | Throw e => Throw e end
      | Throw e => Throw e
      end
  end.

Definition corsHeaders (req : Request) : list (string * string) :=
  match req.(rq_origin) with
  | Some origin =>
      if truthy origin then
        [("Access-Control-Allow-Origin", origin);
         ("Access-Control-Allow-Methods", "GET,POST,PUT,DELETE,OPTIONS");
         ("Access-Control-Allow-Headers", "authorization,content-type,idempotency-key,x-request-nonce");
         ("Access-Control-Max-Age", "600"); ("Vary", "Origin")]
      else []
  | None => []
  end.

Definition respond (status : Z) (value : json) (set_headers extraHeaders : list (string * string)) : Response :=
  mkResponse status (set_headers ++
    [("content-type", "application/json; charset=utf-8"); ("cache-control", "no-store");
     ("x-content-type-options", "nosniff"); ("x-frame-options", "DENY");
     ("referrer-policy", "no-referrer"); ("content-security-policy", "default-src 'none'")] ++ extraHeaders)
    (BJson value).

(** One line of the server's error log. *)
Record LogLine := mkLog { lg_requestId : string; lg_method : string; lg_url : string; lg_error : string }.

(** The router's state and the application's. *)
Record Edge (I R A : Type) := mkEdge {
  hits : gmap string (list Z); idem : I; replay : R; metrics : MetricsRegistry; errorLog : list LogLine; app : A
}.
Arguments mkEdge {I R A} _ _ _ _ _ _.
Arguments hits {I R A} _.
Arguments idem {I R A} _.
Arguments replay {I R A} _.
Arguments metrics {I R A} _.
Arguments errorLog {I R A} _.
Arguments app {I R A} _.

(** The times at which a request reads the clock. *)
Record Clock := mkClock { t_verify : Z; t_limit : Z; t_retry : Z; t_nonce : Z; t_get : Z; t_put : Z }.

Section router.
Context {I R A : Type} `{!IdempotencyStore I} `{!ReplayStore R} `{!Collation}.
Context (hmac : string -> string -> string) (sha256 : string -> string).
Context (base64url : string -> string) (from_base64url : string -> string).
Context (JSON_parse : string -> res json).
Context (secret : string) (exposeMetrics : bool) (routes : list (Route A)).

Notation E := (Edge I R A).

Definition set_hits (v : gmap string (list Z)) (s : E) : E := mkEdge v s.(idem) s.(replay) s.(metrics) s.(errorLog) s.(app).
Definition set_idem (v : I) (s : E) : E := mkEdge s.(hits) v s.(replay) s.(metrics) s.(errorLog) s.(app).
Definition set_replay (v : R) (s : E) : E := mkEdge s.(hits) s.(idem) v s.(metrics) s.(errorLog) s.(app).
Definition set_metrics (v : MetricsRegistry) (s : E) : E := mkEdge s.(hits) s.(idem) s.(replay) v s.(errorLog) s.(app).
Definition set_errorLog (v : list LogLine) (s : E) : E := mkEdge s.(hits) s.(idem) s.(replay) s.(metrics) v s.(app).
Definition set_app (v : A) (s : E) : E := mkEdge s.(hits) s.(idem) s.(replay) s.(metrics) s.(errorLog) v.

(** ** [HmacBearerGuard] *)

Definition sign_token (encoded : string) : string := base64url (hmac secret encoded).

(** [mint]: [exp] defaults to an hour from now. *)
Definition claims_object (subject : string) (roles : list string) (expiry : json) : json :=
  JObj [("sub", JStr subject); ("roles", jstrs roles); ("exp", expiry)].
Definition token_of (full : json) : string :=
  let encoded := base64url (json_stringify full) in
  encoded +:+ "." +:+ sign_token encoded.
Definition mint (now : Z) (subject : string) (roles : list string) (expiry : option Z) : string :=
  token_of (claims_object subject roles (JNum (default (now / 1000 + 3600) expiry))).

Definition unauthorized {B} (message : string) : res B := Throw (HttpError 401 message "unauthorized").

(** The checks on the claims of a token whose signature is good. *)
Definition check_claims (now : Z) (requiredRoles : list string) (claims : json) : res Claims :=
  match get_prop "sub" claims, get_prop "roles" claims, get_prop "exp" claims with
  | Ok subject, Ok roles, Ok expiry =>
      match roles with
      | Some (JArr rs) =>
          if negb (js_truthy subject && js_truthy expiry) then unauthorized "invalid bearer claims"
          else if match js_number (default JNull expiry) with Some n => n * 1000 <=? now | None => false end
          then unauthorized "expired bearer token"
          else if match requiredRoles with [] => false
                  | _ => negb (existsb (fun r => existsb (fun x => match x with JStr y => String.eqb r y | _ => false end) rs) requiredRoles)
                  end
          then Throw (HttpError 403 "required role missing" "forbidden")
          else Ok (mkClaims (default JNull subject) rs (default JNull expiry))
      | _ => unauthorized "invalid bearer claims"
      end
  | Throw e, _, _ | _, Throw e, _ | _, _, Throw e => Throw e
  end.

Definition verify (now : Z) (req : Request) (requiredRoles : list string) : res Claims :=
  match req.(rq_authorization) with
  | Some auth =>
      if startsWith "Bearer " auth then
        match split_on "." (String.substring 7 (String.length auth) auth) with
        | encoded :: signature :: _ =>
            if negb (truthy encoded && truthy signature) then unauthorized "malformed bearer token"
            else if negb (String.eqb (sign_token encoded) signature) then unauthorized "invalid bearer token"
            else match JSON_parse (from_base64url encoded) with
                 | Ok claims => check_claims now requiredRoles claims
                 | Throw e => Throw e
                 end
        | _ => unauthorized "malformed bearer token"
        end
      else unauthorized "missing bearer token"
  | None => unauthorized "missing bearer token"
  end.

(** ** [RestRouter] *)

Definition header_set (o : option string) : option string :=
  match o with Some k => if truthy k then Some k else None | None => None end.

Definition enforceReplayNonce (now : Z) (nonce : option string) (ttlMs : Z) : St E unit := fun s =>
  match header_set nonce with
  | None => (s, Throw (HttpError 400 "X-Request-Nonce header is required for this operation" "nonce_required"))
  | Some n =>
      let '(r', first) := claim now n ttlMs s.(replay) in
      (set_replay r' s,
       if (first : bool) then Ok tt else Throw (HttpError 409 "nonce already used (possible replay)" "replay_detected"))
  end.

Definition withIdempotency (clk : Clock) (key : option string) (actor : string) (body : json) (ttlMs : Z)
    (compute : St E StoredResponse) : St E StoredResponse := fun s =>
  match header_set key with
  | None => compute s
  | Some k =>
      let requestHash := hashRequestBody sha256 body in
      match idem_get clk.(t_get) k s.(idem) with
      | Some (h, response) =>
          if String.eqb h requestHash then (s, Ok response)
          else (s, Throw (HttpError 409 "idempotency key reused with a different request body" "idempotency_conflict"))
      | None =>
          match compute s with
          | (s', Ok response) =>
              (set_idem (idem_put clk.(t_put) k actor requestHash response ttlMs s'.(idem)) s', Ok response)
          | (s', Throw e) => (s', Throw e)
          end
      end
  end.

(** [readJson] *)
Fixpoint read_chunks (size : Z) (acc : string) (chunks : list string) : res string :=
  match chunks with
  | [] => Ok acc
  | c :: cs =>
      let size' := size + Z.of_nat (String.length c) in
      if 1000000 <? size' then Throw (HttpError 413 "body too large" "body_too_large")
      else read_chunks size' (acc +:+ c) cs
  end.

Definition readJson (req : Request) : res json :=
  if includes ["GET"; "HEAD"] req.(rq_method) then Ok (JObj [])
  else match read_chunks 0 "" req.(rq_chunks) with
       | Throw e => Throw e
       | Ok text =>
           match req.(rq_chunks) with
           | [] => Ok (JObj [])
           | _ =>
               if negb (str_includes "application/json" (default "" req.(rq_content_type)))
               then Throw (HttpError 415 "application/json required" "unsupported_media")
               else match JSON_parse text with
                    | Ok v => Ok v
                    | Throw _ => Throw (HttpError 400 "invalid JSON" "invalid_json")
                    end
           end
       end.

Definition lift_app {B} (m : St A B) : St E B := fun s =>
  let '(a, r) := m s.(app) in (set_app a s, r).

Definition find_route (method path : string) : option (Route A) :=
  List.find (fun r => String.eqb r.(rt_method) method && match path_match r.(rt_pattern) path with Some _ => true | None => false end) routes.

Definition url_path (req : Request) : string := List.hd "" (split_on "?" req.(rq_url)).
Definition url_query (req : Request) : string := default "" (split_on "?" req.(rq_url) !! 1%nat).

(** [Math.ceil((resetAt-Date.now())/1000)] as text *)
Definition retry_after (now : Z) (resetAt : option Z) : string :=
  match resetAt with Some t => str_of_Z (- ((now - t) / 1000)) | None => "NaN" end.

(** [this.limiter.check] on the subject, method and path of the request *)
Definition enforce_rate (clk : Clock) (claims : Claims) (route : Route A) (path : string) :
    St (E * list (string * string)) unit := fun '(s, hs) =>
  let key := js_text claims.(sub) +:+ ":" +:+ route.(rt_method) +:+ ":" +:+ path in
  let '(h', r) := check key (default DEFAULT_RATE_LIMIT route.(rt_options).(rateLimit)) clk.(t_limit) s.(hits) in
  if r.(rl_allowed) then ((set_hits h' s, hs), Ok tt)
  else ((set_hits h' s, ("Retry-After", retry_after clk.(t_retry) r.(rl_resetAt)) :: hs),
        Throw (HttpError 429 "rate limit exceeded" "rate_limited")).

(** A step that sets no header. *)
Definition quiet {B} (m : St E B) : St (E * list (string * string)) B := fun '(s, hs) =>
  let '(s', r) := m s in ((s', hs), r).

(** [{requestId,data}] *)
Definition envelope (requestId : string) (data : option json) : json :=
  JObj (("requestId", JStr requestId) :: jopt "data" data).

(** [run] *)
Definition run_handler (id : string) (m : St A (option json)) : St E StoredResponse :=
  let* data := lift_app m in mret (mkStored 200 (envelope id data)).

(** Once the nonce is claimed: the body, the handler and the response. *)
Definition serve (clk : Clock) (requestId : string) (req : Request) (cors : list (string * string))
    (route : Route A) (claims : Claims) (params : list (string * string)) : St E Response :=
  let* body := lift_res (readJson req) in
  let ctx := {| cx_claims := claims; cx_body := body; cx_params := params; cx_query := url_query req |} in
  match route.(rt_handler) with
  | RawHandler h =>
      let* raw := lift_app (h ctx) in
      mret (mkResponse 200 ([("content-type", raw.1); ("cache-control", "no-store")] ++ cors) (BRaw raw.2))
  | JsonHandler h =>
      let run := run_handler requestId (h ctx) in
      let* result :=
        (if route.(rt_options).(idempotent)
         then withIdempotency clk req.(rq_idempotency) (js_text claims.(sub)) body 86400000 run else run) in
      mret (respond result.(st_status) result.(st_body) [] cors)
  end.

Definition run_route (clk : Clock) (requestId : string) (req : Request) (cors : list (string * string))
    (route : Route A) (claims : Claims) (params : list (string * string)) : St E Response :=
  (if route.(rt_options).(replayProtected)
   then enforceReplayNonce clk.(t_nonce) req.(rq_nonce) 300000 else mret tt) ;;;
  serve clk requestId req cors route claims params.

Definition anonymous : Claims := mkClaims (JStr "anonymous") [] JNull.

(** The body of the [try] of [handle] after the two fixed paths. *)
Definition dispatch (clk : Clock) (requestId : string) (req : Request) (cors : list (string * string)) :
    St (E * list (string * string)) Response :=
  let path := url_path req in
  let found := find_route req.(rq_method) path in
  quiet (modify (fun s => set_metrics (incrLabeled "bapc_http_requests_total"
    [("method", req.(rq_method)); ("path", match found with Some _ => path | None => "unmatched" end)] s.(metrics)) s)) ;;;
  match found with
  | None => throw (HttpError 404 "route not found" "not_found")
  | Some route =>
      let* params := lift_res (decode_params (default [] (path_match route.(rt_pattern) path))) in
      let* claims := lift_res (if route.(rt_options).(public) then Ok anonymous
                               else verify clk.(t_verify) req route.(rt_roles)) in
      enforce_rate clk claims route path ;;;
      quiet (run_route clk requestId req cors route claims params)
  end.

(** The [catch]: classify, log a 500, count, respond. *)
Definition fail (requestId : string) (req : Request) (cors : list (string * string)) (e : exn)
    (s : E) (set_headers : list (string * string)) : E * Response :=
  let '(status, message, code) := asHttpError e in
  let s1 := if 500 <=? status then
      set_errorLog (s.(errorLog) ++ [mkLog requestId req.(rq_method) req.(rq_url) (exn_message e)]) s else s in
  let s2 := set_metrics (incrLabeled "bapc_http_errors_total"
      [("code", code); ("status", str_of_Z status)] s1.(metrics)) s1 in
  (s2, respond status (JObj [("requestId", JStr requestId);
         ("error", JObj [("code", JStr code); ("message", JStr message)])]) set_headers cors).

Definition handle (clk : Clock) (requestId : string) (req : Request) (s : E) : E * Response :=
  let cors := corsHeaders req in
  if String.eqb req.(rq_method) "OPTIONS" then (s, mkResponse 204 cors BNone)
  else if String.eqb req.(rq_url) "/healthz" then
    (s, respond 200 (JObj [("status", JStr "ok"); ("requestId", JStr requestId)]) [] cors)
  else if exposeMetrics && String.eqb req.(rq_url) "/metrics" then
    (s, mkResponse 200 (("content-type", "text/plain; version=0.0.4") :: cors) (BText (render s.(metrics))))
  else match dispatch clk requestId req cors (s, []) with
       | ((s', _), Ok response) => (s', response)
       | ((s', hs), Throw e) => fail requestId req cors e s' hs
       end.

(** ** One request *)

Implicit Types (s : E) (clk : Clock) (req : Request) (route : Route A).

(** What a run leaves of the stores and the application. *)
Definition same_core s s' : Prop := idem s' = idem s /\ replay s' = replay s /\ app s' = app s.

Lemma same_core_refl s : same_core s s.
Proof. done. Qed.

Lemma enforce_rate_core clk claims route path s hs p r :
  enforce_rate clk claims route path (s, hs) = (p, r) -> same_core s p.1.
Proof.
  unfold enforce_rate. destruct (check _ _ _ _) as [h' rr].
  destruct (rl_allowed rr); intros [= <- <-]; done.
Qed.

Lemma fail_core id req cors e s hs : same_core s (fail id req cors e s hs).1.
Proof. unfold fail. destruct (asHttpError e) as [[st m] c]. by destruct (500 <=? st). Qed.

Definition error_body (id code message : string) : Body :=
  BJson (JObj [("requestId", JStr id); ("error", JObj [("code", JStr code); ("message", JStr message)])]).

Lemma fail_body id req cors e s hs :
  exists code m, (fail id req cors e s hs).2.(rs_body) = error_body id code m.
Proof. unfold fail. destruct (asHttpError e) as [[st m] c]. by exists c, m. Qed.

(** The claims a route is entered with. *)
Definition admitted (clk : Clock) (req : Request) (route : Route A) (claims : Claims) : Prop :=
  (if route.(rt_options).(public) then Ok anonymous else verify clk.(t_verify) req route.(rt_roles)) = Ok claims.

(** Either the request ends before its route is entered, or what it does is
    what the route does. *)
Definition turned_away (id : string) (s : E) (out : E * Response) : Prop :=
  same_core s out.1 /\ (forall data, out.2.(rs_body) <> BJson (envelope id data)).

Definition entered clk id req s (out : E * Response) : Prop :=
  exists route claims params s0,
    find_route req.(rq_method) (url_path req) = Some route /\ admitted clk req route claims /\ same_core s s0 /\
    match run_route clk id req (corsHeaders req) route claims params s0 with
    | (s1, Ok response) => out = (s1, response)
    | (s1, Throw e) => out = fail id req (corsHeaders req) e s1 []
    end.

Lemma envelope_not_error id id' data code m : BJson (envelope id data) <> error_body id' code m.
Proof. unfold envelope, error_body. destruct data; simpl; intros [=]. Qed.

Lemma fail_turned_away id req cors e s s1 hs : same_core s s1 -> turned_away id s (fail id req cors e s1 hs).
Proof.
  intros (? & ? & ?). destruct (fail_core id req cors e s1 hs) as (? & ? & ?).
  split; [split_and!; congruence|]. intros data. destruct (fail_body id req cors e s1 hs) as (c & m & ->).
  intros Heq. symmetry in Heq. by apply envelope_not_error in Heq.
Qed.

Lemma handle_cases clk id req s :
  turned_away id s (handle clk id req s) \/ entered clk id req s (handle clk id req s).
Proof.
  unfold handle. destruct (String.eqb (rq_method req) "OPTIONS"); [left; split; [done|by intros ? [=]]|].
  destruct (String.eqb (rq_url req) "/healthz").
  { left; split; [done|]. intros data. unfold envelope. destruct data; simpl; intros [=]. }
  destruct (exposeMetrics && _); [left; split; [done|by intros ? [=]]|].
  unfold dispatch.
  erewrite bind_ok by reflexivity.
  destruct (find_route (rq_method req) (url_path req)) as [route|] eqn:F; [|by left; apply fail_turned_away].
  destruct (decode_params _) as [params|e] eqn:P; [|by left; apply fail_turned_away].
  erewrite bind_ok by reflexivity.
  destruct (if public (rt_options route) then _ else _) as [claims|e] eqn:C; [|by left; apply fail_turned_away].
  erewrite bind_ok by reflexivity.
  match goal with |- context [(?m ≫= ?k) ?p] => destruct (m p) as [[s2 hs] r] eqn:Er end.
  pose proof (enforce_rate_core _ _ _ _ _ _ _ _ Er) as Hc. simpl in Hc.
  destruct r as [[]|e]; [rewrite (bind_ok _ _ _ _ _ Er)|rewrite (bind_throw _ _ _ _ _ Er); left; by apply fail_turned_away].
  right. exists route, claims, params, s2. split_and!; [done..|].
  unfold enforce_rate in Er. destruct (check _ _ _ _) as [h' rr]. destruct (rl_allowed rr); simplify_eq.
  unfold quiet. by destruct (run_route _ _ _ _ _ _ _ _) as [s3 [resp|e]].
Qed.

(** ** Inside a route *)

Lemma lift_app_core {B} (m : St A B) s : idem (lift_app m s).1 = idem s /\ replay (lift_app m s).1 = replay s.
Proof. unfold lift_app. by destruct (m (app s)). Qed.

Lemma run_handler_core id m s : idem (run_handler id m s).1 = idem s /\ replay (run_handler id m s).1 = replay s.
Proof.
  destruct (lift_app_core m s) as [Hi Hr].
  split; apply (bind_frame _ (lift_app m)); done.
Qed.

(** The outcome of a request on an idempotent route whose key has a row in force. *)
Definition replayed (body : json) (h : string) (r : StoredResponse) : res StoredResponse :=
  if String.eqb h (hashRequestBody sha256 body) then Ok r
  else Throw (HttpError 409 "idempotency key reused with a different request body" "idempotency_conflict").

Lemma withIdempotency_replay clk key actor body ttl compute s :
  (forall s, replay (compute s).1 = replay s) -> replay (withIdempotency clk key actor body ttl compute s).1 = replay s.
Proof.
  intros Hc. unfold withIdempotency. destruct (header_set key) as [k|]; [|done].
  destruct (idem_get _ _ _) as [[h r]|]; [by destruct (String.eqb h _)|].
  specialize (Hc s). by destruct (compute s) as [s' [x|e]].
Qed.

Lemma serve_replay clk id req cors route claims params s :
  replay (serve clk id req cors route claims params s).1 = replay s.
Proof.
  unfold serve. apply bind_frame; [done|]. intros body s1. destruct (rt_handler route) as [h|h].
  - apply bind_frame; [|done].
    destruct (idempotent (rt_options route)); [apply withIdempotency_replay; intros s2|];
      apply (proj2 (run_handler_core id _ _)).
  - apply bind_frame; [apply (proj2 (lift_app_core _ _))|done].
Qed.

Section idempotency.
Context `{!IdempotencyLaws I}.

Lemma withIdempotency_stored clk key actor body ttl compute s k h r e :
  (forall s, idem (compute s).1 = idem s) -> stored k h r e (idem s) -> clk.(t_get) < e ->
  stored k h r e (idem (withIdempotency clk key actor body ttl compute s).1).
Proof.
  intros Hc Hs Ht. unfold withIdempotency. destruct (header_set key) as [k'|]; [|by rewrite Hc].
  destruct (idem_get _ _ _) as [[h' r']|] eqn:G; [by destruct (String.eqb h' _)|].
  specialize (Hc s). destruct (compute s) as [s' [x|er]]; simpl in *; [|by rewrite Hc].
  rewrite Hc. apply put_other; [|done]. intros ->. rewrite (get_stored _ _ _ _ _ _ Hs Ht) in G. done.
Qed.

Lemma serve_stored clk id req cors route claims params s k h r e :
  stored k h r e (idem s) -> clk.(t_get) < e ->
  stored k h r e (idem (serve clk id req cors route claims params s).1).
Proof.
  intros Hs Ht. unfold serve. destruct (readJson req) as [body|er]; [|done].
  erewrite bind_ok by reflexivity. destruct (rt_handler route) as [hd|hd].
  - set (m := if idempotent _ then _ else _).
    assert (stored k h r e (idem (m s).1)) as Hm.
    { unfold m. destruct (idempotent (rt_options route)).
      - apply withIdempotency_stored; [|done..]. intros s2. apply (proj1 (run_handler_core id _ _)).
      - by rewrite (proj1 (run_handler_core id _ _)). }
    unfold mbind, St_bind. by destruct (m s) as [s1 [x|er]].
  - erewrite bind_frame; [done|apply (proj1 (lift_app_core _ _))|done].
Qed.

(** A key in force: the handler is not run. *)
Lemma serve_in_force clk id req cors route claims params s k h r e hd body :
  route.(rt_handler) = JsonHandler hd -> route.(rt_options).(idempotent) = true ->
  header_set req.(rq_idempotency) = Some k -> readJson req = Ok body ->
  stored k h r e (idem s) -> clk.(t_get) < e ->
  serve clk id req cors route claims params s =
    (s, match replayed body h r with
        | Ok x => Ok (respond x.(st_status) x.(st_body) [] cors)
        | Throw er => Throw er
        end).
Proof.
  intros Eh Ei Ek Eb Hs Ht. unfold serve. rewrite Eb. erewrite bind_ok by reflexivity. rewrite Eh, Ei.
  unfold mbind, St_bind, withIdempotency, replayed. rewrite Ek, (get_stored _ _ _ _ _ _ Hs Ht).
  by destruct (String.eqb h _).
Qed.

(** A key without a row: a response is stored with it. *)
Lemma serve_stores clk id req cors route claims params s s1 resp k hd :
  route.(rt_handler) = JsonHandler hd -> route.(rt_options).(idempotent) = true ->
  header_set req.(rq_idempotency) = Some k -> vacant k (idem s) ->
  serve clk id req cors route claims params s = (s1, Ok resp) ->
  exists body data, readJson req = Ok body /\ resp.(rs_body) = BJson (envelope id data) /\
    stored k (hashRequestBody sha256 body) (mkStored 200 (envelope id data)) (clk.(t_put) + 86400000) (idem s1).
Proof.
  intros Eh Ei Ek Hv. unfold serve. destruct (readJson req) as [body|er]; [|done].
  erewrite bind_ok by reflexivity. rewrite Eh, Ei. intros Hrun. apply bind_inv_ok in Hrun as (s2 & x & Hw & Hx).
  unfold withIdempotency in Hw. rewrite Ek, (get_vacant _ _ _ Hv) in Hw.
  destruct (run_handler id _ s) as [s3 [y|er]] eqn:Em; simplify_eq.
  assert (idem s3 = idem s) as Hc.
  { match type of Em with run_handler _ ?m _ = _ => pose proof (proj1 (run_handler_core id m s)) as Hc end.
    by rewrite Em in Hc. }
  apply bind_inv_ok in Em as (s4 & data & _ & Hd). unfold mret, St_ret in *. simplify_eq/=.
  exists body, data. split_and!; [done..|]. apply put_vacant. by rewrite Hc.
Qed.
End idempotency.

(** ** Sequences of requests *)

Definition handle_all (qs : list (Clock * string * Request)) s : E :=
  foldl (fun s q => (handle q.1.1 q.1.2 q.2 s).1) s qs.

Lemma handle_all_inv (P : E -> Prop) (ok : Clock -> Prop) qs s :
  (forall clk id req s, ok clk -> P s -> P (handle clk id req s).1) ->
  Forall (fun q => ok q.1.1) qs -> P s -> P (handle_all qs s).
Proof.
  intros Hstep Hqs. revert s. induction Hqs as [|q qs Hq _ IH]; intros s Hs; [done|]. apply IH. by apply Hstep.
Qed.

Lemma run_route_out clk id req route claims params s0 out :
  match run_route clk id req (corsHeaders req) route claims params s0 with
  | (s1, Ok response) => out = (s1, response)
  | (s1, Throw e) => out = fail id req (corsHeaders req) e s1 []
  end ->
  same_core (run_route clk id req (corsHeaders req) route claims params s0).1 out.1.
Proof.
  destruct (run_route _ _ _ _ _ _ _ s0) as [s1 [resp|e]]; intros ->; [done|apply fail_core].
Qed.

Lemma run_route_unprotected clk id req cors route claims params s :
  route.(rt_options).(replayProtected) = false ->
  run_route clk id req cors route claims params s = serve clk id req cors route claims params s.
Proof. intros Hp. unfold run_route. rewrite Hp. done. Qed.

Section nonces.
Context `{!ReplayLaws R}.

Lemma enforce_spent now nonce ttl s n e :
  spent n e (replay s) -> now < e -> spent n e (replay (enforceReplayNonce now nonce ttl s).1).
Proof.
  intros Hs Ht. unfold enforceReplayNonce. destruct (header_set nonce) as [m|]; [|done].
  pose proof (claim_keeps n e m ttl now (replay s) Hs Ht) as Hk. by destruct (claim now m ttl (replay s)).
Qed.

Lemma run_route_spent clk id req cors route claims params s n e :
  spent n e (replay s) -> clk.(t_nonce) < e ->
  spent n e (replay (run_route clk id req cors route claims params s).1).
Proof.
  intros Hs Ht. unfold run_route, mbind, St_bind. destruct (replayProtected (rt_options route)).
  - pose proof (enforce_spent clk.(t_nonce) (rq_nonce req) 300000 s n e Hs Ht) as Hk.
    destruct (enforceReplayNonce _ _ _ _) as [s1 [[]|er]]; simpl in *; [|done]. by rewrite serve_replay.
  - simpl. by rewrite serve_replay.
Qed.

Lemma handle_spent clk id req s n e :
  clk.(t_nonce) < e -> spent n e (replay s) -> spent n e (replay (handle clk id req s).1).
Proof.
  intros Ht Hs. destruct (handle_cases clk id req s) as [[(_ & Hr & _) _]|(route & claims & params & s0 & _ & _ & Hc & Hout)].
  - by rewrite Hr.
  - destruct (run_route_out _ _ _ _ _ _ _ _ Hout) as (_ & -> & _).
    apply run_route_spent; [|done]. by destruct Hc as (_ & -> & _).
Qed.

(** The first use of a nonce leaves it spent, or leaves the application alone. *)
Lemma protected_first clk id req cors route claims params s n :
  route.(rt_options).(replayProtected) = true -> header_set req.(rq_nonce) = Some n ->
  app (run_route clk id req cors route claims params s).1 = app s \/
  spent n (clk.(t_nonce) + 300000) (replay (run_route clk id req cors route claims params s).1).
Proof.
  intros Hp Hn. unfold run_route, mbind, St_bind, enforceReplayNonce. rewrite Hp, Hn.
  pose proof (claim_spends n 300000 clk.(t_nonce) (replay s)) as Hc.
  destruct (claim _ n _ _) as [r' []]; [|by left]. right. rewrite serve_replay. by apply Hc.
Qed.

Lemma protected_again clk id req cors route claims params s n e :
  route.(rt_options).(replayProtected) = true -> header_set req.(rq_nonce) = Some n ->
  spent n e (replay s) -> clk.(t_nonce) < e ->
  app (run_route clk id req cors route claims params s).1 = app s.
Proof.
  intros Hp Hn Hs Ht. unfold run_route, mbind, St_bind, enforceReplayNonce. rewrite Hp, Hn.
  pose proof (claim_spent n e 300000 clk.(t_nonce) (replay s) Hs Ht) as Hc.
  destruct (claim _ n _ _) as [r' b]. simpl in Hc. by subst b.
Qed.
End nonces.

Section retries.
Context `{!IdempotencyLaws I}.

Lemma enforce_idem now nonce ttl s : idem (enforceReplayNonce now nonce ttl s).1 = idem s.
Proof. unfold enforceReplayNonce. destruct (header_set nonce); [|done]. by destruct (claim _ _ _ _). Qed.

Lemma run_route_stored clk id req cors route claims params s k h r e :
  stored k h r e (idem s) -> clk.(t_get) < e ->
  stored k h r e (idem (run_route clk id req cors route claims params s).1).
Proof.
  intros Hs Ht. unfold run_route, mbind, St_bind. destruct (replayProtected (rt_options route)).
  - pose proof (enforce_idem clk.(t_nonce) (rq_nonce req) 300000 s) as Hk.
    destruct (enforceReplayNonce _ _ _ _) as [s1 [[]|er]]; simpl in *; rewrite <- Hk in Hs; [|done].
    by apply serve_stored.
  - by apply serve_stored.
Qed.

Lemma handle_stored clk id req s k h r e :
  clk.(t_get) < e -> stored k h r e (idem s) -> stored k h r e (idem (handle clk id req s).1).
Proof.
  intros Ht Hs. destruct (handle_cases clk id req s) as [[(Hi & _ & _) _]|(route & claims & params & s0 & _ & _ & Hc & Hout)].
  - by rewrite Hi.
  - destruct (run_route_out _ _ _ _ _ _ _ _ Hout) as (-> & _ & _).
    apply run_route_stored; [|done]. by destruct Hc as (-> & _ & _).
Qed.
End retries.

(** ** What a token must be *)

Lemma check_claims_ok now roles v claims :
  check_claims now roles v = Ok claims ->
  (roles = [] \/ exists r, r ∈ roles /\ JStr r ∈ claims.(c_roles)) /\
  (forall n, js_number claims.(exp) = Some n -> now < n * 1000).
Proof.
  unfold check_claims. destruct (get_prop "sub" v) as [subject|], (get_prop "roles" v) as [rl|], (get_prop "exp" v) as [ex|]; try done.
  destruct rl as [[| | | |rs|]|]; try done. destruct (negb _); [done|].
  destruct (js_number (default JNull ex)) as [n|] eqn:En.
  - destruct (n * 1000 <=? now) eqn:El; [done|]. bools.
    destruct roles as [|r0 roles]; [intros [= <-]; simpl; split; [by left|congruence || (intros m Hm; simplify_eq; lia)]|].
    destruct (negb _) eqn:Er; [done|]. intros [= <-]. bools. apply existsb_elem in Er as (r & Hr & Hx).
    apply existsb_elem in Hx as (x & Hx & Hy). destruct x; try done. bools. subst.
    split; [right; by exists s|]. simpl. intros m Hm. simplify_eq. lia.
  - destruct roles as [|r0 roles]; [intros [= <-]; simpl; split; [by left|congruence]|].
    destruct (negb _) eqn:Er; [done|]. intros [= <-]. bools. apply existsb_elem in Er as (r & Hr & Hx).
    apply existsb_elem in Hx as (x & Hx & Hy). destruct x; try done. bools. subst.
    split; [right; by exists s|]. simpl. congruence.
Qed.

(** The request carries a payload signed with the secret whose claims pass. *)
Definition bears_token (now : Z) (req : Request) (roles : list string) (claims : Claims) : Prop :=
  exists auth encoded rest v,
    req.(rq_authorization) = Some auth /\ startsWith "Bearer " auth = true /\
    split_on "." (String.substring 7 (String.length auth) auth) = encoded :: base64url (hmac secret encoded) :: rest /\
    JSON_parse (from_base64url encoded) = Ok v /\ check_claims now roles v = Ok claims.

Lemma verify_ok now req roles claims : verify now req roles = Ok claims -> bears_token now req roles claims.
Proof.
  unfold verify, bears_token. destruct (rq_authorization req) as [auth|]; [|done].
  destruct (startsWith "Bearer " auth) eqn:Eb; [|done].
  destruct (split_on "." _) as [|encoded [|sg rest]] eqn:Es; [done..|].
  destruct (negb _); [done|]. destruct (negb (String.eqb _ _)) eqn:Eq; [done|]. bools. subst sg.
  destruct (JSON_parse _) as [v|] eqn:Ep; [|done]. intros Hc. exists auth, encoded, rest, v. done.
Qed.

(** ** Handlers that only read *)

Definition reads_only (h : Handler A) : Prop :=
  match h with
  | JsonHandler h => forall c a, (h c a).1 = a
  | RawHandler h => forall c a, (h c a).1 = a
  end.

Lemma lift_app_reads {B} (m : St A B) s : (m s.(app)).1 = s.(app) -> app (lift_app m s).1 = app s.
Proof. unfold lift_app. destruct (m (app s)) as [a r]. cbn [fst]. by intros ->. Qed.

Lemma withIdempotency_app clk key actor body ttl compute s :
  (forall s, app (compute s).1 = app s) -> app (withIdempotency clk key actor body ttl compute s).1 = app s.
Proof.
  intros Hc. unfold withIdempotency. destruct (header_set key) as [k|]; [|done].
  destruct (idem_get _ _ _) as [[h r]|]; [by destruct (String.eqb h _)|].
  specialize (Hc s). by destruct (compute s) as [s' [x|e]].
Qed.

Lemma run_route_reads clk id req cors route claims params s :
  reads_only route.(rt_handler) -> app (run_route clk id req cors route claims params s).1 = app s.
Proof.
  intros Hr. unfold run_route. apply bind_frame.
  { destruct (replayProtected (rt_options route)); [|done]. unfold enforceReplayNonce. destruct (header_set _); [|done].
    by destruct (claim _ _ _ _). }
  intros _ s1. unfold serve. apply bind_frame; [done|]. intros body s2.
  destruct (rt_handler route) as [h|h]; cbn [reads_only] in Hr.
  - assert (forall s, app (run_handler id (h {| cx_claims := claims; cx_body := body; cx_params := params; cx_query := url_query req |}) s).1 = app s) as Hh.
    { intros s3. apply (bind_frame _ (lift_app _)); [by apply lift_app_reads|done]. }
    apply bind_frame; [|done]. destruct (idempotent (rt_options route)); [by apply withIdempotency_app|apply Hh].
  - apply bind_frame; [by apply lift_app_reads|done].
Qed.

Lemma handle_reads clk id req s :
  (forall route, find_route req.(rq_method) (url_path req) = Some route -> reads_only route.(rt_handler)) ->
  app (handle clk id req s).1 = app s.
Proof.
  intros Hr. destruct (handle_cases clk id req s) as [[(_ & _ & Ha) _]|(route & claims & params & s0 & Hf & _ & (_ & _ & Hc) & Hout)]; [done|].
  destruct (run_route_out _ _ _ _ _ _ _ _ Hout) as (_ & _ & Ha). rewrite Ha, <- Hc. by apply run_route_reads, Hr.
Qed.

(** What a request that changed the application came with. *)
Lemma changed_by_route clk id req s :
  app (handle clk id req s).1 <> app s ->
  exists route, find_route req.(rq_method) (url_path req) = Some route /\
    (route.(rt_options).(public) = true \/
     exists claims, bears_token clk.(t_verify) req route.(rt_roles) claims /\
       (route.(rt_roles) = [] \/ exists r, r ∈ route.(rt_roles) /\ JStr r ∈ claims.(c_roles)) /\
       (forall n, js_number claims.(exp) = Some n -> clk.(t_verify) < n * 1000)).
Proof.
  intros Hne. destruct (handle_cases clk id req s) as [[(_ & _ & Ha) _]|(route & claims & params & s0 & Hf & Ha & _ & _)].
  { congruence. }
  exists route. split; [done|]. unfold admitted in Ha.
  destruct (public (rt_options route)); [by left|]. right. exists claims.
  pose proof (verify_ok _ _ _ _ Ha) as Hb. split; [done|].
  destruct Hb as (? & ? & ? & ? & _ & _ & _ & _ & Hc). by eapply check_claims_ok.
Qed.

(** Also: A request changes the application only through a route that is public
    by declaration, or when it carries a token whose payload is signed with the
    guard's secret, has not expired and names one of the route's roles. *)
Theorem handler_needs_token clk id req s :
  app (handle clk id req s).1 <> app s ->
  exists route, find_route req.(rq_method) (url_path req) = Some route /\
    (route.(rt_options).(public) = true \/
     exists claims, bears_token clk.(t_verify) req route.(rt_roles) claims /\
       (route.(rt_roles) = [] \/ exists r, r ∈ route.(rt_roles) /\ JStr r ∈ claims.(c_roles)) /\
       (forall n, js_number claims.(exp) = Some n -> clk.(t_verify) < n * 1000)).
Proof. apply changed_by_route. Qed.

(** C17: A replay-protected request that had an effect cannot have one again: for
    the five minutes of its nonce, whatever requests come in between, a
    replay-protected request with the same nonce leaves the application as it
    is. *)
Theorem nonce_used_once `{!ReplayLaws R} clk1 id1 req1 route1 s qs clk2 id2 req2 route2 n :
  find_route req1.(rq_method) (url_path req1) = Some route1 ->
  route1.(rt_options).(replayProtected) = true -> header_set req1.(rq_nonce) = Some n ->
  app (handle clk1 id1 req1 s).1 <> app s ->
  Forall (fun q => q.1.1.(t_nonce) < clk1.(t_nonce) + 300000) qs ->
  clk2.(t_nonce) < clk1.(t_nonce) + 300000 ->
  find_route req2.(rq_method) (url_path req2) = Some route2 ->
  route2.(rt_options).(replayProtected) = true -> header_set req2.(rq_nonce) = Some n ->
  let s2 := handle_all qs (handle clk1 id1 req1 s).1 in
  app (handle clk2 id2 req2 s2).1 = app s2.
Proof.
  intros F1 P1 N1 Hne Hqs Ht F2 P2 N2 s2.
  assert (spent n (clk1.(t_nonce) + 300000) (replay (handle clk1 id1 req1 s).1)) as H1.
  { destruct (handle_cases clk1 id1 req1 s) as [[(_ & _ & Ha) _]|(route & claims & params & s0 & Hf & _ & Hc & Hout)]; [done|].
    assert (route = route1) as -> by congruence. destruct (run_route_out _ _ _ _ _ _ _ _ Hout) as (_ & Hr & Ha).
    rewrite Hr. rewrite Ha in Hne. destruct Hc as (_ & _ & Hc).
    destruct (protected_first clk1 id1 req1 (corsHeaders req1) route1 claims params s0 n P1 N1); congruence. }
  assert (spent n (clk1.(t_nonce) + 300000) (replay s2)) as H2.
  { apply (handle_all_inv (fun s => spent n (clk1.(t_nonce) + 300000) (replay s))
      (fun clk => clk.(t_nonce) < clk1.(t_nonce) + 300000)); [|done..]. intros. by apply handle_spent. }
  destruct (handle_cases clk2 id2 req2 s2) as [[(_ & _ & Ha) _]|(route & claims & params & s0 & Hf & _ & Hc & Hout)]; [done|].
  assert (route = route2) as -> by congruence. destruct (run_route_out _ _ _ _ _ _ _ _ Hout) as (_ & _ & ->).
  destruct Hc as (_ & Hr & <-). eapply protected_again; [done..| |done]. by rewrite Hr.
Qed.

(** C19: A request on an idempotent route whose key had no row and whose handler
    returned is answered for a day: whatever requests come in between, a request
    with the same key on any idempotent route, its own or another, leaves the
    application as it is, and its response is the stored body, when its own
    body hashes alike, or an error. *)
Theorem retry_is_replayed `{!IdempotencyLaws I} clk1 id1 req1 route1 hd1 s data k qs clk2 id2 req2 route2 hd2 :
  find_route req1.(rq_method) (url_path req1) = Some route1 ->
  route1.(rt_handler) = JsonHandler hd1 -> route1.(rt_options).(idempotent) = true ->
  route1.(rt_options).(replayProtected) = false ->
  header_set req1.(rq_idempotency) = Some k -> vacant k (idem s) ->
  (handle clk1 id1 req1 s).2.(rs_body) = BJson (envelope id1 data) ->
  Forall (fun q => q.1.1.(t_get) < clk1.(t_put) + 86400000) qs ->
  clk2.(t_get) < clk1.(t_put) + 86400000 ->
  find_route req2.(rq_method) (url_path req2) = Some route2 ->
  route2.(rt_handler) = JsonHandler hd2 -> route2.(rt_options).(idempotent) = true ->
  route2.(rt_options).(replayProtected) = false -> header_set req2.(rq_idempotency) = Some k ->
  let s2 := handle_all qs (handle clk1 id1 req1 s).1 in
  let out := handle clk2 id2 req2 s2 in
  app out.1 = app s2 /\
  ((out.2.(rs_body) = BJson (envelope id1 data) /\
    exists body1 body2, readJson req1 = Ok body1 /\ readJson req2 = Ok body2 /\
      hashRequestBody sha256 body1 = hashRequestBody sha256 body2) \/
   forall d, out.2.(rs_body) <> BJson (envelope id2 d)).
Proof.
  intros F1 E1 I1 P1 K1 Hv Hb Hqs Ht F2 E2 I2 P2 K2 s2 out.
  assert (exists body1, readJson req1 = Ok body1 /\ stored k (hashRequestBody sha256 body1) (mkStored 200 (envelope id1 data))
    (clk1.(t_put) + 86400000) (idem (handle clk1 id1 req1 s).1)) as (body1 & Eb1 & H1).
  { destruct (handle_cases clk1 id1 req1 s) as [[_ Hb']|(route & claims & params & s0 & Hf & _ & Hc & Hout)]; [by destruct (Hb' data)|].
    assert (route = route1) as -> by congruence. rewrite run_route_unprotected in Hout by done.
    destruct (serve clk1 _ _ _ _ _ _ s0) as [s1 [resp|e]] eqn:Es.
    - rewrite Hout in *. simpl in *. destruct Hc as (Hi & _ & _). rewrite <- Hi in Hv.
      destruct (serve_stores _ _ _ _ _ _ _ _ _ _ _ _ E1 I1 K1 Hv Es) as (body1 & d & ? & Hd & Hs).
      exists body1. split; [done|]. rewrite Hd in Hb.
      apply (f_equal (fun b => match b with BJson v => v | _ => JNull end)) in Hb. cbv beta iota in Hb. by rewrite <- Hb.
    - rewrite Hout in Hb. destruct (fail_body id1 req1 (corsHeaders req1) e s1 []) as (c & m & Hf').
      rewrite Hf' in Hb. symmetry in Hb. by apply envelope_not_error in Hb. }
  assert (stored k (hashRequestBody sha256 body1) (mkStored 200 (envelope id1 data)) (clk1.(t_put) + 86400000) (idem s2)) as H2.
  { apply (handle_all_inv (fun s => stored k _ _ _ (idem s)) (fun clk => clk.(t_get) < clk1.(t_put) + 86400000)); [|done..].
    intros. by apply handle_stored. }
  unfold out. destruct (handle_cases clk2 id2 req2 s2) as [[(_ & _ & Ha) Hb']|(route & claims & params & s0 & Hf & _ & Hc & Hout)]; [by split; [|right]|].
  assert (route = route2) as -> by congruence. rewrite run_route_unprotected in Hout by done.
  pose proof Hc as (Hi & _ & Ha). rewrite <- Hi in H2. destruct (readJson req2) as [body2|er] eqn:Eb2.
  - rewrite (serve_in_force _ _ _ _ _ _ _ _ _ _ _ _ _ _ E2 I2 K2 Eb2 H2 Ht) in Hout. unfold replayed in Hout.
    destruct (String.eqb _ _) eqn:Eh; simpl in Hout; rewrite Hout.
    + simpl. bools. split; [done|]. left. split; [done|]. by exists body1, body2.
    + destruct (fail_turned_away id2 req2 (corsHeaders req2) (HttpError 409 "idempotency key reused with a different request body" "idempotency_conflict") s2 s0 []) as [(_ & _ & ?) ?]; [done|]. by split; [|right].
  - unfold serve in Hout. rewrite Eb2 in Hout. simpl in Hout. rewrite Hout.
    destruct (fail_turned_away id2 req2 (corsHeaders req2) er s2 s0 []) as [(_ & _ & ?) ?]; [done|]. by split; [|right].
Qed.
End router.

(** ** A small server

    Two routes that count, the signature of a token its secret and text, the
    encoding hexadecimal. *)
Definition hmac0 (k m : string) : string := k +:+ m.
Definition id0 (s : string) : string := s.

Definition sample_claims : json := JObj [("sub", JStr "ann"); ("roles", jstrs ["security-owner"]); ("exp", JNum 4600)].
Definition sample_parse (t : string) : res json :=
  if String.eqb t (json_stringify sample_claims) then Ok sample_claims
  else if String.eqb t "{}" then Ok (JObj []) else Throw (JsError "Unexpected token").

Definition count_handler : Handler Z := JsonHandler (fun _ n => (n + 1, Ok (Some (JNum n)))).
Definition sample_routes : list (Route Z) :=
  add "POST" "/lockdown" ["security-owner"] count_handler
    {| idempotent := false; rateLimit := None; public := false; replayProtected := true |}
  (add "PUT" "/nodes/:id/region" ["security-owner"] count_handler
    {| idempotent := true; rateLimit := None; public := false; replayProtected := false |} []).

Definition sample_route (i : nat) : Route Z :=
  List.nth i sample_routes (mkRoute "" [] [] count_handler
    {| idempotent := false; rateLimit := None; public := false; replayProtected := false |}).

Definition sample_token : string := "Bearer " +:+ mint hmac0 to_hex "s3cret" 1000000 "ann" ["security-owner"] None.
Definition sample_request (method url : string) : Request :=
  {| rq_method := method; rq_url := url; rq_origin := None; rq_authorization := Some sample_token;
     rq_nonce := Some "n1"; rq_idempotency := Some "k1"; rq_content_type := Some "application/json";
     rq_chunks := ["{}"] |}.
Definition at_ (t : Z) : Clock := mkClock t t t t t t.

Definition sample_server := mkEdge (I := PgIdem) (R := PgNonces) ∅ {| pg_idem := ∅ |} {| pg_nonces := ∅ |} (mkMetrics [] []) [] 0%Z.
Definition serve0 := handle (H := code_point_collation) (I := PgIdem) (R := PgNonces) hmac0 id0 to_hex from_hex sample_parse "s3cret" false sample_routes.
Definition serve_all0 := handle_all (H := code_point_collation) (I := PgIdem) (R := PgNonces) hmac0 id0 to_hex from_hex sample_parse "s3cret" false sample_routes.
Definition lock := sample_request "POST" "/lockdown".
Definition move1 := sample_request "PUT" "/nodes/a/region".
Definition move2 := sample_request "PUT" "/nodes/b/region".

Lemma handler_needs_token_witness :
  app (serve0 (at_ 2000000) "r1" lock sample_server).1 = 1 /\
  exists route claims, find_route sample_routes "POST" "/lockdown" = Some route /\
    bears_token hmac0 to_hex from_hex sample_parse "s3cret" 2000000 lock (rt_roles route) claims.
Proof.
  split; [vm_compute; reflexivity|].
  destruct (handler_needs_token (H := code_point_collation) hmac0 id0 to_hex from_hex sample_parse "s3cret" false sample_routes
    (at_ 2000000) "r1" lock sample_server) as (route & Hf & [Hp|(claims & Hb & _)]); [vm_compute; discriminate| |].
  - exfalso. vm_compute in Hf. injection Hf as <-. vm_compute in Hp. discriminate.
  - exists route, claims. split; [exact Hf|exact Hb].
Defined.

Lemma nonce_used_once_witness :
  let s2 := serve_all0 [(at_ 2050000, "r2", move1)] (serve0 (at_ 2000000) "r1" lock sample_server).1 in
  app s2 = 2 /\ app (serve0 (at_ 2100000) "r3" lock s2).1 = app s2.
Proof.
  cbv zeta. split; [vm_compute; reflexivity|]. unfold serve_all0, serve0.
  apply (nonce_used_once (H := code_point_collation) hmac0 id0 to_hex from_hex sample_parse "s3cret" false sample_routes
    (at_ 2000000) "r1" lock (sample_route 1) sample_server [(at_ 2050000, "r2", move1)]
    (at_ 2100000) "r3" lock (sample_route 1) "n1").
  4: { vm_compute. discriminate. }
  4: { repeat constructor. }
  all: vm_compute; reflexivity.
Defined.

(** The move of node b under the key that moved node a is answered with a's
    response and does nothing. *)
Lemma retry_is_replayed_witness :
  let s2 := serve_all0 [(at_ 2050000, "r2", lock)] (serve0 (at_ 2000000) "r1" move1 sample_server).1 in
  app s2 = 2 /\ app (serve0 (at_ 2100000) "r3" move2 s2).1 = app s2 /\
  rs_body (serve0 (at_ 2100000) "r3" move2 s2).2 = BJson (envelope "r1" (Some (JNum 0))).
Proof.
  cbv zeta. split; [vm_compute; reflexivity|].
  split; [|vm_compute; reflexivity]. unfold serve_all0, serve0.
  apply (retry_is_replayed (H := code_point_collation) hmac0 id0 to_hex from_hex sample_parse "s3cret" false sample_routes
    (at_ 2000000) "r1" move1 (sample_route 0) (fun _ n => (n + 1, Ok (Some (JNum n)))) sample_server (Some (JNum 0)) "k1"
    [(at_ 2050000, "r2", lock)] (at_ 2100000) "r3" move2 (sample_route 0) (fun _ n => (n + 1, Ok (Some (JNum n))))).
  8: { repeat constructor. }
  all: vm_compute; reflexivity.
Defined.
