(* ===== verification/Agent.v ===== *)
(** * The endpoint agent

    [AgentReconciler] ([src/src/agent/reconciler.ts]) and [ProductionAgent]
    ([src/agents/shared/production-agent.ts]) over the two interfaces they are
    written against: [PlatformAdapter] ([src/native/shared/platform-adapter.ts],
    with the five operations of [AgentPlatform]) and [AgentController].  A platform
    operation is a change of the machine's state that may throw. *)

From S2P Require Import Prelude Json Text Domain Database Repositories CommandQueue Rollout Mesh Rest.
Open Scope Z_scope.

(** ** Interfaces *)

Class PlatformAdapter (P : Type) := {
  applyWireGuard : json -> St P unit;
  applyPeers : json -> St P unit;
  rotatePrivateKey : string -> St P unit;
  applyFirewall : json -> St P unit;
  rollbackFirewall : json -> St P unit;
  setKillSwitch : bool -> St P unit;
  setDns : json -> St P unit;
  isolate : json -> St P unit;
  platform_restore : St P unit;
  collectPosture : St P json;
  (** [AgentPlatform] *)
  readRoutes : St P (list Route);
  replaceRoutes : list Route -> St P unit;
  readFileHash : string -> St P string;
  applyFirewallPlan : json -> St P unit;
  clearTransientCredentials : St P unit
}.

Class AgentController (C : Type) := {
  ctl_heartbeat : json -> St C (list QueuedCommand);
  ctl_acknowledge : string -> json -> St C unit
}.

(** ** Routes as JSON *)

Definition route_json (r : Route) : json := JObj (
  [("destination", JStr r.(destination))] ++ jopt "gateway" (JStr <$> r.(gateway))
  ++ [("interfaceName", JStr r.(interfaceName)); ("metric", JNum r.(metric))]).
Definition routes_json (rs : list Route) : json := JArr (map route_json rs).

Definition route_of_json (v : json) : option Route :=
  match v with
  | JObj o =>
      match jlookup "destination" o, jlookup "interfaceName" o, jlookup "metric" o with
      | Some (JStr d), Some (JStr i), Some (JNum m) =>
          Some (mkRoute d (match jlookup "gateway" o with Some (JStr g) => Some g | _ => None end) i m)
      | _, _, _ => None
      end
  | _ => None
  end.

Definition strings_of_json (l : list (string * json)) : option (list (string * string)) :=
  mapM (fun kv => match kv.2 with JStr s => Some (kv.1, s) | _ => None end) l.

(** [AgentDesiredState] *)
Record AgentDesiredState := mkAgentDesired {
  ad_revision : Z; ad_routes : list Route; ad_firewallPlan : json; ad_integrityFiles : list (string * string)
}.

Definition desired_json (d : AgentDesiredState) : json := JObj
  [("revision", JNum d.(ad_revision)); ("routes", routes_json d.(ad_routes));
   ("firewallPlan", d.(ad_firewallPlan));
   ("integrityFiles", JObj (map (fun kv => (kv.1, JStr kv.2)) d.(ad_integrityFiles)))].

(** The payload of a RECONCILE command as the reconciler reads it. *)
Definition desired_of_json (v : json) : option AgentDesiredState :=
  match v with
  | JObj o =>
      match jlookup "revision" o, jlookup "routes" o, jlookup "firewallPlan" o, jlookup "integrityFiles" o with
      | Some (JNum n), Some (JArr rs), Some plan, Some (JObj fs) =>
          match mapM route_of_json rs, strings_of_json fs with
          | Some routes, Some files => Some (mkAgentDesired n routes plan files)
          | _, _ => None
          end
      | _, _, _, _ => None
      end
  | _ => None
  end.

(** ** [AgentReconciler] *)

Record Agent (P : Type) := mkAgent { ag_platform : P; ag_revision : Z }.
Arguments mkAgent {P} _ _.
Arguments ag_platform {P} _.
Arguments ag_revision {P} _.

Section agent.
Context {P C : Type} `{!PlatformAdapter P} `{!AgentController C} `{Coll : !Collation}.
Context (sha256 : string -> string).

Definition on_platform {A} (m : St P A) : St (Agent P) A := fun a =>
  let '(p, r) := m a.(ag_platform) in (mkAgent p a.(ag_revision), r).

Definition routeKey (r : Route) : string :=
  r.(destination) +:+ "|" +:+ r.(interfaceName) +:+ "|" +:+ default "" r.(gateway) +:+ "|" +:+ str_of_Z r.(metric).
Definition sortRoutes (routes : list Route) : list Route :=
  sort_by (fun a b => locale_leb (routeKey a) (routeKey b)) routes.

(** The digest of a route table; [stable] is [canonicalJson]. *)
Definition routes_hash (routes : list Route) : string :=
  to_hex (sha256 (canonicalJson (routes_json (sortRoutes routes)))).

Inductive ReconcileStatus := STALE | APPLIED.
Definition reconcile_status_name (s : ReconcileStatus) : string :=
  match s with STALE => "STALE" | APPLIED => "APPLIED" end.

(** [for (const [path,expected] of Object.entries(integrityFiles))] *)
Definition check_file (f : string * string) : St (Agent P) unit :=
  let* actual := on_platform (readFileHash f.1) in
  if String.eqb actual f.2 then mret tt
  else on_platform clearTransientCredentials ;;; throw (JsError ("integrity failure: " +:+ f.1)).

Definition reconcile (state : AgentDesiredState) : St (Agent P) (ReconcileStatus * Z) :=
  let* revision := gets ag_revision in
  if state.(ad_revision) <? revision then mret (STALE, revision)
  else
    for_each state.(ad_integrityFiles) check_file ;;;
    let* current := on_platform readRoutes in
    (if String.eqb (routes_hash current) (routes_hash state.(ad_routes)) then mret tt
     else on_platform (replaceRoutes state.(ad_routes))) ;;;
    on_platform (applyFirewallPlan state.(ad_firewallPlan)) ;;;
    modify (fun a => mkAgent a.(ag_platform) state.(ad_revision)) ;;;
    mret (APPLIED, state.(ad_revision)).

(** A payload as it arrives: the revision is compared as [<] compares, before
    anything else of it is read. *)
Definition reconcile_command (payload : json) : St (Agent P) (ReconcileStatus * Z) := fun a =>
  match get_prop "revision" payload with
  | Throw e => (a, Throw e)
  | Ok v =>
      if match v ≫= js_number with Some n => n <? a.(ag_revision) | None => false end
      then (a, Ok (STALE, a.(ag_revision)))
      else match desired_of_json payload with
        | Some state => reconcile state a
        | None => (a, Throw (JsError "malformed desired state"))
        end
  end.

Lemma reconcile_command_typed payload state a :
  desired_of_json payload = Some state -> reconcile_command payload a = reconcile state a.
Proof.
  intros D. unfold reconcile_command. rewrite D. destruct payload as [| | | | |o]; try done. simpl in *.
  destruct (jlookup "revision" o) as [[| |n| | |]|] eqn:E; try done. simpl.
  assert (ad_revision state = n) as <- by (repeat case_match; by simplify_eq).
  destruct (ad_revision state <? ag_revision a) eqn:L; [|done]. unfold reconcile.
  change (mbind ?k (gets ?g) a) with (k (g a) a). cbn beta. by rewrite L.
Qed.

(** ** [ProductionAgent] *)

(** What the constructor may leave out: the reconciler, the mesh rotation client
    and the identity signer; and the key pair a rotation generates. *)
Context (nodeId version : string) (hasReconciler : bool).
Context (rotatePeerKey : option (string -> string -> string -> St C (bool * Z))).
Context (sign : option (string -> string -> string)) (wireGuardKeyPair : string * string).
Context (now : Date).

Definition at_agent {A} (m : St (Agent P) A) : St (C * Agent P) A := fun '(c, a) =>
  let '(a', r) := m a in ((c, a'), r).
Definition at_controller {A} (m : St C A) : St (C * Agent P) A := fun '(c, a) =>
  let '(c', r) := m c in ((c', a), r).
Definition ack (id : string) (result : list (string * json)) : St (C * Agent P) unit :=
  at_controller (ctl_acknowledge id (JObj result)).
Definition platform {A} (m : St P A) : St (C * Agent P) A := at_agent (on_platform m).
Definition field (k : string) (payload : json) : St (C * Agent P) (option json) :=
  fun s => (s, get_prop k payload).

Definition okAt : list (string * json) := [("ok", JBool true); ("at", jdate now)].

(** The branches of the [switch]. *)
Definition execute_type (c : QueuedCommand) : St (C * Agent P) unit :=
  let payload := c.(q_payload) in
  if String.eqb c.(q_type) "SET_KILL_SWITCH" then
    let* v := field "enabled" payload in
    let enabled := js_truthy v in
    platform (setKillSwitch enabled) ;;;
    ack c.(q_id) (okAt ++ [("enabled", JBool enabled)])
  else if String.eqb c.(q_type) "SET_DNS" then
    let* servers := field "servers" payload in
    platform (setDns (default JNull servers)) ;;;
    ack c.(q_id) (okAt ++ jopt "servers" servers)
  else if String.eqb c.(q_type) "APPLY_WIREGUARD" then
    platform (applyWireGuard payload) ;;; ack c.(q_id) okAt
  else if String.eqb c.(q_type) "APPLY_PEERS" then
    let* peers := field "peers" payload in
    platform (applyPeers (default JNull peers)) ;;;
    match peers with
    | Some ps => ack c.(q_id) (okAt ++ [("topologyHash", JStr (hash_json sha256 ps))])
    | None => throw (JsError "The data argument must be of type string")
    end
  else if String.eqb c.(q_type) "APPLY_FIREWALL" then
    platform (applyFirewall payload) ;;;
    let* rules := field "rules" payload in
    let* commitId := field "commitId" payload in
    ack c.(q_id) (okAt ++ jopt "commitId" commitId ++
      [("firewallHash", JStr (hash_json sha256 (match rules with Some JNull | None => JArr [] | Some v => v end)))])
  else if String.eqb c.(q_type) "ROLLBACK_FIREWALL" then
    let* commitId := field "commitId" payload in
    platform (rollbackFirewall (default JNull commitId)) ;;; ack c.(q_id) okAt
  else if String.eqb c.(q_type) "QUARANTINE" then
    let* reason := field "reason" payload in
    platform (isolate (match reason with Some JNull | None => JStr "controller quarantine" | Some v => v end)) ;;;
    ack c.(q_id) okAt
  else if String.eqb c.(q_type) "RESTORE" then
    platform platform_restore ;;; ack c.(q_id) okAt
  else if String.eqb c.(q_type) "ROTATE_IDENTITY_REQUIRED" then
    match rotatePeerKey, sign with
    | Some rotate, Some sg =>
        let* result := at_controller (rotate nodeId wireGuardKeyPair.1 (sg nodeId wireGuardKeyPair.1)) in
        (if (result.1 : bool) then mret tt else throw (JsError "mesh rejected the identity rotation")) ;;;
        platform (rotatePrivateKey wireGuardKeyPair.2) ;;;
        ack c.(q_id) (okAt ++ [("newPublicKey", JStr wireGuardKeyPair.1); ("effectiveEpoch", JNum result.2)])
    | _, _ => throw (JsError "ROTATE_IDENTITY_REQUIRED received but no MeshRotationClient/IdentitySigner is configured")
    end
  else if String.eqb c.(q_type) "RECONCILE" then
    if hasReconciler then
      let* result := at_agent (reconcile_command payload) in
      ack c.(q_id) (okAt ++ [("status", JStr (reconcile_status_name result.1)); ("revision", JNum result.2)])
    else throw (JsError "RECONCILE command received but no AgentReconciler is configured")
  else throw (JsError ("unsupported controller command " +:+ c.(q_type))).

Definition execute (c : QueuedCommand) : St (C * Agent P) unit :=
  try_catch (execute_type c) (fun e => ack c.(q_id) [("ok", JBool false); ("error", JStr (exn_message e))]).

(** One turn of the [while] of [run]. *)
Definition heartbeat_input (posture : json) : json := JObj
  [("nodeId", JStr nodeId); ("at", jdate now); ("posture", posture);
   ("postureHash", JStr (to_hex (sha256 (json_stringify posture))));
   ("agentVersion", JStr version); ("bytesTransmitted", JNum 0); ("bytesReceived", JNum 0)].

Definition run_turn : St (C * Agent P) unit :=
  let* posture := platform collectPosture in
  let* commands := at_controller (ctl_heartbeat (heartbeat_input posture)) in
  for_each commands execute.

(** [run] until [stop] is called in turn [n]; a heartbeat that fails ends it. *)
Fixpoint run (n : nat) : St (C * Agent P) unit :=
  match n with
  | O => mret tt
  | S n' => run_turn ;;; run n'
  end.
End agent.

(** ** Acknowledgements *)

Section acknowledgements.
Context {P C : Type} `{!PlatformAdapter P} `{Ctl : !AgentController C} `{Coll : !Collation} (sha256 : string -> string).
Context (nodeId : string) (hasReconciler : bool) (now : Date).
Context (rotatePeerKey : option (string -> string -> string -> St C (bool * Z))).
Context (sign : option (string -> string -> string)) (wg : string * string).

(** The agent's controller, whatever it is and however it fails, with a record of
    the acknowledgements it was asked for and how each of them ended. *)
Definition Call : Type := string * json * res unit.
Notation Watched := (list Call * C)%type.
Definition unwatched {A} (m : St C A) : St Watched A := fun '(l, c) => let '(c', r) := m c in ((l, c'), r).
#[local] Instance watched : AgentController Watched := {
  ctl_heartbeat input := unwatched (ctl_heartbeat input);
  ctl_acknowledge id result := fun '(l, c) =>
    let '(c', r) := ctl_acknowledge id result c in ((l ++ [(id, result, r)], c'), r)
}.
Definition watched_rotation : option (string -> string -> string -> St Watched (bool * Z)) :=
  (fun f n k sg => unwatched (f n k sg)) <$> rotatePeerKey.

Notation exec_type := (execute_type (C := Watched) (P := P) sha256 nodeId hasReconciler watched_rotation sign wg now).
Notation exec := (execute (C := Watched) (P := P) sha256 nodeId hasReconciler watched_rotation sign wg now).

(** Nothing acknowledged; a success acknowledged at the end or not at all. *)
Definition silent {A} (m : St (Watched * Agent P) A) : Prop := forall s, (m s).1.1.1 = s.1.1.
Definition one_ack (id : string) (m : St (Watched * Agent P) unit) : Prop := forall s,
  match m s with
  | (s', Ok _) => exists r, s'.1.1 = s.1.1 ++ [(id, JObj (okAt now ++ r), Ok tt)]
  | (s', Throw e) => s'.1.1 = s.1.1 \/ exists r, s'.1.1 = s.1.1 ++ [(id, JObj (okAt now ++ r), Throw e)]
  end.

Lemma silent_bind {A} id (m : St (Watched * Agent P) A) k :
  silent m -> (forall a, one_ack id (k a)) -> one_ack id (m ≫= k).
Proof.
  intros Hm Hk s. unfold mbind, St_bind. specialize (Hm s).
  destruct (m s) as [s1 [a|e]]; simpl in Hm; [|by left]. specialize (Hk a s1). by rewrite Hm in Hk.
Qed.

Lemma ack_watched id result (l : list Call) c (a : Agent P) :
  exists c' o, ack (C := Watched) id result ((l, c), a) = (((l ++ [(id, JObj result, o)], c'), a), o).
Proof.
  unfold ack, at_controller. simpl. destruct (ctl_acknowledge id (JObj result) c) as [c' o]. by exists c', o.
Qed.

Lemma ack_one id r : one_ack id (ack (C := Watched) (P := P) id (okAt now ++ r)).
Proof.
  intros [[l c] a]. destruct (ack_watched id (okAt now ++ r) l c a) as (c' & [[]|e] & ->); simpl; [by exists r|].
  right. by exists r.
Qed.
Lemma ack_plain id : one_ack id (ack (C := Watched) (P := P) id (okAt now)).
Proof. pose proof (ack_one id []) as H. by rewrite app_nil_r in H. Qed.
Lemma throw_one id e : one_ack id (throw e).
Proof. intros s. by left. Qed.

Lemma silent_at_agent {A} (m : St (Agent P) A) : silent (at_agent (C := Watched) m).
Proof. intros [l a]. simpl. by destruct (m a). Qed.
Lemma silent_platform {A} (m : St P A) : silent (platform (C := Watched) m).
Proof. apply silent_at_agent. Qed.
Lemma silent_field k v : silent (field (C := Watched) (P := P) k v).
Proof. by intros s. Qed.
Lemma silent_check (b : bool) e : silent (if b then mret tt else throw e : St (Watched * Agent P) unit).
Proof. intros s. by destruct b. Qed.
Lemma silent_rotation f n k sg : watched_rotation = Some f -> silent (at_controller (C := Watched) (P := P) (f n k sg)).
Proof.
  unfold watched_rotation. destruct rotatePeerKey as [g|]; [|done]. intros [= <-] [[l c] a].
  unfold at_controller, unwatched. by destruct (g n k sg c).
Qed.

Create HintDb acks.
Hint Resolve silent_at_agent silent_platform silent_field silent_check ack_one ack_plain throw_one : acks.

Lemma execute_type_one c : one_ack c.(q_id) (exec_type c).
Proof.
  pose proof silent_rotation as Hrot. unfold execute_type.
  repeat match goal with
  | |- one_ack _ (if _ then _ else _) => case_match
  | |- one_ack _ (match ?x with _ => _ end) => destruct x eqn:?
  | |- one_ack _ (mbind _ (at_controller _)) => apply silent_bind
  | |- one_ack _ (mbind _ _) => apply silent_bind; [by auto with acks|intros]
  | |- forall _, _ => intros
  end; auto with acks.
Qed.

(** What is reported of a failure. *)
Definition failure (e : exn) : json := JObj [("ok", JBool false); ("error", JStr (exn_message e))].

(** C24: The acknowledgements of a command, for every controller.  If the branch of
    the command goes through and its acknowledgement is accepted, [execute] returns
    and that acknowledgement, with [ok: true], is the only one.  If the branch fails
    before it acknowledges, there is one, with [ok: false], the error and no commit.
    If the controller refuses the acknowledgement of a success, the command is
    acknowledged a second time, now as failed.  In the last two cases [execute] ends
    the way that last acknowledgement ends.  So with a controller that accepts, every
    command is acknowledged exactly once, however the platform fails. *)
Theorem execute_acknowledges_once c l s a :
  let ran := (exec_type c ((l, s), a)).2 in
  exists s' a' calls out, exec c ((l, s), a) = (((l ++ calls, s'), a'), out) /\
    match ran with
    | Ok _ => out = Ok tt /\ exists r, calls = [(c.(q_id), JObj (okAt now ++ r), Ok tt)]
    | Throw e =>
        calls = [(c.(q_id), failure e, out)] \/
        exists r, calls = [(c.(q_id), JObj (okAt now ++ r), Throw e); (c.(q_id), failure e, out)]
    end.
Proof.
  intros ran. unfold ran. pose proof (execute_type_one c ((l, s), a)) as H. unfold execute, try_catch.
  destruct (execute_type _ _ _ _ _ _ _ _ _) as [[[l' s'] a'] [[]|e]]; cbn [fst snd] in H |- *.
  - destruct H as (r & ->). eexists s', a', _, _. split; [reflexivity|]. split; [done|]. by exists r.
  - destruct (ack_watched c.(q_id) [("ok", JBool false); ("error", JStr (exn_message e))] l' s' a') as (c2 & o & ->).
    destruct H as [->|[r ->]]; [eexists c2, a', _, o; split; [reflexivity|by left]|].
    eexists c2, a', _, o. split; [by rewrite <- app_assoc|right; by exists r].
Qed.
End acknowledgements.

(** Also: An acknowledgement without a commit id, as every failure the agent
    reports is, is invisible to the rollout: recording it changes the rollout of
    no commit, so a node on which APPLY_FIREWALL failed stays pending until the
    time-out. *)
Theorem failed_apply_unseen (commandId error c : string) (db : Db) :
  let result := JObj [("ok", JBool false); ("error", JStr error)] in
  pg_acks c (acknowledge commandId result db).1 = pg_acks c db /\
  pg_summary c (pg_refresh c (acknowledge commandId result db).1).1 = pg_summary c (pg_refresh c db).1.
Proof.
  intros result.
  assert (pg_acks c (acknowledge commandId result db).1 = pg_acks c db) as E.
  { unfold acknowledge. destruct (List.find _ _) as [row|]; [|done]. destruct (existsb _ _); [done|].
    unfold pg_acks. simpl. rewrite List.filter_app. simpl. rewrite andb_false_r. apply app_nil_r. }
  split; [done|]. rewrite !pg_refresh_run. simpl. rewrite E. unfold pg_summary. simpl.
  f_equal. unfold acknowledge. destruct (List.find _ _) as [row|]; [|done]. by destruct (existsb _ _).
Qed.

(** ** What [reconcile] achieves *)

(** A platform whose reads change nothing, whose route table is what was last
    written and whose firewall does not touch it. *)
Class RouteTable (P : Type) `{PlatformAdapter P} := {
  table : P -> list Route;
  readRoutes_reads p : readRoutes p = (p, Ok (table p)) \/ exists e, readRoutes p = (p, Throw e);
  readFileHash_reads path p : (readFileHash path p).1 = p;
  replaceRoutes_writes rs p p' : replaceRoutes rs p = (p', Ok tt) -> table p' = rs;
  firewall_keeps_routes plan p : table (applyFirewallPlan plan p).1 = table p
}.

Lemma jlookup_route_gateway r :
  route_of_json (route_json r) = Some r.
Proof. destruct r as [d [g|] i m]; done. Qed.

Lemma route_json_wf r : json_wf (route_json r) = true.
Proof. destruct r as [d [g|] i m]; done. Qed.

Lemma jequiv_obj_length l l' : jequiv (JObj l) (JObj l') -> length l = length l'.
Proof.
  intros H. inversion H as [| | | | |? ? m m' Hm Hmm Hm']; subst.
  rewrite Hm, <- Hm'. by eapply Forall2_length.
Qed.

(** A route is determined by its JSON up to the order of the keys. *)
Lemma jequiv_route r r' : jequiv (route_json r) (route_json r') -> r = r'.
Proof.
  intros H. pose proof (route_json_wf r') as Hwf.
  assert (forall k v v', (k, v) ∈ (match route_json r with JObj o => o | _ => [] end) ->
    (k, v') ∈ (match route_json r' with JObj o => o | _ => [] end) -> jequiv v v') as Hm
    by (intros k v v'; apply (jequiv_obj_member _ _ k v v' Hwf H)).
  pose proof (jequiv_obj_length _ _ H) as Hl.
  destruct r as [d g i m], r' as [d' g' i' m'].
  pose proof (Hm "destination" (JStr d) (JStr d') ltac:(left) ltac:(left)) as Hd.
  pose proof (Hm "interfaceName" (JStr i) (JStr i')) as Hi.
  pose proof (Hm "metric" (JNum m) (JNum m')) as Hmm.
  destruct g as [g|], g' as [g'|]; simpl in *; try done.
  - pose proof (Hm "gateway" (JStr g) (JStr g') ltac:(set_solver) ltac:(set_solver)) as Hg.
    specialize (Hi ltac:(set_solver) ltac:(set_solver)). specialize (Hmm ltac:(set_solver) ltac:(set_solver)).
    inversion Hd; inversion Hg; inversion Hi; inversion Hmm. by subst.
  - specialize (Hi ltac:(set_solver) ltac:(set_solver)). specialize (Hmm ltac:(set_solver) ltac:(set_solver)).
    inversion Hd; inversion Hi; inversion Hmm. by subst.
Qed.

Section reconcile_spec.
Context {P : Type} `{!PlatformAdapter P} `{!RouteTable P} `{Coll : !Collation} (sha256 : string -> string).

Lemma routes_hash_perm rs rs' : routes_hash sha256 rs = routes_hash sha256 rs' -> rs ≡ₚ rs' \/ collision sha256.
Proof.
  intros H. unfold routes_hash in H. apply (inj to_hex), digest_same in H as [H|H]; [left|by right].
  apply canonicalJson_determines in H;
    [|simpl; apply forallb_Forall, Forall_fmap, Forall_true; apply route_json_wf..].
  rewrite <- (sort_by_perm (fun a b => locale_leb (routeKey a) (routeKey b)) rs).
  rewrite <- (sort_by_perm (fun a b => locale_leb (routeKey a) (routeKey b)) rs').
  fold (sortRoutes rs) (sortRoutes rs'). apply Permutation_eq.
  inversion H as [| | | |? ? Hl|]; subst. clear H.
  revert Hl. generalize (sortRoutes rs) (sortRoutes rs').
  intros ks ks' Hl. apply (Forall2_fmap route_json route_json) in Hl. induction Hl as [|x y k1 k2 Hx _ IH]; [done|]. f_equal; [by apply jequiv_route|done].
Qed.

Definition intact (p : P) (files : list (string * string)) : Prop :=
  Forall (fun f => (readFileHash f.1 p).2 = Ok f.2) files.

Lemma check_file_run f (a : Agent P) :
  match check_file f a with
  | (a', Ok _) => a' = a /\ (readFileHash f.1 (ag_platform a)).2 = Ok f.2
  | (a', Throw _) => ag_revision a' = ag_revision a
  end.
Proof using RouteTable0.
  destruct a as [p n]. unfold check_file, on_platform. simpl. unfold mbind, St_bind. simpl.
  pose proof (readFileHash_reads f.1 p) as Hp. destruct (readFileHash f.1 p) as [p1 [h|e]]; simpl in *; subst p1; [|done].
  destruct (String.eqb h f.2) eqn:E; [bools; by subst|].
  simpl. destruct (clearTransientCredentials p) as [p2 [[]|e]]; done.
Qed.

Lemma check_files_run fs (a : Agent P) :
  match for_each fs check_file a with
  | (a', Ok _) => a' = a /\ intact (ag_platform a) fs
  | (a', Throw _) => ag_revision a' = ag_revision a
  end.
Proof using RouteTable0.
  induction fs as [|f fs IH]; [by split; [|constructor]|]. simpl. pose proof (check_file_run f a) as Hf.
  unfold mbind, St_bind. destruct (check_file f a) as [a1 [[]|e]]; [|done]. destruct Hf as [-> Hf].
  destruct (for_each fs check_file a) as [a2 [[]|e]]; [|done]. destruct IH as [-> IH]. by split; [|constructor].
Qed.

(** Also: A reconciliation that reports APPLIED had every integrity file at its
    expected hash and leaves the route table with exactly the desired routes, at
    the desired revision; one that reports STALE was given an older revision
    and did nothing; one that throws keeps the revision, so it is tried again.
    Otherwise two texts with the same SHA-256 are at hand. *)
Theorem reconcile_restores_routes (state : AgentDesiredState) (a : Agent P) :
  match reconcile sha256 state a with
  | (a', Ok (APPLIED, r)) =>
      r = state.(ad_revision) /\ ag_revision a' = r /\ ag_revision a <= r /\
      intact (ag_platform a) state.(ad_integrityFiles) /\ (table (ag_platform a') ≡ₚ state.(ad_routes) \/ collision sha256)
  | (a', Ok (STALE, r)) => a' = a /\ r = ag_revision a /\ state.(ad_revision) < ag_revision a
  | (a', Throw _) => ag_revision a' = ag_revision a
  end.
Proof using RouteTable0.
  unfold reconcile. change (mbind ?k (gets ?g) a) with (k (g a) a). cbn beta.
  destruct (_ <? _) eqn:El; bools; [done|].
  pose proof (check_files_run (ad_integrityFiles state) a) as Hf. unfold mbind, St_bind.
  destruct (for_each _ _ _) as [a1 [[]|e]]; [|done]. destruct Hf as [-> Hf]. destruct a as [p n].
  unfold on_platform at 1. simpl in *. destruct (readRoutes_reads p) as [->|[e ->]]; [|done].
  assert (forall p1, table p1 ≡ₚ ad_routes state \/ collision sha256 ->
    match on_platform (applyFirewallPlan (ad_firewallPlan state)) (mkAgent p1 n) with
    | (a1, Ok _) => ag_revision a1 = n /\ (table (ag_platform a1) ≡ₚ ad_routes state \/ collision sha256)
    | (a1, Throw _) => ag_revision a1 = n
    end) as Hfw.
  { intros p1 Hp1. unfold on_platform. simpl. pose proof (firewall_keeps_routes (ad_firewallPlan state) p1) as Hk.
    destruct (applyFirewallPlan _ p1) as [p2 [[]|e]]; simpl in *; [|done]. by rewrite Hk. }
  destruct (String.eqb _ _) eqn:Eh; bools.
  - specialize (Hfw p (routes_hash_perm _ _ Eh)). simpl.
    destruct (on_platform _ _) as [a2 [[]|e]]; [|done]. simpl. by destruct Hfw.
  - unfold on_platform at 1. simpl. destruct (replaceRoutes _ p) as [p1 [[]|e]] eqn:Er; [|done].
    apply replaceRoutes_writes in Er. specialize (Hfw p1 ltac:(left; by rewrite Er)). simpl.
    destruct (on_platform _ _) as [a2 [[]|e]]; [|done]. simpl. by destruct Hfw.
Qed.
End reconcile_spec.

(** ** A simulated machine *)

Record Machine := mkMachine { m_routes : list Route; m_files : gmap string string; m_log : list string }.
Definition note (what : string) : St Machine unit :=
  modify (fun m => mkMachine m.(m_routes) m.(m_files) (m.(m_log) ++ [what])).

#[export] Instance SimPlatform : PlatformAdapter Machine := {
  applyWireGuard _ := note "wireguard"; applyPeers _ := note "peers"; rotatePrivateKey _ := note "key";
  applyFirewall _ := note "firewall"; rollbackFirewall _ := note "rollback";
  setKillSwitch b := note (if b then "kill-switch on" else "kill-switch off");
  setDns _ := note "dns"; isolate _ := note "isolate"; platform_restore := note "restore";
  collectPosture := mret (JObj []);
  readRoutes := gets m_routes;
  replaceRoutes rs := modify (fun m => mkMachine rs m.(m_files) m.(m_log));
  readFileHash path := fun m => (m, match m.(m_files) !! path with
    | Some h => Ok h | None => Throw (JsError "ENOENT") end);
  applyFirewallPlan _ := note "plan"; clearTransientCredentials := note "cleared"
}.

#[export] Instance SimRouteTable : RouteTable Machine.
Proof.
  refine {| table := m_routes |}; simpl.
  - intros p. by left.
  - done.
  - intros rs p p' [= <-]. done.
  - done.
Defined.

Definition good_route : Route := mkRoute "10.0.0.0/8" (Some "10.144.0.1") "wg0" 10.
Definition bad_route : Route := mkRoute "10.0.0.0/8" (Some "192.168.0.66") "wg0" 10.
Definition tampered : Agent Machine := mkAgent (mkMachine [bad_route] {["/bin/agent" := "abc"]} []) 3.

Lemma reconcile_restores_routes_witness :
  exists a', reconcile (Coll := code_point_collation) (fun x => x)
      (mkAgentDesired 4 [good_route] JNull [("/bin/agent", "abc")]) tampered = (a', Ok (APPLIED, 4)) /\
    (table (ag_platform a') ≡ₚ [good_route] \/ collision (fun x => x)).
Proof.
  pose proof (reconcile_restores_routes (Coll := code_point_collation) (fun x => x)
    (mkAgentDesired 4 [good_route] JNull [("/bin/agent", "abc")]) tampered) as H.
  destruct (reconcile _ _ tampered) as [a' [[[|] r]|e]] eqn:E; [|destruct H as (-> & _ & _ & _ & H)|].
  - vm_compute in E. discriminate E.
  - exists a'. split; [reflexivity|exact H].
  - vm_compute in E. discriminate E.
Defined.
