(* ===== verification/Reconciliation.v ===== *)
(** * Desired state and drift correction

    [PgDesiredStateStore] ([src/services/mesh-controller/pg-desired-state-store.ts])
    and [NodeReconciliationService] ([src/src/application/node-reconciliation.ts]),
    and the loop they close with the agent: a correction the agent applies is
    what the next check finds. *)

From S2P Require Import Prelude Json Text Domain Database Repositories CommandQueue Enforcer Mesh Agent.
Open Scope Z_scope.

(** ** [PgDesiredStateStore] *)

Record DesiredInput := mkDesiredInput {
  di_routes : list Route; di_dns : list string; di_kill_switch : bool; di_integrity : list (string * string)
}.

Definition desired_get (nodeId : string) (db : Db) : option DesiredStateRow := db.(node_desired_state) !! nodeId.
Definition desired_all (db : Db) : list (string * DesiredStateRow) := map_to_list db.(node_desired_state).

(** The largest value of the [integer] column [revision]. *)
Definition max_int4 : Z := 2147483647.
Definition out_of_range : exn := PgError "22003".

(** [upsert]: revision 1, or one above the row's; every field is replaced. *)
Definition desired_upsert (nodeId : string) (input : DesiredInput) (updatedBy : option string) : St Db DesiredStateRow := fun db =>
  if negb (bool_decide (is_Some (db.(mesh_nodes) !! nodeId))) then (db, Throw foreign_key_violation)
  else
    let revision := match db.(node_desired_state) !! nodeId with Some old => old.(ds_revision) + 1 | None => 1 end in
    if max_int4 <? revision then (db, Throw out_of_range)
    else
      let row := mkDesired revision input.(di_routes) input.(di_dns) input.(di_kill_switch) input.(di_integrity)
                   db.(pg_now) updatedBy in
      (set_node_desired_state (<[nodeId := row]> db.(node_desired_state)) db, Ok row).

(** ** [NodeReconciliationService] *)

Inductive DriftDimension := ROUTES_AND_INTEGRITY | DNS | KILL_SWITCH | PEER_TOPOLOGY | POLICY_VERSION.
#[export] Instance DriftDimension_eq_dec : EqDecision DriftDimension.
Proof. solve_decision. Defined.

Record DriftFinding := mkFinding { df_dimension : DriftDimension; df_drifted : bool; df_correctedBy : option string }.
Definition clean (d : DriftDimension) : DriftFinding := mkFinding d false None.
Definition corrected (d : DriftDimension) (by_ : string) : DriftFinding := mkFinding d true (Some by_).

(** [ack?.details?.k] *)
Definition ack_field (k : string) (a : option AckRow) : option json :=
  match a with
  | Some r => match r.(k_details) with JObj o => jlookup k o | _ => None end
  | None => None
  end.

(** [firewallPlanFor] *)
Definition firewallPlanFor (policies : list NetworkPolicy) : json :=
  JObj [("defaultAction", JStr "DENY"); ("rules", firewallRulesFor policies)].

(** [ORDER BY finalized_at DESC LIMIT 1]; a null sorts first. *)
Definition finalized_leb (a b : string * CommitRow) : bool :=
  match a.2.(pc_finalized), b.2.(pc_finalized) with
  | None, _ => true
  | Some _, None => false
  | Some x, Some y => y <=? x
  end.
Definition latestCommittedCommitId (db : Db) : option string :=
  fst <$> head (sort_by finalized_leb
    (List.filter (fun kv => bool_decide (kv.2.(pc_status) = COMMITTED)) (map_to_list db.(policy_commits)))).

Section service.
Context `{Coll : !Collation} (sha256 : string -> string).

Definition reconcile_payload (desired : DesiredStateRow) (activePolicies : list NetworkPolicy) : json :=
  desired_json (mkAgentDesired desired.(ds_revision) desired.(ds_routes) (firewallPlanFor activePolicies)
    desired.(ds_integrity)).

Definition routes_in_sync (desired : DesiredStateRow) (a : option AckRow) : bool :=
  match ack_field "status" a with
  | Some (JStr s) => String.eqb s "APPLIED" &&
      match js_number <$> ack_field "revision" a with
      | Some (Some n) => desired.(ds_revision) <=? n
      | _ => false
      end
  | _ => false
  end.

Definition checkRoutesAndIntegrity (node : MeshNode) (desired : DesiredStateRow) (activePolicies : list NetworkPolicy) :
    St Db DriftFinding :=
  let* a := gets (latestAcknowledgement node.(n_id) "RECONCILE") in
  if routes_in_sync desired a then mret (clean ROUTES_AND_INTEGRITY)
  else
    enqueue node.(n_id) "RECONCILE" (reconcile_payload desired activePolicies) 150 default_ttl ;;;
    mret (corrected ROUTES_AND_INTEGRITY "RECONCILE").

Definition dns_in_sync (desired : DesiredStateRow) (a : option AckRow) : bool :=
  match ack_field "servers" a with
  | Some applied => js_truthy (Some applied) && String.eqb (json_stringify applied) (json_stringify (jstrs desired.(ds_dns)))
  | None => false
  end.

Definition checkDns (node : MeshNode) (desired : DesiredStateRow) : St Db DriftFinding :=
  let* a := gets (latestAcknowledgement node.(n_id) "SET_DNS") in
  if dns_in_sync desired a then mret (clean DNS)
  else
    enqueue node.(n_id) "SET_DNS" (JObj [("servers", jstrs desired.(ds_dns))]) 150 default_ttl ;;;
    mret (corrected DNS "SET_DNS").

Definition kill_in_sync (desired : DesiredStateRow) (a : option AckRow) : bool :=
  match ack_field "enabled" a with Some (JBool b) => Bool.eqb b desired.(ds_kill_switch) | _ => false end.

Definition checkKillSwitch (node : MeshNode) (desired : DesiredStateRow) : St Db DriftFinding :=
  let* a := gets (latestAcknowledgement node.(n_id) "SET_KILL_SWITCH") in
  if kill_in_sync desired a then mret (clean KILL_SWITCH)
  else
    enqueue node.(n_id) "SET_KILL_SWITCH" (JObj [("enabled", JBool desired.(ds_kill_switch))]) 150 default_ttl ;;;
    mret (corrected KILL_SWITCH "SET_KILL_SWITCH").

(** A string equal to the one echoed back. *)
Definition echoes (k h : string) (a : option AckRow) : bool :=
  match ack_field k a with Some (JStr s) => String.eqb s h | _ => false end.

(** [relays] is what the relay source answers when the plan is compared,
    [relays'] when it is sent. *)
Definition checkPeerTopology (relays relays' : option (list RelayHealth)) (now : Date)
    (node : MeshNode) (allNodes : list MeshNode) : St Db DriftFinding :=
  let topologyHash := (planFor sha256 relays now None node allNodes).2 in
  let* a := gets (latestAcknowledgement node.(n_id) "APPLY_PEERS") in
  if echoes "topologyHash" topologyHash a then mret (clean PEER_TOPOLOGY)
  else
    mesh_reconcile sha256 relays' now None node allNodes ;;;
    mret (corrected PEER_TOPOLOGY "APPLY_PEERS").

Definition firewall_payload (commitId : option string) (activePolicies : list NetworkPolicy) : json := JObj
  [("commitId", match commitId with Some c => JStr c | None => JNull end); ("defaultAction", JStr "DENY");
   ("rules", firewallRulesFor activePolicies)].

Definition checkPolicyVersion (node : MeshNode) (activePolicies : list NetworkPolicy) : St Db DriftFinding :=
  let desiredHash := hash_json sha256 (firewallRulesFor activePolicies) in
  let* a := gets (latestAcknowledgement node.(n_id) "APPLY_FIREWALL") in
  if echoes "firewallHash" desiredHash a then mret (clean POLICY_VERSION)
  else
    let* commitId := gets latestCommittedCommitId in
    enqueue node.(n_id) "APPLY_FIREWALL" (firewall_payload commitId activePolicies) 150 default_ttl ;;;
    mret (corrected POLICY_VERSION "APPLY_FIREWALL").

Definition checkNode (relays relays' : option (list RelayHealth)) (now : Date) (nodeId : string) :
    St Db (list DriftFinding) :=
  let* n := gets (get_node nodeId) in
  match n with
  | None => throw (JsError ("node not found: " +:+ nodeId))
  | Some node =>
      let* d := gets (desired_get nodeId) in
      match d with
      | None => mret []
      | Some desired =>
          let* allNodes := gets list_nodes in
          let* activePolicies := gets listActive_policies in
          let* f1 := checkRoutesAndIntegrity node desired activePolicies in
          let* f2 := checkDns node desired in
          let* f3 := checkKillSwitch node desired in
          let* f4 := checkPeerTopology relays relays' now node allNodes in
          let* f5 := checkPolicyVersion node activePolicies in
          mret [f1; f2; f3; f4; f5]
      end
  end.

Fixpoint check_each (relays : option (list RelayHealth)) (now : Date) (ids : list string) :
    St Db (list (string * list DriftFinding)) :=
  match ids with
  | [] => mret []
  | id :: ids' =>
      let* r := checkNode relays relays now id in
      let* rs := check_each relays now ids' in
      mret ((id, r) :: rs)
  end.

Definition checkAll (relays : option (list RelayHealth)) (now : Date) : St Db (list (string * list DriftFinding)) :=
  let* states := gets desired_all in
  check_each relays now (map fst states).
End service.

(** ** The five checks have one shape *)

Definition all_dims : list DriftDimension := [ROUTES_AND_INTEGRITY; DNS; KILL_SWITCH; PEER_TOPOLOGY; POLICY_VERSION].
Definition dim_type (d : DriftDimension) : string :=
  match d with
  | ROUTES_AND_INTEGRITY => "RECONCILE" | DNS => "SET_DNS" | KILL_SWITCH => "SET_KILL_SWITCH"
  | PEER_TOPOLOGY => "APPLY_PEERS" | POLICY_VERSION => "APPLY_FIREWALL"
  end.
Definition dim_priority (d : DriftDimension) : Z := match d with PEER_TOPOLOGY => default_priority | _ => 150 end.

Lemma dim_type_inj d d' : dim_type d = dim_type d' -> d = d'.
Proof. by destruct d, d'. Qed.

(** What a check reads: all of it survives queueing and acknowledging. *)
Record world := mkWorld {
  w_nodes : gmap string MeshNode; w_devices : gmap string Device; w_policies : gmap string NetworkPolicy;
  w_grants : gmap string JitGrant; w_commits : gmap string CommitRow; w_desired : gmap string DesiredStateRow
}.
Definition world_of (db : Db) : world :=
  mkWorld db.(mesh_nodes) db.(devices) db.(network_policies) db.(jit_grants) db.(policy_commits) db.(node_desired_state).

Section shape.
Context `{Coll : !Collation} (sha256 : string -> string) (relays : option (list RelayHealth)) (now : Date).
Context (node : MeshNode) (desired : DesiredStateRow).

Definition dim_sync (d : DriftDimension) (db : Db) (a : option AckRow) : bool :=
  match d with
  | ROUTES_AND_INTEGRITY => routes_in_sync desired a
  | DNS => dns_in_sync desired a
  | KILL_SWITCH => kill_in_sync desired a
  | PEER_TOPOLOGY => echoes "topologyHash" (planFor sha256 relays now None node (list_nodes db)).2 a
  | POLICY_VERSION => echoes "firewallHash" (hash_json sha256 (firewallRulesFor (listActive_policies db))) a
  end.

Definition dim_payload (d : DriftDimension) (db : Db) : json :=
  match d with
  | ROUTES_AND_INTEGRITY => reconcile_payload desired (listActive_policies db)
  | DNS => JObj [("servers", jstrs desired.(ds_dns))]
  | KILL_SWITCH => JObj [("enabled", JBool desired.(ds_kill_switch))]
  | PEER_TOPOLOGY => JObj [("peers", applyPeersPayload (planFor sha256 relays now None node (list_nodes db)).1)]
  | POLICY_VERSION => firewall_payload (latestCommittedCommitId db) (listActive_policies db)
  end.

Definition latest (d : DriftDimension) (db : Db) : option AckRow := latestAcknowledgement node.(n_id) (dim_type d) db.
Definition finding (d : DriftDimension) (db : Db) : DriftFinding :=
  if dim_sync d db (latest d db) then clean d else corrected d (dim_type d).

Definition check_dim (d : DriftDimension) : St Db DriftFinding := fun db =>
  if dim_sync d db (latest d db) then (db, Ok (clean d))
  else (enqueue node.(n_id) (dim_type d) (dim_payload d db) (dim_priority d) default_ttl ;;;
        mret (corrected d (dim_type d))) db.

Fixpoint check_dims (ds : list DriftDimension) : St Db (list DriftFinding) :=
  match ds with
  | [] => mret []
  | d :: ds' =>
      let* f := check_dim d in
      let* fs := check_dims ds' in
      mret (f :: fs)
  end.

(** Queueing keeps the world, the clock and the acknowledgements. *)
Definition same_reads (db db' : Db) : Prop :=
  world_of db' = world_of db /\ db'.(command_acknowledgements) = db.(command_acknowledgements).

Lemma same_reads_nodes db db' : same_reads db db' -> list_nodes db' = list_nodes db.
Proof. intros [[= H1 _ _ _ _ _] _]. unfold list_nodes. by rewrite H1. Qed.
Lemma same_reads_policies db db' : same_reads db db' -> listActive_policies db' = listActive_policies db.
Proof. intros [[= _ _ H1 _ _ _] _]. unfold listActive_policies. by rewrite H1. Qed.

Lemma same_reads_latest d db db' : same_reads db db' -> latest d db' = latest d db.
Proof. intros [_ H1]. unfold latest, latestAcknowledgement. by rewrite H1. Qed.
Lemma same_reads_sync d db db' a : same_reads db db' -> dim_sync d db' a = dim_sync d db a.
Proof. intros Hs. destruct d; simpl; by rewrite ?(same_reads_nodes db db'), ?(same_reads_policies db db'). Qed.
Lemma same_reads_payload d db db' : same_reads db db' -> dim_payload d db' = dim_payload d db.
Proof.
  intros Hs. destruct d; simpl; rewrite ?(same_reads_nodes db db'), ?(same_reads_policies db db') by done; try done.
  destruct Hs as [[= _ _ _ _ H1 _] _]. unfold latestCommittedCommitId. by rewrite H1.
Qed.
Lemma same_reads_finding d db db' : same_reads db db' -> finding d db' = finding d db.
Proof. intros Hs. unfold finding. by rewrite (same_reads_latest d db db'), (same_reads_sync d db db'). Qed.

(** The correction of a dimension as it stands in the queue. *)
Definition is_correction (d : DriftDimension) (db : Db) (c : CommandRow) : Prop :=
  c.(c_node) = node.(n_id) /\ c.(c_type) = dim_type d /\ c.(c_payload) = jsonb (dim_payload d db) /\
  c.(c_not_before) = db.(pg_now) /\ c.(c_expires) = db.(pg_now) + default_ttl * minute /\ c.(c_acknowledged) = None.

Definition drifted (d : DriftDimension) (db : Db) : Prop := dim_sync d db (latest d db) = false.

Record checked (ds : list DriftDimension) (db db' : Db) (news : list CommandRow) : Prop := {
  ch_reads : same_reads db db'; ch_now : db'.(pg_now) = db.(pg_now); ch_queue : queue_ok db';
  ch_commands : db'.(controller_commands) = db.(controller_commands) ++ news;
  ch_sound : forall c, c ∈ news -> exists d, drifted d db /\ is_correction d db c;
  ch_complete : forall d, d ∈ ds -> drifted d db -> exists c, c ∈ news /\ is_correction d db c;
  ch_length : (length news <= length ds)%nat
}.

Lemma check_dims_run ds db :
  is_Some (db.(mesh_nodes) !! node.(n_id)) -> queue_ok db ->
  exists db' news, check_dims ds db = (db', Ok (map (fun d => finding d db) ds)) /\ checked ds db db' news.
Proof.
  revert db. induction ds as [|d ds IH]; intros db Hn Hq.
  { exists db, []. split; [done|]. split; try done; [by rewrite app_nil_r|set_solver|set_solver]. }
  simpl. destruct (dim_sync d db (latest d db)) eqn:Es.
  - assert (check_dim d db = (db, Ok (clean d))) as Ed by (unfold check_dim; by rewrite Es).
    rewrite (bind_ok _ _ _ _ _ Ed). destruct (IH db Hn Hq) as (db' & news & E & Hc).
    rewrite (bind_ok _ _ _ _ _ E). exists db', news.
    split; [unfold mret, St_ret; unfold finding at 2; by rewrite Es|].
    destruct Hc as [H1 H2 H3 H4 H5 H6 H7]. split; try done; [|simpl; lia].
    intros d' [->|Hd']%elem_of_cons; [unfold drifted; congruence|by apply H6].
  - set (c := new_command node.(n_id) (dim_type d) (dim_payload d db) (dim_priority d) default_ttl db).
    set (db1 := set_controller_commands (db.(controller_commands) ++ [c]) (set_uuid_next (db.(uuid_next) + 1) db)).
    assert (check_dim d db = (db1, Ok (corrected d (dim_type d)))) as Ed.
    { unfold check_dim. rewrite Es. by rewrite (bind_ok _ _ _ _ _ (enqueue_run _ _ _ _ _ db Hn)). }
    pose proof (enqueue_queue_ok node.(n_id) (dim_type d) (dim_payload d db) (dim_priority d) default_ttl db Hq) as Hq1.
    rewrite (enqueue_run _ _ _ _ _ db Hn) in Hq1. fold c in Hq1. fold db1 in Hq1.
    rewrite (bind_ok _ _ _ _ _ Ed). destruct (IH db1 Hn Hq1) as (db' & news & E & Hc).
    rewrite (bind_ok _ _ _ _ _ E). exists db', (c :: news).
    assert (same_reads db db1) as Hr by done.
    assert (finding d db = corrected d (dim_type d)) as -> by (unfold finding; by rewrite Es).
    rewrite (map_ext _ (fun d => finding d db)) by (intros; by apply same_reads_finding). split; [done|].
    destruct Hc as [H1 H2 H3 H4 H5 H6 H7].
    assert (forall d', drifted d' db1 <-> drifted d' db) as Hd.
    { intros d'. unfold drifted. by rewrite (same_reads_latest d' db db1), (same_reads_sync d' db db1). }
    assert (forall d' x, is_correction d' db1 x <-> is_correction d' db x) as Hx.
    { intros d' x. unfold is_correction. by rewrite (same_reads_payload d' db db1). }
    split; try done; [by rewrite H4; simpl; rewrite <- app_assoc| | |simpl; lia].
    + intros x [->|Hin]%elem_of_cons; [exists d; by split|]. destruct (H5 x Hin) as (d' & Ha & Hb).
      exists d'. by rewrite <- Hd, <- Hx.
    + intros d' [->|Hin]%elem_of_cons Hdr; [exists c; split; [left|done]|].
      destruct (H6 d' Hin ltac:(by apply Hd)) as (x & Ha & Hb). exists x. split; [by right|by apply Hx].
Qed.

Lemma check_dim_reads d db :
  is_Some (db.(mesh_nodes) !! node.(n_id)) -> same_reads db (check_dim d db).1.
Proof.
  intros Hn. unfold check_dim. destruct (dim_sync _ _ _); [done|].
  by rewrite (bind_ok _ _ _ _ _ (enqueue_run _ _ _ _ _ db Hn)).
Qed.

(** Each of the five functions is its dimension's check. *)
Lemma check_routes_dim y : checkRoutesAndIntegrity node desired (listActive_policies y) y = check_dim ROUTES_AND_INTEGRITY y.
Proof. unfold checkRoutesAndIntegrity, check_dim. simpl. unfold mbind at 1, St_bind at 1. simpl. by destruct (routes_in_sync _ _). Qed.
Lemma check_dns_dim y : checkDns node desired y = check_dim DNS y.
Proof. unfold checkDns, check_dim. simpl. unfold mbind at 1, St_bind at 1. simpl. by destruct (dns_in_sync _ _). Qed.
Lemma check_kill_dim y : checkKillSwitch node desired y = check_dim KILL_SWITCH y.
Proof. unfold checkKillSwitch, check_dim. simpl. unfold mbind at 1, St_bind at 1. simpl. by destruct (kill_in_sync _ _). Qed.
Lemma check_peers_dim y : checkPeerTopology sha256 relays relays now node (list_nodes y) y = check_dim PEER_TOPOLOGY y.
Proof.
  unfold checkPeerTopology, check_dim. change (mbind ?k (gets ?g) y) with (k (g y) y). cbn beta.
  unfold dim_sync, latest, dim_type. destruct (echoes _ _ _); [done|].
  unfold mesh_reconcile. destruct (planFor _ _ _ _ _ _) as [peers h] eqn:E. unfold dim_payload. rewrite E.
  unfold sink_configure, dim_priority, mbind, St_bind. by destruct (enqueue _ _ _ _ _ y) as [z [[]|e]].
Qed.
Lemma check_policy_dim y : checkPolicyVersion sha256 node (listActive_policies y) y = check_dim POLICY_VERSION y.
Proof.
  unfold checkPolicyVersion, check_dim. change (mbind ?k (gets ?g) y) with (k (g y) y). cbn beta.
  unfold dim_sync, latest, dim_type. by destruct (echoes _ _ _).
Qed.

(** [checkNode] is the five checks in order. *)
Lemma checkNode_dims nodeId db :
  get_node nodeId db = Some node -> desired_get nodeId db = Some desired ->
  is_Some (db.(mesh_nodes) !! node.(n_id)) ->
  checkNode sha256 relays relays now nodeId db = check_dims all_dims db.
Proof.
  intros Hg Hd Hn. unfold checkNode.
  do 4 (change (mbind ?k (gets ?g) db) with (k (g db) db); cbn beta; rewrite ?Hg, ?Hd).
  assert (forall d y, same_reads db y -> same_reads db (check_dim d y).1) as Hstep.
  { intros d y Hy. assert (is_Some (y.(mesh_nodes) !! node.(n_id))) as Hny by (destruct Hy as [[= -> _ _ _ _ _] _]; done).
    destruct (check_dim_reads d y Hny) as [H1 H2], Hy as [H3 H4]. by split; [rewrite H1|rewrite H2]. }
  simpl. unfold mbind, St_bind. rewrite check_routes_dim.
  pose proof (Hstep ROUTES_AND_INTEGRITY db ltac:(done)) as R1.
  destruct (check_dim ROUTES_AND_INTEGRITY db) as [y1 [f1|e]]; [|done]. simpl in R1. rewrite check_dns_dim.
  pose proof (Hstep DNS y1 R1) as R2. destruct (check_dim DNS y1) as [y2 [f2|e]]; [|done]. simpl in R2. rewrite check_kill_dim.
  pose proof (Hstep KILL_SWITCH y2 R2) as R3. destruct (check_dim KILL_SWITCH y2) as [y3 [f3|e]]; [|done]. simpl in R3.
  rewrite <- (same_reads_nodes db y3 R3), check_peers_dim.
  pose proof (Hstep PEER_TOPOLOGY y3 R3) as R4. destruct (check_dim PEER_TOPOLOGY y3) as [y4 [f4|e]]; [|done]. simpl in R4.
  rewrite <- (same_reads_policies db y4 R4), check_policy_dim.
  by destruct (check_dim POLICY_VERSION y4) as [y5 [f5|e]].
Qed.
End shape.

(** ** The agent's side *)

Lemma mapM_Some {A B} (f : A -> json) (g : json -> option B) (h : A -> B) l :
  (forall x, g (f x) = Some (h x)) -> mapM g (map f l) = Some (map h l).
Proof. intros H. induction l as [|x l IH]; [done|]. simpl. rewrite H. simpl. by rewrite IH. Qed.

(** What a queued RECONCILE command is read as: the integrity files in the
    order of the column, everything else as it was sent. *)
Lemma route_roundtrip r : route_of_json (jsonb (route_json r)) = Some r.
Proof. destruct r as [d [g|] i m]; done. Qed.

Lemma strings_roundtrip fs :
  strings_of_json (map (fun kv => (kv.1, JStr kv.2)) fs) = Some fs.
Proof. unfold strings_of_json. induction fs as [|[k v] fs IH]; [done|]. simpl. by rewrite IH. Qed.

Lemma jsonb_strings fs :
  jsonb_members (map (fun kv => (kv.1, JStr kv.2)) fs) = map (fun kv => (kv.1, JStr kv.2)) (sort_by jsonb_leb fs).
Proof.
  unfold jsonb_members. rewrite map_map. simpl.
  assert (forall (x : string * string) l, sort_insert jsonb_leb (x.1, JStr x.2) (map (fun kv => (kv.1, JStr kv.2)) l)
    = map (fun kv => (kv.1, JStr kv.2)) (sort_insert jsonb_leb x l)) as Hi.
  { intros x l. induction l as [|y l IH]; [done|]. simpl. unfold jsonb_leb at 1 3. simpl.
    case_match; [done|]. simpl. by rewrite IH. }
  induction fs as [|x fs IH]; [done|]. simpl. by rewrite IH, Hi.
Qed.

Lemma desired_roundtrip d :
  desired_of_json (jsonb (desired_json d))
  = Some (mkAgentDesired d.(ad_revision) d.(ad_routes) (jsonb d.(ad_firewallPlan)) (sort_by jsonb_leb d.(ad_integrityFiles))).
Proof.
  destruct d as [n rs plan fs]. unfold desired_of_json, desired_json.
  change (jsonb (JObj ?l)) with (JObj (jsonb_members l)). cbn -[jsonb_members].
  rewrite !jlookup_jsonb. cbn -[jsonb_members jsonb].
  change (jsonb (routes_json rs)) with (JArr (map jsonb (map route_json rs))).
  change (jsonb (JObj ?l)) with (JObj (jsonb_members l)). cbn -[jsonb_members jsonb].
  rewrite map_map, (mapM_Some (fun r => jsonb (route_json r)) route_of_json id rs) by (intros; apply route_roundtrip).
  by rewrite map_id, jsonb_strings, strings_roundtrip.
Qed.

Lemma jsonb_jstrs l : jsonb (jstrs l) = jstrs l.
Proof. unfold jstrs. simpl. rewrite map_map. done. Qed.

(** Both hashes are over [canonicalJson], so neither sees the order of keys the
    column gives the payload. *)
Lemma hash_jsonb `{Coll : !Collation} sha256 v : json_wf v = true -> hash_json sha256 (jsonb v) = hash_json sha256 v.
Proof. intros W. unfold hash_json. by rewrite canonicalJson_jsonb. Qed.

Lemma jstrs_wf l : json_wf (jstrs l) = true.
Proof. unfold jstrs. simpl. by induction l. Qed.

Lemma applyPeersPayload_wf peers : json_wf (applyPeersPayload peers) = true.
Proof.
  simpl. apply forallb_Forall, Forall_fmap, Forall_forall. intros [n k e ips ka re] _. unfold peer_payload.
  destruct (truthy_opt e) eqn:E, e; cbn -[jstrs truthy_opt]; rewrite ?E; cbn -[jstrs]; by rewrite jstrs_wf.
Qed.

Lemma firewallRulesFor_wf policies : json_wf (firewallRulesFor policies) = true.
Proof.
  simpl. apply forallb_Forall, Forall_fmap, Forall_forall. intros p _. simpl.
  rewrite !andb_true_r. repeat (apply andb_true_iff; split); try apply jstrs_wf; try done.
  by induction (destinationPorts p).
Qed.

(** The queue as the agent's controller: the commands of its heartbeat and its
    acknowledgements. *)
Definition queue_controller (nodeId : string) : AgentController Db :=
  {| ctl_heartbeat := fun _ => gets (pending nodeId 20); ctl_acknowledge := acknowledge |}.

Section loop.
Context `{Coll : !Collation} (sha256 : string -> string) (relays : option (list RelayHealth)) (now : Date).
Context (agent_now : Date) (node : MeshNode) (desired : DesiredStateRow).
Context {P : Type} `{!PlatformAdapter P} (good : P -> Prop).

(** A machine in working order: what the corrections ask of it succeeds, and
    its integrity files are as they should be. *)
Record working : Prop := {
  ok_kill b p : good p -> exists p', setKillSwitch b p = (p', Ok tt) /\ good p';
  ok_dns v p : good p -> exists p', setDns v p = (p', Ok tt) /\ good p';
  ok_peers v p : good p -> exists p', applyPeers v p = (p', Ok tt) /\ good p';
  ok_firewall v p : good p -> exists p', applyFirewall v p = (p', Ok tt) /\ good p';
  ok_plan v p : good p -> exists p', applyFirewallPlan v p = (p', Ok tt) /\ good p';
  ok_replace rs p : good p -> exists p', replaceRoutes rs p = (p', Ok tt) /\ good p';
  ok_routes p : good p -> exists p' rs, readRoutes p = (p', Ok rs) /\ good p';
  ok_files f p : good p -> f ∈ desired.(ds_integrity) -> exists p', readFileHash f.1 p = (p', Ok f.2) /\ good p'
}.
Context (works : working).

(** The agent has applied no revision above the desired one. *)
Definition ready (a : Agent P) : Prop := good (ag_platform a) /\ ag_revision a <= desired.(ds_revision).

Lemma on_platform_ready {A} (m : St P A) (x : A) a :
  (forall p, good p -> exists p', m p = (p', Ok x) /\ good p') -> ready a ->
  exists a', on_platform m a = (a', Ok x) /\ ready a'.
Proof.
  intros Hm [Hg Hr]. destruct a as [p n]. simpl in *. destruct (Hm p Hg) as (p' & E & Hg').
  exists (mkAgent p' n). unfold on_platform. simpl. by rewrite E.
Qed.

Lemma check_files_ready fs a :
  (forall f, f ∈ fs -> f ∈ desired.(ds_integrity)) -> ready a ->
  exists a', for_each fs check_file a = (a', Ok tt) /\ ready a'.
Proof using works.
  intros Hfs Ha. apply for_each_inv; [done|]. intros f a1 Hf Ha1.
  destruct (on_platform_ready (readFileHash f.1) f.2 a1) as (a2 & E & Ha2); [|done|].
  { intros p Hp. apply (ok_files works); [done|by apply Hfs]. }
  exists a2. unfold check_file. rewrite (bind_ok _ _ _ _ _ E). by rewrite String.eqb_refl.
Qed.

Lemma reconcile_ready plan a : ready a ->
  exists a', reconcile sha256 (mkAgentDesired desired.(ds_revision) desired.(ds_routes) plan (sort_by jsonb_leb desired.(ds_integrity))) a
    = (a', Ok (APPLIED, desired.(ds_revision))) /\ ready a'.
Proof using works.
  intros Ha. unfold reconcile. change (mbind ?k (gets ?g) a) with (k (g a) a). cbn beta. simpl ad_revision.
  rewrite (proj2 (Z.ltb_ge _ _)) by apply Ha.
  destruct (check_files_ready (sort_by jsonb_leb desired.(ds_integrity)) a) as (a1 & E1 & H1);
    [intros f; by rewrite elem_of_sort_by|done|].
  rewrite (bind_ok _ _ _ _ _ E1). destruct a1 as [p1 n1]. destruct H1 as [Hg1 Hr1]. simpl in *.
  destruct (ok_routes works p1 Hg1) as (p2 & rs & E2 & Hg2).
  assert (on_platform readRoutes (mkAgent p1 n1) = (mkAgent p2 n1, Ok rs)) as E2' by (unfold on_platform; simpl; by rewrite E2).
  rewrite (bind_ok _ _ _ _ _ E2').
  set (m := if String.eqb _ _ then _ else _).
  assert (exists a3, m (mkAgent p2 n1) = (a3, Ok tt) /\ ready a3) as (a3 & E3 & H3).
  { unfold m. destruct (String.eqb _ _); [by eexists|].
    apply on_platform_ready; [|done]. intros p Hp. by apply (ok_replace works). }
  rewrite (bind_ok _ _ _ _ _ E3).
  destruct (on_platform_ready (applyFirewallPlan plan) tt a3) as (a4 & E4 & H4); [|done|].
  { intros p Hp. by apply (ok_plan works). }
  rewrite (bind_ok _ _ _ _ _ E4). eexists. split; [reflexivity|]. split; [apply H4|simpl; lia].
Qed.

(** What a correction is acknowledged with. *)
Definition echo (d : DriftDimension) (db : Db) : list (string * json) := okAt agent_now ++
  match d with
  | ROUTES_AND_INTEGRITY => [("status", JStr "APPLIED"); ("revision", JNum desired.(ds_revision))]
  | DNS => [("servers", jstrs desired.(ds_dns))]
  | KILL_SWITCH => [("enabled", JBool desired.(ds_kill_switch))]
  | PEER_TOPOLOGY => [("topologyHash", JStr (planFor sha256 relays now None node (list_nodes db)).2)]
  | POLICY_VERSION =>
      [("commitId", match latestCommittedCommitId db with Some c => JStr c | None => JNull end);
       ("firewallHash", JStr (hash_json sha256 (firewallRulesFor (listActive_policies db))))]
  end.

Lemma echo_in_sync d db k : k.(k_details) = jsonb (JObj (echo d db)) -> dim_sync sha256 relays now node desired d db (Some k) = true.
Proof using.
  intros E. destruct d; simpl; unfold routes_in_sync, dns_in_sync, kill_in_sync, echoes, ack_field; rewrite E;
    change (jsonb (JObj ?l)) with (JObj (jsonb_members l)); cbn iota; rewrite ?jlookup_jsonb; cbn -[jstrs jsonb hash_json planFor firewallRulesFor json_stringify]; cbn [jsonb].
  - simpl; by rewrite Z.leb_refl.
  - by rewrite jsonb_jstrs, String.eqb_refl.
  - by destruct (ds_kill_switch desired).
  - by rewrite String.eqb_refl.
  - by rewrite String.eqb_refl.
Qed.

Notation exec := (@execute P Db PlatformAdapter0 (queue_controller node.(n_id)) Coll sha256 node.(n_id) true None None ("", "") agent_now).

Lemma at_agent_run {A} (m : St (Agent P) A) (db : Db) a a' r : m a = (a', r) -> at_agent m (db, a) = ((db, a'), r).
Proof. intros E. unfold at_agent. by rewrite E. Qed.

Lemma ack_run id r (db db' : Db) (a : Agent P) :
  acknowledge id (JObj r) db = (db', Ok tt) ->
  @ack P Db (queue_controller node.(n_id)) id r (db, a) = ((db', a), Ok tt).
Proof. intros E. unfold ack, at_controller, ctl_acknowledge, queue_controller. by rewrite E. Qed.

(** Executing a correction is acknowledging it with its echo. *)
Lemma execute_correction d q db0 db db' a :
  q.(q_type) = dim_type d -> q.(q_payload) = jsonb (dim_payload sha256 relays now node desired d db0) -> ready a ->
  acknowledge q.(q_id) (JObj (echo d db0)) db = (db', Ok tt) ->
  exists a', exec q (db, a) = ((db', a'), Ok tt) /\ ready a'.
Proof using works.
  intros Et Ep Ha Hack. unfold execute, try_catch.
  enough (exists a', @execute_type P Db PlatformAdapter0 (queue_controller node.(n_id)) Coll sha256 node.(n_id) true None None ("", "") agent_now q (db, a)
    = ((db', a'), Ok tt) /\ ready a') as (a' & -> & ?) by eauto.
  assert (forall m : St P unit, (forall p, good p -> exists p', m p = (p', Ok tt) /\ good p') ->
    exists a', platform (C := Db) m (db, a) = ((db, a'), Ok tt) /\ ready a') as Hp.
  { intros m Hm. destruct (on_platform_ready m tt a Hm Ha) as (a' & E & H). exists a'. split; [by apply at_agent_run|done]. }
  assert (forall k o, field (P := P) (C := Db) k (jsonb (JObj o)) = mret (jsonb <$> jlookup k o)) as Hf.
  { intros k o. unfold field. change (jsonb (JObj o)) with (JObj (jsonb_members o)). simpl. by rewrite jlookup_jsonb. }
  unfold execute_type. rewrite Et, Ep.
  destruct d; cbn -[acknowledge mbind mret echo platform reconcile_command jsonb field applyPeersPayload planFor hash_json reconcile_payload firewall_payload].
  - destruct (reconcile_ready (jsonb (firewallPlanFor (listActive_policies db0))) a Ha) as (a' & E & H).
    assert (reconcile_command sha256 (jsonb (reconcile_payload desired (listActive_policies db0))) a
      = (a', Ok (APPLIED, desired.(ds_revision)))) as E0 by (erewrite reconcile_command_typed by apply desired_roundtrip; exact E).
    rewrite (bind_ok _ _ _ _ _ (at_agent_run _ db _ _ _ E0)). exists a'. split; [by apply ack_run|done].
  - destruct (Hp (setDns (jstrs desired.(ds_dns)))) as (a' & E & H); [intros; by apply (ok_dns works)|].
    rewrite Hf. erewrite bind_ok by reflexivity. cbn -[acknowledge mbind mret echo platform jsonb]. rewrite jsonb_jstrs.
    rewrite (bind_ok _ _ _ _ _ E). exists a'. split; [by apply ack_run|done].
  - destruct (Hp (setKillSwitch desired.(ds_kill_switch))) as (a' & E & H); [intros; by apply (ok_kill works)|].
    rewrite Hf. erewrite bind_ok by reflexivity. simpl js_truthy.
    replace (if ds_kill_switch desired then true else false) with (ds_kill_switch desired) by (by destruct (ds_kill_switch desired)).
    rewrite (bind_ok _ _ _ _ _ E). exists a'. split; [by apply ack_run|done].
  - destruct (Hp (applyPeers (jsonb (applyPeersPayload (planFor sha256 relays now None node (list_nodes db0)).1))))
      as (a' & E & H); [intros; by apply (ok_peers works)|].
    rewrite Hf. erewrite bind_ok by reflexivity. simpl default. rewrite (bind_ok _ _ _ _ _ E).
    cbn -[jsonb applyPeersPayload planFor hash_json ack]. rewrite hash_jsonb by apply applyPeersPayload_wf. exists a'. split; [by apply ack_run|done].
  - unfold firewall_payload. rewrite !Hf.
    destruct (Hp (applyFirewall (jsonb (firewall_payload (latestCommittedCommitId db0) (listActive_policies db0))))) as (a' & E & H); [intros; by apply (ok_firewall works)|].
    rewrite (bind_ok _ _ _ _ _ E). do 2 erewrite bind_ok by reflexivity.
    exists a'. split; [|done]. apply ack_run. rewrite <- Hack. do 2 f_equal.
    cbn -[jsonb firewallRulesFor hash_json jdate]. rewrite <- (hash_jsonb _ (firewallRulesFor _)) by apply firewallRulesFor_wf.
    by destruct (latestCommittedCommitId db0).
Qed.

(** ** A turn of the agent *)

Definition is_echo (t : Date) (db0 : Db) (k : AckRow) : Prop := exists d,
  k.(k_node) = node.(n_id) /\ k.(k_type) = dim_type d /\ k.(k_acknowledged) = t /\
  k.(k_status) = "SUCCEEDED" /\ k.(k_details) = jsonb (JObj (echo d db0)).

(** The command is in the queue, waiting, and is the correction of a dimension. *)
Definition waits (db0 db : Db) (q : QueuedCommand) : Prop := exists c d,
  c ∈ db.(controller_commands) /\ c.(c_id) = q.(q_id) /\ c.(c_acknowledged) = None /\
  c.(c_node) = node.(n_id) /\ c.(c_type) = q.(q_type) /\ q.(q_type) = dim_type d /\
  q.(q_payload) = jsonb (dim_payload sha256 relays now node desired d db0).

Record answered (db0 db db' : Db) (l : list QueuedCommand) (new : list AckRow) : Prop := {
  an_world : world_of db' = world_of db;
  an_acks : db'.(command_acknowledgements) = db.(command_acknowledgements) ++ new;
  an_echo : Forall (is_echo db.(pg_now) db0) new;
  an_all : forall q, q ∈ l -> exists k, k ∈ new /\ k.(k_type) = q.(q_type)
}.

Lemma execute_all db0 l : forall db a,
  queue_ok db -> ready a -> NoDup (map q_id l) -> (forall q, q ∈ l -> waits db0 db q) ->
  exists db' a' new, for_each l exec (db, a) = ((db', a'), Ok tt) /\ answered db0 db db' l new.
Proof using works.
  induction l as [|q l IH]; intros db a Hq Ha Hnd Hw.
  { exists db, a, []. split; [done|]. split; [done|by rewrite app_nil_r|constructor|set_solver]. }
  apply NoDup_cons in Hnd as [Hfresh Hnd].
  destruct (Hw q ltac:(left)) as (c & d & Hc & Hid & Hna & Hnode & Hct & Het & Hep).
  pose proof (acknowledge_run q.(q_id) (JObj (echo d db0)) (Some (jsonb (JObj (echo d db0)))) db c eq_refl Hq Hc Hid Hna) as Hack.
  pose proof (acknowledge_queue_ok q.(q_id) (JObj (echo d db0)) (Some (jsonb (JObj (echo d db0)))) db c eq_refl Hq Hc Hid Hna) as Hq1. rewrite Hack in Hq1. simpl in Hq1.
  destruct (execute_correction d q db0 db _ a Het Hep Ha Hack) as (a1 & E1 & Ha1).
  match type of Hack with _ = (?x, _) => set (db1 := x) in * end.
  destruct (IH db1 a1 Hq1 Ha1 Hnd) as (db' & a' & new & E & [H1 H2 H3 H4]).
  { intros q' Hq'. destruct (Hw q' ltac:(by right)) as (c' & d' & Hc' & Hid' & Hna' & Hr).
    exists c', d'. split_and!; try done; try apply Hr. simpl. apply elem_of_List_map. exists c'. split; [|done].
    unfold mark_acknowledged. rewrite (proj2 (String.eqb_neq _ _)); [done|]. rewrite Hid'. intros E.
    apply Hfresh. rewrite <- E. by apply elem_of_List_map; eauto. }
  exists db', a', (mkAck q.(q_id) c.(c_node) c.(c_type) c.(c_issued) db.(pg_now) "SUCCEEDED" (jsonb (JObj (echo d db0))) :: new).
  split; [cbn [for_each]; by rewrite (bind_ok _ _ _ _ _ E1)|]. split.
  - by rewrite H1.
  - rewrite H2. simpl. by rewrite <- app_assoc.
  - constructor; [|done]. exists d. simpl. rewrite Hct. done.
  - intros q' [->|Hq']%elem_of_cons; [eexists; split; [left|done]|].
    destruct (H4 q' Hq') as (k & ? & ?). exists k. split; [by right|done].
Qed.

(** The latest acknowledgement of a type after the turn. *)
Lemma latest_after (db0 db : Db) (old new : list AckRow) t d :
  db.(command_acknowledgements) = old ++ new ->
  (forall k, k ∈ old -> k.(k_acknowledged) < t) -> Forall (is_echo t db0) new ->
  (exists k, k ∈ new /\ k.(k_type) = dim_type d) ->
  exists k, latest node d db = Some k /\ k.(k_details) = jsonb (JObj (echo d db0)).
Proof using.
  clear works. clear good. intros Hacks Hold Hnew (k & Hk & Hkt). unfold latest, latestAcknowledgement. rewrite Hacks.
  match goal with |- context [sort_by ?f (List.filter ?g _)] => set (leb := f); set (p := g) end.
  assert (forall x y : AckRow, leb x y = true \/ leb y x = true) as Ht by (intros; unfold leb; rewrite !Z.leb_le; lia).
  assert (forall x y z : AckRow, leb x y = true -> leb y z = true -> leb x z = true) as Htr
    by (intros x y z; unfold leb; rewrite !Z.leb_le; lia).
  rewrite Forall_forall in Hnew.
  assert (k ∈ List.filter p (old ++ new)) as Hin.
  { apply elem_of_List_filter. split; [apply elem_of_app; by right|].
    destruct (Hnew k Hk) as (d' & E1 & E2 & E3 & E4 & E5). unfold p. by rewrite E1, Hkt, E4, !String.eqb_refl. }
  pose proof (sort_by_sorted leb Ht Htr (List.filter p (old ++ new))) as Hs.
  rewrite <- (elem_of_sort_by leb) in Hin.
  destruct (sort_by leb (List.filter p (old ++ new))) as [|x s] eqn:E; [set_solver|].
  exists x. split; [done|].
  assert (x ∈ List.filter p (old ++ new)) as Hx by (rewrite <- (elem_of_sort_by leb), E; left).
  assert (k.(k_acknowledged) <= x.(k_acknowledged)) as Hle.
  { inversion Hs as [|? ? _ Hall]; subst. rewrite Forall_forall in Hall.
    apply elem_of_cons in Hin as [->|Hin]; [done|]. specialize (Hall k Hin). unfold leb in Hall. by bools. }
  apply elem_of_List_filter in Hx as [Hx Hp]. apply elem_of_app in Hx as [Hx|Hx].
  - destruct (Hnew k Hk) as (? & _ & _ & E3 & _). specialize (Hold x Hx). lia.
  - destruct (Hnew x Hx) as (d' & _ & E2 & _ & _ & E5). unfold p in Hp. bools.
    assert (d' = d) as -> by (apply dim_type_inj; congruence). done.
Qed.

Lemma latest_unchanged (db db' : Db) new d :
  db'.(command_acknowledgements) = db.(command_acknowledgements) ++ new ->
  (forall k, k ∈ new -> k.(k_type) <> dim_type d) -> latest node d db' = latest node d db.
Proof using.
  intros Hacks Hno. unfold latest, latestAcknowledgement. rewrite Hacks, List.filter_app. clear Hacks.
  match goal with |- context [_ ++ List.filter ?p new] => assert (List.filter p new = []) as -> end; [|by rewrite app_nil_r].
  induction new as [|k new IH]; [done|]. simpl.
  rewrite (proj2 (String.eqb_neq (k_type k) (dim_type d))); [|apply Hno; left].
  rewrite andb_false_r. simpl. apply IH. intros; apply Hno; by right.
Qed.

Lemma check_dims_clean ds db :
  (forall d, d ∈ ds -> dim_sync sha256 relays now node desired d db (latest node d db) = true) ->
  check_dims sha256 relays now node desired ds db = (db, Ok (map clean ds)).
Proof using.
  induction ds as [|d ds IH]; intros H; [done|]. simpl.
  assert (check_dim sha256 relays now node desired d db = (db, Ok (clean d))) as E
    by (unfold check_dim; by rewrite H by left).
  rewrite (bind_ok _ _ _ _ _ E), (bind_ok _ _ _ _ _ (IH ltac:(intros; apply H; by right))). done.
Qed.

(** ** Convergence *)

(** What is waiting for the node after a check that found none waiting. *)
Lemma pending_after ds (db db1 : Db) news t :
  checked sha256 relays now node desired ds db db1 news -> (length ds <= 20)%nat ->
  (forall c, c ∈ db.(controller_commands) -> c.(c_node) = node.(n_id) -> live db.(pg_now) c = false) ->
  db.(pg_now) <= t < db.(pg_now) + default_ttl * minute ->
  pending_rows node.(n_id) 20 (set_pg_now t db1) ≡ₚ news.
Proof using.
  intros [H1 H2 H3 H4 H5 H6 H7] Hl Hno Ht. unfold pending_rows. simpl. rewrite H4, List.filter_app.
  assert (List.filter (deliverable node.(n_id) t) (controller_commands db) = []) as ->.
  { clear H4. induction (controller_commands db) as [|c cs IH]; [done|]. simpl.
    destruct (deliverable (n_id node) t c) eqn:E; [|apply IH; intros; apply Hno; [by right|done]].
    unfold deliverable, live in E. bools. specialize (Hno c ltac:(left) ltac:(done)). unfold live in Hno.
    apply andb_false_iff in Hno as [Hno|Hno]; bools; [done|lia]. }
  assert (List.filter (deliverable node.(n_id) t) news = news) as ->.
  { apply forallb_filter_id. apply forallb_Forall, Forall_forall. intros c Hc.
    destruct (H5 c Hc) as (d & _ & E1 & _ & _ & E4 & E5 & E6). unfold deliverable, live.
    rewrite E1, E4, E5, E6, String.eqb_refl. simpl. apply andb_true_iff. split; [apply Z.ltb_lt|apply Z.leb_le]; lia. }
  simpl. rewrite take_ge; [apply sort_by_perm|]. rewrite length_sort_by. lia.
Qed.

Lemma pending_waits ds (db db1 : Db) news t q :
  checked sha256 relays now node desired ds db db1 news ->
  pending_rows node.(n_id) 20 (set_pg_now t db1) ≡ₚ news ->
  q ∈ pending node.(n_id) 20 (set_pg_now t db1) -> waits db (set_pg_now t db1) q.
Proof using.
  intros [H1 H2 H3 H4 H5 H6 H7] Hp (c & -> & Hc)%elem_of_List_map. rewrite Hp in Hc.
  destruct (H5 c Hc) as (d & _ & E1 & E2 & E3 & E4 & E5 & E6). exists c, d. simpl.
  split_and!; try done. rewrite H4. apply elem_of_app. by right.
Qed.

Lemma pending_nodup ds (db db1 : Db) news t :
  checked sha256 relays now node desired ds db db1 news ->
  pending_rows node.(n_id) 20 (set_pg_now t db1) ≡ₚ news ->
  NoDup (map q_id (pending node.(n_id) 20 (set_pg_now t db1))).
Proof using.
  intros [H1 H2 [H3 _ _] H4 H5 H6 H7] Hp. unfold pending. rewrite map_map. simpl.
  rewrite H4, map_app in H3. apply NoDup_app in H3 as (_ & _ & H3).
  change (NoDup (c_id <$> pending_rows (n_id node) 20 (set_pg_now t db1))). by rewrite Hp.
Qed.
End loop.

(** C5: Drift correction converges in one round.  A check of a node none of
    whose commands is waiting, followed within the commands' hour by one turn
    of an agent whose machine is in working order and which has not applied a
    later revision, leaves nothing to correct: the turn returns, and the next
    check finds all five dimensions in sync and queues nothing.  The commands and
    the acknowledgements pass through [jsonb] columns, which reorder the keys the
    two sides hash. *)
Theorem reconciliation_converges `{Coll : !Collation} (sha256 : string -> string)
    (relays : option (list RelayHealth)) (now agent_now : Date) (node : MeshNode) (desired : DesiredStateRow)
    {P : Type} `{!PlatformAdapter P} (good : P -> Prop) (nodeId : string) (db0 : Db) (t : Date) (a : Agent P) :
  working desired good -> ready desired good a ->
  get_node nodeId db0 = Some node -> desired_get nodeId db0 = Some desired ->
  is_Some (db0.(mesh_nodes) !! node.(n_id)) -> queue_ok db0 ->
  (forall c, c ∈ db0.(controller_commands) -> c.(c_node) = node.(n_id) -> live db0.(pg_now) c = false) ->
  (forall k, k ∈ db0.(command_acknowledgements) -> k.(k_acknowledged) < t) ->
  db0.(pg_now) <= t < db0.(pg_now) + default_ttl * minute ->
  let db1 := set_pg_now t (checkNode sha256 relays relays now nodeId db0).1 in
  exists db2 a',
    for_each (pending node.(n_id) 20 db1)
      (@execute P Db _ (queue_controller node.(n_id)) Coll sha256 node.(n_id) true None None ("", "") agent_now) (db1, a)
      = ((db2, a'), Ok tt) /\
    checkNode sha256 relays relays now nodeId db2 = (db2, Ok (map clean all_dims)).
Proof.
  intros Hw Ha Hg Hd Hn Hq Hno Hold Ht db1.
  destruct (check_dims_run sha256 relays now node desired all_dims db0 Hn Hq) as (db1' & news & Ec & Hch).
  assert (db1 = set_pg_now t db1') as -> by (unfold db1; rewrite (checkNode_dims _ _ _ node desired) by done; by rewrite Ec).
  pose proof (pending_after sha256 relays now node desired all_dims db0 db1' news t Hch ltac:(simpl; lia) Hno Ht) as Hp.
  destruct (execute_all sha256 relays now agent_now node desired good Hw db0 (pending node.(n_id) 20 (set_pg_now t db1')) (set_pg_now t db1') a)
    as (db2 & a' & new & Ex & [Hworld Hacks Hecho Hall]).
  { destruct (ch_queue _ _ _ _ _ _ _ _ _ Hch). by constructor. }
  { done. }
  { by eapply pending_nodup. }
  { intros q Hqp. by eapply pending_waits. }
  exists db2, a'. split; [done|].
  destruct (ch_reads _ _ _ _ _ _ _ _ _ Hch) as [Hw1 Ha1].
  assert (world_of db2 = world_of db0) as Hw2 by (rewrite Hworld; exact Hw1).
  assert (forall d k, dim_sync sha256 relays now node desired d db2 k = dim_sync sha256 relays now node desired d db0 k) as Hsync.
  { intros d k. injection Hw2 as E1 E2 E3 E4 E5 E6. destruct d; simpl; unfold list_nodes, listActive_policies; by rewrite ?E1, ?E3. }
  simpl in Hacks, Hecho. rewrite Ha1 in Hacks.
  rewrite (checkNode_dims _ _ _ node desired).
  - apply check_dims_clean. intros d Hdin. rewrite Hsync.
    destruct (dim_sync sha256 relays now node desired d db0 (latest node d db0)) eqn:Es.
    + destruct (existsb (fun k => String.eqb k.(k_type) (dim_type d)) new) eqn:Ex2.
      * apply existsb_elem in Ex2 as (k & Hk & E). bools.
        destruct (latest_after sha256 relays now agent_now node desired db0 db2 _ new t d Hacks Hold Hecho) as (k' & -> & Hk'); [by eauto|].
        by eapply echo_in_sync.
      * rewrite existsb_elem_false in Ex2. rewrite (latest_unchanged node db0 db2 new d); [done|done|].
        intros k Hk E. specialize (Ex2 k Hk). bools. done.
    + destruct (ch_complete _ _ _ _ _ _ _ _ _ Hch d Hdin Es) as (c & Hc & _ & Ect & _).
      rewrite <- Hp in Hc.
      destruct (Hall {| q_id := c.(c_id); q_type := c.(c_type); q_payload := c.(c_payload) |}) as (k & Hk & Ekt).
      { apply elem_of_List_map. by exists c. }
      destruct (latest_after sha256 relays now agent_now node desired db0 db2 _ new t d Hacks Hold Hecho) as (k' & -> & Hk');
        [exists k; split; [done|by rewrite Ekt]|].
      by eapply echo_in_sync.
  - injection Hw2 as E1 E2 E3 E4 E5 E6. unfold get_node, repo_get in *. by rewrite E1, E2, E3, E4.
  - injection Hw2 as E1 E2 E3 E4 E5 E6. unfold desired_get in *. by rewrite E6.
  - injection Hw2 as E1 E2 E3 E4 E5 E6. by rewrite E1.
Qed.

Definition sample_desired : DesiredStateRow :=
  mkDesired 4 [good_route] ["10.144.0.53"] true [("/bin/agent", "abc")] 0 None.
Definition drifting_db : Db := set_node_desired_state {["n1" := sample_desired]} sample_db.
Definition sample_n1 : MeshNode := node (sample_node "n1" "d1" "key1" "10.144.0.1").
Definition intact_machine (m : Machine) : Prop := m.(m_files) !! "/bin/agent" = Some "abc".

Lemma machine_working : working sample_desired intact_machine.
Proof.
  split; simpl; try (intros; eexists; split; [reflexivity|assumption]).
  - intros p Hp. by eexists _, _.
  - intros f p Hp Hf. apply list_elem_of_singleton in Hf as ->. simpl. unfold intact_machine in Hp. rewrite Hp. eauto.
Qed.

Lemma reconciliation_converges_witness :
  let db1 := set_pg_now 5000 (checkNode (Coll := code_point_collation) (fun x => x) None None 0 "n1" drifting_db).1 in
  exists db2 a',
    for_each (pending "n1" 20 db1)
      (@execute Machine Db _ (queue_controller "n1") code_point_collation (fun x => x) "n1" true None None ("", "") 0) (db1, tampered)
      = ((db2, a'), Ok tt) /\
    checkNode (Coll := code_point_collation) (fun x => x) None None 0 "n1" db2 = (db2, Ok (map clean all_dims)).
Proof.
  apply (reconciliation_converges (Coll := code_point_collation) (fun x => x) None 0 0 sample_n1 sample_desired intact_machine "n1" drifting_db 5000 tampered).
  - apply machine_working.
  - split; [reflexivity|simpl; lia].
  - vm_compute. reflexivity.
  - vm_compute. reflexivity.
  - vm_compute. by eexists.
  - constructor; simpl; [constructor|intros c Hc; inversion Hc..].
  - intros c Hc. inversion Hc.
  - intros k Hk. inversion Hk.
  - vm_compute. split; [discriminate|reflexivity].
Defined.
