(* ===== verification/Dns.v ===== *)
(** * Protective DNS

    [DnsProtectionService] ([src/src/application/dns-protection.ts]),
    [StaticListThreatFeed], [SecureDnsResolver] and the query handler of
    [BapcDnsServer] ([src/services/dns/]).  Feeds, upstreams and the audit sink may
    fail; an upstream is a change of the outside world [U], so that a query
    that must not leave the resolver is one that leaves [U] alone. *)

From S2P Require Import Prelude Json Text Domain Mesh.
Open Scope Z_scope.

(** ** [DnsProtectionService] *)

Inductive DnsAction := DNS_ALLOW | SINKHOLE.
#[export] Instance DnsAction_eq_dec : EqDecision DnsAction.
Proof. solve_decision. Defined.

Record DnsDecision := mkDecision {
  dn_action : DnsAction; normalizedDomain : string; dn_reason : string; sinkholeAddress : option string
}.

(** [s.replace(/\.$/,"")] *)
Fixpoint strip_dot (s : string) : string :=
  match s with
  | EmptyString => EmptyString
  | String c EmptyString => if Ascii.eqb c "." then EmptyString else s
  | String c s' => String c (strip_dot s')
  end.

Definition normalize (d : string) : string := strip_dot (toLowerCase (trim d)).

Definition in_range (lo hi : nat) (c : ascii) : bool := ((lo <=? nat_of_ascii c) && (nat_of_ascii c <=? hi))%nat.
Definition lower_letter (c : ascii) : bool := in_range 97 122 c.
Definition alnum (c : ascii) : bool := lower_letter c || in_range 48 57 c.
Definition alnum_dash (c : ascii) : bool := alnum c || Ascii.eqb c "-".

Fixpoint last_char (s : string) : option ascii :=
  match s with
  | EmptyString => None
  | String c EmptyString => Some c
  | String _ s' => last_char s'
  end.

(** [[a-z0-9](?:[a-z0-9-]{0,61}[a-z0-9])?] *)
Definition label_ok (l : string) : bool :=
  match l, last_char l with
  | String c _, Some e => alnum c && alnum e && all_chars alnum_dash l && (String.length l <=? 63)%nat
  | _, _ => false
  end.
(** [[a-z]{2,63}] *)
Definition tld_ok (l : string) : bool :=
  all_chars lower_letter l && (2 <=? String.length l)%nat && (String.length l <=? 63)%nat.

(** The whole expression: labels, each followed by a dot, then the top level. *)
Fixpoint labels_ok (ls : list string) : bool :=
  match ls with
  | [] | [_] => false
  | [l; t] => label_ok l && tld_ok t
  | l :: ls' => label_ok l && labels_ok ls'
  end.
Definition valid_domain (d : string) : bool :=
  (1 <=? String.length d)%nat && (String.length d <=? 253)%nat && labels_ok (split_on "." d).

(** [label.length>24&&new Set(label).size/label.length>.55] *)
Definition entropyLike (label : string) : bool :=
  (24 <? String.length label)%nat &&
  (55 * Z.of_nat (String.length label) <? 100 * Z.of_nat (length (remove_dups (list_ascii_of_string label)))).

Section protection.
Context (feeds : list (string -> res bool)) (sinkhole : string).

(** [for(const f of this.feeds)if(await f.contains(d))return ...] *)
Fixpoint any_feed (fs : list (string -> res bool)) (d : string) : res bool :=
  match fs with
  | [] => Ok false
  | f :: fs' =>
      match f d with
      | Ok true => Ok true
      | Ok false => any_feed fs' d
      | Throw e => Throw e
      end
  end.

Definition sinkholed (d reason : string) : DnsDecision := mkDecision SINKHOLE d reason (Some sinkhole).

Definition dns_evaluate (domain : string) : res DnsDecision :=
  let d := normalize domain in
  if negb (valid_domain d) then Ok (sinkholed d "invalid or suspicious domain")
  else match any_feed feeds d with
       | Throw e => Throw e
       | Ok true => Ok (sinkholed d "threat-feed match")
       | Ok false =>
           if entropyLike (List.hd "" (split_on "." d)) then Ok (sinkholed d "possible domain-generation algorithm")
           else Ok (mkDecision DNS_ALLOW d "no threat match" None)
       end.
End protection.

Definition queryFingerprint (sha256 : string -> string) (domain : string) : string := to_hex (sha256 (normalize domain)).

(** ** [StaticListThreatFeed] *)
Definition static_feed (domains : list string) : list string := map toLowerCase domains.
Definition fromFile (text : string) : list string :=
  static_feed (List.filter (fun l => truthy l && negb (startsWith "#" l))
    (map trim (split_on (ascii_of_nat 10) text))).
Definition contains (feed : list string) (domain : string) : res bool := Ok (includes feed (toLowerCase domain)).

(** ** [SecureDnsResolver] *)

Inductive RecordType := A | AAAA | TXT | MX.
#[export] Instance RecordType_eq_dec : EqDecision RecordType.
Proof. solve_decision. Defined.

Record DnsRecord := mkDnsRecord { rr_type : RecordType; rr_value : string; rr_ttl : Z }.
Record DnsAuditEvent := mkDnsAudit { da_at : Date; da_nameHash : string; da_action : DnsAction; da_reason : string }.

Section resolver.
Context {U L : Type} (sha256 : string -> string) (feeds : list (string -> res bool)) (now : Date).
Context (upstreams : list (string -> RecordType -> St U (list DnsRecord))).
Context (audit_record : DnsAuditEvent -> St L unit).

(** The outside world and the audit sink. *)
Definition World : Type := U * L.
Definition lift_outside {B} (m : St U B) : St World B := fun '(u, l) => let '(u', r) := m u in ((u', l), r).
Definition lift_audit {B} (m : St L B) : St World B := fun '(u, l) => let '(l', r) := m l in ((u, l'), r).

(** The upstreams in order; [last] is the error of the latest that failed. *)
Fixpoint try_upstreams (us : list (string -> RecordType -> St U (list DnsRecord))) (last : option exn)
    (name : string) (type : RecordType) : St World (list DnsRecord) :=
  match us with
  | [] => throw (default (JsError "all encrypted DNS upstreams failed") last)
  | u :: us' => try_catch (lift_outside (u name type)) (fun e => try_upstreams us' (Some e) name type)
  end.

Definition resolve (name : string) (type : RecordType) : St World (list DnsRecord) :=
  match dns_evaluate feeds sinkholeV4 name with
  | Throw e => throw e
  | Ok decision =>
      try_catch (lift_audit (audit_record (mkDnsAudit now (queryFingerprint sha256 name) decision.(dn_action) decision.(dn_reason))))
        (fun _ => mret tt) ;;;
      if bool_decide (decision.(dn_action) = SINKHOLE) then
        mret match type with
             | A => [mkDnsRecord A sinkholeV4 30]
             | AAAA => [mkDnsRecord AAAA sinkholeV6 30]
             | _ => []
             end
      else try_upstreams upstreams None decision.(normalizedDomain) type
  end.

(** ** [BapcDnsServer.handle]

    A decoded packet: its id and its questions, each a name and a type that may
    be unsupported; [None] is a packet that does not decode. *)
Record Packet := { pk_id : Z; pk_questions : list (string * option RecordType) }.
Inductive Rcode := NOERROR | SERVFAIL | NOTIMP.
Record Reply := mkReply {
  rp_id : Z; rp_rcode : Rcode; rp_questions : list (string * option RecordType); rp_answers : list (string * DnsRecord)
}.

Definition reply (query : Packet) (answers : list (string * DnsRecord)) (rcode : Rcode) : Reply :=
  mkReply query.(pk_id) rcode query.(pk_questions) answers.

Definition dns_handle (msg : option Packet) : St World (option Reply) :=
  match msg with
  | None => mret None
  | Some query =>
      match query.(pk_questions) with
      | (name, Some type) :: _ =>
          try_catch
            (let* records := resolve name type in
             mret (Some (reply query (map (fun r => (name, r)) records) NOERROR)))
            (fun _ => mret (Some (reply query [] SERVFAIL)))
      | _ => mret (Some (reply query [] NOTIMP))
      end
  end.
End resolver.

(** ** What leaves the resolver *)

Definition lists (d : string) (f : string -> res bool) : bool := match f d with Ok true => true | _ => false end.

(** The names that are passed on. *)
Definition passes (feeds : list (string -> res bool)) (d : string) : bool :=
  valid_domain d && negb (existsb (lists d) feeds) && negb (entropyLike (List.hd "" (split_on "." d))).

Lemma any_feed_spec fs d : Forall (fun f => is_ok (f d) = true) fs -> any_feed fs d = Ok (existsb (lists d) fs).
Proof.
  induction 1 as [|f fs Hf _ IH]; [done|]. simpl. unfold lists at 1. by destruct (f d) as [[]|e].
Qed.

Lemma dns_evaluate_spec feeds sinkhole name :
  Forall (fun f => is_ok (f (normalize name)) = true) feeds ->
  exists decision, dns_evaluate feeds sinkhole name = Ok decision /\ decision.(normalizedDomain) = normalize name /\
    decision.(dn_action) = if passes feeds (normalize name) then DNS_ALLOW else SINKHOLE.
Proof.
  intros Hf. unfold dns_evaluate, passes. rewrite (any_feed_spec _ _ Hf).
  destruct (valid_domain (normalize name)); simpl; [|by eexists].
  destruct (existsb _ feeds); simpl; [by eexists|].
  by destruct (entropyLike _); simpl; eexists.
Qed.

Section outside.
Context {U L : Type} (name : string) (type : RecordType).

(** These upstreams, asked in turn from [u], all fail and leave [u']. *)
Inductive all_fail : list (string -> RecordType -> St U (list DnsRecord)) -> U -> U -> Prop :=
  | no_upstream u : all_fail [] u u
  | one_fails v vs u u1 u2 e : v name type u = (u1, Throw e) -> all_fail vs u1 u2 -> all_fail (v :: vs) u u2.

Lemma try_upstreams_spec us last u l :
  match try_upstreams (L := L) us last name type (u, l) with
  | ((u', l'), Ok records) => l' = l /\ exists us1 v us2 u1, us = us1 ++ v :: us2 /\ all_fail us1 u u1 /\ v name type u1 = (u', Ok records)
  | ((u', l'), Throw _) => l' = l /\ all_fail us u u'
  end.
Proof.
  revert last u. induction us as [|v us IH]; intros last u; simpl; [split; [done|constructor]|].
  unfold try_catch, lift_outside. destruct (v name type u) as [u1 [records|e]] eqn:E.
  - split; [done|]. exists [], v, us, u. split_and!; [done|constructor|done].
  - specialize (IH (Some e) u1). destruct (try_upstreams us (Some e) name type (u1, l)) as [[u' l'] [records|e']].
    + destruct IH as (-> & us1 & w & us2 & u2 & -> & Hf & Hw). split; [done|].
      exists (v :: us1), w, us2, u2. split_and!; [done|by econstructor|done].
    + destruct IH as (-> & Hf). split; [done|by econstructor].
Qed.
End outside.

(** The answer to a blocked query. *)
Definition sink_answer (type : RecordType) : list DnsRecord :=
  match type with A => [mkDnsRecord A sinkholeV4 30] | AAAA => [mkDnsRecord AAAA sinkholeV6 30] | _ => [] end.

(** C33: While the feeds answer, and whatever the audit sink does, a query whose
    normalized name is no valid domain, is on a feed or looks machine-generated
    is answered with the sinkhole and never reaches an upstream; any other is
    answered by the first upstream that does not fail, under its normalized
    name, and fails only when every upstream failed. *)
Theorem resolve_blocks_or_forwards {U L} sha256 feeds now upstreams (audit_record : DnsAuditEvent -> St L unit)
    name type (u : U) (l : L) :
  Forall (fun f => is_ok (f (normalize name)) = true) feeds ->
  match resolve sha256 feeds now upstreams audit_record name type (u, l) with
  | ((u', _), out) =>
      if passes feeds (normalize name) then
        match out with
        | Ok records => exists us1 v us2 u1, upstreams = us1 ++ v :: us2 /\
            all_fail (normalize name) type us1 u u1 /\ v (normalize name) type u1 = (u', Ok records)
        | Throw _ => all_fail (normalize name) type upstreams u u'
        end
      else u' = u /\ out = Ok (sink_answer type)
  end.
Proof.
  intros Hf. destruct (dns_evaluate_spec feeds sinkholeV4 name Hf) as (dc & E & En & Ea).
  unfold resolve. rewrite E, Ea.
  set (m := try_catch _ _). assert (exists l', m (u, l) = ((u, l'), Ok tt)) as [l' Hm].
  { unfold m, try_catch, lift_audit. destruct (audit_record _ l) as [l' [[]|e]]; by exists l'. }
  rewrite (bind_ok _ _ _ _ _ Hm). destruct (passes feeds (normalize name)).
  - rewrite bool_decide_eq_false_2 by done. rewrite En.
    pose proof (try_upstreams_spec (normalize name) type upstreams None u l') as H.
    destruct (try_upstreams _ _ _ _ _) as [[u' l''] [records|e]]; apply H.
  - rewrite bool_decide_eq_true_2 by done. by destruct type.
Qed.

Definition sample_feed : list string := fromFile ("# bad" +:+ String (ascii_of_nat 10) "Evil.com").
Definition counting_upstream (name : string) (type : RecordType) : St nat (list DnsRecord) :=
  fun n => (S n, Ok [mkDnsRecord type "192.0.2.1" 60]).

Lemma resolve_blocks_or_forwards_witness :
  let q name := resolve (fun x => x) [contains sample_feed] 0 [counting_upstream] (fun _ => throw (PgError "08006")) name A (0%nat, tt) in
  q " EVIL.com. " = ((0%nat, tt), Ok [mkDnsRecord A sinkholeV4 30]) /\
  q "example.com" = ((1%nat, tt), Ok [mkDnsRecord A "192.0.2.1" 60]).
Proof.
  intros q. split.
  - pose proof (resolve_blocks_or_forwards (fun x => x) [contains sample_feed] 0 [counting_upstream]
      (fun _ => throw (PgError "08006")) " EVIL.com. " A 0%nat tt) as H. fold (q " EVIL.com. ") in H.
    destruct (q " EVIL.com. ") as [[u' []] out].
    destruct H as [-> ->]; [repeat constructor|reflexivity].
  - vm_compute. reflexivity.
Defined.
