(* ===== verification/Oob.v ===== *)
(** * Out-of-band recovery

    [OobController], [PgRecoveryStore], [HttpOobChannel] and [OobServer]
    ([src/services/oob-controller/]).  The controller is written against two
    interfaces, a recovery store and a channel; the channel's instance is the HTTP
    client talking to the server's handler over a link that may be down.
    SHA-256 and [JSON.parse] are parameters. *)

From S2P Require Import Prelude Json Text Domain Words Router.
Open Scope Z_scope.

(** ** Interfaces *)

Record Snapshot := mkSnapshot {
  sn_id : string; sn_scope : string; sn_checksum : string; sn_document : json; sn_createdBy : string; sn_lkg : bool
}.

Class RecoveryStore (S : Type) := {
  store_save : Snapshot -> St S unit;
  lastKnownGood : string -> St S (option (string * json * string))
}.

Class OobChannel (C : Type) := {
  oob_healthy : St C bool;
  oob_push : string -> json -> St C unit;
  oob_verify : string -> string -> St C bool
}.

(** ** [OobController] *)

Section controller.
Context {S C : Type} `{!RecoveryStore S} `{!OobChannel C} (sha256 : string -> string).

Definition on_store {A} (m : St S A) : St (S * C) A := fun '(s, c) => let '(s', r) := m s in ((s', c), r).
Definition on_channel {A} (m : St C A) : St (S * C) A := fun '(s, c) => let '(c', r) := m c in ((s, c'), r).

Definition checksum (document : json) : string := to_hex (sha256 (json_stringify document)).

(** [randomUUID()] is the argument [id]. *)
Definition checkpoint (id scope : string) (document : json) (actor : string) : St (S * C) Snapshot :=
  let* up := on_channel oob_healthy in
  if negb up then throw (JsError "OOB channel unhealthy; checkpoint refused")
  else
    on_channel (oob_push scope document) ;;;
    let* ok := on_channel (oob_verify scope (checksum document)) in
    if negb ok then throw (JsError "OOB verification failed")
    else
      let snapshot := mkSnapshot id scope (checksum document) document actor true in
      on_store (store_save snapshot) ;;;
      mret snapshot.

Definition oob_rollback (scope : string) : St (S * C) (string * string) :=
  let* lkg := on_store (lastKnownGood scope) in
  match lkg with
  | None => throw (JsError "no last-known-good recovery snapshot")
  | Some (id, document, sum) =>
      let* up := on_channel oob_healthy in
      if negb up then throw (JsError "OOB channel unavailable")
      else
        on_channel (oob_push scope document) ;;;
        let* ok := on_channel (oob_verify scope sum) in
        if negb ok then throw (JsError "rollback verification failed")
        else mret (id, sum)
  end.
End controller.

(** ** [PgRecoveryStore]: the table [recovery_snapshots]

    Its document is the parameter of a [jsonb NOT NULL] column and is read back from
    it; the two statements of [save] are separate; [snapshot_id] is the key and one row
    per scope may be last known good. *)
Definition SnapshotTable : Type := list Snapshot.

(** How the server reads a text as JSON. *)
Class JsonInput := json_input : string -> option json.

Definition clear_lkg (scope : string) (r : Snapshot) : Snapshot :=
  if String.eqb r.(sn_scope) scope && r.(sn_lkg)
  then mkSnapshot r.(sn_id) r.(sn_scope) r.(sn_checksum) r.(sn_document) r.(sn_createdBy) false else r.

Definition snapshot_save `{JsonInput} (s : Snapshot) : St SnapshotTable unit := fun t =>
  let t1 := if s.(sn_lkg) then map (clear_lkg s.(sn_scope)) t else t in
  match jsonb_param json_input s.(sn_document) with
  | Throw e => (t1, Throw e)
  | Ok None => (t1, Throw (PgError "23502"))
  | Ok (Some stored) =>
      if existsb (fun r => String.eqb r.(sn_id) s.(sn_id)) t1 then (t1, Throw (PgError "23505"))
      else if s.(sn_lkg) && existsb (fun r => String.eqb r.(sn_scope) s.(sn_scope) && r.(sn_lkg)) t1
      then (t1, Throw (PgError "23505"))
      else (t1 ++ [mkSnapshot s.(sn_id) s.(sn_scope) s.(sn_checksum) stored s.(sn_createdBy) s.(sn_lkg)], Ok tt)
  end.

Definition snapshot_lkg (scope : string) : St SnapshotTable (option (string * json * string)) :=
  gets (fun t => (fun r => (r.(sn_id), r.(sn_document), r.(sn_checksum))) <$>
    List.find (fun r => String.eqb r.(sn_scope) scope && r.(sn_lkg)) t).

(** [ORDER BY created_at DESC]: the rows stand in insertion order. *)
Definition listLastKnownGood (t : SnapshotTable) : list Snapshot := rev (List.filter sn_lkg t).

#[export] Instance PgRecoveryStore `{JsonInput} : RecoveryStore SnapshotTable := {
  store_save := snapshot_save; lastKnownGood := snapshot_lkg
}.

(** ** [OobServer] *)

Record OobRequest := mkOobRequest {
  oq_method : string; oq_url : string; oq_authorization : option string; oq_body : string
}.

(** [/^\/oob\/documents\/([^/]+)$/] *)
Definition documents_path : string := "/oob/documents/".
Fixpoint no_slash (s : string) : bool :=
  match s with EmptyString => true | String c s' => negb (Ascii.eqb c "/") && no_slash s' end.
Definition document_group (url : string) : option string :=
  if startsWith documents_path url then
    let group := String.substring (String.length documents_path) (String.length url) url in
    if truthy group && no_slash group then Some group else None
  else None.

Section server.
Context (sha256 : string -> string) (JSON_parse : string -> res json) (sharedSecret : string).

Definition authorized (header : option string) : bool :=
  match header with
  | Some h => startsWith "Bearer " h && String.eqb (String.substring 7 (String.length h) h) sharedSecret
  | None => false
  end.

Notation Documents := (gmap string (string * json)).

(** The handler: a status and a body; an exception leaves the request without a
    response. *)
Definition oob_handle (req : OobRequest) : St Documents (Z * json) :=
  if String.eqb req.(oq_url) "/healthz" then mret (200, JObj [("status", JStr "ok")])
  else if negb (authorized req.(oq_authorization)) then mret (401, JObj [("error", JStr "unauthorized")])
  else match document_group req.(oq_url) with
    | None => mret (404, JObj [("error", JStr "not_found")])
    | Some group => fun docs =>
        match decodeURIComponent group with
        | Throw e => (docs, Throw e)
        | Ok scope =>
            if String.eqb req.(oq_method) "GET" then
              (docs, Ok match docs !! scope with
                | None => (404, JObj [("error", JStr "no document for scope")])
                | Some (sum, document) => (200, JObj [("checksum", JStr sum); ("document", document)])
                end)
            else if String.eqb req.(oq_method) "PUT" then
              match JSON_parse (if truthy req.(oq_body) then req.(oq_body) else "null") with
              | Throw e => (docs, Throw e)
              | Ok document =>
                  let sum := checksum sha256 document in
                  (<[scope := (sum, document)]> docs, Ok (200, JObj [("checksum", JStr sum)]))
              end
            else (docs, Ok (405, JObj [("error", JStr "method_not_allowed")]))
        end
    end.
End server.

(** ** [HttpOobChannel] *)

(** [encodeURIComponent] *)
Definition unreserved (c : ascii) : bool :=
  let n := nat_of_ascii c in
  ((48 <=? n) && (n <=? 57))%nat || ((65 <=? n) && (n <=? 90))%nat || ((97 <=? n) && (n <=? 122))%nat
  || existsb (Ascii.eqb c) ["-"; "_"; "."; "!"; "~"; "*"; "'"; "("; ")"]%char.
Definition upper_hex (n : nat) : ascii := ascii_of_nat (if (n <? 10)%nat then 48 + n else 55 + n).
Definition encode_char (c : ascii) : string :=
  if unreserved c then String c ""
  else String "%" (String (upper_hex (nat_of_ascii c / 16)) (String (upper_hex (nat_of_ascii c mod 16)) "")).
Fixpoint encodeURIComponent (s : string) : string :=
  match s with EmptyString => EmptyString | String c s' => encode_char c +:+ encodeURIComponent s' end.

(** The server behind a link: [fetch] rejects while it is down, and when the
    server never answers. *)
Record OobLink := mkLink { link_up : bool; link_docs : gmap string (string * json) }.

Section channel.
Context (sha256 : string -> string) (JSON_parse : string -> res json) (serverSecret clientSecret : string).

Definition fetch (req : OobRequest) : St OobLink (Z * json) := fun k =>
  if link_up k then
    let '(docs, r) := oob_handle sha256 JSON_parse serverSecret req (link_docs k) in
    (mkLink true docs, match r with Ok x => Ok x | Throw _ => Throw (JsError "This operation was aborted") end)
  else (k, Throw (JsError "fetch failed")).

Definition res_ok (status : Z) : bool := (200 <=? status) && (status <=? 299).
Definition scope_url (scope : string) : string := documents_path +:+ encodeURIComponent scope.
Definition bearer : option string := Some ("Bearer " +:+ clientSecret).

Definition http_healthy : St OobLink bool :=
  try_catch (let* r := fetch (mkOobRequest "GET" "/healthz" None "") in mret (res_ok r.1)) (fun _ => mret false).

Definition http_push (scope : string) (document : json) : St OobLink unit :=
  let* r := fetch (mkOobRequest "PUT" (scope_url scope) bearer (json_stringify document)) in
  if res_ok r.1 then mret tt else throw (JsError ("OOB push failed: " +:+ str_of_Z r.1)).

Definition http_verify (scope sum : string) : St OobLink bool :=
  try_catch
    (let* r := fetch (mkOobRequest "GET" (scope_url scope) bearer "") in
     mret (res_ok r.1 && match r.2 with
       | JObj o => match jlookup "checksum" o with Some (JStr s) => String.eqb s sum | _ => false end
       | _ => false
       end))
    (fun _ => mret false).

Definition HttpOobChannel : OobChannel OobLink := {|
  oob_healthy := http_healthy; oob_push := http_push; oob_verify := http_verify
|}.
End channel.

(** ** URLs *)

Definition printable_char (c : ascii) : bool := ((32 <=? nat_of_ascii c) && (nat_of_ascii c <=? 126))%nat.

Lemma decode_char c f rest :
  printable_char c = true -> decode_uri (S f) (encode_char c +:+ rest) = String c <$> decode_uri f rest.
Proof.
  destruct c as [[] [] [] [] [] [] [] []]; intros H; vm_compute in H; try discriminate H; clear H;
    cbn; try reflexivity; by destruct (decode_uri f rest).
Qed.

Lemma encode_char_no_slash c s : no_slash (encode_char c +:+ s) = no_slash s.
Proof. destruct c as [[] [] [] [] [] [] [] []]; reflexivity. Qed.

Lemma length_encode_char c s : (1 + String.length s <= String.length (encode_char c +:+ s))%nat.
Proof. rewrite length_app_s. unfold encode_char. destruct (unreserved c); simpl; lia. Qed.

Lemma encode_no_slash s : no_slash (encodeURIComponent s) = true.
Proof. induction s as [|c s IH]; [done|]. cbn [encodeURIComponent]. by rewrite encode_char_no_slash. Qed.

Lemma length_encode s : (String.length s <= String.length (encodeURIComponent s))%nat.
Proof.
  induction s as [|c s IH]; [done|]. cbn [encodeURIComponent String.length].
  pose proof (length_encode_char c (encodeURIComponent s)). lia.
Qed.

Lemma decode_encode s f :
  printable s = true -> (String.length s <= f)%nat -> decode_uri f (encodeURIComponent s) = Some s.
Proof.
  revert f; induction s as [|c s IH]; intros [|f] Hp Hf; try done; [simpl in Hf; lia|].
  cbn [encodeURIComponent]. simpl in Hp. apply andb_true_iff in Hp as [Hc Hp].
  rewrite decode_char by done. rewrite IH; [done|done|simpl in Hf; lia].
Qed.

Lemma decodeURIComponent_encode s : printable s = true -> decodeURIComponent (encodeURIComponent s) = Ok s.
Proof. intros H. unfold decodeURIComponent. rewrite decode_encode; [done|done|apply length_encode]. Qed.

Lemma encode_nonempty s : s <> "" -> truthy (encodeURIComponent s) = true.
Proof.
  destruct s as [|c s]; [done|]. intros _. cbn [encodeURIComponent]. unfold encode_char. by destruct (unreserved c).
Qed.

Lemma document_group_url scope : scope <> "" -> document_group (scope_url scope) = Some (encodeURIComponent scope).
Proof.
  intros H. unfold document_group, scope_url. rewrite startsWith_app, substring_app by (rewrite length_app_s; lia).
  by rewrite encode_nonempty, encode_no_slash.
Qed.

Lemma authorized_bearer secret : authorized secret (bearer secret) = true.
Proof.
  unfold authorized, bearer. apply andb_true_iff. split; [apply startsWith_app|]. apply String.eqb_eq.
  apply (substring_app "Bearer "). rewrite length_app_s. lia.
Qed.

Lemma authorized_iff secret header : authorized secret header = true <-> header = bearer secret.
Proof.
  split; [|intros ->; apply authorized_bearer]. unfold authorized, bearer. destruct header as [h|]; [|done].
  intros [[t ->]%startsWith_split E%String.eqb_eq]%andb_true_iff. rewrite <- E. do 2 f_equal. symmetry.
  apply (substring_app "Bearer "). rewrite length_app_s. lia.
Qed.

(** ** A working link *)

Section working.
Context (sha256 : string -> string) (JSON_parse : string -> res json) (secret scope : string).
Context (scope_text : printable scope = true) (scope_given : scope <> "").
Notation channel := (HttpOobChannel sha256 JSON_parse secret secret).

Lemma scope_url_not_health : String.eqb (scope_url scope) "/healthz" = false.
Proof. done. Qed.

Lemma healthy_up docs : http_healthy sha256 JSON_parse secret (mkLink true docs) = (mkLink true docs, Ok true).
Proof. done. Qed.

Lemma push_up d docs :
  JSON_parse (json_stringify d) = Ok d -> truthy (json_stringify d) = true ->
  http_push sha256 JSON_parse secret secret scope d (mkLink true docs)
  = (mkLink true (<[scope := (checksum sha256 d, d)]> docs), Ok tt).
Proof using scope_text scope_given.
  intros Hp Ht. unfold http_push, fetch. unfold mbind, St_bind. cbn [link_up]. cbn [link_docs]. cbv iota.
  unfold oob_handle. cbn [oq_url]. rewrite scope_url_not_health. cbn [oq_authorization]. rewrite authorized_bearer. cbn [negb]. cbv iota.
  rewrite document_group_url by done. cbn [oq_method]. cbn [oq_body]. rewrite decodeURIComponent_encode by done.
  cbn [String.eqb Ascii.eqb Bool.eqb]. cbv iota. rewrite Ht, Hp. done.
Qed.

Lemma verify_up sum d sum' docs :
  docs !! scope = Some (sum, d) ->
  http_verify sha256 JSON_parse secret secret scope sum' (mkLink true docs) = (mkLink true docs, Ok (String.eqb sum sum')).
Proof using scope_text scope_given.
  intros Hd. unfold http_verify, fetch, try_catch. unfold mbind, St_bind. cbn [link_up]. cbn [link_docs]. cbv iota.
  unfold oob_handle. cbn [oq_url]. rewrite scope_url_not_health. cbn [oq_authorization]. rewrite authorized_bearer. cbn [negb]. cbv iota.
  rewrite document_group_url by done. cbn [oq_method]. rewrite decodeURIComponent_encode by done.
  cbn [String.eqb Ascii.eqb Bool.eqb]. cbv iota. rewrite Hd. done.
Qed.
End working.

Lemma json_stringify_truthy d : truthy (json_stringify d) = true.
Proof.
  destruct d as [|[]|n|s|l|l]; try done. simpl. destruct (str_of_Z_cons n) as (c & t & -> & _). done.
Qed.

Lemma find_app {A} (p : A -> bool) l l' :
  List.find p (l ++ l') = match List.find p l with Some x => Some x | None => List.find p l' end.
Proof. induction l as [|x l IH]; [done|]. simpl. by destruct (p x). Qed.

(** ** Checkpoint and rollback *)

Section recovery.
Context `{JsonInput} (sha256 : string -> string) (JSON_parse : string -> res json) (secret scope : string).
Context (scope_text : printable scope = true) (scope_given : scope <> "").
Local Instance http_channel : OobChannel OobLink := HttpOobChannel sha256 JSON_parse secret secret.

(** Pushing what the server will parse back, then asking for a checksum. *)
Lemma push_then_verify {S} (s : S) d sum docs :
  JSON_parse (json_stringify d) = Ok d ->
  (on_channel (oob_push scope d) ;;; on_channel (oob_verify scope sum)) (s, mkLink true docs)
  = ((s, mkLink true (<[scope := (checksum sha256 d, d)]> docs)), Ok (String.eqb (checksum sha256 d) sum)).
Proof using scope_text scope_given.
  intros Hp.
  assert (on_channel (S := S) (oob_push scope d) (s, mkLink true docs)
    = ((s, mkLink true (<[scope := (checksum sha256 d, d)]> docs)), Ok tt)) as E1.
  { unfold on_channel, oob_push, http_channel, HttpOobChannel. rewrite push_up by (done || apply json_stringify_truthy). done. }
  rewrite (bind_ok _ _ _ _ _ E1). unfold on_channel, oob_verify, http_channel, HttpOobChannel.
  erewrite verify_up by (done || by rewrite lookup_insert_eq). done.
Qed.

(** The table after the save of a document that is stored as [stored]. *)
Definition saved (id : string) (d stored : json) (actor : string) (t : SnapshotTable) : SnapshotTable :=
  map (clear_lkg scope) t ++ [mkSnapshot id scope (checksum sha256 d) stored actor true].

Lemma clear_lkg_id r : sn_id (clear_lkg scope r) = sn_id r.
Proof. unfold clear_lkg. by destruct (_ && _). Qed.

Lemma cleared_none t : existsb (fun r => String.eqb r.(sn_scope) scope && r.(sn_lkg)) (map (clear_lkg scope) t) = false.
Proof.
  apply existsb_elem_false. intros x (r & -> & _)%elem_of_List_map. unfold clear_lkg.
  destruct (String.eqb (sn_scope r) scope && sn_lkg r) eqn:E; [simpl; apply andb_false_r|done].
Qed.
Lemma cleared_not_lkg t r : r ∈ map (clear_lkg scope) t -> r.(sn_scope) = scope -> r.(sn_lkg) = false.
Proof.
  intros Hr Esc. pose proof (cleared_none t) as Hn. rewrite existsb_elem_false in Hn. specialize (Hn r Hr).
  by rewrite Esc, String.eqb_refl in Hn.
Qed.

(** What [save] does with a new id. *)
Lemma snapshot_save_run id d actor t :
  (forall r, r ∈ t -> r.(sn_id) <> id) ->
  snapshot_save (mkSnapshot id scope (checksum sha256 d) d actor true) t =
  match jsonb_param json_input d with
  | Ok (Some stored) => (saved id d stored actor t, Ok tt)
  | Ok None => (map (clear_lkg scope) t, Throw (PgError "23502"))
  | Throw e => (map (clear_lkg scope) t, Throw e)
  end.
Proof.
  intros Hid. unfold snapshot_save. simpl. destruct (jsonb_param json_input d) as [[stored|]|e]; [|done..].
  assert (existsb (fun r => String.eqb r.(sn_id) id) (map (clear_lkg scope) t) = false) as ->.
  { apply existsb_elem_false. intros x (r & -> & Hr)%elem_of_List_map. rewrite clear_lkg_id.
    apply String.eqb_neq. by apply Hid. }
  by rewrite cleared_none.
Qed.

Lemma snapshot_lkg_saved id d stored actor t :
  snapshot_lkg scope (saved id d stored actor t) = (saved id d stored actor t, Ok (Some (id, stored, checksum sha256 d))).
Proof.
  unfold snapshot_lkg, gets, saved. do 2 f_equal. rewrite find_app.
  destruct (List.find _ (map (clear_lkg scope) t)) as [r|] eqn:F.
  - apply find_some in F as [Hr Hp]. pose proof (cleared_none t) as Hn. rewrite existsb_elem_false in Hn.
    rewrite Hn in Hp; [done|by apply list_elem_of_In].
  - simpl. by rewrite String.eqb_refl.
Qed.

Lemma checkpoint_run id d actor t docs :
  JSON_parse (json_stringify d) = Ok d -> (forall r, r ∈ t -> r.(sn_id) <> id) ->
  let k := mkLink true (<[scope := (checksum sha256 d, d)]> docs) in
  checkpoint sha256 id scope d actor (t, mkLink true docs) =
  match jsonb_param json_input d with
  | Ok (Some stored) => ((saved id d stored actor t, k), Ok (mkSnapshot id scope (checksum sha256 d) d actor true))
  | Ok None => ((map (clear_lkg scope) t, k), Throw (PgError "23502"))
  | Throw e => ((map (clear_lkg scope) t, k), Throw e)
  end.
Proof using scope_text scope_given.
  intros Hp Hid k. unfold checkpoint.
  rewrite (bind_ok _ _ _ (t, mkLink true docs) true) by reflexivity. cbn [negb].
  pose proof (push_then_verify t d (checksum sha256 d) docs Hp) as E. rewrite String.eqb_refl in E.
  apply bind_inv_ok in E as (s1 & [] & E1 & E2).
  rewrite (bind_ok _ _ _ _ _ E1), (bind_ok _ _ _ _ _ E2). cbn [negb].
  unfold on_store, store_save, PgRecoveryStore, mbind, St_bind. rewrite snapshot_save_run by done.
  by destruct (jsonb_param json_input d) as [[stored|]|e].
Qed.

Lemma rollback_run id d stored actor t docs :
  JSON_parse (json_stringify stored) = Ok stored ->
  oob_rollback scope (saved id d stored actor t, mkLink true docs)
  = ((saved id d stored actor t, mkLink true (<[scope := (checksum sha256 stored, stored)]> docs)),
     if String.eqb (checksum sha256 stored) (checksum sha256 d) then Ok (id, checksum sha256 d)
     else Throw (JsError "rollback verification failed")).
Proof using scope_text scope_given.
  intros Hp. unfold oob_rollback. set (t1 := saved id d stored actor t).
  assert (on_store (C := OobLink) (lastKnownGood scope) (t1, mkLink true docs)
    = ((t1, mkLink true docs), Ok (Some (id, stored, checksum sha256 d)))) as E0.
  { unfold on_store, lastKnownGood, PgRecoveryStore. unfold t1. by rewrite snapshot_lkg_saved. }
  rewrite (bind_ok _ _ _ _ _ E0). rewrite (bind_ok _ _ _ (t1, mkLink true docs) true) by reflexivity. cbn [negb].
  pose proof (push_then_verify t1 stored (checksum sha256 d) docs Hp) as E.
  apply bind_inv_ok in E as (s1 & [] & E1 & E2).
  rewrite (bind_ok _ _ _ _ _ E1), (bind_ok _ _ _ _ _ E2). by destruct (String.eqb _ _).
Qed.
End recovery.

Lemma checksum_same sha256 d d' :
  checksum sha256 d = checksum sha256 d' -> json_stringify d = json_stringify d' \/ collision sha256.
Proof. intros E. apply digest_same. by apply (inj to_hex). Qed.

(** C32: What a checkpoint can be rolled back to.  Over a working link, the channel
    holds the document after a checkpoint.  When the database takes the document
    (the driver sends an object, a number, a boolean or the empty array as JSON), the
    checkpoint succeeds and is the only last known good of its scope; a later rollback,
    whatever the channel holds by then, pushes the document as the [jsonb] column gives
    it back, fails when its text is not that of the document that was checkpointed, and
    succeeds when it is (or when SHA-256 collides): an object whose keys are not in
    [jsonb] order cannot be rolled back to.  When the database does not take it ([null], a text that
    is no JSON, an array), the checkpoint throws, and the scope has lost the last known
    good it had. *)
Theorem rollback_iff_key_order `{JsonInput} (sha256 : string -> string) (JSON_parse : string -> res json)
    (secret scope id actor : string) (d : json) (t : SnapshotTable) (docs docs' : gmap string (string * json)) :
  JSON_parse (json_stringify d) = Ok d ->
  printable scope = true -> scope <> "" -> (forall r, r ∈ t -> r.(sn_id) <> id) ->
  let channel := HttpOobChannel sha256 JSON_parse secret secret in
  exists t' docs1 outcome,
    checkpoint sha256 id scope d actor (t, mkLink true docs) = ((t', mkLink true docs1), outcome) /\
    docs1 !! scope = Some (checksum sha256 d, d) /\
    match jsonb_param json_input d with
    | Ok (Some stored) =>
        outcome = Ok (mkSnapshot id scope (checksum sha256 d) d actor true) /\
        (forall r, r ∈ t' -> r.(sn_scope) = scope -> r.(sn_lkg) = true -> r.(sn_id) = id) /\
        (JSON_parse (json_stringify stored) = Ok stored ->
         match oob_rollback scope (t', mkLink true docs') with
         | ((_, k), Ok out) => (json_stringify stored = json_stringify d \/ collision sha256) /\
             out = (id, checksum sha256 d) /\ link_docs k !! scope = Some (checksum sha256 d, stored)
         | (_, Throw e) => json_stringify stored <> json_stringify d /\ e = JsError "rollback verification failed"
         end)
    | _ => (exists e, outcome = Throw e) /\ forall r, r ∈ t' -> r.(sn_scope) = scope -> r.(sn_lkg) = false
    end.
Proof.
  intros Hp Hs Hs' Hid channel.
  pose proof (checkpoint_run sha256 JSON_parse secret scope Hs Hs' id d actor t docs Hp Hid) as C. cbv zeta in C.
  unfold http_channel in C. fold channel in C. rewrite C.
  destruct (jsonb_param json_input d) as [[stored|]|e]; eexists _, _, _; (split; [reflexivity|]);
    (split; [by rewrite lookup_insert_eq|]); [|split; [by eexists|apply cleared_not_lkg]..].
  split; [done|]. split.
  { intros r [Hr|Hr]%elem_of_app Esc Hl; [|by apply list_elem_of_singleton in Hr as ->].
    by rewrite (cleared_not_lkg scope t r Hr Esc) in Hl. }
  intros Hp'. pose proof (rollback_run sha256 JSON_parse secret scope Hs Hs' id d stored actor t docs' Hp') as E.
  unfold http_channel in E. fold channel in E. rewrite E. destruct (String.eqb _ _) eqn:Eq; bools.
  - split_and!; [by apply checksum_same|done|]. simpl. by rewrite lookup_insert_eq, Eq.
  - split; [|done]. intros Et. apply Eq. unfold checksum. by rewrite Et.
Qed.

Definition sorted_doc : json := JObj [("a", JNum 1); ("zone", JStr "dev")].
Definition unsorted_doc : json := JObj [("zone", JStr "dev"); ("a", JNum 1)].
Definition doc_parse (s : string) : res json :=
  if String.eqb s (json_stringify sorted_doc) then Ok sorted_doc
  else if String.eqb s (json_stringify unsorted_doc) then Ok unsorted_doc else Throw (JsError "Unexpected token").

(** A server that reads no text as JSON. *)
#[local] Instance sample_json_input : JsonInput := fun _ => None.

(** One order of the two keys rolls back, the other does not. *)
Lemma rollback_iff_key_order_witness :
  let channel := HttpOobChannel (fun x => x) doc_parse "s" "s" in
  let after d := (checkpoint (fun x => x) "id1" "policy" d "ann" ([], mkLink true ∅)).1 in
  (exists docs1, (after sorted_doc).2 = mkLink true docs1 /\ docs1 !! "policy" = Some (checksum (fun x => x) sorted_doc, sorted_doc)) /\
  is_ok (oob_rollback "policy" (after sorted_doc)).2 = true /\
  is_ok (oob_rollback "policy" (after unsorted_doc)).2 = false.
Proof.
  intros channel after. split; [|split; vm_compute; reflexivity].
  destruct (rollback_iff_key_order (fun x => x) doc_parse "s" "policy" "id1" "ann" sorted_doc [] ∅ ∅)
    as (t' & docs1 & out & E & Hd & _).
  - vm_compute. reflexivity.
  - reflexivity.
  - discriminate.
  - intros r Hr. inversion Hr.
  - exists docs1. split; [|exact Hd]. apply (f_equal (fun x => x.1.2)) in E. exact E.
Defined.

(** Whatever the channel does, a checkpoint that throws leaves the table as it was
    or, when the channel verified a document the database refuses, without a last
    known good of the scope. *)
Lemma checkpoint_keeps_table {C} `{!OobChannel C} `{JsonInput} sha256 id scope d actor (t : SnapshotTable) (c : C) :
  (forall r, r ∈ t -> r.(sn_id) <> id) ->
  match checkpoint sha256 id scope d actor (t, c) with
  | ((t', _), Ok _) => exists c1 c2 stored, oob_verify scope (checksum sha256 d) c1 = (c2, Ok true) /\
      jsonb_param json_input d = Ok (Some stored) /\
      snapshot_lkg scope t' = (t', Ok (Some (id, stored, checksum sha256 d)))
  | ((t', _), Throw _) => t' = t \/ t' = map (clear_lkg scope) t
  end.
Proof.
  intros Hid. unfold checkpoint, mbind, St_bind, on_channel.
  destruct (oob_healthy c) as [c1 [[]|e]]; simpl; [|by left..].
  destruct (oob_push scope d c1) as [c2 [[]|e]]; [|by left].
  destruct (oob_verify scope _ c2) as [c3 [[]|e]] eqn:V; simpl; [|by left..].
  unfold on_store, store_save, PgRecoveryStore. rewrite snapshot_save_run by done.
  destruct (jsonb_param json_input d) as [[stored|]|e] eqn:J; [|by right..].
  exists c2, c3, stored. split; [done|]. split; [done|]. apply snapshot_lkg_saved.
Qed.
