(* ===== verification/Egress.v ===== *)
(** * Egress gateways and the SOCKS5 proxy

    [EgressSelector], [PgEgressStore] and [Socks5EgressProxy]
    ([src/services/egress/]), with the selection route of the control plane.
    Loads, latencies and scores are rationals.  The proxy is a state machine over the
    events of its sockets; a rejected promise nobody awaits ends the process. *)

From S2P Require Import Prelude Json Text Domain Mesh.
Open Scope Z_scope.

(** ** [EgressSelector] *)

Record EgressGateway := mkGateway {
  eg_id : string; eg_region : string; eg_fixedIp : string; eg_healthy : bool; eg_loadPercent : Q;
  eg_lastCheck : Date; eg_latencyMs : Q; eg_activeSessions : Z; eg_capacityPercent : Q
}.

Definition egress_eligible (now : Date) (g : EgressGateway) : bool :=
  g.(eg_healthy) && (now - g.(eg_lastCheck) <? 30000) && Qlt_bool g.(eg_loadPercent) 95
  && Qlt_bool g.(eg_capacityPercent) 95.

Definition egress_score (preferredRegion : string) (g : EgressGateway) : Q :=
  ((if String.eqb g.(eg_region) preferredRegion then 100 else 0) - g.(eg_loadPercent)
   - g.(eg_latencyMs) * (1 # 10) - g.(eg_capacityPercent) * 2)%Q.

Definition egress_order (preferredRegion : string) (a b : EgressGateway) : bool :=
  Qle_bool (egress_score preferredRegion b) (egress_score preferredRegion a).

Definition egress_select (gateways : list EgressGateway) (preferredRegion : string) (now : Date) : res EgressGateway :=
  match head (sort_by (egress_order preferredRegion) (List.filter (egress_eligible now) gateways)) with
  | Some selected => Ok selected
  | None => Throw (JsError "no healthy egress gateway")
  end.

(** ** [PgEgressStore]: the table [egress_gateways] *)

Record GatewayRow := mkGatewayRow {
  gr_region : string; gr_fixedIp : string; gr_healthy : bool; gr_load : Q; gr_state : string;
  gr_heartbeat : option Date; gr_latency : Q; gr_sessions : Z; gr_maxSessions : Z
}.
Notation EgressTable := (gmap string GatewayRow).

Definition toGateway (id : string) (row : GatewayRow) : EgressGateway :=
  mkGateway id row.(gr_region) row.(gr_fixedIp) row.(gr_healthy) row.(gr_load) (default 0 row.(gr_heartbeat))
    row.(gr_latency) row.(gr_sessions)
    (if 0 <? row.(gr_maxSessions) then Qmin_bool 100 (inject_Z row.(gr_sessions) / inject_Z row.(gr_maxSessions) * 100) else 0)%Q.

Definition egress_insert (now : Date) (id region fixedIp : string) (maxSessions : option Z) (t : EgressTable) : EgressTable :=
  let cap := default 500 maxSessions in
  <[id := match t !! id with
    | Some old => mkGatewayRow region fixedIp true old.(gr_load) old.(gr_state) (Some now) old.(gr_latency) old.(gr_sessions) cap
    | None => mkGatewayRow region fixedIp true 0 "ACTIVE" (Some now) 0 0 cap
    end]> t.

Definition egress_get (id : string) (t : EgressTable) : option (string * string * bool * string) :=
  (fun r => (r.(gr_region), r.(gr_fixedIp), r.(gr_healthy), r.(gr_state))) <$> t !! id.

Definition egress_remove (id : string) (t : EgressTable) : EgressTable := delete id t.

Record EgressHeartbeat := { eh_load : Q; eh_healthy : bool; eh_latency : Q; eh_sessions : Z }.
Definition egress_heartbeat (now : Date) (id : string) (h : EgressHeartbeat) (t : EgressTable) : EgressTable :=
  alter (fun old => mkGatewayRow old.(gr_region) old.(gr_fixedIp) h.(eh_healthy) h.(eh_load) old.(gr_state) (Some now)
    h.(eh_latency) h.(eh_sessions) old.(gr_maxSessions)) id t.

(** [ORDER BY region, gateway_id] *)
Definition egress_list (t : EgressTable) : list EgressGateway :=
  sort_by (fun a b => String.ltb a.(eg_region) b.(eg_region)
      || (String.eqb a.(eg_region) b.(eg_region) && String.leb a.(eg_id) b.(eg_id)))
    (map (fun kv => toGateway kv.1 kv.2) (map_to_list t)).

Definition egress_candidates (now : Date) (t : EgressTable) : list EgressGateway :=
  map (fun kv => toGateway kv.1 kv.2)
    (List.filter (fun kv => String.eqb kv.2.(gr_state) "ACTIVE" &&
       match kv.2.(gr_heartbeat) with Some h => now - 30000 <? h | None => false end) (map_to_list t)).

(** [GET /api/v1/egress/select] *)
Definition select_route (now : Date) (region : option string) (t : EgressTable) : res json :=
  match egress_select (egress_candidates now t) (default "" region) now with
  | Ok g => Ok (JObj [("gatewayId", JStr g.(eg_id)); ("fixedIp", JStr g.(eg_fixedIp)); ("region", JStr g.(eg_region))])
  | Throw _ => Throw (HttpError 503 "no healthy egress gateway is currently registered" "not_configured")
  end.

(** ** [Socks5EgressProxy] *)

(** A request as [handleRequest] reads it; bytes are numbers.  Reading the port
    beyond the end of the buffer throws. *)
Inductive SocksRequest :=
  | Refuse (code : Z)
  | Truncated
  | Ask (host : string) (port : Z).

Definition byte_at (i : nat) (req : list Z) : Z := default 0 (req !! i).
Definition ascii_text (l : list Z) : string := string_of_list_ascii (map (fun b => ascii_of_nat (Z.to_nat (b mod 128))) l).

Definition read_port (offset : nat) (host : string) (req : list Z) : SocksRequest :=
  if (offset + 2 <=? length req)%nat then Ask host (256 * byte_at offset req + byte_at (offset + 1) req) else Truncated.

Definition parse_request (req : list Z) : SocksRequest :=
  if (length req <? 7)%nat || negb (byte_at 0 req =? 5) || negb (byte_at 1 req =? 1) then Refuse 7
  else if byte_at 3 req =? 1 then
    read_port 8 (join "." (map (fun i => str_of_Z (byte_at i req)) [4; 5; 6; 7]%nat)) req
  else if byte_at 3 req =? 3 then
    let len := Z.to_nat (byte_at 4 req) in
    read_port (5 + len) (ascii_text (take len (drop 5 req))) req
  else Refuse 8.

(** Where a connection stands. *)
Inductive Stage := AwaitGreeting | AwaitRequest | Connecting (host : string) (port : Z) | Piping (host : string) (port : Z) | Ended.
#[export] Instance Stage_eq_dec : EqDecision Stage.
Proof. solve_decision. Defined.

Record Conn := mkConn { cn_stage : Stage; cn_closed : bool; cn_written : list Z }.

Record Proxy := mkProxy {
  px_conns : gmap Z Conn; px_active : Z; px_bytes : Z; px_crashed : bool
}.

Definition socks_reply (code : Z) : list Z := [5; code; 0; 1; 0; 0; 0; 0; 0; 0].

Definition write (bytes : list Z) (stage : Stage) (c : Conn) : Conn :=
  mkConn stage c.(cn_closed) (c.(cn_written) ++ bytes).

(** What the sockets report: a new client, data from it, its close or error, and
    the connection, failure or data of its upstream. *)
Inductive SocketEvent :=
  | Accept (id : Z) | Data (id : Z) (bytes : list Z) | Close (id : Z)
  | UpConnected (id : Z) | UpError (id : Z) | UpData (id : Z) (bytes : list Z).

Section proxy.
Context (isAllowed : string -> Z -> res bool).

Definition set_conn (id : Z) (c : Conn) (p : Proxy) : Proxy :=
  mkProxy (<[id := c]> p.(px_conns)) p.(px_active) p.(px_bytes) p.(px_crashed).
Definition count_bytes (n : nat) (p : Proxy) : Proxy :=
  mkProxy p.(px_conns) p.(px_active) (p.(px_bytes) + Z.of_nat n) p.(px_crashed).
Definition crash (p : Proxy) : Proxy := mkProxy p.(px_conns) p.(px_active) p.(px_bytes) true.

(** [handleRequest] *)
Definition handleRequest (id : Z) (c : Conn) (req : list Z) (p : Proxy) : Proxy :=
  match parse_request req with
  | Refuse code => set_conn id (write (socks_reply code) Ended c) p
  | Truncated => crash p
  | Ask host port =>
      match isAllowed host port with
      | Throw _ => crash p
      | Ok false => set_conn id (write (socks_reply 2) Ended c) p
      | Ok true => set_conn id (write [] (Connecting host port) c) p
      end
  end.

(** [handleClient] and the listeners it leaves *)
Definition on_data (id : Z) (c : Conn) (bytes : list Z) (p : Proxy) : Proxy :=
  match c.(cn_stage) with
  | AwaitGreeting =>
      if byte_at 0 bytes =? 5 then set_conn id (write [5; 0] AwaitRequest c) p
      else set_conn id (write [] Ended c) p
  | AwaitRequest => handleRequest id c bytes p
  | Piping _ _ => count_bytes (length bytes) p
  | Connecting _ _ | Ended => p
  end.

Definition proxy_step (e : SocketEvent) (p : Proxy) : Proxy :=
  if p.(px_crashed) then p
  else match e with
  | Accept id =>
      match p.(px_conns) !! id with
      | Some _ => p
      | None => mkProxy (<[id := mkConn AwaitGreeting false []]> p.(px_conns)) (p.(px_active) + 1) p.(px_bytes) false
      end
  | Data id bytes =>
      match p.(px_conns) !! id with
      | Some c => if c.(cn_closed) then p else on_data id c bytes p
      | None => p
      end
  | Close id =>
      match p.(px_conns) !! id with
      | Some c =>
          if c.(cn_closed) then p
          else mkProxy (<[id := mkConn c.(cn_stage) true c.(cn_written)]> p.(px_conns)) (p.(px_active) - 1) p.(px_bytes) false
      | None => p
      end
  | UpConnected id =>
      match p.(px_conns) !! id with
      | Some c => match c.(cn_stage) with
          | Connecting h q => set_conn id (write (socks_reply 0) (Piping h q) c) p
          | _ => p
          end
      | None => p
      end
  | UpError id =>
      match p.(px_conns) !! id with
      | Some c => match c.(cn_stage) with
          | Connecting _ _ | Piping _ _ => set_conn id (write (socks_reply 5) Ended c) p
          | _ => p
          end
      | None => p
      end
  | UpData id bytes =>
      match p.(px_conns) !! id with
      | Some c => match c.(cn_stage) with Piping _ _ => count_bytes (length bytes) p | _ => p end
      | None => p
      end
  end.

Definition proxy_start : Proxy := mkProxy ∅ 0 0 false.
Definition proxy_run (es : list SocketEvent) : Proxy := foldl (fun p e => proxy_step e p) proxy_start es.
End proxy.

(** ** The gateway that is chosen *)

Lemma egress_order_total r a b : egress_order r a b = true \/ egress_order r b a = true.
Proof. unfold egress_order. rewrite !Qle_bool_iff. destruct (Qlt_le_dec (egress_score r a) (egress_score r b)); [right; by apply Qlt_le_weak|by left]. Qed.
Lemma egress_order_trans r a b c : egress_order r a b = true -> egress_order r b c = true -> egress_order r a c = true.
Proof. unfold egress_order. rewrite !Qle_bool_iff. intros. by eapply Qle_trans. Qed.

Lemma egress_select_spec gateways region now :
  match egress_select gateways region now with
  | Ok g => g ∈ gateways /\ egress_eligible now g = true /\
      forall g', g' ∈ gateways -> egress_eligible now g' = true -> (egress_score region g' <= egress_score region g)%Q
  | Throw _ => forall g, g ∈ gateways -> egress_eligible now g = false
  end.
Proof.
  unfold egress_select. set (l := List.filter _ _).
  pose proof (sort_by_sorted (egress_order region) (egress_order_total region) (egress_order_trans region) l) as Hs.
  destruct (head _) as [g|] eqn:E.
  - apply (head_sorted (egress_order region)) in E as [Hg Hmin]; [|intros a; by destruct (egress_order_total region a a)|done].
    rewrite elem_of_sort_by in Hg. apply elem_of_List_filter in Hg as [Hg He]. split_and!; [done..|].
    intros g' Hg' He'. apply Qle_bool_iff. apply Hmin. rewrite elem_of_sort_by. by apply elem_of_List_filter.
  - destruct (sort_by (egress_order region) l) as [|x s] eqn:El; [|done].
    intros g Hg. destruct (egress_eligible now g) eqn:Eg; [|done].
    assert (g ∈ sort_by (egress_order region) l) as H by (rewrite elem_of_sort_by; by apply elem_of_List_filter).
    rewrite El in H. inversion H.
Qed.

Lemma elem_of_candidates now t g :
  g ∈ egress_candidates now t <->
  exists id row h, t !! id = Some row /\ g = toGateway id row /\ row.(gr_state) = "ACTIVE" /\
    row.(gr_heartbeat) = Some h /\ now - 30000 < h.
Proof.
  unfold egress_candidates. rewrite elem_of_List_map. split.
  - intros ([id row] & -> & H). apply elem_of_List_filter in H as [H Hp]. apply elem_of_map_to_list in H. simpl in *. bools.
    destruct (gr_heartbeat row) as [h|] eqn:Eh; [|done]. bools. by exists id, row, h.
  - intros (id & row & h & H & -> & Ea & Eh & Hh). exists (id, row). split; [done|].
    apply elem_of_List_filter. split; [by apply elem_of_map_to_list|]. simpl. rewrite Ea, Eh, String.eqb_refl. simpl. by apply Z.ltb_lt.
Qed.

(** Also: The gateway an agent is sent to is a registered, ACTIVE and healthy one
    that reported within 30 seconds and is below 95 percent of its load and of its
    sessions, and no other such gateway scores higher for the region; the route
    answers 503 exactly when there is none. *)
Theorem egress_route_best now region t :
  match select_route now region t with
  | Ok v => exists id row h, v = JObj [("gatewayId", JStr id); ("fixedIp", JStr row.(gr_fixedIp)); ("region", JStr row.(gr_region))] /\
      t !! id = Some row /\ row.(gr_state) = "ACTIVE" /\ row.(gr_heartbeat) = Some h /\ now - 30000 < h /\
      egress_eligible now (toGateway id row) = true /\
      forall g', g' ∈ egress_candidates now t -> egress_eligible now g' = true ->
        (egress_score (default "" region) g' <= egress_score (default "" region) (toGateway id row))%Q
  | Throw e => e = HttpError 503 "no healthy egress gateway is currently registered" "not_configured" /\
      forall g, g ∈ egress_candidates now t -> egress_eligible now g = false
  end.
Proof.
  unfold select_route. pose proof (egress_select_spec (egress_candidates now t) (default "" region) now) as H.
  destruct (egress_select _ _ _) as [g|e]; [|done]. destruct H as (Hg & He & Hmax).
  apply elem_of_candidates in Hg as (id & row & h & Hr & -> & Ea & Eh & Hh). by exists id, row, h.
Qed.

(** ** The proxy's invariant *)

Definition is_open (kv : Z * Conn) : Prop := kv.2.(cn_closed) = false.
#[export] Instance is_open_dec kv : Decision (is_open kv).
Proof. unfold is_open. apply _. Defined.
Definition open_conns (m : gmap Z Conn) : gmap Z Conn := filter is_open m.

Definition target (s : Stage) : option (string * Z) :=
  match s with Connecting h q | Piping h q => Some (h, q) | _ => None end.

Record proxy_ok (isAllowed : string -> Z -> res bool) (p : Proxy) : Prop := {
  active_exact : p.(px_active) = Z.of_nat (size (open_conns p.(px_conns)));
  targets_allowed : forall id c h q, p.(px_conns) !! id = Some c -> target c.(cn_stage) = Some (h, q) -> isAllowed h q = Ok true
}.

Lemma open_insert_new m id c : m !! id = None -> c.(cn_closed) = false ->
  size (open_conns (<[id := c]> m)) = S (size (open_conns m)).
Proof.
  intros Hm Hc. unfold open_conns. rewrite map_filter_insert_True by done.
  apply map_size_insert_None. by apply map_lookup_filter_None_2; left.
Qed.

Lemma open_insert_same m id c c' : m !! id = Some c -> c.(cn_closed) = c'.(cn_closed) ->
  size (open_conns (<[id := c']> m)) = size (open_conns m).
Proof.
  intros Hm Hc. unfold open_conns. destruct (cn_closed c') eqn:E.
  - rewrite map_filter_insert_False by (unfold is_open; simpl; congruence).
    rewrite map_filter_delete, delete_id; [done|]. apply map_lookup_filter_None_2. right. intros x Hx.
    assert (x = c) as -> by congruence. unfold is_open. simpl. congruence.
  - rewrite map_filter_insert_True by done. apply map_size_insert_Some. exists c.
    by apply map_lookup_filter_Some_2.
Qed.

Lemma open_insert_closed m id c c' : m !! id = Some c -> c.(cn_closed) = false -> c'.(cn_closed) = true ->
  S (size (open_conns (<[id := c']> m))) = size (open_conns m).
Proof.
  intros Hm Hc Hc'. unfold open_conns. rewrite map_filter_insert_False by (unfold is_open; simpl; congruence).
  rewrite map_filter_delete. rewrite map_size_delete_Some; [|exists c; by apply map_lookup_filter_Some_2].
  enough (size (filter is_open m) <> 0%nat) by lia. intros E%map_size_empty_inv.
  assert (filter is_open m !! id = Some c) as H by (by apply map_lookup_filter_Some_2). rewrite E in H. done.
Qed.

Lemma set_conn_ok isAllowed id c c' p :
  proxy_ok isAllowed p -> p.(px_conns) !! id = Some c -> c'.(cn_closed) = c.(cn_closed) ->
  (forall h q, target c'.(cn_stage) = Some (h, q) -> isAllowed h q = Ok true) ->
  proxy_ok isAllowed (set_conn id c' p).
Proof.
  intros [Ha Ht] Hc Hcl Htg. split; simpl.
  - by rewrite (open_insert_same _ _ c c').
  - intros id' x h q. destruct (decide (id' = id)) as [->|Hne].
    + rewrite lookup_insert_eq. intros [= <-]. apply Htg.
    + rewrite lookup_insert_ne by done. apply Ht.
Qed.

Lemma proxy_step_ok isAllowed e p : proxy_ok isAllowed p -> proxy_ok isAllowed (proxy_step isAllowed e p).
Proof.
  intros Hok. unfold proxy_step. destruct (px_crashed p) eqn:Ec; [done|].
  destruct e as [id|id bytes|id|id|id|id bytes]; destruct (px_conns p !! id) as [c|] eqn:E; try done.
  - destruct Hok as [Ha Ht]. split; simpl; [rewrite open_insert_new by done; lia|].
    intros id' x h q. destruct (decide (id' = id)) as [->|Hne]; [rewrite lookup_insert_eq; by intros [= <-]|].
    rewrite lookup_insert_ne by done. apply Ht.
  - destruct (cn_closed c) eqn:Ecl; [done|]. unfold on_data. destruct (cn_stage c) eqn:Es; try done.
    + destruct (_ =? 5); by eapply set_conn_ok.
    + unfold handleRequest. destruct (parse_request bytes) as [code| |h q]; [by eapply set_conn_ok|by destruct Hok|].
      destruct (isAllowed h q) as [[]|err] eqn:Eal; [|by eapply set_conn_ok|by destruct Hok].
      eapply set_conn_ok; [done..|]. intros h' q' [= <- <-]. done.
    + by destruct Hok.
  - destruct (cn_closed c) eqn:Ecl; [done|]. destruct Hok as [Ha Ht]. split; simpl.
    + pose proof (open_insert_closed _ _ c (mkConn (cn_stage c) true (cn_written c)) E Ecl eq_refl). lia.
    + intros id' x h q. destruct (decide (id' = id)) as [->|Hne]; [|rewrite lookup_insert_ne by done; apply Ht].
      rewrite lookup_insert_eq. intros [= <-]. simpl. by apply (Ht id c).
  - destruct (cn_stage c) eqn:Es; try done. eapply set_conn_ok; [done..|]. intros h q [= <- <-].
    by apply (targets_allowed _ _ Hok id c); [|rewrite Es].
  - destruct (cn_stage c) eqn:Es; try done; by eapply set_conn_ok.
  - destruct (cn_stage c) eqn:Es; try done. by destruct Hok.
Qed.

Lemma proxy_run_ok isAllowed es : proxy_ok isAllowed (proxy_run isAllowed es).
Proof.
  unfold proxy_run.
  assert (proxy_ok isAllowed proxy_start) as H by (split; [done|intros id c h q E; simpl in E; by rewrite lookup_empty in E]).
  revert H. generalize proxy_start. induction es as [|e es IH]; intros q Hq; [done|].
  apply IH. by apply proxy_step_ok.
Qed.

(** Also: After any sequence of socket events the proxy's session count is the
    number of client connections that have not closed, each counted down once
    however its close and its error are reported, and every connection that is
    being opened or piped is to a destination the policy allowed. *)
Theorem proxy_counts_and_contains isAllowed es :
  let p := proxy_run isAllowed es in
  p.(px_active) = Z.of_nat (size (open_conns p.(px_conns))) /\
  forall id c h q, p.(px_conns) !! id = Some c -> target c.(cn_stage) = Some (h, q) -> isAllowed h q = Ok true.
Proof.
  destruct (proxy_run_ok isAllowed es). done.
Qed.

(** When the port lies beyond the buffer. *)
Definition too_short (req : list Z) : bool :=
  (7 <=? length req)%nat && (byte_at 0 req =? 5) && (byte_at 1 req =? 1) &&
  (((byte_at 3 req =? 1) && (length req <? 10)%nat)
   || ((byte_at 3 req =? 3) && (length req <? 7 + Z.to_nat (byte_at 4 req))%nat)).

Lemma parse_truncated req : parse_request req = Truncated <-> too_short req = true.
Proof.
  unfold parse_request, too_short. rewrite Nat.ltb_antisym. destruct (7 <=? length req)%nat; cbn [negb orb andb]; [|done].
  destruct (byte_at 0 req =? 5); cbn [negb orb andb]; [|done]. destruct (byte_at 1 req =? 1); cbn [negb orb andb]; [|done].
  unfold read_port. destruct (byte_at 3 req =? 1) eqn:E3; cbn [orb andb].
  - bools. rewrite E3. cbn [Z.eqb Pos.eqb andb]. rewrite orb_false_r, Nat.ltb_lt.
    destruct (Nat.leb_spec (8 + 2) (length req)); split; (done || lia).
  - destruct (byte_at 3 req =? 3); cbn [andb]; [|done]. rewrite Nat.ltb_lt.
    destruct (Nat.leb_spec (5 + Z.to_nat (byte_at 4 req) + 2) (length req)); split; (done || lia).
Qed.

(** Also: Any client can end the proxy with one request: a CONNECT whose buffer
    stops before its port makes the read of the port throw in a promise nobody
    awaits, after which the process handles nothing more, for any client and
    whatever the policy. *)
Theorem truncated_request_ends_proxy isAllowed es id req es' :
  px_crashed (proxy_run isAllowed es) = false -> px_conns (proxy_run isAllowed es) !! id = None -> too_short req = true ->
  let p := proxy_run isAllowed (es ++ [Accept id; Data id [5; 1; 0]; Data id req]) in
  px_crashed p = true /\ proxy_run isAllowed (es ++ [Accept id; Data id [5; 1; 0]; Data id req] ++ es') = p.
Proof.
  intros Hc Hid Hreq p.
  assert (px_crashed p = true) as Hp.
  { unfold p, proxy_run. rewrite foldl_app. fold (proxy_run isAllowed es). set (q := proxy_run isAllowed es) in *.
    cbn [foldl].
    assert (exists p1, proxy_step isAllowed (Accept id) q = p1 /\ px_crashed p1 = false /\ px_conns p1 !! id = Some (mkConn AwaitGreeting false []))
      as (p1 & -> & C1 & L1) by (eexists; split; [done|]; unfold proxy_step; rewrite Hc, Hid; cbn [px_crashed px_conns]; by rewrite lookup_insert_eq).
    assert (exists p2, proxy_step isAllowed (Data id [5; 1; 0]) p1 = p2 /\ px_crashed p2 = false /\ px_conns p2 !! id = Some (mkConn AwaitRequest false [5; 0]))
      as (p2 & -> & C2 & L2) by (eexists; split; [done|]; unfold proxy_step; rewrite C1, L1; cbn; by rewrite lookup_insert_eq).
    unfold proxy_step. rewrite C2, L2. cbn [cn_closed]. unfold on_data. cbn [cn_stage]. unfold handleRequest.
    by rewrite (proj2 (parse_truncated req) Hreq). }
  split; [done|]. unfold proxy_run. rewrite app_assoc, foldl_app. fold (proxy_run isAllowed (es ++ [Accept id; Data id [5; 1; 0]; Data id req])).
  fold p. clearbody p. induction es' as [|e es' IH]; [done|]. simpl. unfold proxy_step at 2. by rewrite Hp.
Qed.

Lemma truncated_request_ends_proxy_witness :
  px_crashed (proxy_run (fun _ _ => Ok false) [Accept 1; Data 1 [5; 1; 0]; Data 1 [5; 1; 0; 1; 10; 0; 0]]) = true.
Proof.
  apply (truncated_request_ends_proxy (fun _ _ => Ok false) [] 1 [5; 1; 0; 1; 10; 0; 0] []); reflexivity.
Defined.
