(* ===== verification/Relay.v ===== *)
(** * The blind relay

    [BlindRelayServer] ([src/services/relay/relay-server.ts]): sessions, the index
    of their endpoints, and what a datagram is forwarded to. *)

From S2P Require Import Prelude Json Text Domain.
Open Scope Z_scope.

Record Endpoint := mkEndpoint { ep_host : string; ep_port : Z }.
#[export] Instance Endpoint_eq_dec : EqDecision Endpoint.
Proof. solve_decision. Defined.

Record RelaySession := mkSession { rs_id : string; rs_a : Endpoint; rs_b : Endpoint }.
#[export] Instance RelaySession_eq_dec : EqDecision RelaySession.
Proof. solve_decision. Defined.

Record RelayServer := mkRelayServer {
  sessions : gmap string RelaySession; byEndpoint : gmap string RelaySession; bytesRelayed : Z
}.

Definition relay_start : RelayServer := mkRelayServer ∅ ∅ 0.

Definition relay_key (e : Endpoint) : string := e.(ep_host) +:+ ":" +:+ str_of_Z e.(ep_port).

Definition register (s : RelaySession) (r : RelayServer) : RelayServer :=
  mkRelayServer (<[s.(rs_id) := s]> r.(sessions))
    (<[relay_key s.(rs_b) := s]> (<[relay_key s.(rs_a) := s]> r.(byEndpoint))) r.(bytesRelayed).

Definition unregister (sessionId : string) (r : RelayServer) : RelayServer :=
  match r.(sessions) !! sessionId with
  | None => r
  | Some s =>
      mkRelayServer (delete sessionId r.(sessions))
        (delete (relay_key s.(rs_b)) (delete (relay_key s.(rs_a)) r.(byEndpoint))) r.(bytesRelayed)
  end.

(** [forward]: the destination of a datagram, if it has one, and the new counter. *)
Definition forward (msg : string) (from : Endpoint) (r : RelayServer) : RelayServer * option (Endpoint * string) :=
  match r.(byEndpoint) !! relay_key from with
  | None => (r, None)
  | Some s =>
      let isA := bool_decide (from = s.(rs_a)) in
      let to_ := if isA then s.(rs_b) else s.(rs_a) in
      (mkRelayServer r.(sessions) r.(byEndpoint) (r.(bytesRelayed) + Z.of_nat (String.length msg)), Some (to_, msg))
  end.

Definition activeSessionCount (r : RelayServer) : nat := size r.(sessions).
Definition totalBytesRelayed (r : RelayServer) : Z := r.(bytesRelayed).

Inductive RelayEvent := Register (s : RelaySession) | Unregister (id : string) | Datagram (msg : string) (from : Endpoint).
Definition relay_step (e : RelayEvent) (r : RelayServer) : RelayServer :=
  match e with
  | Register s => register s r
  | Unregister id => unregister id r
  | Datagram msg from => (forward msg from r).1
  end.

(** ** Keys are endpoints *)

Lemma relay_key_inj e e' : relay_key e = relay_key e' -> e = e'.
Proof.
  destruct e as [h p], e' as [h' p']. unfold relay_key. simpl. intros H.
  assert (forall t u, all_chars num_char (t +:+ String ":" u) = false) as Hno.
  { intros t u. induction t as [|c t IH]; [done|]. rewrite app_cons_s. simpl. rewrite IH. apply andb_false_r. }
  assert (forall h h' s s', all_chars num_char s = true -> all_chars num_char s' = true ->
    h +:+ String ":" s = h' +:+ String ":" s' -> h = h' /\ s = s') as Hsplit.
  { intros g. induction g as [|c g IH]; intros [|c' g'] s s' Hs Hs' E; rewrite ?app_nil_s, ?app_cons_s in E.
    - by injection E as E.
    - injection E as _ E. by rewrite E, Hno in Hs.
    - injection E as _ E. by rewrite <- E, Hno in Hs'.
    - injection E as -> E. by destruct (IH _ _ _ Hs Hs' E) as [-> ->]. }
  apply Hsplit in H as [-> H]; [|apply str_of_Z_num..]. by apply (inj str_of_Z) in H as ->.
Qed.

(** ** What a datagram reaches *)

(** The index holds the endpoints of the live sessions and nothing else. *)
Definition index_exact (r : RelayServer) : Prop := forall k s,
  r.(byEndpoint) !! k = Some s <->
  r.(sessions) !! s.(rs_id) = Some s /\ (k = relay_key s.(rs_a) \/ k = relay_key s.(rs_b)).

(** A registration under a new id whose endpoints no session uses. *)
Definition fresh_session (s : RelaySession) (r : RelayServer) : Prop :=
  r.(sessions) !! s.(rs_id) = None /\ r.(byEndpoint) !! relay_key s.(rs_a) = None /\
  r.(byEndpoint) !! relay_key s.(rs_b) = None.

Lemma register_exact s r : index_exact r -> fresh_session s r -> index_exact (register s r).
Proof.
  intros Hr (Hid & Ha & Hb) k x. unfold register. simpl. rewrite !lookup_insert. split.
  - destruct (decide (relay_key (rs_b s) = k)) as [<-|Hkb]; [intros [= <-]; rewrite decide_True by done; by auto|].
    destruct (decide (relay_key (rs_a s) = k)) as [<-|Hka]; [intros [= <-]; rewrite decide_True by done; by auto|].
    intros [Hx Hk]%Hr. split; [|done]. rewrite decide_False; [done|]. intros E. rewrite <- E, Hid in Hx. done.
  - destruct (decide (rs_id s = rs_id x)) as [E|Hne].
    + intros [[= <-] [->| ->]]; [|by rewrite decide_True]. by destruct (decide _); [|rewrite decide_True].
    + intros [Hx Hk]. assert (byEndpoint r !! k = Some x) as Hkx by (apply Hr; done).
      rewrite !decide_False; [done|congruence..].
Qed.

(** Two live sessions share no endpoint. *)
Lemma index_disjoint r s s' k : index_exact r ->
  r.(sessions) !! s.(rs_id) = Some s -> r.(sessions) !! s'.(rs_id) = Some s' ->
  k = relay_key s.(rs_a) \/ k = relay_key s.(rs_b) -> k = relay_key s'.(rs_a) \/ k = relay_key s'.(rs_b) -> s = s'.
Proof.
  intros Hr H1 H2 K1 K2. assert (byEndpoint r !! k = Some s) by (by apply Hr).
  assert (byEndpoint r !! k = Some s') by (by apply Hr). congruence.
Qed.

Lemma unregister_exact id r : index_exact r -> (forall k s, r.(sessions) !! k = Some s -> s.(rs_id) = k) ->
  index_exact (unregister id r).
Proof.
  intros Hr Hkey. unfold unregister. destruct (sessions r !! id) as [s|] eqn:E; [|done].
  pose proof (Hkey id s E) as <-. intros k x. simpl. rewrite !lookup_delete. split.
  - destruct (decide (relay_key (rs_b s) = k)) as [|Hkb]; [done|].
    destruct (decide (relay_key (rs_a s) = k)) as [|Hka]; [done|].
    intros [Hx Hk]%Hr. split; [|done]. rewrite decide_False; [done|]. intros Eid.
    rewrite <- Eid, E in Hx. injection Hx as <-. destruct Hk; congruence.
  - destruct (decide (rs_id s = rs_id x)) as [|Hne]; [by intros []|]. intros [Hx Hk].
    rewrite !decide_False; [by apply Hr|..]; intros Ek; apply Hne; f_equal;
      apply (index_disjoint r s x k); auto.
Qed.

(** The servers that come of registrations under new ids at unused endpoints,
    in any order with removals and traffic. *)
Inductive relay_reachable : RelayServer -> Prop :=
  | reach_start : relay_reachable relay_start
  | reach_register s r : relay_reachable r -> fresh_session s r -> relay_reachable (relay_step (Register s) r)
  | reach_unregister id r : relay_reachable r -> relay_reachable (relay_step (Unregister id) r)
  | reach_datagram msg from r : relay_reachable r -> relay_reachable (relay_step (Datagram msg from) r).

Lemma reachable_keyed r : relay_reachable r -> forall k s, r.(sessions) !! k = Some s -> s.(rs_id) = k.
Proof.
  induction 1 as [|s r _ IH _|id r _ IH|msg from r _ IH]; simpl.
  - intros k s E. by rewrite lookup_empty in E.
  - intros k x. rewrite lookup_insert. destruct (decide _); [congruence|apply IH].
  - intros k x. unfold unregister. destruct (sessions r !! id); [|apply IH]. simpl.
    rewrite lookup_delete. destruct (decide _); [done|apply IH].
  - unfold forward. by destruct (byEndpoint r !! relay_key from).
Qed.

Lemma reachable_exact r : relay_reachable r -> index_exact r.
Proof.
  induction 1 as [|s r Hr IH Hf|id r Hr IH|msg from r Hr IH]; simpl.
  - intros k s. unfold relay_start. simpl. rewrite !lookup_empty. naive_solver.
  - by apply register_exact.
  - apply unregister_exact; [done|by apply reachable_keyed].
  - unfold forward. by destruct (byEndpoint r !! relay_key from).
Qed.

(** The specification: the peer of an endpoint in a set of live sessions. *)
Definition peer_in (live : gmap string RelaySession) (from to_ : Endpoint) : Prop :=
  exists s, live !! s.(rs_id) = Some s /\
    ((from = s.(rs_a) /\ to_ = s.(rs_b)) \/ (from = s.(rs_b) /\ to_ = s.(rs_a))).

Definition relay_run (es : list RelayEvent) (r : RelayServer) : RelayServer := foldl (fun r e => relay_step e r) r es.

(** Every registration was under a new id at unused endpoints when it was made. *)
Fixpoint tidy (es : list RelayEvent) (r : RelayServer) : Prop :=
  match es with
  | [] => True
  | e :: es' => match e with Register s => fresh_session s r | _ => True end /\ tidy es' (relay_step e r)
  end.

Lemma tidy_reachable es : forall r, relay_reachable r -> tidy es r -> relay_reachable (relay_run es r).
Proof.
  induction es as [|e es IH]; intros r Hr; [done|]. intros [He Ht]. apply IH; [|done].
  destruct e; by constructor.
Qed.

Definition session_ends (s : RelaySession) (from to_ : Endpoint) : Prop :=
  (from = s.(rs_a) /\ to_ = s.(rs_b)) \/ (from = s.(rs_b) /\ to_ = s.(rs_a)).

(** Whatever is in the index was registered, at that endpoint. *)
Lemma index_registered es : forall r,
  (forall k s, byEndpoint (relay_run es r) !! k = Some s ->
     (Register s ∈ es /\ (k = relay_key s.(rs_a) \/ k = relay_key s.(rs_b))) \/ byEndpoint r !! k = Some s).
Proof.
  induction es as [|e es IH]; intros r k s H; [by right|].
  destruct (IH _ k s H) as [[Hs Hk]|Hs]; [left; split; [by right|done]|].
  destruct e as [s'|id|msg from]; simpl in Hs.
  - unfold register in Hs. simpl in Hs. rewrite !lookup_insert in Hs.
    destruct (decide (relay_key (rs_b s') = k)) as [<-|]; [injection Hs as ->; left; split; [left|by right]|].
    destruct (decide (relay_key (rs_a s') = k)) as [<-|]; [injection Hs as ->; left; split; [left|by left]|by right].
  - right. unfold unregister in Hs. destruct (sessions r !! id) as [x|]; [|done]. simpl in Hs.
    rewrite !lookup_delete in Hs. repeat (destruct (decide _); [done|]). done.
  - right. unfold forward in Hs. by destruct (byEndpoint r !! relay_key from).
Qed.

(** C34: What the relay forwards.  After any sequence of registrations, removals and
    datagrams, a datagram is forwarded unchanged, the byte count grows by its length
    exactly when it was forwarded, and it goes to the other endpoint of a session that
    was registered with its sender.  When every registration was under a new id at
    endpoints that no session used, which the relay does not check, it implements the
    map of its live sessions: a datagram goes to the peer of its sender in a live
    session, and is dropped exactly when its sender is in none. *)
Theorem relay_implements_sessions es msg from :
  let r := relay_run es relay_start in
  match forward msg from r with
  | (r', Some (to_, m)) => m = msg /\ r'.(sessions) = r.(sessions) /\
      r'.(bytesRelayed) = r.(bytesRelayed) + Z.of_nat (String.length msg) /\
      (exists s, Register s ∈ es /\ session_ends s from to_) /\
      (tidy es relay_start -> peer_in r.(sessions) from to_)
  | (r', None) => r' = r /\ (tidy es relay_start -> forall to_, ~ peer_in r.(sessions) from to_)
  end.
Proof.
  intros r. assert (tidy es relay_start -> index_exact r) as Hr.
  { intros Ht. apply reachable_exact, tidy_reachable; [constructor|done]. }
  unfold forward. destruct (byEndpoint r !! relay_key from) as [s|] eqn:E.
  - destruct (index_registered es relay_start _ _ E) as [[Hs Hk]|Hs]; [|cbn in Hs; by rewrite lookup_empty in Hs].
    match goal with |- context [if ?b then ?x else ?y] => set (to_ := if b then x else y) end. assert (session_ends s from to_) as He.
    { unfold to_. case_bool_decide as Ha; [by left|]. right. split; [|done].
      destruct Hk as [Hk|Hk]; apply relay_key_inj in Hk; congruence. }
    split_and!; [done..|by exists s|]. intros Ht. apply (Hr Ht) in E as [Hl _]. by exists s.
  - split; [done|]. intros Ht to_ (s & Hs & Hft).
    assert (byEndpoint r !! relay_key from = Some s) by (apply (Hr Ht); split; [done|destruct Hft as [[-> _]|[-> _]]; auto]).
    congruence.
Qed.

Definition ep1 : Endpoint := mkEndpoint "198.51.100.1" 1000.
Definition ep2 : Endpoint := mkEndpoint "198.51.100.2" 2000.
Definition ep3 : Endpoint := mkEndpoint "198.51.100.3" 3000.

(** A registered session carries a datagram each way. *)
Example session_forwards :
  let es := [Register (mkSession "s" ep1 ep2); Datagram "x" ep1] in
  tidy es relay_start /\ (forward "hi" ep2 (relay_run es relay_start)).2 = Some (ep1, "hi").
Proof. vm_compute. by repeat split. Qed.

(** Also: A session registered again under its id with new endpoints leaves the
    old ones in the index: after it is unregistered, datagrams from the old
    endpoints are still forwarded, though no session is live. *)
Theorem reregistered_endpoint_lingers id a b c d msg :
  a <> c -> a <> d -> a <> b ->
  let r := unregister id (register (mkSession id c d) (register (mkSession id a b) relay_start)) in
  r.(sessions) = ∅ /\ (forward msg a r).2 = Some (b, msg).
Proof.
  intros Hc Hd Hb r. assert (forall e e', e <> e' -> relay_key e <> relay_key e') as Hk
    by (intros e e' Hne E; by apply Hne, relay_key_inj).
  unfold r, unregister, register. simpl. rewrite lookup_insert_eq. simpl. split.
  - by rewrite !delete_insert_eq, delete_empty.
  - unfold forward. simpl.
    rewrite !lookup_delete_ne, !lookup_insert_ne by (apply not_eq_sym, Hk; congruence).
    rewrite lookup_insert_eq. simpl. by rewrite bool_decide_eq_true_2.
Qed.

Lemma reregistered_endpoint_lingers_witness :
  let r := unregister "s" (register (mkSession "s" ep3 ep2) (register (mkSession "s" ep1 ep2) relay_start)) in
  (forward "x" ep1 r).2 = Some (ep2, "x").
Proof. apply (reregistered_endpoint_lingers "s" ep1 ep2 ep3 ep2 "x"); discriminate. Defined.
