(* ===== verification/Native.v ===== *)
(** * What the platform adapters share

    The parts [LinuxPlatformAdapter] ([src/native/linux/adapter.ts]) and
    [WindowsPlatformAdapter] ([src/native/windows/adapter.ts]) have in common.  An adapter acts
    on its machine through temporary files and programs run with an argument
    vector ([CommandRunner]); the state of the model is the list of these
    effects in the order they happen, and the programs' answers, the suffixes
    [mkdtempSync] draws and the files already present come from the class
    [Host].  Writing a temporary file does not fail. *)

From S2P Require Import Prelude Json Text Domain Words Database.
Open Scope Z_scope.

(** ** The machine *)

Inductive Effect :=
  | Mkdtemp (dir : string)
  | WriteFile (path content : string) (mode : option Z)
  | Run (cmd : string) (args : list string).

Notation Effects := (list Effect).

(** What the host answers after the effects so far: a program's standard output,
    or the error of a program that is missing or exits with a failure. *)
Class Host := {
  run_program : Effects -> string -> list string -> res string;
  tmp_suffix : Effects -> string;
  tmpdir : string;
  host_file : string -> option string
}.


Section adapters.
Context `{Hst : Host}.

Definition emit (e : Effect) : St Effects unit := modify (fun t => t ++ [e]).

Definition run (cmd : string) (args : list string) : St Effects string := fun t =>
  (t ++ [Run cmd args], run_program t cmd args).

(** [await this.run(...).catch(()=>{})] *)
Definition run_quietly (cmd : string) (args : list string) : St Effects unit :=
  try_catch (run cmd args ;;; mret tt) (fun _ => mret tt).

Definition path_join (dir file : string) : string := dir +:+ "/" +:+ file.

(** [mkdtempSync(join(tmpdir(),prefix))] *)
Definition mkdtempSync (prefix : string) : St Effects string := fun t =>
  let dir := path_join tmpdir (prefix +:+ tmp_suffix t) in
  (t ++ [Mkdtemp dir], Ok dir).

Definition writeFileSync (path content : string) (mode : option Z) : St Effects unit :=
  emit (WriteFile path content mode).

(** ** Values that reach a program *)

Definition quoted (s : string) : string := String dquote (s +:+ String dquote "").

Definition in_chars (set : string) (c : ascii) : bool :=
  existsb (Ascii.eqb c) (list_ascii_of_string set).
Definition char_between (lo hi : nat) (c : ascii) : bool :=
  (lo <=? nat_of_ascii c)%nat && (nat_of_ascii c <=? hi)%nat.

(** [[A-Za-z0-9+/]] *)
Definition base64_char (c : ascii) : bool :=
  char_between 65 90 c || char_between 97 122 c || char_between 48 57 c || in_chars "+/" c.

(** [/^[A-Za-z0-9+/]{42}[AEIMQUYcgkosw048]=$/] *)
Definition WG_KEY_RE (k : string) : bool :=
  (String.length k =? 44)%nat && all_chars base64_char (String.substring 0 42 k)
  && match String.get 42 k with Some c => in_chars "AEIMQUYcgkosw048" c | None => false end
  && String.eqb (String.substring 43 1 k) "=".

(** [[0-9a-fA-F.:]] *)
Definition cidr_char (c : ascii) : bool :=
  char_between 48 57 c || char_between 97 102 c || char_between 65 70 c || in_chars ".:" c.

(** [/^[0-9a-fA-F.:]+\/\d{1,3}$/] *)
Definition CIDR_RE (ip : string) : bool :=
  match split_on "/" ip with
  | [a; b] =>
      truthy a && all_chars cidr_char a
      && all_chars (char_between 48 57) b && (1 <=? String.length b)%nat && (String.length b <=? 3)%nat
  | _ => false
  end.

Definition assertKey (k field : string) : St Effects unit :=
  if WG_KEY_RE k then mret tt else throw (JsError ("invalid " +:+ field)).
Definition assertCidrList (ips : list string) : St Effects unit :=
  for_each ips (fun ip => if CIDR_RE ip then mret tt else throw (JsError ("invalid allowed-ip " +:+ ip))).

Record Peer := mkPeer {
  p_publicKey : string; p_endpoint : option string; p_allowedIps : list string; p_keepalive : Z
}.

Record WireGuardInput := mkWireGuard {
  wg_privateKeyReference : string; wg_addresses : list string; wg_listenPort : option Z; wg_peers : list Peer
}.

(** [input.listenPort], read as a condition *)
Definition port_set (p : option Z) : option Z :=
  match p with Some n => if n =? 0 then None else Some n | None => None end.
Definition endpoint_set (p : Peer) : option string :=
  match p.(p_endpoint) with Some e => if truthy e then Some e else None | None => None end.

Record FirewallRule := mkFirewallRule {
  fw_id : string; fw_allow : bool; fw_protocols : list string; fw_ports : list Z;
  fw_sourceZones : list string; fw_destinationZones : list string
}.
Record FirewallInput := mkFirewall { fw_commitId : string; fw_rules : list FirewallRule }.

(** The [[Peer]] sections of a [wg] configuration file, as both adapters write them. *)
Definition peer_lines (p : Peer) : list string :=
  ["[Peer]"; "PublicKey = " +:+ p.(p_publicKey); "AllowedIPs = " +:+ join ", " p.(p_allowedIps);
   "PersistentKeepalive = " +:+ str_of_Z p.(p_keepalive)]
  ++ match endpoint_set p with Some e => ["Endpoint = " +:+ e] | None => [] end.
Definition peers_conf (peers : list Peer) : string :=
  join nl (concat (map (fun p => peer_lines p ++ [""]) peers)).

(** [createHash("sha256").update(readFileSync(path)).digest("hex")] *)
Definition readFileHash (sha256 : string -> string) (path : string) : St Effects string :=
  match host_file path with
  | Some bytes => mret (to_hex (sha256 bytes))
  | None => throw (JsError ("ENOENT: no such file or directory, open '" +:+ path +:+ "'"))
  end.

End adapters.
