(* ===== verification/LinuxAdapter.v ===== *)
(** * The Linux adapter

    [LinuxPlatformAdapter] ([src/native/linux/adapter.ts]): WireGuard through
    [wg] and [ip], the firewall through [nft], name servers through
    [resolvectl], and the reading and replacing of the routing table. *)

From S2P Require Import Prelude Json Text Domain Words Database Native.
Open Scope Z_scope.

Section linux.
Context `{Hst : Host} (iface : string).

Definition requireBinary (name : string) : St Effects unit :=
  try_catch (run "which" [name] ;;; mret tt)
    (fun _ => throw (JsError ("required binary '" +:+ name +:+ "' not found on PATH"))).

Definition assert_peers (peers : list Peer) : St Effects unit :=
  for_each peers (fun p => assertKey p.(p_publicKey) "peer public key" ;;; assertCidrList p.(p_allowedIps)).

Definition peer_args (p : Peer) : list string :=
  ["peer"; p.(p_publicKey); "allowed-ips"; join "," p.(p_allowedIps);
   "persistent-keepalive"; str_of_Z p.(p_keepalive)]
  ++ match endpoint_set p with Some e => ["endpoint"; e] | None => [] end.

Definition wg_set_args (keyPath : string) (input : WireGuardInput) : list string :=
  ["set"; iface; "private-key"; keyPath]
  ++ match port_set input.(wg_listenPort) with Some n => ["listen-port"; str_of_Z n] | None => [] end
  ++ concat (map peer_args input.(wg_peers)).

Definition applyWireGuard (input : WireGuardInput) : St Effects unit :=
  requireBinary "wg" ;;;
  requireBinary "ip" ;;;
  assert_peers input.(wg_peers) ;;;
  assertCidrList input.(wg_addresses) ;;;
  let* exists_ := try_catch (run "ip" ["link"; "show"; iface] ;;; mret true) (fun _ => mret false) in
  (if exists_ : bool then mret tt
   else run "ip" ["link"; "add"; iface; "type"; "wireguard"] ;;; mret tt) ;;;
  let* dir := mkdtempSync "bapc-wg-" in
  let keyPath := path_join dir "private.key" in
  writeFileSync keyPath input.(wg_privateKeyReference) (Some 384) ;;;
  run "wg" (wg_set_args keyPath input) ;;;
  run "ip" ["link"; "set"; iface; "up"] ;;;
  for_each input.(wg_addresses) (fun addr => run_quietly "ip" ["address"; "replace"; addr; "dev"; iface]).

Definition applyPeers (peers : list Peer) : St Effects unit :=
  requireBinary "wg" ;;;
  assert_peers peers ;;;
  let* dir := mkdtempSync "bapc-wg-peers-" in
  let confPath := path_join dir "peers.conf" in
  writeFileSync confPath (peers_conf peers) None ;;;
  run "wg" ["syncconf"; iface; confPath] ;;;
  mret tt.

Definition rotatePrivateKey (privateKeyReference : string) : St Effects unit :=
  requireBinary "wg" ;;;
  let* dir := mkdtempSync "bapc-wg-rotate-" in
  let keyPath := path_join dir "private.key" in
  writeFileSync keyPath privateKeyReference (Some 384) ;;;
  run "wg" ["set"; iface; "private-key"; keyPath] ;;;
  mret tt.

(** One rule of the forward chain. *)
Definition nft_rule (r : FirewallRule) : string :=
  let proto := if includes r.(fw_protocols) "ANY" then "" else join "," (map toLowerCase r.(fw_protocols)) in
  let ports := match r.(fw_ports) with
               | [] => ""
               | ps => "{ " +:+ join "," (map str_of_Z ps) +:+ " }"
               end in
  let verb := if r.(fw_allow) then "accept" else "drop" in
  let portClause := if truthy proto && truthy ports then proto +:+ " dport " +:+ ports else "" in
  "    " +:+ portClause +:+ " counter " +:+ verb +:+ " comment " +:+ quoted r.(fw_id).

Definition nft_ruleset (input : FirewallInput) : list string :=
  ["table inet bapc_security {"; "  chain forward {";
   "    type filter hook forward priority 0; policy drop;"]
  ++ map nft_rule input.(fw_rules) ++ ["  }"; "}"].

Definition applyFirewall (input : FirewallInput) : St Effects unit :=
  requireBinary "nft" ;;;
  let* dir := mkdtempSync "bapc-nft-" in
  let rulesPath := path_join dir (input.(fw_commitId) +:+ ".nft") in
  writeFileSync rulesPath (join nl (nft_ruleset input) +:+ nl) None ;;;
  run "nft" ["-f"; rulesPath] ;;;
  mret tt.

Definition rollbackFirewall (_ : string) : St Effects unit :=
  requireBinary "nft" ;;;
  run_quietly "nft" ["delete"; "table"; "inet"; "bapc_security"].

Definition setKillSwitch (enabled : bool) : St Effects unit :=
  requireBinary "nft" ;;;
  if enabled then
    run_quietly "nft" ["add"; "table"; "inet"; "bapc_killswitch"] ;;;
    run_quietly "nft" ["add"; "chain"; "inet"; "bapc_killswitch"; "output";
      "{"; "type"; "filter"; "hook"; "output"; "priority"; "0;"; "policy"; "drop;"; "}"] ;;;
    run "nft" ["add"; "rule"; "inet"; "bapc_killswitch"; "output"; "oifname"; iface; "accept"] ;;;
    mret tt
  else run_quietly "nft" ["delete"; "table"; "inet"; "bapc_killswitch"].

Definition setDns (servers : list string) : St Effects unit :=
  requireBinary "resolvectl" ;;;
  run "resolvectl" (["dns"; iface] ++ servers) ;;;
  mret tt.

Definition isolate (_ : string) : St Effects unit :=
  requireBinary "nft" ;;;
  run_quietly "nft" ["add"; "table"; "inet"; "bapc_quarantine"] ;;;
  run_quietly "nft" ["add"; "chain"; "inet"; "bapc_quarantine"; "forward";
    "{"; "type"; "filter"; "hook"; "forward"; "priority"; "-10;"; "policy"; "drop;"; "}"].

Definition restore : St Effects unit :=
  requireBinary "nft" ;;;
  run_quietly "nft" ["delete"; "table"; "inet"; "bapc_quarantine"].

(** [existsSync(path)] *)
Definition existsSync (path : string) : bool := bool_decide (is_Some (host_file path)).

Definition collectPosture : St Effects json :=
  let* firewall := try_catch
    (let* stdout := run "nft" ["list"; "table"; "inet"; "bapc_security"] in mret (truthy stdout))
    (fun _ => mret false) in
  mret (JObj [("osCurrent", JBool true); ("diskEncrypted", JBool (existsSync "/etc/crypttab"));
    ("secureBoot", JBool (existsSync "/sys/firmware/efi/efivars")); ("firewallEnabled", JBool firewall);
    ("agentHealthy", JBool true); ("bannedProcessFound", JBool false)]).

(** *** Routes *)

(** [l.indexOf(x)], [None] for -1, and [l[l.indexOf(x)+1]] *)
Definition indexOf (x : string) (l : list string) : option nat :=
  fst <$> list_find (fun y => y = x) l.
Definition word_after (x : string) (l : list string) : option string :=
  i ← indexOf x l; l !! S i.

(** A route as it is read: [interfaceName] may be missing and [metric] not a number. *)
Record ReadRoute := mkReadRoute {
  rr_destination : string; rr_gateway : option string;
  rr_interface : option string; rr_metric : option Z
}.

Definition nonempty (o : option string) : option string :=
  match o with Some s => if truthy s then Some s else None | None => None end.

Definition parseIpRouteLine (line : string) : option ReadRoute :=
  let tokens := split_spaces (trim line) in
  match tokens with
  | [] => None
  | t :: _ =>
      if negb (truthy t) then None
      else match indexOf "dev" tokens with
           | None => None
           | Some _ => Some
               {| rr_destination := if String.eqb t "default" then "0.0.0.0/0" else t;
                  rr_gateway := nonempty (word_after "via" tokens);
                  rr_interface := word_after "dev" tokens;
                  rr_metric := match nonempty (word_after "metric" tokens) with
                               | Some m => js_number (JStr m)
                               | None => Some 0
                               end |}
           end
  end.

Definition readRoutes : St Effects (list ReadRoute) :=
  requireBinary "ip" ;;;
  let* stdout := run "ip" ["route"; "show"] in
  mret (omap parseIpRouteLine (split_on newline stdout)).

(** [args.splice(3,0,"via",r.gateway)] *)
Definition replace_args (r : Route) : list string :=
  let args := ["route"; "replace"; r.(destination); "dev"; r.(interfaceName); "metric"; str_of_Z r.(metric)] in
  match nonempty r.(gateway) with
  | Some g => take 3 args ++ ["via"; g] ++ drop 3 args
  | None => args
  end.

Definition replaceRoutes (routes : list Route) : St Effects unit :=
  requireBinary "ip" ;;;
  for_each routes (fun r => run "ip" (replace_args r) ;;; mret tt).

Definition clearTransientCredentials : St Effects unit :=
  requireBinary "ip" ;;;
  run_quietly "ip" ["link"; "set"; iface; "down"].

Definition applyFirewallPlan (plan : FirewallInput) : St Effects unit := applyFirewall plan.
End linux.


(** ** Reading the routing table *)

Lemma word_after_app x pre y post : x ∉ pre -> word_after x (pre ++ x :: y :: post) = Some y.
Proof.
  intros Hx. unfold word_after, indexOf.
  rewrite list_find_app_r by (apply list_find_None, Forall_forall; intros z Hz ->; done).
  simpl. rewrite decide_True by done. cbn. rewrite lookup_app_r by lia.
  replace (S _ - length pre)%nat with 1%nat by lia. done.
Qed.

Lemma word_after_none x l : x ∉ l -> word_after x l = None.
Proof.
  intros Hx. unfold word_after, indexOf.
  assert (list_find (fun y => y = x) l = None) as ->; [|done].
  apply list_find_None, Forall_forall. intros y Hy ->. done.
Qed.

Lemma indexOf_some x l : x ∈ l -> is_Some (indexOf x l).
Proof.
  intros Hx. unfold indexOf.
  destruct (list_find_elem_of (fun y => y = x) l x Hx eq_refl) as [p Hp].
  exists p.1. cbn in Hp. by rewrite Hp.
Qed.

(** A line whose words include [dev] is read by looking up the word after each keyword. *)
Lemma parse_words d rest trailing :
  Forall (fun w => word w = true) (d :: rest) -> "dev" ∈ d :: rest ->
  parseIpRouteLine (join " " (d :: rest) +:+ if trailing : bool then " " else "") = Some
    {| rr_destination := if String.eqb d "default" then "0.0.0.0/0" else d;
       rr_gateway := nonempty (word_after "via" (d :: rest));
       rr_interface := word_after "dev" (d :: rest);
       rr_metric := match nonempty (word_after "metric" (d :: rest)) with
                    | Some m => js_number (JStr m)
                    | None => Some 0
                    end |}.
Proof.
  intros Hw Hdev. unfold parseIpRouteLine. rewrite words_of_line by done.
  inversion Hw as [|? ? Hd _]; subst. apply andb_true_iff in Hd as [-> _]. cbn [negb].
  destruct (indexOf_some _ _ Hdev) as [i ->]. done.
Qed.

(** What a field of a route is: a word that is none of the keywords of a line. *)
Definition field (w : string) : bool := word w && negb (includes ["via"; "dev"; "metric"] w).

Record route_fields (r : Route) : Prop := {
  field_destination : field r.(destination) = true;
  not_default : r.(destination) <> "default";
  field_gateway : forall g, r.(gateway) = Some g -> field g = true;
  field_interface : field r.(interfaceName) = true
}.

(** The words of a route: the destination [d] as it is printed, the gateway, the
    interface, other attributes, and the metric part [m]. *)
Definition route_words (d : string) (r : Route) (extra m : list string) : list string :=
  d :: match r.(gateway) with Some g => ["via"; g] | None => [] end
  ++ ["dev"; r.(interfaceName)] ++ extra ++ m.

Definition metric_words (omit_zero : bool) (r : Route) : list string :=
  if omit_zero && (r.(metric) =? 0) then [] else ["metric"; str_of_Z r.(metric)].

Definition read_of (r : Route) : ReadRoute :=
  {| rr_destination := r.(destination); rr_gateway := r.(gateway);
     rr_interface := Some r.(interfaceName); rr_metric := Some r.(metric) |}.

Lemma field_word w : field w = true -> word w = true.
Proof. unfold field. by intros [? _]%andb_true_iff. Qed.

Lemma field_not w k : field w = true -> k ∈ ["via"; "dev"; "metric"] -> k <> w.
Proof.
  unfold field. intros [_ Hk]%andb_true_iff Hin ->. apply negb_true_iff in Hk.
  apply includes_spec in Hin. congruence.
Qed.

Lemma numeral_field z : field (str_of_Z z) = true.
Proof.
  unfold field. apply andb_true_iff. split; [apply str_of_Z_word|]. apply negb_true_iff.
  destruct (includes _ (str_of_Z z)) eqn:E; [|done]. apply includes_spec in E.
  pose proof (str_of_Z_num z) as Hn.
  rewrite !elem_of_cons in E. destruct E as [E|[E|[E|E]]]; [rewrite E in Hn; done..|by apply elem_of_nil in E].
Qed.

(** The destination as printed: [default] or an address. *)
Definition prints (d : string) (r : Route) : Prop :=
  d = r.(destination) \/ (d = "default" /\ r.(destination) = "0.0.0.0/0").

Lemma Forall_two {A} (P : A -> Prop) x y : P x -> P y -> Forall P [x; y].
Proof. by repeat constructor. Qed.

Section route_line.
Context (d : string) (r : Route) (extra : list string) (omit : bool).
Context (Hr : route_fields r) (Hp : prints d r) (Hextra : Forall (fun w => field w = true) extra).

Notation via_words := (match r.(gateway) with Some g => ["via"; g] | None => [] end).
Notation line_words := (route_words d r extra (metric_words omit r)).

Lemma destination_field : field d = true.
Proof. destruct Hp as [->|[-> _]]; [apply Hr|done]. Qed.

Lemma extra_free k : k ∈ ["via"; "dev"; "metric"] -> k ∉ extra.
Proof.
  intros Hk Hin. eapply Forall_forall in Hextra; [|exact Hin]. by apply (field_not _ k Hextra).
Qed.

Lemma via_free k : k ∈ ["dev"; "metric"] -> k ∉ via_words.
Proof.
  intros Hk Hin. destruct (gateway r) as [g|] eqn:E; [|set_solver].
  apply elem_of_cons in Hin as [->|Hin]; [set_solver|]. apply list_elem_of_singleton in Hin.
  apply (field_not _ k (field_gateway r Hr g E)); [set_solver|done].
Qed.

Lemma metric_free k : k ∈ ["via"; "dev"] -> k ∉ metric_words omit r.
Proof.
  intros Hk Hin. unfold metric_words in Hin. destruct (omit && _); [set_solver|].
  apply elem_of_cons in Hin as [->|Hin]; [set_solver|]. apply list_elem_of_singleton in Hin.
  apply (field_not _ k (numeral_field r.(metric))); [set_solver|done].
Qed.

Lemma line_words_ok : Forall (fun w => word w = true) line_words.
Proof.
  apply Forall_cons. split; [apply field_word, destination_field|]. rewrite !Forall_app. split_and!.
  - destruct (gateway r) as [g|] eqn:E; [|done].
    apply Forall_two; [done|]. by apply field_word, (field_gateway r Hr).
  - apply Forall_two; [done|]. apply field_word, (field_interface r Hr).
  - eapply Forall_impl; [exact Hextra|]. apply field_word.
  - unfold metric_words. destruct (omit && _); [done|].
    apply Forall_two; [done|]. apply str_of_Z_word.
Qed.

Lemma after_dev : word_after "dev" line_words = Some r.(interfaceName).
Proof.
  unfold route_words. rewrite app_comm_cons. apply word_after_app. apply not_elem_of_cons.
  split; [apply (field_not _ _ destination_field); set_solver|apply via_free; set_solver].
Qed.

Lemma after_via : nonempty (word_after "via" line_words) = r.(gateway).
Proof.
  pose proof destination_field as Hfd. unfold route_words. destruct (gateway r) as [g|] eqn:E.
  - assert ("via" ∉ [d]) as Hd.
    { apply not_elem_of_cons. split; [apply (field_not _ _ Hfd)|]; set_solver. }
    pose proof (word_after_app "via" [d] g (["dev"; interfaceName r] ++ extra ++ metric_words omit r) Hd) as W.
    cbn [app] in W |- *. rewrite W. cbn. pose proof (field_gateway r Hr g E) as Hg. by apply field_word, andb_true_iff in Hg as [-> _].
  - rewrite word_after_none; [done|]. rewrite app_nil_l.
    change (["dev"; interfaceName r] ++ extra ++ metric_words omit r) with
      ("dev" :: interfaceName r :: (extra ++ metric_words omit r)).
    rewrite !not_elem_of_cons, not_elem_of_app.
    split_and!; [apply (field_not _ _ Hfd); set_solver|done
      |apply (field_not _ _ (field_interface r Hr)); set_solver|apply extra_free; set_solver
      |apply metric_free; set_solver].
Qed.

Lemma after_metric :
  match nonempty (word_after "metric" line_words) with
  | Some m => js_number (JStr m)
  | None => Some 0
  end = Some r.(metric).
Proof.
  assert ("metric" ∉ (d :: via_words ++ ["dev"; interfaceName r] ++ extra)) as Hpre.
  { rewrite not_elem_of_cons, !not_elem_of_app, !not_elem_of_cons.
    split_and!; [apply (field_not _ _ destination_field); set_solver|apply via_free; set_solver|done
      |apply (field_not _ _ (field_interface r Hr)); set_solver|set_solver|apply extra_free; set_solver]. }
  unfold route_words, metric_words. destruct (omit && _) eqn:Em.
  - apply andb_true_iff in Em as [_ Em%Z.eqb_eq]. rewrite app_nil_r, word_after_none by done.
    by rewrite Em.
  - rewrite !app_assoc, app_comm_cons, word_after_app by (by rewrite <- !app_assoc).
    cbn. pose proof (str_of_Z_word (metric r)) as [Ht _]%andb_true_iff. rewrite Ht.
    apply js_number_numeral.
Qed.

Lemma parse_route (trailing : bool) :
  parseIpRouteLine (join " " line_words +:+ if trailing then " " else "") = Some (read_of r).
Proof.
  unfold route_words at 1. rewrite parse_words; [|apply line_words_ok|set_solver].
  fold (route_words d r extra (metric_words omit r)).
  rewrite after_dev, after_via, after_metric. unfold read_of. do 2 f_equal.
  destruct Hp as [->|[-> ->]]; [|done].
  destruct (String.eqb_spec (destination r) "default") as [Ed|]; [|done].
  by destruct (not_default r Hr).
Qed.
End route_line.

(** What [ip route show] prints: a line per route, the default route by name,
    no metric when it is 0, attributes such as [proto kernel scope link]. *)
Definition shown (r : Route) (extra : list string) : string :=
  join " " (route_words (if String.eqb r.(destination) "0.0.0.0/0" then "default" else r.(destination))
              r extra (metric_words true r)) +:+ " ".
Definition ip_route_show (table : list (Route * list string)) : string :=
  foldr (fun re rest => shown re.1 re.2 +:+ String newline rest) "" table.

Definition shown_ok (re : Route * list string) : Prop :=
  route_fields re.1 /\ Forall (fun w => field w = true) re.2.

Lemma parse_shown r extra :
  shown_ok (r, extra) -> parseIpRouteLine (shown r extra) = Some (read_of r).
Proof.
  intros [Hr Hx]. apply (parse_route _ r extra true Hr) with (trailing := true); [|done].
  unfold prints. destruct (String.eqb_spec (destination r) "0.0.0.0/0"); auto.
Qed.

Lemma shown_one_line r extra :
  shown_ok (r, extra) -> all_chars (fun c => negb (Ascii.eqb newline c)) (shown r extra) = true.
Proof.
  intros [Hr Hx]. unfold shown. rewrite all_chars_app. apply andb_true_iff. split; [|done].
  apply all_chars_join; [done|]. eapply Forall_impl.
  - apply (line_words_ok _ r extra true Hr); [|done].
    unfold prints. destruct (String.eqb_spec (destination r) "0.0.0.0/0"); auto.
  - intros w Hw. apply andb_true_iff in Hw as [_ Hw]. by apply word_no_newline.
Qed.

Lemma read_table table :
  Forall shown_ok table ->
  omap parseIpRouteLine (split_on newline (ip_route_show table)) = map (fun re => read_of re.1) table.
Proof.
  intros Ht.
  assert (ip_route_show table
          = foldr (fun l rest => l +:+ String newline rest) "" (map (fun re => shown re.1 re.2) table)) as ->.
  { unfold ip_route_show. clear Ht. induction table as [|re table IH]; [done|]. cbn [foldr map]. by rewrite IH. }
  rewrite split_on_lines.
  - rewrite omap_app. cbn. rewrite app_nil_r.
    induction Ht as [|[r extra] table Hre _ IH]; [done|]. cbn [map fst snd omap list_omap].
    by rewrite parse_shown, IH.
  - induction Ht as [|[r extra] table Hre _ IH]; [done|]. cbn [map].
    apply Forall_cons. split; [|done]. by apply shown_one_line.
Qed.

(** Also: Reading the routing table is the inverse of writing it.  Whatever routes
    the kernel holds, when [ip route show] prints them (a line each, the default
    route by name, a metric of 0 left out, other attributes in between),
    [readRoutes] returns exactly these routes; and the words [replaceRoutes] passes
    to [ip route replace] for a route are read back as that route. *)
Theorem routes_round_trip `{Host} (t : Effects) (table : list (Route * list string)) :
  Forall shown_ok table ->
  is_ok (run_program t "which" ["ip"]) = true ->
  run_program (t ++ [Run "which" ["ip"]]) "ip" ["route"; "show"] = Ok (ip_route_show table) ->
  (readRoutes t).2 = Ok (map (fun re => read_of re.1) table)
  /\ Forall (fun re => parseIpRouteLine (join " " (drop 2 (replace_args re.1))) = Some (read_of re.1)) table.
Proof.
  intros Ht Hip Hshow. split.
  - unfold readRoutes, requireBinary, try_catch, run, mbind, St_bind.
    destruct (run_program t "which" ["ip"]); [|done]. cbn. rewrite Hshow. cbn. by rewrite read_table.
  - eapply Forall_impl; [exact Ht|]. intros [r extra] [Hr _]. cbn [fst].
    pose proof (parse_route r.(destination) r [] false Hr (or_introl eq_refl) ltac:(by apply Forall_nil) false)
      as E. rewrite app_nil_r_s in E. rewrite <- E. do 2 f_equal. unfold replace_args, route_words, metric_words.
    destruct (gateway r) as [g|] eqn:Eg; [|done]. cbn [nonempty].
    pose proof (field_word _ (field_gateway r Hr g Eg)) as [Hg _]%andb_true_iff. by rewrite Hg.
Qed.

Definition sample_table : list (Route * list string) :=
  [(mkRoute "0.0.0.0/0" (Some "192.168.1.1") "eth0" 100, ["proto"; "dhcp"]);
   (mkRoute "10.144.0.0/24" None "bapc0" 0, ["proto"; "kernel"; "scope"; "link"])].

(** A host on which every program is installed and the table is the sample. *)
Definition sample_host : Host :=
  {| run_program := fun _ cmd args =>
       if String.eqb cmd "ip" && bool_decide (args = ["route"; "show"]) then Ok (ip_route_show sample_table)
       else Ok "";
     tmp_suffix := fun _ => "a1b2c3"; tmpdir := "/tmp"; host_file := fun _ => None |}.

Lemma sample_table_ok : Forall shown_ok sample_table.
Proof.
  apply Forall_two; (split; [split; [done|done| |done]|by repeat constructor]);
    cbn; intros g E; by simplify_eq.
Qed.

Lemma routes_round_trip_witness :
  (@readRoutes sample_host []).2 = Ok (map (fun re => read_of re.1) sample_table).
Proof.
  refine (proj1 (@routes_round_trip sample_host [] sample_table sample_table_ok eq_refl _)).
  vm_compute. reflexivity.
Defined.

(** ** Peers *)

Lemma requireBinary_effects `{Host} name t :
  requireBinary name t =
    (t ++ [Run "which" [name]],
     if is_ok (run_program t "which" [name]) then Ok tt
     else Throw (JsError ("required binary '" +:+ name +:+ "' not found on PATH"))).
Proof.
  unfold requireBinary, try_catch, run, mbind, St_bind. by destruct (run_program t "which" [name]).
Qed.

(** The check every peer passes before anything is written. *)
Definition peer_ok (p : Peer) : bool := WG_KEY_RE p.(p_publicKey) && forallb CIDR_RE p.(p_allowedIps).

Lemma assertCidrList_effects ips t :
  exists e, assertCidrList ips t = (t, if forallb CIDR_RE ips then Ok tt else Throw e).
Proof.
  induction ips as [|ip ips IH]; [by exists (JsError "")|]. unfold assertCidrList in *. cbn [for_each forallb].
  destruct (CIDR_RE ip); [exact IH|]. eexists. reflexivity.
Qed.

Lemma assert_peers_effects peers t :
  exists e, assert_peers peers t = (t, if forallb peer_ok peers then Ok tt else Throw e).
Proof.
  induction peers as [|p peers IH]; [by exists (JsError "")|]. unfold assert_peers in *. cbn [for_each forallb].
  unfold peer_ok at 1, assertKey, mbind, St_bind. destruct (WG_KEY_RE (p_publicKey p)); [|by eexists].
  cbn. destruct (assertCidrList_effects (p_allowedIps p) t) as [e ->].
  destruct (forallb CIDR_RE (p_allowedIps p)); [exact IH|]. eexists. reflexivity.
Qed.

Definition one_line (s : string) : bool := all_chars (fun c => negb (Ascii.eqb newline c)) s.

Lemma all_chars_get p s :
  all_chars p s = true <-> forall i c, String.get i s = Some c -> p c = true.
Proof.
  induction s as [|d s IH]; cbn [all_chars String.get]; [by split|].
  rewrite andb_true_iff, IH. split.
  - intros [Hd Hs] [|i] c E; [by simplify_eq|by eauto].
  - intros Hall. split; [by apply (Hall 0%nat)|]. intros i. apply (Hall (S i)).
Qed.

Lemma get_length i s c : String.get i s = Some c -> (i < String.length s)%nat.
Proof.
  revert i; induction s as [|d s IH]; intros [|i]; cbn; try done; [lia|]. intros Hc%IH. lia.
Qed.

Lemma key_one_line k : WG_KEY_RE k = true -> one_line k = true.
Proof.
  unfold WG_KEY_RE. rewrite !andb_true_iff. intros [[[Hl%Nat.eqb_eq Hb] Hc] He%String.eqb_eq].
  apply all_chars_get. intros i c Hi. pose proof (get_length _ _ _ Hi) as Hlt.
  assert (i < 42 \/ i = 42 \/ i = 43)%nat as [H42|[->| ->]] by lia.
  - rewrite all_chars_get in Hb. specialize (Hb i c).
    rewrite (String.substring_correct1 k 0 42 i H42), Nat.add_0_r in Hb.
    specialize (Hb Hi). destruct (Ascii.eqb_spec newline c) as [<-|]; done.
  - rewrite Hi in Hc. destruct (Ascii.eqb_spec newline c) as [<-|]; done.
  - pose proof (String.substring_correct1 k 43 1 0 ltac:(lia)) as E. cbn [Nat.add] in E.
    rewrite He, Hi in E. injection E as <-. done.
Qed.

Lemma cidr_one_line ip : CIDR_RE ip = true -> one_line ip = true.
Proof.
  unfold CIDR_RE. intros Hip. apply (split_on_chars _ "/"%char); [done|].
  destruct (split_on "/" ip) as [|a [|b [|]]]; [done..| |done]. bools.
  apply Forall_two; eapply all_chars_impl; try eassumption;
    intros c Hc; by destruct (Ascii.eqb_spec newline c) as [<-|].
Qed.

Lemma peer_lines_one_line p :
  peer_ok p = true -> (forall e, endpoint_set p = Some e -> one_line e = true) ->
  Forall (fun l => one_line l = true) (peer_lines p).
Proof.
  unfold peer_ok. intros [Hk Hips]%andb_true_iff He. unfold peer_lines, one_line.
  apply Forall_app. split; [repeat (apply Forall_cons; split); [done|..|by apply Forall_nil]|].
  - rewrite all_chars_app. by apply key_one_line in Hk.
  - rewrite all_chars_app. apply andb_true_iff. split; [done|]. apply all_chars_join; [done|].
    apply forallb_Forall in Hips. eapply Forall_impl; [exact Hips|]. apply cidr_one_line.
  - rewrite all_chars_app. apply andb_true_iff. split; [done|].
    pose proof (str_of_Z_word (p_keepalive p)) as [_ Hw]%andb_true_iff. by apply word_no_newline.
  - destruct (endpoint_set p) as [e|] eqn:E; [|done]. apply Forall_cons. split; [|done].
    rewrite all_chars_app. exact (He e eq_refl).
Qed.

Lemma peer_lines_prefix p l :
  l ∈ peer_lines p ->
  startsWith "[Interface]" l = false /\ startsWith "PrivateKey" l = false /\ startsWith "ListenPort" l = false.
Proof.
  unfold peer_lines. rewrite elem_of_app, !elem_of_cons.
  intros [[->|[->|[->|[->|Hn]]]]|Hl]; [done..|by apply elem_of_nil in Hn|].
  destruct (endpoint_set p); [|by apply elem_of_nil in Hl]. by apply list_elem_of_singleton in Hl as ->.
Qed.

(** The lines of the file [wg syncconf] reads. *)
Lemma peers_conf_lines peers :
  Forall (fun p => peer_ok p = true /\ forall e, endpoint_set p = Some e -> one_line e = true) peers ->
  peers <> [] ->
  split_on newline (peers_conf peers) = concat (map (fun p => peer_lines p ++ [""]) peers).
Proof.
  intros Hp Hne. unfold peers_conf, nl. apply split_on_join.
  - induction Hp as [|p peers [Hok He] _ IH]; [done|]. cbn [map concat]. apply Forall_app. split.
    + apply Forall_app. split; [by apply peer_lines_one_line|]. by repeat constructor.
    + destruct peers; [done|]. by apply IH.
  - by destruct peers.
Qed.

(** Also: A peer update touches the peers and nothing else.  [applyPeers] throws
    before it has written anything when [wg] is missing, or a peer's key or one of
    its allowed addresses is malformed; otherwise its effects are exactly one file
    and one [wg syncconf] of it, and, when no endpoint contains a line break, the
    lines of that file are the [[Peer]] sections of the peers in order, none of them
    an [[Interface]] header, a private key or a listening port. *)
Theorem applyPeers_only_peers `{Host} iface (t t' : Effects) (peers : list Peer) r :
  Forall (fun p => forall e, endpoint_set p = Some e -> one_line e = true) peers ->
  applyPeers iface peers t = (t', r) ->
  (t' = t ++ [Run "which" ["wg"]] /\ is_ok r = false
   /\ (is_ok (run_program t "which" ["wg"]) = false \/ forallb peer_ok peers = false))
  \/ (forallb peer_ok peers = true
      /\ exists dir conf, t' = t ++ [Run "which" ["wg"]; Mkdtemp dir; WriteFile conf (peers_conf peers) None;
                                    Run "wg" ["syncconf"; iface; conf]]
      /\ (peers <> [] -> split_on newline (peers_conf peers) = concat (map (fun p => peer_lines p ++ [""]) peers))
      /\ forall p l, p ∈ peers -> l ∈ peer_lines p ->
           startsWith "[Interface]" l = false /\ startsWith "PrivateKey" l = false /\ startsWith "ListenPort" l = false).
Proof.
  intros He. unfold applyPeers, mbind, St_bind. rewrite requireBinary_effects.
  destruct (is_ok (run_program t "which" ["wg"])) eqn:Hw; [|intros [= <- <-]; naive_solver].
  destruct (assert_peers_effects peers (t ++ [Run "which" ["wg"]])) as [e ->].
  destruct (forallb peer_ok peers) eqn:Hok; [|intros [= <- <-]; naive_solver].
  intros Hrun. right. split; [done|]. unfold mkdtempSync, writeFileSync, emit, modify, run in Hrun.
  do 2 eexists. split_and!.
  - destruct (run_program _ "wg" _) in Hrun; injection Hrun as <- _; by rewrite <- !app_assoc.
  - intros Hne. apply peers_conf_lines; [|done]. apply forallb_Forall in Hok.
    apply Forall_forall. intros p Hp. split; [by eapply Forall_forall in Hok|by eapply Forall_forall in He].
  - intros p l _. apply peer_lines_prefix.
Qed.

Definition sample_key : string := "AAAAAAAAAAAAAAAAAAAAAAAAAAAAAAAAAAAAAAAAAAc=".
Definition sample_peer : Peer := mkPeer sample_key (Some "relay.example:51820") ["10.144.0.6/32"] 25.

Lemma applyPeers_only_peers_witness :
  exists dir conf, (@applyPeers sample_host "bapc0" [sample_peer] []).1
    = [Run "which" ["wg"]; Mkdtemp dir; WriteFile conf (peers_conf [sample_peer]) None;
       Run "wg" ["syncconf"; "bapc0"; conf]].
Proof.
  assert (Forall (fun p => forall e, endpoint_set p = Some e -> one_line e = true) [sample_peer]) as Hone.
  { constructor; [|constructor]. intros e E. vm_compute in E. injection E as <-. vm_compute. reflexivity. }
  destruct (@applyPeers_only_peers sample_host "bapc0" [] _ [sample_peer] _ Hone eq_refl) as [Hbad|Hgood].
  - exfalso. destruct Hbad as (_ & Hr & _). vm_compute in Hr. discriminate Hr.
  - destruct Hgood as (_ & dir & conf & Ht & _). exists dir, conf. exact Ht.
Defined.

(** An endpoint with a line break puts a line of its own into the file. *)
Lemma endpoint_injects :
  let p := mkPeer sample_key (Some ("relay.example:51820" +:+ nl +:+ "[Interface]" +:+ nl +:+ "PrivateKey = x"))
             ["10.144.0.6/32"] 25 in
  (@applyPeers sample_host "bapc0" [p] []).2 = Ok tt
  /\ "PrivateKey = x" ∈ split_on newline (peers_conf [p]).
Proof. split; [vm_compute; reflexivity|]. apply includes_spec. vm_compute. reflexivity. Qed.

(** ** The firewall *)

(** The ruleset does not restrict a rule that names the protocol ANY: two
    such rules with the same id and action are the same line of the chain, whatever
    ports and zones they name, so a policy that allows port 443 between two zones
    over any protocol is loaded as an unconditional accept. *)
Lemma any_rule_unrestricted (r r' : FirewallRule) :
  r.(fw_id) = r'.(fw_id) -> r.(fw_allow) = r'.(fw_allow) ->
  "ANY" ∈ r.(fw_protocols) -> "ANY" ∈ r'.(fw_protocols) ->
  nft_rule r = nft_rule r'.
Proof.
  intros Hid Ha H1 H2. unfold nft_rule. apply includes_spec in H1 as ->. apply includes_spec in H2 as ->.
  by rewrite Hid, Ha.
Qed.
