(* ===== verification/WindowsAdapter.v ===== *)
(** * The Windows adapter

    [WindowsPlatformAdapter] ([src/native/windows/adapter.ts]): WireGuard
    through [wireguard.exe] and [wg.exe], everything else through the script
    [apply.ps1], which reads its payload from a file.  [JSON.parse] is a
    parameter. *)

From S2P Require Import Prelude Json Text Domain Words Database Native.
Open Scope Z_scope.

Section windows.
Context `{Hst : Host} (interfaceAlias SCRIPT_PATH : string) (parse : string -> res json).

Definition ps1_args (action : string) : list string :=
  ["-NoProfile"; "-NonInteractive"; "-ExecutionPolicy"; "Bypass"; "-File"; SCRIPT_PATH; "-Action"; action].

Definition invokePs1 (action : string) (payload : option json) : St Effects json :=
  let* args := match payload with
    | Some p =>
        let* dir := mkdtempSync "bapc-ps-" in
        let payloadPath := path_join dir "payload.json" in
        writeFileSync payloadPath (json_stringify p) None ;;;
        mret (ps1_args action ++ ["-PayloadPath"; payloadPath])
    | None => mret (ps1_args action)
    end in
  let* stdout := run "powershell.exe" args in
  let text := trim stdout in
  lift_res (parse (if truthy text then text else "{}")).

Definition assert_keys (peers : list Peer) : St Effects unit :=
  for_each peers (fun p =>
    if WG_KEY_RE p.(p_publicKey) then mret tt else throw (JsError "invalid peer public key")).

Definition tunnel_conf (input : WireGuardInput) : list string :=
  ["[Interface]"; "PrivateKey = " +:+ input.(wg_privateKeyReference);
   "Address = " +:+ join ", " input.(wg_addresses)]
  ++ match port_set input.(wg_listenPort) with Some n => ["ListenPort = " +:+ str_of_Z n] | None => [] end
  ++ concat (map (fun p => "" :: peer_lines p) input.(wg_peers)).

Definition applyWireGuard (input : WireGuardInput) : St Effects unit :=
  assert_keys input.(wg_peers) ;;;
  let* dir := mkdtempSync "bapc-wg-" in
  let confPath := path_join dir (interfaceAlias +:+ ".conf") in
  writeFileSync confPath (join nl (tunnel_conf input) +:+ nl) None ;;;
  run_quietly "wireguard.exe" ["/uninstalltunnelservice"; interfaceAlias] ;;;
  run "wireguard.exe" ["/installtunnelservice"; confPath] ;;;
  mret tt.

Definition applyPeers (peers : list Peer) : St Effects unit :=
  assert_keys peers ;;;
  let* dir := mkdtempSync "bapc-wg-peers-" in
  let confPath := path_join dir "peers.conf" in
  writeFileSync confPath (peers_conf peers) None ;;;
  run "wg.exe" ["syncconf"; interfaceAlias; confPath] ;;;
  mret tt.

Definition rotatePrivateKey (privateKeyReference : string) : St Effects unit :=
  let* dir := mkdtempSync "bapc-wg-rotate-" in
  let keyPath := path_join dir "private.key" in
  writeFileSync keyPath privateKeyReference None ;;;
  run "wg.exe" ["set"; interfaceAlias; "private-key"; keyPath] ;;;
  mret tt.

Definition firewall_json (input : FirewallInput) : json := JObj
  [("commitId", JStr input.(fw_commitId)); ("defaultAction", JStr "DENY");
   ("rules", JArr (map (fun r => JObj
      [("id", JStr r.(fw_id)); ("action", JStr (if r.(fw_allow) then "ALLOW" else "DENY"));
       ("protocols", jstrs r.(fw_protocols)); ("ports", JArr (map JNum r.(fw_ports)));
       ("sourceZones", jstrs r.(fw_sourceZones)); ("destinationZones", jstrs r.(fw_destinationZones))])
      input.(fw_rules)))].

Definition applyFirewall (input : FirewallInput) : St Effects unit :=
  invokePs1 "ApplyFirewall" (Some (firewall_json input)) ;;; mret tt.
Definition rollbackFirewall (commitId : string) : St Effects unit :=
  invokePs1 "RollbackFirewall" (Some (JObj [("commitId", JStr commitId)])) ;;; mret tt.
Definition setKillSwitch (enabled : bool) : St Effects unit :=
  invokePs1 "SetKillSwitch"
    (Some (JObj [("enabled", JBool enabled); ("interfaceAlias", JStr interfaceAlias)])) ;;; mret tt.
Definition setDns (servers : list string) : St Effects unit :=
  invokePs1 "SetDns"
    (Some (JObj [("servers", jstrs servers); ("interfaceAlias", JStr interfaceAlias)])) ;;; mret tt.
Definition isolate (_ : string) : St Effects unit := invokePs1 "Isolate" None ;;; mret tt.
Definition restore : St Effects unit := invokePs1 "Restore" None ;;; mret tt.
Definition collectPosture : St Effects json := invokePs1 "CollectPosture" None.

(** [Array.isArray(result.routes)?result.routes:[result.routes].filter(Boolean)] *)
Definition route_entries (result : json) : res (list json) :=
  match get_prop "routes" result with
  | Ok (Some (JArr l)) => Ok l
  | Ok o => Ok (if js_truthy o then option_list o else [])
  | Throw e => Throw e
  end.

(** One entry, with the [gateway] left out when it is falsy; a property that is
    missing is left out of the object. *)
Definition read_entry (r : json) : res json :=
  match get_prop "destination" r, get_prop "interfaceName" r, get_prop "metric" r, get_prop "gateway" r with
  | Ok d, Ok i, Ok m, Ok g =>
      Ok (JObj (jopt "destination" d ++ jopt "interfaceName" i ++ jopt "metric" m
                ++ (if js_truthy g then jopt "gateway" g else [])))
  | Throw e, _, _, _ | _, Throw e, _, _ | _, _, Throw e, _ | _, _, _, Throw e => Throw e
  end.

Fixpoint read_entries (l : list json) : res (list json) :=
  match l with
  | [] => Ok []
  | r :: l' =>
      match read_entry r, read_entries l' with
      | Ok x, Ok xs => Ok (x :: xs)
      | Throw e, _ | Ok _, Throw e => Throw e
      end
  end.

Definition readRoutes : St Effects (list json) :=
  let* result := invokePs1 "GetRoutes" None in
  lift_res (match route_entries result with Ok l => read_entries l | Throw e => Throw e end).

Definition replaceRoutes (routes : json) : St Effects unit :=
  invokePs1 "ReplaceRoutes" (Some (JObj [("routes", routes)])) ;;; mret tt.
Definition clearTransientCredentials : St Effects unit :=
  invokePs1 "ClearCredentials" (Some (JObj [("interfaceAlias", JStr interfaceAlias)])) ;;; mret tt.
Definition applyFirewallPlan (plan : FirewallInput) : St Effects unit := applyFirewall plan.
End windows.

(** ** The command line *)

(** The programs run, in order. *)
Definition commands (t : Effects) : list (string * list string) :=
  omap (fun e => match e with Run c a => Some (c, a) | _ => None end) t.

Lemma commands_app t u : commands (t ++ u) = commands t ++ commands u.
Proof. apply omap_app. Qed.

Lemma invokePs1_effects `{Host} script parse action payload t :
  let dir := path_join tmpdir ("bapc-ps-" +:+ tmp_suffix t) in
  let path := path_join dir "payload.json" in
  (invokePs1 script parse action (Some payload) t).1
    = t ++ [Mkdtemp dir; WriteFile path (json_stringify payload) None;
            Run "powershell.exe" (ps1_args script action ++ ["-PayloadPath"; path])].
Proof.
  cbv zeta. unfold invokePs1, mkdtempSync, writeFileSync, emit, modify, run, lift_res, mret, St_ret.
  unfold mbind, St_bind. destruct (run_program _ "powershell.exe" _) as [o|e]; cbn; by rewrite <- !app_assoc.
Qed.

(** Also: No value of a request reaches a command line.  The operations of the
    Windows adapter that carry a payload (firewall, kill switch, name servers,
    routes) run exactly one program, PowerShell on the adapter's own script, with
    arguments that are the same for every payload; the payload is in a file of a
    fresh directory, and what that file holds is its JSON text. *)
Theorem payload_off_command_line `{Host} alias script parse (t : Effects)
    (fw fw' : FirewallInput) (b b' : bool) (dns dns' : list string) (routes routes' : json) :
  let cmds {A} (m : St Effects A) := commands (m t).1 in
  let path := path_join (path_join tmpdir ("bapc-ps-" +:+ tmp_suffix t)) "payload.json" in
  cmds (applyFirewall script parse fw) = cmds (applyFirewall script parse fw')
  /\ cmds (setKillSwitch alias script parse b) = cmds (setKillSwitch alias script parse b')
  /\ cmds (setDns alias script parse dns) = cmds (setDns alias script parse dns')
  /\ cmds (replaceRoutes script parse routes) = cmds (replaceRoutes script parse routes')
  /\ cmds (applyFirewall script parse fw)
     = commands t ++ [("powershell.exe", ps1_args script "ApplyFirewall" ++ ["-PayloadPath"; path])]
  /\ WriteFile path (json_stringify (firewall_json fw)) None ∈ (applyFirewall script parse fw t).1.
Proof.
  cbv zeta.
  assert (Hps : forall action payload (k : json -> St Effects unit),
            (forall v t, (k v t).1 = t) ->
            ((let* v := invokePs1 script parse action (Some payload) in k v) t).1
            = (invokePs1 script parse action (Some payload) t).1).
  { intros action payload k Hk. unfold mbind, St_bind.
    destruct (invokePs1 script parse action (Some payload) t) as [u [v|e]]; [apply Hk|done]. }
  unfold applyFirewall, setKillSwitch, setDns, replaceRoutes.
  rewrite !Hps by done. rewrite !invokePs1_effects, !commands_app. cbn.
  split_and!; try done. set_solver.
Qed.
