(* ===== verification/Config.v ===== *)
(** * Configuration and hardware attestation

    [loadConfig] ([src/src/config.ts]), the attestation envelope, the providers
    and their factory ([src/src/infrastructure/attestation/*.ts]).  The
    environment is a function from variable names; [JSON.parse] of a quote and
    the two functions of [node:crypto] are parameters. *)

From S2P Require Import Prelude Json Text Domain Words.
From Stdlib Require Import QArith.
Open Scope Z_scope.

#[export] Instance res_bind : MBind res := fun A B k r =>
  match r with Ok a => k a | Throw e => Throw e end.
#[export] Instance res_ret : MRet res := fun A a => Ok a.

(** ** [Number] of a string

    The value of a numeric literal as an exact rational, before it is rounded to
    a double; [None] is [NaN] or an infinity. *)

Definition digit_value (c : ascii) : option Z :=
  let n := Z.of_nat (nat_of_ascii c) in if (48 <=? n) && (n <=? 57) then Some (n - 48) else None.

(** The digits at the start: their value after [acc], how many, what follows. *)
Fixpoint scan_digits (acc : Z) (k : nat) (s : string) : Z * nat * string :=
  match s with
  | EmptyString => (acc, k, s)
  | String c s' => match digit_value c with Some d => scan_digits (10 * acc + d) (S k) s' | None => (acc, k, s) end
  end.

Definition scan_sign (s : string) : Z * string :=
  match s with
  | String c s' => if Ascii.eqb c "-" then (-1, s') else if Ascii.eqb c "+" then (1, s') else (1, s)
  | EmptyString => (1, s)
  end.

(** [e] and an optional sign and digits, or nothing. *)
Definition scan_exponent (s : string) : option Z :=
  match s with
  | EmptyString => Some 0
  | String c s' =>
      if Ascii.eqb c "e" || Ascii.eqb c "E" then
        let '(sign, s1) := scan_sign s' in
        let '(e, k, rest) := scan_digits 0 0 s1 in
        if (0 <? k)%nat && negb (truthy rest) then Some (sign * e) else None
      else None
  end.

Definition decimal (s : string) : option Q :=
  let '(sign, s1) := scan_sign s in
  let '(i, ki, s2) := scan_digits 0 0 s1 in
  let '(m, kf, s3) := match s2 with
    | String c s' => if Ascii.eqb c "." then scan_digits i 0 s' else (i, 0%nat, s2)
    | EmptyString => (i, 0%nat, s2)
    end in
  if (ki + kf =? 0)%nat then None
  else e ← scan_exponent s3; Some (Qred (inject_Z (sign * m) * (10 # 1) ^ (e - Z.of_nat kf))%Q).

Fixpoint radix (base : Z) (acc : Z) (s : string) : option Z :=
  match s with
  | EmptyString => Some acc
  | String c s' =>
      match hex_value (lower_char c) with
      | Some d => if Z.of_nat d <? base then radix base (base * acc + Z.of_nat d) s' else None
      | None => None
      end
  end.

Definition Number (s : string) : option Q :=
  match trim s with
  | EmptyString => Some 0%Q
  | String z (String x (String d s')) =>
      let body := String d s' in
      let base := if Ascii.eqb z "0" then
        match lower_char x with "x"%char => Some 16 | "o"%char => Some 8 | "b"%char => Some 2 | _ => None end
        else None in
      match base with
      | Some b => inject_Z <$> radix b 0 body
      | None => decimal (String z (String x body))
      end
  | t => decimal t
  end.

(** ** [loadConfig] *)

Notation Env := (string -> option string).

Definition int (v : option string) (d : Z) : res Q :=
  match (match v with Some s => Number s | None => Some (inject_Z d) end) with
  | Some n => if Qle_bool n 0 then Throw (JsError "invalid numeric configuration") else Ok n
  | None => Throw (JsError "invalid numeric configuration")
  end.

Definition bool_ (v : option string) (d : bool) : bool :=
  match v with
  | None => d
  | Some s => includes ["1"; "true"; "yes"] (toLowerCase s)
  end.

Definition fraction (v : option string) (d : Z) : res Q :=
  let bad := Throw (JsError "invalid fractional configuration (must be between 0 and 1)") in
  match (match v with Some s => Number s | None => Some (inject_Z d) end) with
  | Some n => if negb (Qle_bool 0 n) || negb (Qle_bool n 1) then bad else Ok n
  | None => bad
  end.

Definition ecosystemSecret (v : option string) (name : string) (production : bool) : res string :=
  if production && (negb (truthy_opt v) || (String.length (default "" v) <? 32)%nat)
  then Throw (JsError ("production " +:+ name +:+ " shared secret must be set and at least 32 characters"))
  else Ok (match v with
           | Some s => if truthy s then s else "development-" +:+ name +:+ "-secret-change-me"
           | None => "development-" +:+ name +:+ "-secret-change-me"
           end).

Definition ATTESTATION_PROVIDERS : list string := ["development"; "windows-tpm"; "linux-tpm2"; "apple-secure-enclave"].

Record SecurityConfig := mkConfig {
  environment : string; attestationProvider : string; databaseUrl : string;
  certificateTtlMinutes : Q; keyRotationDays : Q; safeApplyTimeoutMs : Q;
  safeApplyNodeFailureThreshold : Q; authorizationRefreshMs : Q;
  controlApiTokenSecret : string; eventSigningSecret : string; bindHost : string; port_ : Q;
  oobRequired : bool; oobControllerUrl : string; oobSharedSecret : string;
  ecosystemSecrets : list (string * string)
}.

(** [a||b] of strings *)
Definition or_else (a b : string) : string := if truthy a then a else b.

Definition loadConfig (env : Env) : res SecurityConfig :=
  let environment := default "development" (env "NODE_ENV") in
  let secret := default "" (env "CONTROL_API_TOKEN_SECRET") in
  let eventSecret := default "" (env "EVENT_SIGNING_SECRET") in
  let oobSecret := default "" (env "OOB_SHARED_SECRET") in
  let production := String.eqb environment "production" in
  if production && ((String.length secret <? 32)%nat || (String.length eventSecret <? 32)%nat
                    || (String.length oobSecret <? 32)%nat)
  then Throw (JsError "production control/event signing/OOB shared secrets must be at least 32 characters")
  else if match env "ATTESTATION_PROVIDER" with Some p => negb (includes ATTESTATION_PROVIDERS p) | None => false end
  then Throw (JsError ("ATTESTATION_PROVIDER must be one of " +:+ join ", " ATTESTATION_PROVIDERS))
  else
    let provider := default "development" (env "ATTESTATION_PROVIDER") in
    if production && String.eqb provider "development"
    then Throw (JsError "ATTESTATION_PROVIDER=development (or unset) cannot be used when NODE_ENV=production")
    else
      let* ttl := int (env "CERTIFICATE_TTL_MINUTES") 1440 in
      let* rotation := int (env "KEY_ROTATION_DAYS") 30 in
      let* timeout := int (env "SAFE_APPLY_TIMEOUT_MS") 60000 in
      let* threshold := fraction (env "SAFE_APPLY_NODE_FAILURE_THRESHOLD") 0 in
      let* refresh := int (env "AUTH_REFRESH_MS") 30000 in
      let* port := int (env "PORT") 8080 in
      let* diagnostics := ecosystemSecret (env "DIAGNOSTICS_SHARED_SECRET") "diagnostics" production in
      let* headquarters := ecosystemSecret (env "HEADQUARTERS_SHARED_SECRET") "headquarters" production in
      let* cloud := ecosystemSecret (env "CLOUD_DEPLOYMENT_SHARED_SECRET") "cloud-deployment" production in
      let* integration := ecosystemSecret (env "INTEGRATION_SHARED_SECRET") "integration" production in
      Ok {| environment := environment; attestationProvider := provider;
            databaseUrl := default "postgres://localhost/bapc_security_core" (env "DATABASE_URL");
            certificateTtlMinutes := ttl; keyRotationDays := rotation; safeApplyTimeoutMs := timeout;
            safeApplyNodeFailureThreshold := threshold; authorizationRefreshMs := refresh;
            controlApiTokenSecret := or_else secret "development-only-change-me";
            eventSigningSecret := or_else eventSecret "development-event-secret-change-me";
            bindHost := default (if production then "0.0.0.0" else "127.0.0.1") (env "BIND_HOST");
            port_ := port; oobRequired := bool_ (env "OOB_REQUIRED") true;
            oobControllerUrl := default "http://127.0.0.1:8181" (env "OOB_CONTROLLER_URL");
            oobSharedSecret := or_else oobSecret "development-oob-shared-secret-change-me";
            ecosystemSecrets := [("diagnostics", diagnostics); ("headquarters", headquarters);
                                 ("cloud-deployment", cloud); ("integration", integration)] |}.

(** ** Attestation *)

Record AttestationEnvelope := mkEnvelope {
  ae_provider : string; ae_nonce : string; ae_pcrDigest : string; ae_akPublicKeyPem : string; ae_signature : string
}.

(** [/^[0-9a-f]{64}$/i] *)
Definition HEX64 (s : string) : bool :=
  (String.length s =? 64)%nat && all_chars (fun c => bool_decide (is_Some (hex_value (lower_char c)))) s.

Definition REAL_PROVIDERS : list string := ["windows-tpm"; "linux-tpm2"; "apple-secure-enclave"].

Section attestation.
Context `{Coll : Collation}.
(** [JSON.parse] of the quote's bytes, [createPublicKey(pem).asymmetricKeyType] and
    [createVerify("SHA256").update(payload).verify(pem,signature,"base64")]. *)
Context (parse : string -> res json) (keyTypeOf : string -> res (option string))
  (verify_signature : string -> string -> string -> res bool).

(** The string [e[k]], when it is one. *)
Definition string_field (k : string) (e : json) : option string :=
  match get_prop k e with Ok (Some (JStr s)) => Some s | _ => None end.

(** [inl] is an [AttestationEnvelopeError]. *)
Definition parseAttestationEnvelope (quote : string) : string + AttestationEnvelope :=
  match parse quote with
  | Throw _ => inl "attestation quote is not a valid attestation envelope (not JSON)"
  | Ok ((JObj _ | JArr _) as e) =>
      match string_field "provider" e with
      | Some provider =>
          if negb (includes REAL_PROVIDERS provider) then inl "attestation envelope has an unrecognized provider"
          else match string_field "nonce" e with
          | Some nonce =>
              if (String.length nonce <? 8)%nat
              then inl "attestation envelope nonce must be a string of at least 8 characters"
              else match string_field "pcrDigest" e with
              | Some pcr =>
                  if negb (HEX64 pcr)
                  then inl "attestation envelope pcrDigest must be a 64-character hex SHA-256 digest"
                  else match string_field "akPublicKeyPem" e with
                  | Some pem =>
                      if negb (str_includes "BEGIN PUBLIC KEY" pem)
                      then inl "attestation envelope akPublicKeyPem must be a PEM-encoded public key"
                      else match string_field "signature" e with
                      | Some s =>
                          if (String.length s =? 0)%nat then inl "attestation envelope signature is required"
                          else inr (mkEnvelope provider nonce pcr pem s)
                      | None => inl "attestation envelope signature is required"
                      end
                  | None => inl "attestation envelope akPublicKeyPem must be a PEM-encoded public key"
                  end
              | None => inl "attestation envelope pcrDigest must be a 64-character hex SHA-256 digest"
              end
          | None => inl "attestation envelope nonce must be a string of at least 8 characters"
          end
      | None => inl "attestation envelope has an unrecognized provider"
      end
  | Ok _ => inl "attestation envelope must be a JSON object"
  end.

Definition attestation_payload (hardwareId nonce pcrDigest : string) (identityPublicKeyPem : option string) : json :=
  JObj [("hardwareId", JStr hardwareId); ("nonce", JStr nonce); ("pcrDigest", JStr pcrDigest);
        ("identityPublicKeyPem", match identityPublicKeyPem with Some k => JStr k | None => JNull end)].

Definition attestationSignedPayload (hardwareId : string) (e : AttestationEnvelope)
    (identityPublicKeyPem : option string) : string :=
  canonicalJson (attestation_payload hardwareId e.(ae_nonce) e.(ae_pcrDigest) identityPublicKeyPem).

Notation Verifier := (string -> string -> option string -> res bool).

Definition DevelopmentAttestationProvider : Verifier := fun _ _ _ => Ok true.

(** [RealHardwareAttestationProvider.verify] *)
Definition real_verify (provider expectedKeyType : string) : Verifier :=
  fun hardwareId quote identityPublicKeyPem =>
    match parseAttestationEnvelope quote with
    | inl _ => Ok false
    | inr envelope =>
        if negb (String.eqb envelope.(ae_provider) provider) then Ok false
        else match keyTypeOf envelope.(ae_akPublicKeyPem) with
        | Throw _ => Ok false
        | Ok t =>
            if negb (String.eqb (default "" t) expectedKeyType) then Ok false
            else match verify_signature envelope.(ae_akPublicKeyPem)
                         (attestationSignedPayload hardwareId envelope identityPublicKeyPem)
                         envelope.(ae_signature) with
            | Ok b => Ok b
            | Throw _ => Ok false
            end
        end
    end.

Definition WindowsTpmAttestationProvider : Verifier := real_verify "windows-tpm" "rsa".
Definition LinuxTpm2AttestationProvider : Verifier := real_verify "linux-tpm2" "ec".
Definition AppleSecureEnclaveAttestationProvider : Verifier := fun _ _ _ =>
  Throw (JsError "Apple Secure Enclave attestation (DeviceCheck/App Attest) requires a native Swift component").

Definition buildAttestationVerifier (provider environment : string) : res Verifier :=
  if String.eqb provider "development" then
    if String.eqb environment "production"
    then Throw (JsError "ATTESTATION_PROVIDER=development cannot be used when NODE_ENV=production")
    else Ok DevelopmentAttestationProvider
  else if String.eqb provider "windows-tpm" then Ok WindowsTpmAttestationProvider
  else if String.eqb provider "linux-tpm2" then Ok LinuxTpm2AttestationProvider
  else Ok AppleSecureEnclaveAttestationProvider.
End attestation.

(** ** What a loaded configuration guarantees *)

Definition strong (s : string) : Prop := (32 <= String.length s)%nat.

Record config_ok (c : SecurityConfig) : Prop := {
  ok_provider : attestationProvider c ∈ ATTESTATION_PROVIDERS;
  ok_numbers : Forall (fun q => 0 < q)%Q [certificateTtlMinutes c; keyRotationDays c; safeApplyTimeoutMs c;
                                          authorizationRefreshMs c; port_ c];
  ok_threshold : (0 <= safeApplyNodeFailureThreshold c <= 1)%Q;
  ok_secrets : Forall (fun s => s <> "") ([controlApiTokenSecret c; eventSigningSecret c; oobSharedSecret c]
                                          ++ (ecosystemSecrets c).*2);
  ok_production : environment c = "production" ->
    attestationProvider c <> "development"
    /\ Forall strong ([controlApiTokenSecret c; eventSigningSecret c; oobSharedSecret c] ++ (ecosystemSecrets c).*2)
}.

Lemma res_bind_ok {A B} (r : res A) (k : A -> res B) b :
  (r ≫= k) = Ok b -> exists a, r = Ok a /\ k a = Ok b.
Proof. destruct r as [a|e]; [|done]. eauto. Qed.

Lemma int_positive v d q : int v d = Ok q -> (0 < q)%Q.
Proof.
  unfold int. destruct (match v with Some s => Number s | None => _ end) as [n|]; [|done].
  destruct (Qle_bool n 0) eqn:E; [done|]. intros [= <-].
  apply Qnot_le_lt. intros Hle%Qle_bool_iff. congruence.
Qed.

Lemma fraction_range v d q : fraction v d = Ok q -> (0 <= q <= 1)%Q.
Proof.
  unfold fraction. destruct (match v with Some s => Number s | None => _ end) as [n|]; [|done].
  destruct (Qle_bool 0 n) eqn:E1, (Qle_bool n 1) eqn:E2; cbn; try done. intros [= <-].
  by split; apply Qle_bool_iff.
Qed.

Lemma or_else_nonempty a b : b <> "" -> or_else a b <> "".
Proof. unfold or_else. destruct (truthy a) eqn:E; [|done]. by apply truthy_spec in E. Qed.

Lemma or_else_strong a b : (String.length a <? 32)%nat = false -> strong (or_else a b).
Proof.
  intros Hl%Nat.ltb_ge. unfold or_else. destruct (truthy a) eqn:E; [exact Hl|].
  apply negb_false_iff, String.eqb_eq in E as ->. simpl in Hl. lia.
Qed.

Lemma ecosystemSecret_spec v name production s :
  ecosystemSecret v name production = Ok s -> s <> "" /\ (production = true -> strong s).
Proof.
  unfold ecosystemSecret, strong. destruct (production && _) eqn:E; [done|]. intros [= <-].
  split.
  - destruct v as [w|]; [|done]. destruct (truthy w) eqn:T; [by apply truthy_spec in T|done].
  - intros ->. cbn [andb] in E. apply orb_false_iff in E as [E1 E2].
    destruct v as [w|]; [|done]. apply negb_false_iff in E1. cbn in E1. rewrite E1.
    by apply Nat.ltb_ge in E2.
Qed.

Lemma loadConfig_guarantees (env : Env) c :
  loadConfig env = Ok c -> environment c = default "development" (env "NODE_ENV") /\ config_ok c.
Proof.
  unfold loadConfig. destruct (_ && _) eqn:Hs; [done|].
  destruct (match env "ATTESTATION_PROVIDER" with Some _ => _ | None => _ end) eqn:Hp; [done|].
  destruct (_ && String.eqb _ "development") eqn:Hd; [done|]. intros H.
  apply res_bind_ok in H as (ttl & Ettl%int_positive & H).
  apply res_bind_ok in H as (rot & Erot%int_positive & H).
  apply res_bind_ok in H as (tmo & Etmo%int_positive & H).
  apply res_bind_ok in H as (thr & Ethr%fraction_range & H).
  apply res_bind_ok in H as (ref & Eref%int_positive & H).
  apply res_bind_ok in H as (prt & Eprt%int_positive & H).
  apply res_bind_ok in H as (s1 & [N1 S1]%ecosystemSecret_spec & H).
  apply res_bind_ok in H as (s2 & [N2 S2]%ecosystemSecret_spec & H).
  apply res_bind_ok in H as (s3 & [N3 S3]%ecosystemSecret_spec & H).
  apply res_bind_ok in H as (s4 & [N4 S4]%ecosystemSecret_spec & H).
  injection H as <-. split; [done|]. split; cbn.
  - destruct (env "ATTESTATION_PROVIDER") as [p|]; [|left]. by apply negb_false_iff, includes_spec in Hp.
  - by repeat constructor.
  - done.
  - repeat constructor; try done; by apply or_else_nonempty.
  - intros Henv. rewrite Henv in *. cbn [String.eqb Ascii.eqb Bool.eqb andb] in *.
    apply orb_false_iff in Hs as [Hs Hs3]. apply orb_false_iff in Hs as [Hs1 Hs2].
    split; [by apply String.eqb_neq|].
    repeat constructor; first [by apply or_else_strong | auto].
Qed.

(** C37: A configuration that loads is usable, and a production one is safe: every
    interval and the port are positive, the failure threshold is between 0 and 1,
    the attestation provider is a known one and no shared secret is empty; when
    NODE_ENV is production, each of the seven secrets has at least 32 characters and
    the allow-all development provider is not selected. *)
Theorem loadConfig_sound (env : Env) c :
  loadConfig env = Ok c -> environment c = default "development" (env "NODE_ENV") /\ config_ok c.
Proof. apply loadConfig_guarantees. Qed.

Definition sample_secret : string := "0123456789abcdef0123456789abcdef".
Definition sample_env : Env := fun k =>
  if String.eqb k "NODE_ENV" then Some "production"
  else if String.eqb k "ATTESTATION_PROVIDER" then Some "linux-tpm2"
  else if includes ["CONTROL_API_TOKEN_SECRET"; "EVENT_SIGNING_SECRET"; "OOB_SHARED_SECRET";
                    "DIAGNOSTICS_SHARED_SECRET"; "HEADQUARTERS_SHARED_SECRET";
                    "CLOUD_DEPLOYMENT_SHARED_SECRET"; "INTEGRATION_SHARED_SECRET"] k then Some sample_secret
  else if String.eqb k "SAFE_APPLY_NODE_FAILURE_THRESHOLD" then Some "2.5e-1"
  else if String.eqb k "PORT" then Some "0x1F90"
  else None.

Lemma loadConfig_sound_witness :
  exists c, loadConfig sample_env = Ok c /\ port_ c = 8080%Q
            /\ safeApplyNodeFailureThreshold c = (1 # 4)%Q /\ config_ok c.
Proof.
  destruct (loadConfig sample_env) as [c|e] eqn:E; [|vm_compute in E; discriminate E].
  exists c. pose proof (proj2 (loadConfig_sound sample_env c E)) as Hok.
  vm_compute in E. injection E as <-. split; [reflexivity|]. split; [reflexivity|]. split; [reflexivity|exact Hok].
Defined.

(** ** What an accepted quote guarantees *)

(** The signed text determines the four values it is made of. *)
Lemma payload_determines `{Collation} hw hw' n n' p p' k k' :
  canonicalJson (attestation_payload hw n p k) = canonicalJson (attestation_payload hw' n' p' k') ->
  hw = hw' /\ n = n' /\ p = p' /\ k = k'.
Proof.
  intros E. assert (Hwf : forall hw n p k, json_wf (attestation_payload hw n p k) = true).
  { intros ? ? ? [?|]; unfold attestation_payload; vm_compute; reflexivity. }
  apply canonicalJson_determines in E; [|apply Hwf..].
  assert (forall key v v', _ -> _ -> jequiv v v') as G
    by (intros key v v'; exact (jequiv_obj_member _ _ key v v' (Hwf hw' n' p' k') E)).
  split_and!.
  - specialize (G "hardwareId" (JStr hw) (JStr hw') ltac:(set_solver) ltac:(set_solver)). by inversion G.
  - specialize (G "nonce" (JStr n) (JStr n') ltac:(set_solver) ltac:(set_solver)). by inversion G.
  - specialize (G "pcrDigest" (JStr p) (JStr p') ltac:(set_solver) ltac:(set_solver)). by inversion G.
  - specialize (G "identityPublicKeyPem" (match k with Some x => JStr x | None => JNull end)
                  (match k' with Some x => JStr x | None => JNull end) ltac:(set_solver) ltac:(set_solver)).
    by destruct k, k'; inversion G.
Qed.

Lemma real_verify_true `{Collation} parse keyTypeOf verify_signature provider kt hw quote key :
  real_verify parse keyTypeOf verify_signature provider kt hw quote key = Ok true ->
  exists e t, parseAttestationEnvelope parse quote = inr e /\ ae_provider e = provider
    /\ keyTypeOf (ae_akPublicKeyPem e) = Ok t /\ default "" t = kt
    /\ verify_signature (ae_akPublicKeyPem e) (attestationSignedPayload hw e key) (ae_signature e) = Ok true.
Proof.
  unfold real_verify. destruct (parseAttestationEnvelope parse quote) as [|e]; [done|].
  destruct (String.eqb_spec (ae_provider e) provider) as [Ep|]; [|done]. cbn [negb].
  destruct (keyTypeOf (ae_akPublicKeyPem e)) as [t|] eqn:Et; [|done].
  destruct (String.eqb_spec (default "" t) kt) as [Ek|]; [|done]. cbn [negb].
  destruct (verify_signature _ _ _) as [b|] eqn:Ev; [|done]. intros [= ->]. exists e, t. by split_and!.
Qed.

(** The key family each provider expects. *)
Definition key_family (provider : string) : string :=
  if String.eqb provider "windows-tpm" then "rsa" else "ec".

(** C18: In production, enrollment needs evidence for this very device and identity.
    With any configuration that loads with NODE_ENV=production, the factory builds a
    verifier, and that verifier accepts a quote only if it is an envelope of the
    configured provider, with a key of that provider's family, whose signature
    verifies over the canonical text of this hardware id, nonce, digest and identity
    key; and no other hardware id, envelope or identity key has that text. *)
Theorem production_attestation_binds `{Collation} parse keyTypeOf verify_signature (env : Env) c :
  loadConfig env = Ok c -> env "NODE_ENV" = Some "production" ->
  exists v, buildAttestationVerifier parse keyTypeOf verify_signature (attestationProvider c) (environment c) = Ok v
  /\ forall hw quote key, v hw quote key = Ok true ->
     exists e t, parseAttestationEnvelope parse quote = inr e
       /\ ae_provider e = attestationProvider c
       /\ keyTypeOf (ae_akPublicKeyPem e) = Ok t /\ default "" t = key_family (attestationProvider c)
       /\ verify_signature (ae_akPublicKeyPem e) (attestationSignedPayload hw e key) (ae_signature e) = Ok true
       /\ forall hw' e' key', attestationSignedPayload hw' e' key' = attestationSignedPayload hw e key ->
            hw' = hw /\ key' = key /\ ae_nonce e' = ae_nonce e /\ ae_pcrDigest e' = ae_pcrDigest e.
Proof.
  intros Hc Henv. destruct (loadConfig_guarantees env c Hc) as [Hen [Hprov _ _ _ Hprod]].
  rewrite Henv in Hen. destruct (Hprod Hen) as [Hdev _]. unfold buildAttestationVerifier, key_family.
  rewrite (proj2 (String.eqb_neq _ _) Hdev).
  assert (Hall : forall p kt hw quote key,
    real_verify parse keyTypeOf verify_signature p kt hw quote key = Ok true ->
    exists e t, parseAttestationEnvelope parse quote = inr e /\ ae_provider e = p
      /\ keyTypeOf (ae_akPublicKeyPem e) = Ok t /\ default "" t = kt
      /\ verify_signature (ae_akPublicKeyPem e) (attestationSignedPayload hw e key) (ae_signature e) = Ok true
      /\ forall hw' e' key', attestationSignedPayload hw' e' key' = attestationSignedPayload hw e key ->
           hw' = hw /\ key' = key /\ ae_nonce e' = ae_nonce e /\ ae_pcrDigest e' = ae_pcrDigest e).
  { intros p kt hw quote key (e & t & H1 & H2 & H3 & H4 & H5)%real_verify_true. exists e, t. split_and!; try done.
    intros hw' e' key' (-> & -> & -> & ->)%payload_determines. done. }
  destruct (String.eqb_spec (attestationProvider c) "windows-tpm") as [->|].
  { eexists. split; [done|]. apply Hall. }
  destruct (String.eqb_spec (attestationProvider c) "linux-tpm2") as [->|].
  { eexists. split; [done|]. apply Hall. }
  eexists. split; [done|]. intros hw quote key Hv. discriminate Hv.
Qed.

(** A device whose quote is its signature: the sample signs nothing but its own payload. *)
Definition sample_envelope : AttestationEnvelope :=
  mkEnvelope "linux-tpm2" "nonce-0001" (sample_secret +:+ sample_secret)
    "-----BEGIN PUBLIC KEY-----" "c2lnbmF0dXJl".
Definition sample_quote_json : json := JObj
  [("provider", JStr (ae_provider sample_envelope)); ("nonce", JStr (ae_nonce sample_envelope));
   ("pcrDigest", JStr (ae_pcrDigest sample_envelope)); ("akPublicKeyPem", JStr (ae_akPublicKeyPem sample_envelope));
   ("signature", JStr (ae_signature sample_envelope))].

Lemma production_attestation_binds_witness :
  let parse := fun _ : string => Ok sample_quote_json in
  let keyTypeOf := fun _ : string => Ok (Some "ec") in
  let verify := fun _ payload _ : string =>
    Ok (String.eqb payload (@attestationSignedPayload code_point_collation "hw-1" sample_envelope (Some "KEY"))) in
  exists v, @buildAttestationVerifier code_point_collation parse keyTypeOf verify "linux-tpm2" "production" = Ok v
    /\ v "hw-1" "quote" (Some "KEY") = Ok true /\ v "hw-2" "quote" (Some "KEY") = Ok false.
Proof.
  intros parse keyTypeOf verify. destruct (loadConfig sample_env) as [c|e] eqn:E; [|vm_compute in E; discriminate E].
  destruct (@production_attestation_binds code_point_collation parse keyTypeOf verify sample_env c E eq_refl)
    as (v & Hb & _).
  vm_compute in E. injection E as <-. exists v. split; [exact Hb|].
  injection Hb as <-. split; vm_compute; reflexivity.
Defined.
