(* ===== verification/Enrollment.v ===== *)
(** * Enrollment and the mesh service

    [EnrollmentService] ([src/src/application/enrollment.ts]) and the handlers of
    the gRPC mesh service ([src/src/api/grpc/server.ts]) over the repositories,
    the certificate issuer, the mesh controller, the key-rotation ledger and the
    command queue.  The attestation verifier, the X.509 builder, the parsing of a
    CSR and the RSA verification are parameters; identifiers and the clock are
    arguments. *)

From S2P Require Import Prelude Json Text Domain Database Repositories CommandQueue Mesh Certificates Rest.
Open Scope Z_scope.

Record EnrollmentRequest := mkEnrollment {
  er_hostname : string; er_hardwareId : string; er_platform : Platform; er_osVersion : string;
  er_attestationQuote : string; er_attestationPublicKey : string; er_wireGuardPublicKey : string;
  er_internalIpv4 : string; er_internalIpv6 : string; er_zone : SecurityZone
}.

Record EnrollmentResult := mkEnrolled {
  en_device : Device; en_node : MeshNode; en_certificate : IssuedCertificate; en_peers : list MeshNode
}.

(** The identifiers one enrollment draws and the time it reads. *)
Record Draw := mkDraw {
  dr_device : string; dr_node : string; dr_serial : string; dr_certificate : string; dr_now : Date
}.

Inductive GrpcCode := INVALID_ARGUMENT | FAILED_PRECONDITION.
Inductive GrpcReply (A : Type) : Type :=
  | Reply (a : A)
  | GrpcError (code : GrpcCode) (message : string).
Arguments Reply {A} _.
Arguments GrpcError {A} _ _.

Section service.
Context `{Coll : Collation} (sha256 : string -> string).
Context (attest : string -> string -> option string -> res bool).
Context (x509_create : X509Input -> res string) (issuerId : string) (certificateTtlMinutes : Z).
Context (relays : option (list RelayHealth)).

Definition enrolled_posture (now : Date) : DevicePosture :=
  {| osCurrent := true; diskEncrypted := true; secureBoot := true; firewallEnabled := true;
     agentHealthy := true; bannedProcessFound := false; assessedAt := now |}.

Definition enrolled_device (r : EnrollmentRequest) (dr : Draw) : Device :=
  mkDevice dr.(dr_device) r.(er_hostname) r.(er_hardwareId) r.(er_platform) r.(er_osVersion)
    (Some r.(er_attestationPublicKey)) false false (enrolled_posture dr.(dr_now)) dr.(dr_now) dr.(dr_now)
    None None None.

Definition enrolled_node (r : EnrollmentRequest) (dr : Draw) : MeshNode :=
  mkNode dr.(dr_node) dr.(dr_device) r.(er_wireGuardPublicKey) r.(er_internalIpv4) r.(er_internalIpv6)
    51820 SERVER r.(er_zone) None true None.

(** [EnrollmentService.register] *)
Definition register (r : EnrollmentRequest) (dr : Draw) : St Db EnrollmentResult :=
  if negb (truthy r.(er_wireGuardPublicKey)) || negb (truthy r.(er_hardwareId))
  then throw (ValidationError "hardware and public keys are required")
  else if negb (truthy r.(er_attestationPublicKey))
  then throw (ValidationError "a verified certificate public key (attestationPublicKey) is required")
  else
    let* byHardware := gets (findByHardwareId r.(er_hardwareId)) in
    match byHardware with
    | Some _ => throw (ConflictError "hardware already enrolled")
    | None =>
    let* byKey := gets (findByPublicKey r.(er_wireGuardPublicKey)) in
    match byKey with
    | Some _ => throw (ConflictError "WireGuard public key already enrolled")
    | None =>
    let* attested := lift_res (attest r.(er_hardwareId) r.(er_attestationQuote) (Some r.(er_attestationPublicKey))) in
    if negb attested then throw (ValidationError "hardware attestation failed")
    else
      let device := enrolled_device r dr in
      let node := enrolled_node r dr in
      transaction (saveDevice device ;;; saveNode node) ;;;
      let* certificate := issueNode x509_create issuerId dr.(dr_serial) dr.(dr_certificate) dr.(dr_now)
                            dr.(dr_node) r.(er_attestationPublicKey) certificateTtlMinutes in
      let* nodes := gets list_nodes in
      let active_ := List.filter (fun x => x.(active) && negb (String.eqb x.(n_id) dr.(dr_node))) nodes in
      distribute sha256 relays dr.(dr_now) node active_ ;;;
      mret (mkEnrolled device node certificate active_)
    end
    end.

(** ** The gRPC service *)

(** [try{...callback(null,v)}catch(error){callback({code,message})}] *)
Definition grpc_call {A} (code : GrpcCode) (m : St Db A) : St Db (GrpcReply A) :=
  try_catch (let* a := m in mret (Reply a)) (fun e => mret (GrpcError code (exn_message e))).

Definition detectPlatform (osSignature : string) : Platform :=
  let s := toLowerCase osSignature in
  if str_includes "windows" s then windows
  else if str_includes "mac" s || str_includes "darwin" s then macos
  else if str_includes "ipados" s then ipados
  else if str_includes "ios" s then ios
  else linux.

(** What [forge] makes of the bytes: nothing, or whether the CSR's signature
    verifies and its public key in PEM. *)
Context (parse_csr : string -> option (bool * string)).

Definition publicKeyPemFromCsrDer (csrDer : string) : res string :=
  if (String.length csrDer =? 0)%nat
  then Throw (JsError "csr_der is required: submit a self-signed PKCS#10 CSR to obtain a certificate")
  else match parse_csr csrDer with
  | None => Throw (JsError "csr_der could not be parsed as a PKCS#10 CertificationRequest")
  | Some (verified, pem) =>
      if verified then Ok pem
      else Throw (JsError "CSR signature does not verify against its own embedded public key")
  end.

(** [RegisterNodeRequest], with the defaults of proto3. *)
Record RegisterRequest := mkRegister {
  rq_hardwareUuid : string; rq_osSignature : string; rq_csrDer : string;
  rq_quote : string; rq_wireguardPublicKey : string
}.

Record PeerReply := mkPeerReply { pr_publicKey : string; pr_allowedIps : list string }.
Record RegisterReply := mkRegisterReply {
  rp_internalIpv4 : string; rp_internalIpv6 : string; rp_initialPeers : list PeerReply;
  rp_certificate : string; rp_zone : SecurityZone; rp_nodeId : string
}.

Definition enrollment_request (req : RegisterRequest) (lease : string * string) (key : string) : EnrollmentRequest :=
  mkEnrollment ("node-" +:+ String.substring 0 8 req.(rq_hardwareUuid)) req.(rq_hardwareUuid)
    (detectPlatform req.(rq_osSignature)) req.(rq_osSignature) req.(rq_quote) key
    req.(rq_wireguardPublicKey) lease.1 lease.2 ZONE_PROD_APP.

Definition register_reply (result : EnrollmentResult) : RegisterReply :=
  mkRegisterReply result.(en_node).(internalIpv4) result.(en_node).(internalIpv6)
    (map (fun p => mkPeerReply p.(wireGuardPublicKey)
            [p.(internalIpv4) +:+ "/32"; p.(internalIpv6) +:+ "/128"]) result.(en_peers))
    result.(en_certificate).(is_pem) result.(en_node).(zone) result.(en_node).(n_id).

Definition lease_from (db : Db) : res (string * string) :=
  next (map internalIpv4 (list_nodes db)) (map internalIpv6 (list_nodes db)).

Definition registerNode (req : RegisterRequest) (dr : Draw) : St Db (GrpcReply RegisterReply) :=
  grpc_call INVALID_ARGUMENT (
    let* lease := gets lease_from in
    let* lease := lift_res lease in
    let* key := lift_res (publicKeyPemFromCsrDer req.(rq_csrDer)) in
    let* result := register (enrollment_request req lease key) dr in
    mret (register_reply result)).

(** [cryptoVerify("RSA-SHA256",message,pem,signature)] *)
Context (rsa_verify : string -> string -> string -> res bool).

Definition verifyRotationSignature (pem nodeId newPublicKey signature : string) : bool :=
  if (String.length signature =? 0)%nat then false
  else match rsa_verify (nodeId +:+ ":" +:+ newPublicKey) pem signature with Ok b => b | Throw _ => false end.

Definition with_key (n : MeshNode) (key : string) : MeshNode :=
  mkNode n.(n_id) n.(deviceId) key n.(internalIpv4) n.(internalIpv6) n.(listenPort) n.(nodeType) n.(zone)
    n.(region) n.(active) n.(lastHandshake).

(** The enrolled identity key of the device [get] finds, if any. *)
Definition identity_key (e : option Entity) : option string :=
  match e with Some (EDevice d) => when_truthy d.(publicAttestationKey) | _ => None end.

Definition no_identity : exn :=
  JsError "node has no enrolled identity key on record — cannot verify rotation signature".

Definition rotatePeerKey (others : nat -> list KeyRotationRow) (now : Date)
    (nodeId newPublicKey signature : string) : St Db (GrpcReply (bool * Z)) :=
  grpc_call FAILED_PRECONDITION (
    let* found := gets (repo_get nodeId) in
    match found with
    | None => throw (JsError "node not found")
    | Some (ENode node) =>
        let* device := gets (repo_get node.(deviceId)) in
        match identity_key device with
        | None => throw no_identity
        | Some pem =>
            if negb (verifyRotationSignature pem nodeId newPublicKey signature)
            then throw (JsError "rotation signature does not verify against the node's enrolled identity key")
            else
              let* existing := gets (findByPublicKey newPublicKey) in
              match existing with
              | Some _ => throw (JsError "public key already in use")
              | None =>
                  let* epoch := rotate others nodeId newPublicKey in
                  save (ENode (with_key node newPublicKey)) ;;;
                  let* all := gets list_nodes in
                  mesh_reconcile sha256 relays now None (with_key node newPublicKey) all ;;;
                  mret (true, epoch)
              end
        end
    | Some _ => throw no_identity
    end).

Definition CONTROLLER_COMMAND_ACTIONS : list string :=
  ["NOOP"; "RELOAD_POLICIES"; "ROTATE_KEYS"; "QUARANTINE_NODE"; "SEVER_ALL"].
Definition REST_COMMAND_TO_CONTROLLER_ACTION : list (string * string) :=
  [("QUARANTINE", "QUARANTINE_NODE"); ("RESTORE", "RELOAD_POLICIES"); ("APPLY_PEERS", "RELOAD_POLICIES");
   ("ROTATE_IDENTITY_REQUIRED", "ROTATE_KEYS")].

Definition controllerActionFor (commandType : string) : string :=
  if includes CONTROLLER_COMMAND_ACTIONS commandType then commandType
  else default "NOOP" (snd <$> List.find (fun kv => String.eqb kv.1 commandType) REST_COMMAND_TO_CONTROLLER_ACTION).

Record ControllerCommand := mkControllerCommand { cc_action : string; cc_payload : string }.
Definition noop : ControllerCommand := mkControllerCommand "NOOP" "".

(** The database and the messages written to the stream. *)
Notation Stream := (Db * list ControllerCommand)%type.
Definition call_write (m : ControllerCommand) : St Stream unit := fun '(db, out) => ((db, out ++ [m]), Ok tt).
Definition on_db {A} (m : St Db A) : St Stream A := fun '(db, out) =>
  let '(db', r) := m db in ((db', out), r).

Definition delivery_result (at_ : Date) : json :=
  JObj [("deliveredAt", jdate at_); ("via", JStr "grpc-stream-heartbeat")].

(** The handler of a heartbeat on the stream; [at_] is [new Date()]. *)
Definition streamHeartbeat (nodeId : string) (at_ : Date) : St Stream unit :=
  try_catch (
    let* commands := on_db (gets (fun db => if truthy nodeId then pending nodeId 1 db else [])) in
    match commands with
    | [] => call_write noop
    | command :: _ =>
        call_write (mkControllerCommand (controllerActionFor command.(q_type))
          (json_stringify (match command.(q_payload) with JNull => JObj [] | p => p end))) ;;;
        on_db (acknowledge command.(q_id) (delivery_result at_))
    end)
  (fun _ => call_write noop).
End service.

(** ** Enrolling *)

Lemma findByHardwareId_None hw db :
  findByHardwareId hw db = None <-> forall k d, db.(devices) !! k = Some d -> d.(hardwareId) <> hw.
Proof.
  unfold findByHardwareId. rewrite fmap_None, find_None_elem. setoid_rewrite elem_of_rows.
  setoid_rewrite String.eqb_neq. naive_solver.
Qed.

Lemma findByPublicKey_None key db :
  findByPublicKey key db = None <-> forall k n, db.(mesh_nodes) !! k = Some n -> n.(wireGuardPublicKey) <> key.
Proof.
  unfold findByPublicKey. rewrite fmap_None, find_None_elem. setoid_rewrite elem_of_rows.
  setoid_rewrite String.eqb_neq. naive_solver.
Qed.

(** The rows an enrollment adds. *)
Definition saved (r : EnrollmentRequest) (dr : Draw) (db : Db) : Db :=
  set_mesh_nodes (<[dr.(dr_node) := enrolled_node r dr]> db.(mesh_nodes))
    (set_devices (<[dr.(dr_device) := enrolled_device r dr]> db.(devices)) db).

(** Identifiers that were not used before, as [randomUUID] draws them. *)
Definition fresh_draw (dr : Draw) (db : Db) : Prop :=
  db.(devices) !! dr.(dr_device) = None /\ db.(mesh_nodes) !! dr.(dr_node) = None.

Definition address_taken (r : EnrollmentRequest) (dr : Draw) (db : Db) : bool :=
  taken internalIpv4 r.(er_internalIpv4) dr.(dr_node) db.(mesh_nodes)
  || taken internalIpv6 r.(er_internalIpv6) dr.(dr_node) db.(mesh_nodes).

Lemma save_pair r dr db :
  fresh_draw dr db -> findByHardwareId r.(er_hardwareId) db = None ->
  findByPublicKey r.(er_wireGuardPublicKey) db = None ->
  transaction (saveDevice (enrolled_device r dr) ;;; saveNode (enrolled_node r dr)) db
  = if address_taken r dr db then (db, Throw unique_violation) else (saved r dr db, Ok tt).
Proof.
  intros [Hd Hn] Hhw Hkey. rewrite findByHardwareId_None in Hhw. rewrite findByPublicKey_None in Hkey.
  unfold transaction, saveDevice, mbind, St_bind. cbn [enrolled_device d_id hardwareId]. rewrite Hd.
  rewrite (proj2 (taken_false hardwareId _ _ _)) by (intros k d Hk E; by apply Hhw in Hk).
  unfold saveNode. cbn [enrolled_node n_id wireGuardPublicKey internalIpv4 internalIpv6 mesh_nodes set_devices].
  rewrite (proj2 (taken_false wireGuardPublicKey _ _ _)) by (intros k n Hk E; by apply Hkey in Hk).
  rewrite Hn. fold (address_taken r dr db). destruct (address_taken r dr db); [done|].
  cbn [devices set_devices deviceId enrolled_node]. rewrite lookup_insert_eq.
  by rewrite bool_decide_eq_true_2 by eauto.
Qed.

Lemma saved_ok r dr db :
  db_ok db -> fresh_draw dr db -> findByHardwareId r.(er_hardwareId) db = None ->
  findByPublicKey r.(er_wireGuardPublicKey) db = None -> address_taken r dr db = false ->
  db_ok (saved r dr db).
Proof.
  intros Hok Hf Hhw Hkey Ha. pose proof (save_pair r dr db Hf Hhw Hkey) as E. rewrite Ha in E.
  apply transaction_ok, bind_inv_ok in E as (db1 & [] & E1 & E2).
  pose proof (saveDevice_ok (enrolled_device r dr) db Hok) as Hd. rewrite E1 in Hd.
  pose proof (saveNode_ok (enrolled_node r dr) db1 Hd) as Hn. by rewrite E2 in Hn.
Qed.

(** The nodes that were active before, in the state after the rows are added. *)
Definition others (dr : Draw) (db : Db) : list MeshNode :=
  List.filter (fun x => x.(active) && negb (String.eqb x.(n_id) dr.(dr_node))) (list_nodes db).

Lemma others_exist dr db p :
  db_ok db -> p ∈ others dr db -> is_Some (db.(mesh_nodes) !! p.(n_id)).
Proof.
  intros Hok [Hp _]%elem_of_List_filter. apply elem_of_list_nodes in Hp as (m & Hm & _ & ->).
  apply elem_of_rows in Hm as [k Hk]. cbn. rewrite (nodes_keyed _ Hok k m Hk). by eexists.
Qed.

Definition node_certificate (issuerId : string) (dr : Draw) (ttl : Z) : CertificateRow :=
  mkCertificate dr.(dr_certificate) dr.(dr_node) issuerId dr.(dr_serial)
    ("CN=node:" +:+ dr.(dr_node) +:+ ",OU=BAPC VPN Digital Security") dr.(dr_now)
    (dr.(dr_now) + ttl * 60000) false None None.

Lemma issueNode_cases x509 issuerId dr key ttl db :
  let '(db', res) := issueNode x509 issuerId dr.(dr_serial) dr.(dr_certificate) dr.(dr_now) dr.(dr_node) key ttl db in
  match res with
  | Ok c => db' = set_certificates (db.(certificates) ++ [node_certificate issuerId dr ttl]) db /\ 5 <= ttl <= 1440
  | Throw _ => db' = db
  end.
Proof.
  unfold issueNode. destruct ((ttl <? 5) || (1440 <? ttl)) eqn:T; [done|]. bools.
  destruct (x509 _) as [pem|e]; [|done]. unfold cert_save, mbind, St_bind.
  destruct (existsb _ _); [done|]. destruct (bool_decide _); [|done]. cbn. split; [done|lia].
Qed.

Section enrollment.
Context `{Coll : Collation} (sha256 : string -> string) (attest : string -> string -> option string -> res bool)
  (x509 : X509Input -> res string) (issuerId : string) (ttl : Z) (relays : option (list RelayHealth)).

Notation enroll := (register sha256 attest x509 issuerId ttl relays).

(** What a request must pass before anything is written. *)
Definition admissible (r : EnrollmentRequest) (db : Db) : Prop :=
  r.(er_wireGuardPublicKey) <> "" /\ r.(er_hardwareId) <> "" /\ r.(er_attestationPublicKey) <> ""
  /\ findByHardwareId r.(er_hardwareId) db = None /\ findByPublicKey r.(er_wireGuardPublicKey) db = None
  /\ attest r.(er_hardwareId) r.(er_attestationQuote) (Some r.(er_attestationPublicKey)) = Ok true.

(** The part of [register] after the checks. *)
Definition admit_ (r : EnrollmentRequest) (dr : Draw) : St Db EnrollmentResult :=
  transaction (saveDevice (enrolled_device r dr) ;;; saveNode (enrolled_node r dr)) ;;;
  let* certificate := issueNode x509 issuerId dr.(dr_serial) dr.(dr_certificate) dr.(dr_now)
                        dr.(dr_node) r.(er_attestationPublicKey) ttl in
  let* active_ := gets (others dr) in
  distribute sha256 relays dr.(dr_now) (enrolled_node r dr) active_ ;;;
  mret (mkEnrolled (enrolled_device r dr) (enrolled_node r dr) certificate active_).

Lemma register_checks r dr db :
  (admissible r db /\ enroll r dr db = admit_ r dr db)
  \/ (~ admissible r db /\ exists e, enroll r dr db = (db, Throw e)).
Proof.
  unfold Enrollment.register, admissible.
  destruct (truthy (er_wireGuardPublicKey r)) eqn:T1, (truthy (er_hardwareId r)) eqn:T2; cbn [negb orb];
    try (right; split; [|by eexists]; intros (H1 & H2 & _);
         apply truthy_spec in H1, H2; congruence).
  destruct (truthy (er_attestationPublicKey r)) eqn:T3; cbn [negb];
    [|right; split; [|by eexists]; intros (_ & _ & H3 & _); apply truthy_spec in H3; congruence].
  change (mbind ?k (gets ?g) db) with (k (g db) db). cbn beta.
  destruct (findByHardwareId _ db) eqn:H1; [right; split; [|by eexists]; naive_solver|].
  change (mbind ?k (gets ?g) db) with (k (g db) db). cbn beta.
  destruct (findByPublicKey _ db) eqn:H2; [right; split; [|by eexists]; naive_solver|].
  unfold lift_res, mbind at 1, St_bind at 1.
  destruct (attest _ _ _) as [[|]|e] eqn:H3; [|right; split; [|by eexists]; naive_solver..].
  left. rewrite truthy_spec in T1, T2, T3. split; [done|]. reflexivity.
Qed.

Lemma others_are_before r dr db db' p :
  db_ok db -> fresh_draw dr db -> db'.(mesh_nodes) = (saved r dr db).(mesh_nodes) ->
  p ∈ others dr db' <-> p ∈ list_nodes db.
Proof.
  intros Hok [_ Hn] E. unfold others. rewrite elem_of_List_filter, !elem_of_list_nodes, E.
  setoid_rewrite elem_of_rows. cbn [saved mesh_nodes set_mesh_nodes]. split.
  - intros [(m & (k & Hk) & Ha & ->) Hb]. bools. exists m. split; [|done].
    apply lookup_insert_Some in Hk as [[<- <-]|[_ Hk]]; [done|by eexists].
  - intros (m & (k & Hk) & Ha & ->). pose proof (nodes_keyed _ Hok k m Hk) as Ek.
    assert (k <> dr_node dr) as Hne by congruence. split.
    + exists m. split; [|done]. exists k. by rewrite lookup_insert_ne.
    + cbn. rewrite Ha, Ek. by destruct (String.eqb_spec k (dr_node dr)).
Qed.

Lemma admit_outcome r dr db :
  db_ok db -> fresh_draw dr db -> admissible r db ->
  match admit_ r dr db with
  | (db', Ok en) =>
      5 <= ttl <= 1440 /\ db'.(devices) = (saved r dr db).(devices) /\ db'.(mesh_nodes) = (saved r dr db).(mesh_nodes)
      /\ db'.(certificates) = db.(certificates) ++ [node_certificate issuerId dr ttl]
      /\ en.(en_node) = enrolled_node r dr /\ en.(en_peers) = others dr db'
      /\ exists cs, db'.(controller_commands) = db.(controller_commands) ++ cs /\
           Forall2 (peers_command sha256 relays dr.(dr_now) (en.(en_peers) ++ [en.(en_node)]) db.(pg_now)) en.(en_peers) cs
  | (db', Throw _) => db' = db \/ db' = saved r dr db
  end.
Proof.
  intros Hok Hf (_ & _ & _ & Hhw & Hkey & _). unfold admit_.
  pose proof (save_pair r dr db Hf Hhw Hkey) as E.
  destruct (address_taken r dr db) eqn:Ha; [rewrite (bind_throw _ _ _ _ _ E); by left|].
  rewrite (bind_ok _ _ _ _ _ E). pose proof (saved_ok r dr db Hok Hf Hhw Hkey Ha) as Hok1.
  pose proof (issueNode_cases x509 issuerId dr r.(er_attestationPublicKey) ttl (saved r dr db)) as Hi.
  destruct (issueNode _ _ _ _ _ _ _ _ (saved r dr db)) as [db2 [c|e]] eqn:Ei;
    [|subst db2; rewrite (bind_throw _ _ _ _ _ Ei); by right].
  destruct Hi as [-> Httl]. rewrite (bind_ok _ _ _ _ _ Ei).
  set (db2 := set_certificates _ _) in *.
  change (mbind ?k (gets ?g) db2) with (k (g db2) db2). cbn beta.
  destruct (distribute_loop sha256 relays dr.(dr_now) (others dr db2 ++ [enrolled_node r dr]) (others dr db2) db2)
    as (u & cs & Ed & F).
  { intros p Hp. apply (others_exist dr (saved r dr db)); [done|exact Hp]. }
  unfold distribute. rewrite (bind_ok _ _ _ _ _ Ed). cbn. split_and!; try done; try lia.
  exists cs. split; [done|exact F].
Qed.

(** C20: Enrollment admits a device completely or says why not.  When [register]
    returns, the request had its keys, neither the hardware nor the WireGuard key was
    enrolled before and the attestation of this hardware and identity key was
    accepted; the device and its node are in the tables, a certificate for that node,
    unrevoked and expiring after the configured lifetime (5 to 1440 minutes), is on
    record, the peers returned are exactly the nodes active before, and each of them
    has been queued one APPLY_PEERS command planned over all of them and the new node.
    When it throws, the tables are unchanged, or the request was admissible and the
    device and its node, without certificate or commands, are what is left.  (The relay
    source of the peer plans answers.) *)
Theorem register_outcome r dr db :
  db_ok db -> fresh_draw dr db ->
  match enroll r dr db with
  | (db', Ok en) =>
      admissible r db /\ 5 <= ttl <= 1440
      /\ db'.(devices) = <[dr.(dr_device) := enrolled_device r dr]> db.(devices)
      /\ db'.(mesh_nodes) = <[dr.(dr_node) := enrolled_node r dr]> db.(mesh_nodes)
      /\ db'.(certificates) = db.(certificates) ++ [node_certificate issuerId dr ttl]
      /\ (forall p, p ∈ en.(en_peers) <-> p ∈ list_nodes db)
      /\ exists cs, db'.(controller_commands) = db.(controller_commands) ++ cs /\
           Forall2 (peers_command sha256 relays dr.(dr_now) (en.(en_peers) ++ [enrolled_node r dr]) db.(pg_now))
             en.(en_peers) cs
  | (db', Throw _) => db' = db \/ (admissible r db /\ db' = saved r dr db)
  end.
Proof.
  intros Hok Hf. destruct (register_checks r dr db) as [[Ha ->]|[_ [e ->]]]; [|by left].
  pose proof (admit_outcome r dr db Hok Hf Ha) as H. destruct (admit_ r dr db) as [db' [en|e]].
  - destruct H as (Ht & Hd & Hn & Hc & En & Ep & cs & Ecs & F). split_and!; try done; try lia.
    + intros p. rewrite Ep. by apply (others_are_before r dr db db').
    + exists cs. split; [done|]. by rewrite <- En.
  - destruct H; [by left|by right].
Qed.

(** Also: A lifetime the issuer refuses strands every device: the configuration
    accepts any positive number of minutes and the issuer only 5 to 1440, and it is
    asked after the rows are stored, so with another lifetime an admissible request
    throws, its device stays enrolled, and every further attempt of the same hardware
    is refused as already enrolled. *)
Theorem refused_lifetime_strands_device r dr dr' db :
  db_ok db -> fresh_draw dr db -> admissible r db -> address_taken r dr db = false ->
  ttl < 5 \/ 1440 < ttl ->
  exists e, enroll r dr db = (saved r dr db, Throw e)
  /\ enroll r dr' (saved r dr db) = (saved r dr db, Throw (ConflictError "hardware already enrolled")).
Proof.
  intros Hok Hf Ha Hfree Ht. exists (JsError "certificate TTL outside allowed range"). split.
  - destruct (register_checks r dr db) as [[_ ->]|[Hna _]]; [|done]. unfold admit_.
    destruct Ha as (_ & _ & _ & Hhw & Hkey & _). pose proof (save_pair r dr db Hf Hhw Hkey) as E.
    rewrite Hfree in E. rewrite (bind_ok _ _ _ _ _ E). apply bind_throw. unfold issueNode.
    replace ((ttl <? 5) || (1440 <? ttl)) with true; [done|]. symmetry. apply orb_true_iff. lia.
  - destruct Ha as (H1 & H2 & H3 & _). unfold Enrollment.register.
    apply truthy_spec in H1 as ->. apply truthy_spec in H2 as ->. apply truthy_spec in H3 as ->. cbn [negb orb].
    change (mbind ?k (gets ?g) ?d) with (k (g d) d). cbn beta.
    destruct (findByHardwareId _ (saved r dr db)) as [d|] eqn:E; [done|].
    exfalso. rewrite findByHardwareId_None in E.
    apply (E dr.(dr_device) (enrolled_device r dr)); [|done]. cbn. by rewrite lookup_insert_eq.
Qed.
End enrollment.

(** ** The mesh service *)

Lemma grpc_call_throw {A} code (m : St Db A) db db' e :
  m db = (db', Throw e) -> grpc_call code m db = (db', Ok (GrpcError code (exn_message e))).
Proof. intros E. unfold grpc_call, try_catch. by rewrite (bind_throw _ _ _ _ _ E). Qed.

Lemma grpc_call_reply {A} code (m : St Db A) db db' a :
  grpc_call code m db = (db', Ok (Reply a)) -> m db = (db', Ok a).
Proof.
  unfold grpc_call, try_catch. destruct (m db) as [db1 [b|e]] eqn:E.
  - rewrite (bind_ok _ _ _ _ _ E). cbn. by intros [= <- <-].
  - rewrite (bind_throw _ _ _ _ _ E). cbn. intros H. discriminate H.
Qed.

Section mesh_service.
Context `{Coll : Collation} (sha256 : string -> string) (attest : string -> string -> option string -> res bool)
  (x509 : X509Input -> res string) (issuerId : string) (ttl : Z) (relays : option (list RelayHealth))
  (parse_csr : string -> option (bool * string)).

Lemma register_address_taken r dr db :
  fresh_draw dr db -> address_taken r dr db = true ->
  exists e, register sha256 attest x509 issuerId ttl relays r dr db = (db, Throw e).
Proof.
  intros Hf Ht. destruct (register_checks sha256 attest x509 issuerId ttl relays r dr db) as [[Ha ->]|[_ He]]; [|done].
  destruct Ha as (_ & _ & _ & Hhw & Hkey & _). pose proof (save_pair r dr db Hf Hhw Hkey) as E.
  rewrite Ht in E. eexists. unfold admit_. by apply bind_throw.
Qed.

(** Also: A node taken out of service can stop all enrollment.  The allocator looks
    for an address among those of the active nodes, the table keeps the addresses of
    inactive ones unique too: while the first address the allocator finds belongs to
    an inactive node, every registration, of any device, is answered with an error
    and nothing is stored. *)
Theorem inactive_address_blocks_enrollment req dr db k m v6 :
  fresh_draw dr db -> db.(mesh_nodes) !! k = Some m -> m.(active) = false ->
  lease_from db = Ok (m.(internalIpv4), v6) ->
  exists message, registerNode sha256 attest x509 issuerId ttl relays parse_csr req dr db
    = (db, Ok (GrpcError INVALID_ARGUMENT message)).
Proof.
  intros Hf Hm _ Hlease.
  assert (exists e, (let* lease := gets lease_from in
    let* lease := lift_res lease in
    let* key := lift_res (publicKeyPemFromCsrDer parse_csr req.(rq_csrDer)) in
    let* result := register sha256 attest x509 issuerId ttl relays (enrollment_request req lease key) dr in
    mret (register_reply result)) db = (db, Throw e)) as [e E].
  { change (mbind ?k (gets ?g) db) with (k (g db) db). cbn beta. rewrite Hlease.
    unfold lift_res at 1. rewrite (bind_ok _ _ db db (internalIpv4 m, v6) eq_refl).
    destruct (publicKeyPemFromCsrDer parse_csr (rq_csrDer req)) as [key|e]; [|by eexists].
    rewrite (bind_ok _ _ db db key eq_refl).
    destruct (register_address_taken (enrollment_request req (internalIpv4 m, v6) key) dr db Hf) as [e E].
    - unfold address_taken. apply orb_true_iff. left. cbn [enrollment_request er_internalIpv4 fst].
      destruct (taken _ _ _ _) eqn:T; [done|]. rewrite taken_false in T. destruct Hf as [_ Hf].
      specialize (T k m Hm eq_refl). congruence.
    - exists e. by apply bind_throw. }
  eexists. unfold registerNode. by apply grpc_call_throw.
Qed.
End mesh_service.

(** A database with at most one row per table satisfies the constraints. *)
Ltac solve_singleton_db :=
  constructor; cbn; try (intros k x E; apply lookup_singleton_Some in E as [<- <-]; by vm_compute);
    try (intros k k' x x' E E'; apply lookup_singleton_Some in E as [<- _];
         apply lookup_singleton_Some in E' as [<- _]; reflexivity);
    try (intros k x E; by apply lookup_empty_Some in E);
    try (intros k k' x x' E; by apply lookup_empty_Some in E);
    intros k n E; apply lookup_singleton_Some in E as [_ <-]; by eexists.

(** A node that was quarantined and made inactive holds the first address. *)
Definition inactive_db : Db :=
  set_mesh_nodes {["n1" := mkNode "n1" "d1" "key1" (ipv4_of 2) (ipv6_of 2) 51820 CLIENT ZONE_DEV None false None]}
    (set_devices {["d1" := sample_device "d1" "hw1"]} (empty_db 1000)).
Definition sample_draw : Draw := mkDraw "d2" "n2" "s2" "c2" 1000.
Definition sample_register : RegisterRequest := mkRegister "hw2" "Linux 6.1" "csr" "quote" "key2".

Lemma inactive_address_blocks_enrollment_witness :
  exists message, @registerNode code_point_collation (fun s => s) (fun _ _ _ => Ok true) (fun _ => Ok "PEM") "ca" 1440
      None (fun _ => Some (true, "KEY")) sample_register sample_draw inactive_db
    = (inactive_db, Ok (GrpcError INVALID_ARGUMENT message)).
Proof.
  apply (@inactive_address_blocks_enrollment code_point_collation _ _ _ _ _ _ _ _ _ _ "n1"
           (mkNode "n1" "d1" "key1" (ipv4_of 2) (ipv6_of 2) 51820 CLIENT ZONE_DEV None false None) (ipv6_of 2)).
  - split; vm_compute; reflexivity.
  - vm_compute. reflexivity.
  - reflexivity.
  - vm_compute. reflexivity.
Defined.

(** An enrollment into the sample database of one active node. *)
Definition sample_enrollment : EnrollmentRequest :=
  mkEnrollment "node-hw2" "hw2" linux "6.1" "quote" "KEY" "key2" (ipv4_of 3) (ipv6_of 3) ZONE_PROD_APP.

Lemma register_outcome_witness :
  exists db' en, @register code_point_collation (fun s => s) (fun _ _ _ => Ok true) (fun _ => Ok "PEM") "ca" 1440 None
      sample_enrollment sample_draw inactive_db = (db', Ok en)
    /\ db'.(mesh_nodes) = <["n2" := enrolled_node sample_enrollment sample_draw]> inactive_db.(mesh_nodes).
Proof.
  assert (db_ok inactive_db) as Hok.
  { solve_singleton_db. }
  pose proof (@register_outcome code_point_collation (fun s => s) (fun _ _ _ => Ok true) (fun _ => Ok "PEM") "ca" 1440 None
      sample_enrollment sample_draw inactive_db Hok ltac:(split; vm_compute; reflexivity)) as H.
  destruct (@register code_point_collation (fun s => s) (fun _ _ _ => Ok true) (fun _ => Ok "PEM") "ca" 1440 None
      sample_enrollment sample_draw inactive_db) as [db' [en|e]] eqn:E.
  - exists db', en. split; [reflexivity|]. destruct H as (_ & _ & _ & Hn & _). exact Hn.
  - exfalso. vm_compute in E. discriminate E.
Defined.

(** ** Rotating a key *)

Lemma rotate_from_frame others attempts k nodeId key db :
  exists l, (rotate_from others attempts k nodeId key db).1 = set_key_rotations l db.
Proof.
  revert k db; induction attempts as [|attempts IH]; intros k db; cbn [rotate_from].
  { exists db.(key_rotations). by destruct db. }
  destruct (negb _); [by eexists|]. destruct (epoch_taken _ _ _); [|by eexists].
  destruct (IH (S k) (set_key_rotations (db.(key_rotations) ++ others k) db)) as [l ->].
  exists l. by destruct db.
Qed.

Lemma repo_get_node id db n :
  repo_get id db = Some (ENode n) -> exists m, db.(mesh_nodes) !! id = Some m /\ n = node m.
Proof.
  unfold repo_get. destruct (db.(devices) !! id); [done|].
  destruct (db.(mesh_nodes) !! id) as [m|]; [intros [= <-]; by eexists|].
  destruct (db.(network_policies) !! id); [done|]. by destruct (db.(jit_grants) !! id).
Qed.

Lemma saveNode_existing n old db db' :
  db.(mesh_nodes) !! n.(n_id) = Some old -> saveNode n db = (db', Ok tt) ->
  exists n', db' = set_mesh_nodes (<[n.(n_id) := n']> db.(mesh_nodes)) db
    /\ n'.(wireGuardPublicKey) = n.(wireGuardPublicKey).
Proof.
  unfold saveNode. intros ->. destruct (taken _ _ _ _); [done|]. intros [= <-]. by eexists.
Qed.

Section rotation.
Context `{Coll : Collation} (sha256 : string -> string) (relays : option (list RelayHealth))
  (rsa_verify : string -> string -> string -> res bool).

Lemma rotatePeerKey_checks others now nodeId key signature db db' a :
  rotatePeerKey sha256 relays rsa_verify others now nodeId key signature db = (db', Ok (Reply a)) ->
  exists m pem db1 db2, db.(mesh_nodes) !! nodeId = Some m
    /\ identity_key (repo_get m.(deviceId) db) = Some pem
    /\ verifyRotationSignature rsa_verify pem nodeId key signature = true
    /\ findByPublicKey key db = None
    /\ rotate others nodeId key db = (db1, Ok a.2)
    /\ saveNode (with_key (node m) key) db1 = (db2, Ok tt)
    /\ (mesh_reconcile sha256 relays now None (with_key (node m) key) (list_nodes db2) db2).1 = db'
    /\ is_ok (mesh_reconcile sha256 relays now None (with_key (node m) key) (list_nodes db2) db2).2 = true.
Proof.
  intros H%grpc_call_reply.
  change (mbind ?k (gets ?g) db) with (k (g db) db) in H. cbn beta in H.
  destruct (repo_get nodeId db) as [[|n| |]|] eqn:Eg; try done.
  apply repo_get_node in Eg as (m & Hm & ->).
  change (mbind ?k (gets ?g) db) with (k (g db) db) in H. cbn beta in H. cbn [deviceId node] in H.
  destruct (identity_key _) as [pem|] eqn:Ep; [|done].
  destruct (verifyRotationSignature _ _ _ _ _) eqn:Ev; [|done]. cbn [negb] in H.
  change (mbind ?k (gets ?g) db) with (k (g db) db) in H. cbn beta in H.
  destruct (findByPublicKey key db) eqn:Ek; [done|].
  apply bind_inv_ok in H as (db1 & epoch & Er & H).
  apply bind_inv_ok in H as (db2 & [] & Es & H).
  change (mbind ?k (gets ?g) db2) with (k (g db2) db2) in H. cbn beta in H.
  apply bind_inv_ok in H as (db3 & x & Em & [= -> <-]).
  exists m, pem, db1, db2. rewrite Em. by split_and!.
Qed.

(** The row an acknowledged rotation leaves, and the one command it queues. *)
Lemma rotation_stored others now nodeId key signature db db' a :
  db_ok db -> rotatePeerKey sha256 relays rsa_verify others now nodeId key signature db = (db', Ok (Reply a)) ->
  (exists n', db'.(mesh_nodes) = <[nodeId := n']> db.(mesh_nodes) /\ n'.(wireGuardPublicKey) = key)
  /\ exists c, db'.(controller_commands) = db.(controller_commands) ++ [c] /\ c.(c_node) = nodeId /\ c.(c_type) = "APPLY_PEERS".
Proof.
  intros Hok H. destruct (rotatePeerKey_checks _ _ _ _ _ _ _ _ H) as
    (m & pem & db1 & db2 & Hm & Hp & Hv & Hk & Hr & Hs & <- & Hmr).
  pose proof (nodes_keyed _ Hok nodeId m Hm) as Hid.
  destruct (rotate_from_frame others 5 0 nodeId key db) as [l Hl].
  unfold rotate in Hr. rewrite Hr in Hl. cbn in Hl. subst db1.
  apply (saveNode_existing _ m) in Hs as (n' & -> & Hkey); [|cbn; by rewrite Hid].
  rewrite mesh_reconcile_run; [|cbn; rewrite Hid; rewrite lookup_insert_eq; by eexists].
  split; [exists n'; cbn; by rewrite Hid|]. eexists. split; [done|]. by cbn.
Qed.

(** C40: Only the device's enrolled identity rotates a key, and only that node hears
    of it.  When [rotatePeerKey] acknowledges, the node exists, its device has an
    enrolled identity key, the signature verifies under it over this node id and this
    new key, and no node had the new key; the node's row then carries the new key.
    The only command queued is an APPLY_PEERS for the rotated node itself: its peers
    are not told of the new key. *)
Theorem rotation_verified_and_told_to_node others now nodeId key signature db db' acknowledged epoch :
  db_ok db ->
  rotatePeerKey sha256 relays rsa_verify others now nodeId key signature db = (db', Ok (Reply (acknowledged, epoch))) ->
  exists m d pem, db.(mesh_nodes) !! nodeId = Some m
    /\ repo_get m.(deviceId) db = Some (EDevice d) /\ d.(publicAttestationKey) = Some pem
    /\ rsa_verify (nodeId +:+ ":" +:+ key) pem signature = Ok true
    /\ (forall k n, db.(mesh_nodes) !! k = Some n -> n.(wireGuardPublicKey) <> key)
    /\ (exists n', db'.(mesh_nodes) = <[nodeId := n']> db.(mesh_nodes) /\ n'.(wireGuardPublicKey) = key)
    /\ exists c, db'.(controller_commands) = db.(controller_commands) ++ [c]
         /\ c.(c_node) = nodeId /\ c.(c_type) = "APPLY_PEERS".
Proof.
  intros Hok H. destruct (rotation_stored _ _ _ _ _ _ _ _ Hok H) as [Hrow Hcmd].
  destruct (rotatePeerKey_checks _ _ _ _ _ _ _ _ H) as (m & pem & db1 & db2 & Hm & Hp & Hv & Hk & _).
  assert (exists d, repo_get m.(deviceId) db = Some (EDevice d) /\ d.(publicAttestationKey) = Some pem) as (d & Hd & Hpk).
  { unfold identity_key in Hp. destruct (repo_get m.(deviceId) db) as [[d| | |]|]; try done. exists d.
    split; [done|]. unfold when_truthy in Hp. by destruct (truthy_opt _). }
  exists m, d, pem. split_and!; try done.
  - unfold verifyRotationSignature in Hv. destruct (_ =? 0)%nat; [done|].
    destruct (rsa_verify _ _ _) as [[|]|]; done.
  - by apply findByPublicKey_None.
Qed.
End rotation.

Definition identity_db : Db :=
  set_mesh_nodes {["n1" := sample_node "n1" "d1" "key1" "10.144.0.1"]}
    (set_devices {["d1" := mkDevice "d1" "host" "hw1" linux "6.1" (Some "PEM") false false sample_posture 0 0
                             None None None]} (empty_db 1000)).

Lemma identity_db_ok : db_ok identity_db.
Proof.
  solve_singleton_db.
Qed.

Lemma rotation_verified_and_told_to_node_witness :
  exists db', @rotatePeerKey code_point_collation (fun s => s) None (fun m p s => Ok (String.eqb s "sig"))
      (fun _ => []) 1000 "n1" "key2" "sig" identity_db = (db', Ok (Reply (true, 1)))
    /\ exists c, db'.(controller_commands) = [c] /\ c.(c_node) = "n1".
Proof.
  destruct (@rotatePeerKey code_point_collation (fun s => s) None (fun m p s => Ok (String.eqb s "sig"))
      (fun _ => []) 1000 "n1" "key2" "sig" identity_db) as [db' r] eqn:E.
  assert (r = Ok (Reply (true, 1))) as ->.
  { apply (f_equal snd) in E. cbn [snd] in E. rewrite <- E. vm_compute. reflexivity. }
  exists db'. split; [reflexivity|].
  destruct (@rotation_verified_and_told_to_node code_point_collation _ _ _ _ _ _ _ _ _ _ _ _ identity_db_ok E)
    as (m & d & pem & _ & _ & _ & _ & _ & _ & c & Hc & Hn & _).
  exists c. split; [exact Hc|exact Hn].
Defined.

(** ** The heartbeat stream *)

(** The message a command becomes. *)
Definition command_message (c : CommandRow) : ControllerCommand :=
  mkControllerCommand (controllerActionFor c.(c_type))
    (json_stringify (match c.(c_payload) with JNull => JObj [] | p => p end)).

Lemma pending_rows_waiting nodeId limit db c :
  c ∈ pending_rows nodeId limit db -> c ∈ db.(controller_commands) /\ c.(c_acknowledged) = None.
Proof.
  unfold pending_rows. intros Hc.
  assert (c ∈ sort_by command_order (List.filter (deliverable nodeId db.(pg_now)) db.(controller_commands))) as Hs.
  { rewrite <- (take_drop limit (sort_by _ _)). apply elem_of_app. by left. }
  rewrite elem_of_sort_by, elem_of_List_filter in Hs. destruct Hs as [Hin Hd]. split; [done|].
  unfold deliverable, live in Hd. bools. by apply eq_None_not_Some.
Qed.

(** Also: Each heartbeat on the stream is answered with exactly one message.  With
    nothing deliverable for the node it is a NOOP and nothing changes; otherwise it is
    the most urgent deliverable command, under the action its type translates to, and
    the command is acknowledged in the same step, with the status ACKNOWLEDGED (so it
    is never counted as having been applied). *)
Theorem stream_one_message_per_heartbeat nodeId at_ db out :
  queue_ok db ->
  exists message db', streamHeartbeat nodeId at_ (db, out) = ((db', out ++ [message]), Ok tt) /\ queue_ok db' /\
    match (if truthy nodeId then pending_rows nodeId 1 db else []) with
    | [] => message = noop /\ db' = db
    | c :: _ => message = command_message c /\
        db'.(controller_commands)
          = map (mark_acknowledged c.(c_id) db.(pg_now) (Some (jsonb (delivery_result at_)))) db.(controller_commands) /\
        db'.(command_acknowledgements) = db.(command_acknowledgements) ++
          [mkAck c.(c_id) c.(c_node) c.(c_type) c.(c_issued) db.(pg_now) "ACKNOWLEDGED" (jsonb (delivery_result at_))]
    end.
Proof.
  intros Hq. unfold streamHeartbeat, try_catch.
  change (mbind ?k (on_db (gets ?g)) (db, out)) with (k (g db) (db, out)). cbn beta.
  destruct (truthy nodeId); [|exists noop, db; by split_and!].
  unfold pending. destruct (pending_rows nodeId 1 db) as [|c l] eqn:E; [exists noop, db; by split_and!|].
  destruct (pending_rows_waiting nodeId 1 db c) as [Hin Hn]; [rewrite E; left|].
  pose proof (acknowledge_run c.(c_id) (delivery_result at_) (Some (jsonb (delivery_result at_))) db c eq_refl Hq Hin eq_refl Hn) as Ea.
  pose proof (acknowledge_queue_ok c.(c_id) (delivery_result at_) (Some (jsonb (delivery_result at_))) db c eq_refl Hq Hin eq_refl Hn) as Hq'.
  rewrite Ea in Hq'. exists (command_message c). eexists. cbn [map q_id q_type q_payload].
  rewrite (bind_ok _ _ (db, out) (db, out ++ [command_message c]) tt eq_refl).
  unfold on_db. rewrite Ea. split_and!; done.
Qed.

Lemma stream_one_message_per_heartbeat_witness :
  let db := (enqueue "n1" "APPLY_FIREWALL" (JObj []) 100 60 sample_db).1 in
  exists db', streamHeartbeat "n1" 1000 (db, []) = ((db', [mkControllerCommand "NOOP" "{}"]), Ok tt)
    /\ queue_ok db'.
Proof.
  intros db. assert (queue_ok db) as Hq.
  { apply enqueue_queue_ok. destruct (empty_queue_ok 1000). by constructor. }
  destruct (stream_one_message_per_heartbeat "n1" 1000 db [] Hq) as (message & db' & E & Hq' & _).
  exists db'. split; [|exact Hq']. rewrite E. apply (f_equal (fun x => x.1.2)) in E. cbn [fst snd app] in E.
  vm_compute in E. rewrite E. reflexivity.
Defined.

(** The firewall, name-server, kill-switch and reconciliation commands have no
    action on the stream: they are sent as NOOP, and acknowledged all the same. *)
Lemma stream_drops_commands type :
  type ∈ ["APPLY_FIREWALL"; "ROLLBACK_FIREWALL"; "SET_DNS"; "SET_KILL_SWITCH"; "RECONCILE"; "APPLY_WIREGUARD"] ->
  controllerActionFor type = "NOOP".
Proof. rewrite !elem_of_cons. intros [->|[->|[->|[->|[->|[->|H]]]]]]; [done..|inversion H]. Qed.
