(* ===== verification/Clearance.v ===== *)
(** * Signed ecosystem events and forensic clearance

    [EcosystemIntegrationService] ([src/src/application/integrations.ts]) and
    [DiagnosticsClearanceVerifier] with [issueClearanceToken]
    ([src/integrations/diagnostics-clearance.ts]).  An event is the JSON value a
    token carries.  [hmac], the base64url codec, [JSON.parse],
    [new Date(text).getTime()] ([None] for [NaN]) and [Buffer.from] of a value that is
    no string are arguments. *)

From S2P Require Import Prelude Json Text Domain Words Database Repositories ThreatResponse.
Open Scope Z_scope.

Definition DIAG : string := "diag-clearance:".

(** [e.k]: [undefined] on an object without it; reading [null] throws. *)
Definition member (k : string) (e : json) : res (option json) :=
  match e with
  | JNull => Throw (JsError "Cannot read properties of null")
  | JObj o => Ok (jlookup k o)
  | _ => Ok None
  end.

Definition text_is (s : string) (v : option json) : bool :=
  match v with Some (JStr t) => String.eqb t s | _ => false end.
(** A truthy value: [approvedBy] and [caseId] need not be strings. *)
Definition given (v : option json) : option json := if js_truthy v then v else None.

Section ecosystem.
Context (hmac : string -> string -> string) (base64url from_base64url : string -> string).
Context (JSON_parse : string -> res json) (getTime : json -> option Z) (buffer_from : json -> res string).
Context (secrets : string -> string).

(** [body]: a field that is [undefined] is not printed. *)
Definition signed_fields : list string := ["source"; "type"; "at"; "nonce"; "payload"].
Definition event_body (e : list (string * json)) : string :=
  json_stringify (JObj (omap (fun k => (fun v => (k, v)) <$> jlookup k e) signed_fields)).

Definition eco_sign (source : string) (e : list (string * json)) : string :=
  to_hex (hmac (secrets source) (event_body e)).

(** The replay window: the comparison with [NaN] is false. *)
Definition outside_window (now : Date) (at_ : option json) : bool :=
  match at_ with
  | Some v => match getTime v with Some t => 300000 <? Z.abs (now - t) | None => false end
  | None => false
  end.

(** [Buffer.from(e.signature,"hex")]: a string is read as hexadecimal, other values
    are taken as bytes or refused. *)
Definition signature_bytes (v : option json) : res string :=
  match v with
  | Some (JStr s) => Ok (from_hex s)
  | Some v => buffer_from v
  | None => Throw (JsError "The first argument must be of type string")
  end.

(** [accept], for an event whose [source] is [source]. *)
Definition eco_accept (source : string) (e : list (string * json)) (now : Date) : St Db unit :=
  if outside_window now (jlookup "at" e) then throw (JsError "event outside replay window")
  else match signature_bytes (jlookup "signature" e) with
  | Ok actual =>
      let expected := from_hex (eco_sign source e) in
      if negb (String.length expected =? String.length actual)%nat || negb (String.eqb expected actual)
      then throw (JsError "invalid ecosystem signature")
      else publish ("ecosystem." +:+ source +:+ "." +:+
             match jlookup "type" e with Some (JStr t) => t | _ => "" end) (JObj e)
  | Throw err => throw err
  end.

(** [DiagnosticsClearanceVerifier.verify] *)
Definition clearance_verify (token nodeId : string) (now : Date) : St Db (json * json) :=
  if negb (startsWith DIAG token) then throw (JsError "signed Diagnostics clearance required")
  else
    match JSON_parse (from_base64url (String.substring (String.length DIAG) (String.length token) token)) with
    | Throw _ => throw (JsError "malformed Diagnostics clearance token")
    | Ok event =>
        let* source := lift_res (member "source" event) in
        if negb (text_is "diagnostics" source) then throw (JsError "clearance must be signed by BAPC Diagnostics")
        else
          let e := match event with JObj o => o | _ => [] end in
          if negb (text_is "forensic.clearance" (jlookup "type" e)) then throw (JsError "wrong clearance event type")
          else
            eco_accept "diagnostics" e now ;;;
            match jlookup "payload" e with
            | None | Some JNull => throw (JsError "Cannot read properties of undefined")
            | Some payload =>
                let* scope := lift_res (member "nodeId" payload) in
                if negb (text_is nodeId scope) then throw (JsError "clearance token is not scoped to this node")
                else
                  let* by_ := lift_res (member "approvedBy" payload) in
                  let* case := lift_res (member "caseId" payload) in
                  match given by_, given case with
                  | Some approvedBy, Some caseId => mret (approvedBy, caseId)
                  | _, _ => throw (JsError "clearance token is missing approvedBy/caseId")
                  end
            end
    end.

(** [issueClearanceToken]; [nonce] is the [randomUUID()]. *)
Definition unsigned_event (nodeId approvedBy caseId nonce : string) (at_ : Date) : list (string * json) :=
  [("source", JStr "diagnostics"); ("type", JStr "forensic.clearance"); ("at", jdate at_); ("nonce", JStr nonce);
   ("payload", JObj [("nodeId", JStr nodeId); ("approvedBy", JStr approvedBy); ("caseId", JStr caseId)])].

Definition signed_event (nodeId approvedBy caseId nonce : string) (at_ : Date) : list (string * json) :=
  let unsigned := unsigned_event nodeId approvedBy caseId nonce at_ in
  unsigned ++ [("signature", JStr (eco_sign "diagnostics" unsigned))].

Definition issueClearanceToken (nodeId approvedBy caseId nonce : string) (at_ : Date) : string :=
  DIAG +:+ base64url (json_stringify (JObj (signed_event nodeId approvedBy caseId nonce at_))).

(** ** What a clearance proves *)

Lemma eco_accept_ok source e now db db' :
  eco_accept source e now db = (db', Ok tt) ->
  db' = (publish ("ecosystem." +:+ source +:+ "." +:+
    match jlookup "type" e with Some (JStr t) => t | _ => "" end) (JObj e) db).1 /\
  outside_window now (jlookup "at" e) = false /\
  signature_bytes (jlookup "signature" e) = Ok (hmac (secrets source) (event_body e)).
Proof.
  unfold eco_accept. destruct (outside_window _ _); [done|].
  destruct (signature_bytes (jlookup "signature" e)) as [actual|]; [|done]. cbv zeta.
  unfold eco_sign. rewrite from_to_hex. destruct (String.eqb_spec (hmac (secrets source) (event_body e)) actual) as [<-|];
    [|rewrite orb_true_r; done].
  destruct (negb _); [done|]. intros [= <-]. eauto.
Qed.

Lemma eco_accept_signed source e now signature db :
  outside_window now (jlookup "at" e) = false ->
  jlookup "signature" e = Some (JStr signature) -> signature = eco_sign source e ->
  eco_accept source e now db = publish ("ecosystem." +:+ source +:+ "." +:+
    match jlookup "type" e with Some (JStr t) => t | _ => "" end) (JObj e) db.
Proof.
  intros W E ->. unfold eco_accept. rewrite W, E. cbn [signature_bytes]. cbv zeta. by rewrite Nat.eqb_refl, String.eqb_refl.
Qed.

Lemma text_is_spec s v : text_is s v = true <-> v = Some (JStr s).
Proof. destruct v as [[]|]; simpl; try naive_solver. rewrite String.eqb_eq. naive_solver. Qed.
Lemma given_spec v w : given v = Some w <-> v = Some w /\ js_truthy (Some w) = true.
Proof. unfold given. destruct (js_truthy v) eqn:T; split; [intros ->; by split|by intros [-> _]|done|intros [-> E]; congruence]. Qed.

(** What the token of an accepted clearance carries. *)
Record clears (token nodeId : string) (approvedBy caseId : json) (now : Date) (e : list (string * json)) : Prop := {
  cl_token : JSON_parse (from_base64url (String.substring (String.length DIAG) (String.length token) token)) = Ok (JObj e);
  cl_source : jlookup "source" e = Some (JStr "diagnostics");
  cl_type : jlookup "type" e = Some (JStr "forensic.clearance");
  cl_fresh : forall v t, jlookup "at" e = Some v -> getTime v = Some t -> Z.abs (now - t) <= 300000;
  cl_signed : signature_bytes (jlookup "signature" e) = Ok (hmac (secrets "diagnostics") (event_body e));
  cl_payload : exists o, jlookup "payload" e = Some (JObj o) /\ jlookup "nodeId" o = Some (JStr nodeId) /\
    jlookup "approvedBy" o = Some approvedBy /\ jlookup "caseId" o = Some caseId /\
    js_truthy (Some approvedBy) = true /\ js_truthy (Some caseId) = true
}.

Lemma member_obj k v w : member k v = Ok (Some w) -> exists o, v = JObj o /\ jlookup k o = Some w.
Proof. destruct v; simpl; intros E; try discriminate. injection E as E. eauto. Qed.

(** C14: the verifier returns an approver and a case only for a token that
    carries an event signed with the Diagnostics secret over exactly the fields the
    event has, of the clearance type, whose payload names this node and the two values
    returned, which are truthy; when the event's time is a date, it is at most five
    minutes from now (an event whose time is no date is never too old); a token that is
    accepted publishes the event and changes nothing else. *)
Theorem clearance_is_signed token nodeId now db db' approvedBy caseId :
  clearance_verify token nodeId now db = (db', Ok (approvedBy, caseId)) ->
  exists e, clears token nodeId approvedBy caseId now e /\
    db' = (publish "ecosystem.diagnostics.forensic.clearance" (JObj e) db).1.
Proof.
  unfold clearance_verify. destruct (negb (startsWith DIAG token)); [done|].
  destruct (JSON_parse _) as [event|] eqn:P; [|done]. intros R.
  apply bind_inv_ok in R as (s1 & source & M & R). injection M as <- M.
  destruct (text_is "diagnostics" source) eqn:T; [|done]. apply text_is_spec in T as ->.
  apply member_obj in M as (e & -> & Src). simpl in R.
  destruct (text_is "forensic.clearance" (jlookup "type" e)) eqn:T; [|done]. apply text_is_spec in T as Ty.
  apply bind_inv_ok in R as (s2 & [] & A & R).
  apply eco_accept_ok in A as (-> & W & Sg). rewrite Ty in R.
  destruct (jlookup "payload" e) as [p|] eqn:Pay; [|done].
  assert (exists o, p = JObj o /\ jlookup "nodeId" o = Some (JStr nodeId) /\
    (let* by_ := lift_res (member "approvedBy" p) in
     let* case := lift_res (member "caseId" p) in
     match given by_, given case with
     | Some approvedBy, Some caseId => mret (approvedBy, caseId)
     | _, _ => throw (JsError "clearance token is missing approvedBy/caseId")
     end) (publish "ecosystem.diagnostics.forensic.clearance" (JObj e) db).1 = (db', Ok (approvedBy, caseId)))
    as (o & -> & Sc & R').
  { destruct p as [| | | | |o]; try done. apply bind_inv_ok in R as (s3 & scope & M & R). injection M as <- <-.
    destruct (text_is nodeId _) eqn:Sc; [|done]. apply text_is_spec in Sc. eauto. }
  change (match given (jlookup "approvedBy" o), given (jlookup "caseId" o) with
    | Some approvedBy, Some caseId => mret (approvedBy, caseId)
    | _, _ => throw (JsError "clearance token is missing approvedBy/caseId")
    end (publish "ecosystem.diagnostics.forensic.clearance" (JObj e) db).1 = (db', Ok (approvedBy, caseId))) in R'.
  destruct (given (jlookup "approvedBy" o)) as [b|] eqn:B; [|done].
  destruct (given (jlookup "caseId" o)) as [c|] eqn:C; [|done]. injection R' as <- <- <-.
  apply given_spec in B as [B ?], C as [C ?]. exists e. split; [split; eauto 10|done].
  intros v t Hv Ht. unfold outside_window in W. rewrite Hv, Ht in W. by apply Z.ltb_ge in W.
Qed.

(** ** Issuing and verifying *)

(** Also: a token issued for a node within five minutes of now is accepted for that
    node, with the approver and the case it was issued for, and refused for every
    other node; in both cases its event is published. *)
Theorem issued_clearance_verifies nodeId approvedBy caseId nonce at_ other now db :
  (forall s, from_base64url (base64url s) = s) ->
  let e := signed_event nodeId approvedBy caseId nonce at_ in
  JSON_parse (json_stringify (JObj e)) = Ok (JObj e) ->
  getTime (jdate at_) = Some at_ ->
  Z.abs (now - at_) <= 300000 -> truthy approvedBy = true -> truthy caseId = true ->
  clearance_verify (issueClearanceToken nodeId approvedBy caseId nonce at_) other now db =
  ((publish "ecosystem.diagnostics.forensic.clearance" (JObj e) db).1,
   if String.eqb nodeId other then Ok (JStr approvedBy, JStr caseId)
   else Throw (JsError "clearance token is not scoped to this node")).
Proof.
  intros B64 e JP GT W TB TC. unfold clearance_verify, issueClearanceToken. fold e.
  rewrite startsWith_app, substring_app, B64, JP by (rewrite length_app_s; lia). cbn [negb].
  rewrite (bind_ok (lift_res (member "source" (JObj e))) _ db db (Some (JStr "diagnostics")) eq_refl).
  change (negb (text_is "diagnostics" (Some (JStr "diagnostics")))) with false.
  change (negb (text_is "forensic.clearance" (jlookup "type" e))) with false. cbv iota.
  erewrite bind_ok; [|rewrite (eco_accept_signed "diagnostics" e now (eco_sign "diagnostics" e)); [reflexivity| |done..]].
  2:{ unfold outside_window. change (jlookup "at" e) with (Some (jdate at_)). cbv iota. rewrite GT. apply Z.ltb_ge. lia. }
  set (p := JObj [("nodeId", JStr nodeId); ("approvedBy", JStr approvedBy); ("caseId", JStr caseId)]).
  change (jlookup "payload" e) with (Some p). cbv beta iota delta [p]. fold p.
  cbv beta iota. set (db1 := (publish _ _ db).1).
  rewrite (bind_ok (lift_res (member "nodeId" p)) _ db1 db1 (Some (JStr nodeId)) eq_refl). cbn [text_is].
  destruct (String.eqb nodeId other); [|done]. cbn [negb].
  rewrite (bind_ok (lift_res (member "approvedBy" p)) _ db1 db1 (Some (JStr approvedBy)) eq_refl).
  rewrite (bind_ok (lift_res (member "caseId" p)) _ db1 db1 (Some (JStr caseId)) eq_refl).
  unfold given. cbn [js_truthy]. by rewrite TB, TC.
Qed.
End ecosystem.

(** ** Examples *)

Definition clr_hmac (k m : string) : string := k +:+ m.
Definition clr_id (s : string) : string := s.
Definition clr_secret (source : string) : string := source +:+ "-secret".
Definition clr_event : list (string * json) := signed_event clr_hmac clr_secret "n1" "ann" "case-7" "u1" 0.
Definition clr_parse (s : string) : res json :=
  if String.eqb s (json_stringify (JObj clr_event)) then Ok (JObj clr_event) else Throw (JsError "Unexpected token").
Definition clr_time (v : json) : option Z :=
  match v with JStr s => if String.eqb s (toISOString 0) then Some 0 else None | _ => None end.
Definition clr_token : string := issueClearanceToken clr_hmac clr_id clr_secret "n1" "ann" "case-7" "u1" 0.
Definition clr_buffer (v : json) : res string := Throw (JsError "The first argument must be of type string").
Definition clr_verify := clearance_verify clr_hmac clr_id clr_parse clr_time clr_buffer clr_secret.

Lemma issued_clearance_verifies_witness :
  (clr_verify clr_token "n1" 1000 (empty_db 1000)).2 = Ok (JStr "ann", JStr "case-7") /\
  (clr_verify clr_token "n2" 1000 (empty_db 1000)).2 = Throw (JsError "clearance token is not scoped to this node").
Proof.
  split; unfold clr_verify, clr_token;
    rewrite (issued_clearance_verifies clr_hmac clr_id clr_id clr_parse clr_time clr_buffer clr_secret "n1" "ann" "case-7" "u1" 0);
    try reflexivity; try (vm_compute; reflexivity); vm_compute; discriminate.
Defined.

Lemma clearance_is_signed_witness :
  exists e, clears clr_hmac clr_id clr_parse clr_time clr_buffer clr_secret clr_token "n1" (JStr "ann") (JStr "case-7") 1000 e /\
    (clr_verify clr_token "n1" 1000 (empty_db 1000)).1 =
      (publish "ecosystem.diagnostics.forensic.clearance" (JObj e) (empty_db 1000)).1.
Proof.
  apply (clearance_is_signed clr_hmac clr_id clr_id clr_parse clr_time clr_buffer clr_secret clr_token "n1" 1000 (empty_db 1000)).
  vm_compute. reflexivity.
Defined.
