(* ===== verification/Storage.v ===== *)
(** * Transactions, migrations and the outbox dispatcher

    [Postgres.transaction] with the shared connection of [PgRepositories]
    ([src/src/infrastructure/postgres/client.ts], [repositories.ts]), the
    [MigrationRunner] ([migrate.ts]) and [OutboxDispatcher] with
    [OutboxEventSigner] ([outbox.ts], [outbox-event-signer.ts]).  Elsewhere in the
    library a transaction runs by itself; here its steps are explicit, so that
    the steps of two requests can alternate. *)

From S2P Require Import Prelude Json Text Domain Words Database Repositories.
Open Scope Z_scope.

(** ** The connection of [PgRepositories]

    [PgRepositories] is one object per process; its field [tx] names the
    connection every query uses.  A request is a list of steps, one between two
    awaits. *)

Inductive Conn := Pool | Client (c : nat).

Inductive Op :=
  | OConnect                 (* const client=await this.pool.connect() *)
  | OBegin                   (* await client.query("BEGIN") *)
  | OEnter                   (* const original=this.tx; this.tx=client *)
  | OQuery (text : string)   (* this.q(text) *)
  | OExit                    (* finally{this.tx=original} *)
  | OCommit                  (* await client.query("COMMIT") *)
  | ORelease.                (* finally{client.release()} *)

Record Request := mkRequest {
  rq_ops : list Op; rq_client : option nat; rq_original : option nat
}.

Record Sent := mkSent { s_conn : Conn; s_request : nat; s_text : string }.

Record Process := mkProcess {
  tx : option nat; checked_out : list nat; next_client : nat; sent : list Sent
}.

Definition start_process : Process := mkProcess None [] 0 [].

(** [this.tx?this.tx.query(text):this.db.query(text)] *)
Definition q_conn (p : Process) : Conn := match p.(tx) with Some c => Client c | None => Pool end.

Definition send_on (c : Conn) (i : nat) (text : string) (p : Process) : Process :=
  mkProcess p.(tx) p.(checked_out) p.(next_client) (p.(sent) ++ [mkSent c i text]).
Definition own_conn (r : Request) : Conn := match r.(rq_client) with Some c => Client c | None => Pool end.
Definition set_tx (t : option nat) (p : Process) : Process :=
  mkProcess t p.(checked_out) p.(next_client) p.(sent).

(** One step of request [i]. *)
Definition step_op (i : nat) (o : Op) (r : Request) (p : Process) : Request * Process :=
  match o with
  | OConnect =>
      (mkRequest r.(rq_ops) (Some p.(next_client)) r.(rq_original),
       mkProcess p.(tx) (p.(next_client) :: p.(checked_out)) (S p.(next_client)) p.(sent))
  | OBegin => (r, send_on (own_conn r) i "BEGIN" p)
  | OEnter => (mkRequest r.(rq_ops) r.(rq_client) p.(tx), set_tx r.(rq_client) p)
  | OQuery text => (r, send_on (q_conn p) i text p)
  | OExit => (r, set_tx r.(rq_original) p)
  | OCommit => (r, send_on (own_conn r) i "COMMIT" p)
  | ORelease =>
      (r, mkProcess p.(tx) (List.filter (fun c => negb (bool_decide (Some c = r.(rq_client)))) p.(checked_out))
            p.(next_client) p.(sent))
  end.

Definition step_request (i : nat) (r : Request) (p : Process) : Request * Process :=
  match r.(rq_ops) with
  | [] => (r, p)
  | o :: ops => step_op i o (mkRequest ops r.(rq_client) r.(rq_original)) p
  end.

(** A schedule names the request that makes the next step. *)
Fixpoint run_schedule (schedule : list nat) (rs : list Request) (p : Process) : list Request * Process :=
  match schedule with
  | [] => (rs, p)
  | i :: schedule' =>
      match rs !! i with
      | Some r => let '(r', p') := step_request i r p in run_schedule schedule' (<[i := r']> rs) p'
      | None => run_schedule schedule' rs p
      end
  end.

(** [repo.transaction(work)] where [work] makes these queries, and a request
    without a transaction. *)
Definition in_transaction (work : list string) : Request :=
  mkRequest ([OConnect; OBegin; OEnter] ++ map OQuery work ++ [OExit; OCommit; ORelease]) None None.

(** ** Migrations *)

Record MigrationFile := mkMigration { mg_name : string; mg_sql : string; mg_checksum : string }.
Record MigrationResult := mkMigrated { applied : list string; skipped : list string }.

(** [f.endsWith(s)] *)
Fixpoint endsWith (s f : string) : bool :=
  String.eqb s f || match f with String _ f' => endsWith s f' | EmptyString => false end.

(** [loadMigrations]: [files] is the directory's content in any order. *)
Definition loadMigrations (sha256 : string -> string) (files : list (string * string)) : list MigrationFile :=
  map (fun f => mkMigration f.1 f.2 (to_hex (sha256 f.2)))
    (sort_by (fun a b => String.leb a.1 b.1) (List.filter (fun f => endsWith ".sql" f.1) files)).

Section migrations.
(** The schema, and what running a script does to it. *)
Context {X : Type} (run_sql : string -> St X unit).

(** The schema and [public.schema_migrations]: name, checksum and time. *)
Record Migrated := mkMigratedDb { mg_schema : X; mg_rows : list (string * (string * Date)); mg_now : Date }.

Definition recorded (name : string) (s : Migrated) : option (string * Date) :=
  snd <$> List.find (fun r => String.eqb r.1 name) s.(mg_rows).

Definition on_schema (m : St X unit) : St Migrated unit := fun s =>
  let '(x, r) := m s.(mg_schema) in (mkMigratedDb x s.(mg_rows) s.(mg_now), r).

(** [INSERT INTO public.schema_migrations]; [name] is the primary key. *)
Definition insert_migration (m : MigrationFile) : St Migrated unit := fun s =>
  if bool_decide (is_Some (recorded m.(mg_name) s)) then (s, Throw unique_violation)
  else (mkMigratedDb s.(mg_schema) (s.(mg_rows) ++ [(m.(mg_name), (m.(mg_checksum), s.(mg_now)))]) s.(mg_now), Ok tt).

(** The loop; [byName] was read before it. *)
Fixpoint apply_all (byName : string -> option (string * Date)) (ms : list MigrationFile) (r : MigrationResult) :
    St Migrated MigrationResult :=
  match ms with
  | [] => mret r
  | m :: ms' =>
      match byName m.(mg_name) with
      | Some (prior, _) =>
          if truthy prior then
            if negb (String.eqb prior m.(mg_checksum))
            then throw (JsError ("migration " +:+ m.(mg_name) +:+ " has changed since it was applied (checksum mismatch)"))
            else apply_all byName ms' (mkMigrated r.(applied) (r.(skipped) ++ [m.(mg_name)]))
          else on_schema (run_sql m.(mg_sql)) ;;; insert_migration m ;;;
               apply_all byName ms' (mkMigrated (r.(applied) ++ [m.(mg_name)]) r.(skipped))
      | None =>
          on_schema (run_sql m.(mg_sql)) ;;; insert_migration m ;;;
          apply_all byName ms' (mkMigrated (r.(applied) ++ [m.(mg_name)]) r.(skipped))
      end
  end.

(** [MigrationRunner.apply], under the advisory lock. *)
Definition migrate (ms : list MigrationFile) : St Migrated MigrationResult :=
  transaction (let* byName := gets (fun s name => recorded name s) in apply_all byName ms (mkMigrated [] [])).

Record MigrationStatus := mkStatus { st_name : string; st_applied : option (Date * bool) }.

(** [MigrationRunner.status]: when applied, the time and whether it drifted. *)
Definition migration_status (ms : list MigrationFile) (s : Migrated) : list MigrationStatus :=
  map (fun m => mkStatus m.(mg_name)
    ((fun row => (row.2, negb (String.eqb row.1 m.(mg_checksum)))) <$> recorded m.(mg_name) s)) ms.
End migrations.
Arguments mkMigratedDb {X} _ _ _.
Arguments mg_schema {X} _.
Arguments mg_rows {X} _.
Arguments mg_now {X} _.

(** ** The outbox dispatcher *)

Section outbox.
(** The receiver and what sending to it does. *)
Context {W : Type} (send : string -> json -> St W unit).

Definition attempted (row : OutboxRow) (result : res unit) (message : exn -> string) : OutboxRow :=
  match result with
  | Ok _ => {| o_topic := row.(o_topic); o_payload := row.(o_payload); o_published := true;
               o_attempts := row.(o_attempts) + 1; o_error := None |}
  | Throw e => {| o_topic := row.(o_topic); o_payload := row.(o_payload); o_published := row.(o_published);
                  o_attempts := row.(o_attempts) + 1; o_error := Some (message e) |}
  end.

(** [SELECT ... WHERE published_at IS NULL ORDER BY created_at LIMIT $1] and the
    loop over it: rows are in the order they were created, [limit] is what is left
    of the limit; the result counts the rows taken.  No other dispatcher holds a
    lock. *)
Fixpoint flush_rows (message : exn -> string) (limit : nat) (rows : list OutboxRow) (w : W) :
    list OutboxRow * nat * W :=
  match rows with
  | [] => ([], 0%nat, w)
  | row :: rows' =>
      if row.(o_published) then
        let '(out, n, w') := flush_rows message limit rows' w in (row :: out, n, w')
      else match limit with
      | O => (rows, 0%nat, w)
      | S limit' =>
          let '(w1, result) := send row.(o_topic) row.(o_payload) w in
          let '(out, n, w') := flush_rows message limit' rows' w1 in
          (attempted row result message :: out, S n, w')
      end
  end.

(** [OutboxDispatcher.flush] *)
Definition flush (message : exn -> string) (limit : nat) : St (Db * W) nat := fun '(db, w) =>
  let '(out, n, w') := flush_rows message limit db.(event_outbox) w in
  ((set_event_outbox out db, w'), Ok n).
End outbox.

(** [OutboxEventSigner]; [hmac] is HMAC-SHA256 of the two updates. *)
Section signer.
Context (hmac : string -> string -> string).
Definition outbox_sign (secret topic : string) (event : json) : string :=
  to_hex (hmac secret (topic +:+ json_stringify event)).
(** [Buffer.from(s,"hex")] and the comparison. *)
Definition outbox_verify (secret topic : string) (event : json) (signature : string) : bool :=
  String.eqb (from_hex (outbox_sign secret topic event)) (from_hex signature).
End signer.

(** ** One transaction after the other *)

Fixpoint run_ops (i : nat) (ops : list Op) (r : Request) (p : Process) : Request * Process :=
  match ops with
  | [] => (r, p)
  | o :: ops' => let '(r', p') := step_op i o (mkRequest ops' r.(rq_client) r.(rq_original)) p in run_ops i ops' r' p'
  end.

Lemma step_op_ops i o r p : (step_op i o r p).1.(rq_ops) = r.(rq_ops).
Proof. by destruct o. Qed.

(** A request that makes [length ops] steps in a row runs its first operations. *)
Lemma run_block i ops rest c orig schedule rs p :
  rs !! i = Some (mkRequest (ops ++ rest) c orig) ->
  run_schedule (replicate (length ops) i ++ schedule) rs p =
    let '(r', p') := run_ops i ops (mkRequest [] c orig) p in
    run_schedule schedule (<[i := mkRequest rest r'.(rq_client) r'.(rq_original)]> rs) p'.
Proof.
  revert c orig rs p; induction ops as [|o ops IH]; intros c orig rs p Hi.
  { cbn. by rewrite list_insert_id. }
  cbn [length replicate app run_schedule]. rewrite Hi. unfold step_request. cbn [rq_ops app rq_client rq_original run_ops].
  assert (Hstep : forall l, step_op i o (mkRequest l c orig) p =
    (mkRequest l (step_op i o (mkRequest [] c orig) p).1.(rq_client) (step_op i o (mkRequest [] c orig) p).1.(rq_original),
     (step_op i o (mkRequest [] c orig) p).2)) by (intros l; by destruct o).
  rewrite (Hstep (ops ++ rest)), (Hstep ops).
  destruct (step_op i o (mkRequest [] c orig) p) as [[l1 c1 o1] p1]. cbn.
  rewrite (IH c1 o1) by (rewrite list_lookup_insert_eq; [done|by eapply lookup_lt_Some]).
  assert (run_ops i ops (mkRequest ops c1 o1) p1 = run_ops i ops (mkRequest [] c1 o1) p1) as -> by (destruct ops; reflexivity).
  destruct (run_ops i ops (mkRequest [] c1 o1) p1) as [r' p']. by rewrite list_insert_insert_eq.
Qed.

(** The queries of a request are sent wherever the process points, in order. *)
Lemma run_queries i work o rest r p :
  run_ops i (map OQuery work ++ o :: rest) r p =
  run_ops i (o :: rest) (mkRequest (o :: rest) r.(rq_client) r.(rq_original))
    (mkProcess p.(tx) p.(checked_out) p.(next_client) (p.(sent) ++ map (mkSent (q_conn p) i) work)).
Proof.
  revert r p; induction work as [|t work IH]; intros r p.
  - cbn. rewrite app_nil_r. by destruct p.
  - cbn [map app run_ops step_op]. rewrite IH. cbn. rewrite <- app_assoc. by destruct p.
Qed.

(** What a whole transaction leaves behind when nothing else steps. *)
Lemma run_transaction_alone i work p :
  p.(tx) = None -> p.(next_client) ∉ p.(checked_out) ->
  (run_ops i (in_transaction work).(rq_ops) (mkRequest [] None None) p).2 =
    mkProcess None p.(checked_out) (S p.(next_client))
      (p.(sent) ++ map (mkSent (Client p.(next_client)) i) ("BEGIN" :: work ++ ["COMMIT"])).
Proof.
  destruct p as [t out nc snt]. cbn [tx next_client checked_out]. intros -> Hf. unfold in_transaction. cbn [rq_ops].
  cbn [app run_ops step_op]. rewrite run_queries. cbn. f_equal.
  - rewrite bool_decide_eq_true_2 by done. cbn. clear -Hf. induction out as [|c out IH]; [done|].
    apply not_elem_of_cons in Hf as [Hc Hf]. cbn. rewrite bool_decide_eq_false_2 by congruence. cbn.
    by rewrite IH.
  - unfold q_conn. cbn. rewrite map_app. cbn. by rewrite <- !app_assoc.
Qed.

(** The steps of all requests, one request after the other. *)
Definition serial (works : list (list string)) : list nat :=
  concat (imap (fun i w => replicate (length (in_transaction w).(rq_ops)) i) works).

Definition transaction_sent (i : nat) (work : list string) : list Sent :=
  map (mkSent (Client i) i) ("BEGIN" :: work ++ ["COMMIT"]).

Lemma serial_from k works rs p :
  (forall i w, works !! i = Some w -> rs !! (k + i)%nat = Some (in_transaction w)) ->
  p.(tx) = None -> p.(checked_out) = [] -> p.(next_client) = k ->
  (run_schedule (concat (imap (fun i w => replicate (length (in_transaction w).(rq_ops)) (k + i)%nat) works)) rs p).2
  = mkProcess None [] (k + length works)%nat
      (p.(sent) ++ concat (imap (fun i w => transaction_sent (k + i)%nat w) works)).
Proof.
  revert k rs p; induction works as [|w works IH]; intros k rs p Hrs Ht Ho Hn.
  { destruct p. cbn in *. subst. by rewrite Nat.add_0_r, app_nil_r. }
  pose proof (Hrs 0%nat w eq_refl) as H0. rewrite Nat.add_0_r in H0.
  cbn [imap concat]. rewrite Nat.add_0_r.
  assert (H0' : rs !! k = Some (mkRequest ((in_transaction w).(rq_ops) ++ []) None None)) by (by rewrite app_nil_r).
  rewrite (run_block k (in_transaction w).(rq_ops) [] None None _ rs p H0').
  pose proof (run_transaction_alone k w p Ht ltac:(rewrite Ho; set_solver)) as E.
  destruct (run_ops k (in_transaction w).(rq_ops) (mkRequest [] None None) p) as [r' p']. cbn [snd] in E. subst p'.
  assert (Hshift : forall A (f : nat -> list string -> list A),
     concat (imap ((fun i w => f (k + i)%nat w) ∘ S) works) = concat (imap (fun i w => f (S k + i)%nat w) works)).
  { intros A f. f_equal. apply imap_ext. intros i x _. cbn. by rewrite Nat.add_succ_r. }
  rewrite (Hshift _ (fun i w => replicate (length (in_transaction w).(rq_ops)) i)), (Hshift _ transaction_sent).
  rewrite IH; [|intros i x Hx; rewrite list_lookup_insert_ne by lia; specialize (Hrs (S i) x Hx);
                by rewrite Nat.add_succ_r in Hrs|done|done|cbn; by rewrite Hn].
  rewrite Hn. cbn [sent length]. f_equal; [lia|]. by rewrite <- app_assoc.
Qed.

(** Also: Transactions that do not overlap are what they look like: whatever the
    number and the queries of the transactions, run one after the other, each of them
    sends BEGIN, its queries and COMMIT on a connection of its own, and in the end the
    repositories point at no connection and every connection is back in the pool. *)
Theorem serial_transactions works :
  (run_schedule (serial works) (map in_transaction works) start_process).2
  = mkProcess None [] (length works) (concat (imap transaction_sent works)).
Proof.
  unfold serial. pose proof (serial_from 0 works (map in_transaction works) start_process) as H.
  cbn [Nat.add] in H. apply H; [|done..]. intros i w Hw. by rewrite list_lookup_fmap, Hw.
Qed.





(** ** Migrations are applied once *)

Section migration_proofs.
Context {X : Type} (run_sql : string -> St X unit).
Implicit Types s : @Migrated X.

Lemma find_app_Some {A} (f : A -> bool) l l' x : List.find f l = Some x -> List.find f (l ++ l') = Some x.
Proof. induction l as [|y l IH]; cbn; [done|]. destruct (f y); auto. Qed.

Lemma find_app_None {A} (f : A -> bool) l l' : List.find f l = None -> List.find f (l ++ l') = List.find f l'.
Proof. induction l as [|y l IH]; cbn; [done|]. destruct (f y); auto. done. Qed.

(** Rows are never changed. *)
Definition keeps s s' : Prop := forall name x, recorded name s = Some x -> recorded name s' = Some x.

Lemma insert_migration_ok m s s' :
  insert_migration m s = (s', Ok tt) ->
  keeps s s' /\ recorded m.(mg_name) s = None /\ recorded m.(mg_name) s' = Some (m.(mg_checksum), s.(mg_now)).
Proof.
  unfold insert_migration. case_bool_decide as Hr; [done|]. intros [= <-].
  apply eq_None_not_Some in Hr. split_and!; [|done|].
  - intros name x. unfold recorded. cbn [mg_rows]. destruct (List.find _ (mg_rows s)) as [y|] eqn:E; [|done].
    by rewrite (find_app_Some _ _ _ _ E).
  - unfold recorded in *. cbn [mg_rows]. destruct (List.find _ (mg_rows s)) eqn:E; [done|].
    rewrite (find_app_None _ _ _ E). cbn. by rewrite String.eqb_refl.
Qed.

Lemma on_schema_rows m s s' : on_schema m s = (s', Ok tt) -> s'.(mg_rows) = s.(mg_rows).
Proof. unfold on_schema. destruct (m (mg_schema s)) as [x [[]|e]]; intros [= <-]; done. Qed.

Lemma run_one_migration m ms byName r s s' out :
  (on_schema (run_sql m.(mg_sql)) ;;; insert_migration m ;;; apply_all run_sql byName ms r) s = (s', Ok out) ->
  exists s2, keeps s s2 /\ recorded m.(mg_name) s2 <> None
    /\ (exists t, recorded m.(mg_name) s2 = Some (m.(mg_checksum), t)) /\ apply_all run_sql byName ms r s2 = (s', Ok out).
Proof.
  intros H. apply bind_inv_ok in H as (s1 & [] & E1%on_schema_rows & H).
  apply bind_inv_ok in H as (s2 & [] & (Hk & _ & Hr)%insert_migration_ok & H).
  assert (Hrec : forall name, recorded name s1 = recorded name s) by (intros name; unfold recorded; by rewrite E1).
  exists s2. split_and!; [|by rewrite Hr|by eexists|done].
  intros name x. rewrite <- Hrec. apply Hk.
Qed.

(** Every script is on record with its checksum when the loop ends. *)
Lemma apply_all_records s0 ms r s s' out :
  Forall (fun m => m.(mg_checksum) <> "") ms -> keeps s0 s ->
  apply_all run_sql (fun name => recorded name s0) ms r s = (s', Ok out) ->
  keeps s s' /\ Forall (fun m => exists t, recorded m.(mg_name) s' = Some (m.(mg_checksum), t)) ms.
Proof.
  intros Hms. revert r s. induction Hms as [|m ms Hm Hms IH]; intros r s Hk; cbn [apply_all].
  { intros [= -> <-]. split; [by intros ? ?|constructor]. }
  assert (Hrun : forall r, (on_schema (run_sql (mg_sql m)) ;;; insert_migration m ;;;
      apply_all run_sql (fun name => recorded name s0) ms r) s = (s', Ok out) ->
    keeps s s' /\ Forall (fun m => exists t, recorded m.(mg_name) s' = Some (m.(mg_checksum), t)) (m :: ms)).
  { intros r1 (s2 & Hk2 & _ & (t & Ht) & H)%run_one_migration.
    destruct (IH r1 s2) as [Hk' Hall]; [intros name x Hx; by apply Hk2, Hk|done|].
    split; [intros name x Hx; by apply Hk', Hk2|]. constructor; [|done]. exists t. by apply Hk'. }
  destruct (recorded (mg_name m) s0) as [[prior t]|] eqn:E; [|by apply Hrun].
  destruct (truthy prior); [|by apply Hrun].
  destruct (String.eqb_spec prior (mg_checksum m)) as [->|]; [|done]. cbn [negb].
  intros H. destruct (IH _ _ Hk H) as [Hk' Hall]. split; [done|]. constructor; [|done].
  exists t. by apply Hk', Hk.
Qed.

(** Scripts on record with their checksum are skipped. *)
Lemma apply_all_skips s ms r :
  Forall (fun m => m.(mg_checksum) <> "" /\ exists t, recorded m.(mg_name) s = Some (m.(mg_checksum), t)) ms ->
  apply_all run_sql (fun name => recorded name s) ms r s
  = (s, Ok (mkMigrated r.(applied) (r.(skipped) ++ map mg_name ms))).
Proof.
  intros Hms. revert r. induction Hms as [|m ms [Hm (t & Ht)] Hms IH]; intros r.
  { cbn. rewrite app_nil_r. by destruct r. }
  cbn [apply_all map]. rewrite Ht. apply truthy_spec in Hm as ->. rewrite String.eqb_refl. cbn [negb].
  rewrite IH. cbn. by rewrite <- app_assoc.
Qed.

(** Also: Migrating is all or nothing, and once: a run that fails, at a script or at
    a checksum that no longer matches, leaves schema and record exactly as they were;
    after a run that returns every script is on record under its checksum, no earlier
    record has changed, the status of every script is applied and not drifted, and
    running again applies nothing and changes nothing. *)
Theorem migrate_once ms s s' out :
  Forall (fun m => m.(mg_checksum) <> "") ms ->
  migrate run_sql ms s = (s', out) ->
  match out with
  | Throw _ => s' = s
  | Ok _ => keeps s s'
      /\ Forall (fun st => exists t, st.(st_applied) = Some (t, false)) (migration_status ms s')
      /\ migrate run_sql ms s' = (s', Ok (mkMigrated [] (map mg_name ms)))
  end.
Proof.
  intros Hms H. destruct out as [r|e]; [|by apply transaction_throw in H].
  unfold migrate in H. apply (proj1 (transaction_ok _ _ _ _)) in H.
  change (mbind ?k (gets ?g) s) with (k (g s) s) in H. cbn beta in H.
  destruct (apply_all_records s ms _ s s' r Hms ltac:(by intros ? ?) H) as [Hk Hall].
  assert (Hboth : Forall (fun m => m.(mg_checksum) <> "" /\ exists t, recorded m.(mg_name) s' = Some (m.(mg_checksum), t)) ms)
    by (apply Forall_and; by split).
  split_and!; [done| |].
  - unfold migration_status. apply Forall_map. eapply Forall_impl; [exact Hall|]. intros m (t & Ht).
    exists t. cbn. rewrite Ht. cbn. by rewrite String.eqb_refl.
  - unfold migrate. apply (proj2 (transaction_ok _ _ _ _)).
    change (mbind ?k (gets ?g) s') with (k (g s') s'). cbn beta.
    by rewrite apply_all_skips.
Qed.
End migration_proofs.

Lemma migrate_once_witness :
  let run_sql (sql : string) : St (list string) unit :=
    fun x => if String.eqb sql "BAD" then (x, Throw (PgError "42601")) else (x ++ [sql], Ok tt) in
  let ms := loadMigrations (fun s => s) [("002_b.sql", "B"); ("001_a.sql", "A"); ("README.md", "x")] in
  let s0 := mkMigratedDb [] [] 1000 in
  exists s1, migrate run_sql ms s0 = (s1, Ok (mkMigrated ["001_a.sql"; "002_b.sql"] []))
    /\ s1.(mg_schema) = ["A"; "B"] /\ migrate run_sql ms s1 = (s1, Ok (mkMigrated [] ["001_a.sql"; "002_b.sql"])).
Proof.
  intros run_sql ms s0. destruct (migrate run_sql ms s0) as [s1 r] eqn:E.
  assert (Forall (fun m => m.(mg_checksum) <> "") ms) as Hms by (repeat constructor; discriminate).
  assert (r = Ok (mkMigrated ["001_a.sql"; "002_b.sql"] [])) as ->
    by (apply (f_equal snd) in E; cbn [snd] in E; rewrite <- E; vm_compute; reflexivity).
  destruct (migrate_once run_sql ms s0 s1 _ Hms E) as (_ & _ & Hagain).
  exists s1. split; [reflexivity|]. split; [|exact Hagain].
  apply (f_equal (fun x => x.1.(mg_schema))) in E. cbn [fst] in E. rewrite <- E. vm_compute. reflexivity.
Defined.

(** ** The outbox drains *)

Definition unpublished (rows : list OutboxRow) : list OutboxRow :=
  List.filter (fun r => negb r.(o_published)) rows.
Definition delivery (r : OutboxRow) : string * json := (r.(o_topic), r.(o_payload)).

Section drain.
Context (message : exn -> string).

(** A receiver that takes everything, and its log. *)
Definition accepting (topic : string) (event : json) : St (list (string * json)) unit :=
  modify (fun log => log ++ [(topic, event)]).

Lemma flush_rows_accepting limit rows log :
  let '(out, n, log') := flush_rows accepting message limit rows log in
  map delivery out = map delivery rows
  /\ log' = log ++ map delivery (take limit (unpublished rows))
  /\ unpublished out = drop limit (unpublished rows)
  /\ n = length (take limit (unpublished rows)).
Proof.
  revert limit log; induction rows as [|row rows IH]; intros limit log.
  { cbn. rewrite take_nil, drop_nil, app_nil_r. done. }
  cbn [flush_rows]. unfold unpublished in *. cbn [List.filter].
  destruct (o_published row) eqn:P; cbn [negb].
  - specialize (IH limit log). destruct (flush_rows accepting message limit rows log) as [[out n] log'].
    destruct IH as (H1 & H2 & H3 & H4). cbn [List.filter map]. rewrite P. cbn [negb]. by rewrite H1.
  - destruct limit as [|limit]; [cbn; rewrite P; cbn; by rewrite app_nil_r|].
    unfold accepting at 1, modify. cbn [fst snd].
    specialize (IH limit (log ++ [(o_topic row, o_payload row)])).
    destruct (flush_rows accepting message limit rows _) as [[out n] log'].
    destruct IH as (H1 & H2 & H3 & H4). cbn [attempted map List.filter o_published negb take drop length].
    rewrite H1, H2, H4. split_and!; [done| |done|done]. by rewrite <- app_assoc.
Qed.

(** [k] turns of the loop of the maintenance worker. *)
Fixpoint flushes (k limit : nat) (rows : list OutboxRow) (log : list (string * json)) :
    list OutboxRow * list (string * json) :=
  match k with
  | O => (rows, log)
  | S k' => let '(out, _, log') := flush_rows accepting message limit rows log in flushes k' limit out log'
  end.

(** C25: The outbox drains, once each and in order: with a receiver that accepts,
    and whatever the backlog, after as many flushes as there are unpublished rows
    (fewer, [limit] at a time) every row is published, and the receiver has got
    exactly the unpublished events, each once, in the order they were published in,
    after what it had before. *)
Theorem outbox_drains k limit rows log :
  (0 < limit)%nat -> (length (unpublished rows) <= k * limit)%nat ->
  let '(out, log') := flushes k limit rows log in
  unpublished out = [] /\ map delivery out = map delivery rows
  /\ log' = log ++ map delivery (unpublished rows).
Proof.
  intros Hl. revert rows log; induction k as [|k IH]; intros rows log Hk.
  { cbn in *. apply Nat.le_0_r, nil_length_inv in Hk. rewrite Hk. cbn. by rewrite app_nil_r. }
  cbn [flushes]. pose proof (flush_rows_accepting limit rows log) as H.
  destruct (flush_rows accepting message limit rows log) as [[out n] log'].
  destruct H as (H1 & H2 & H3 & _).
  assert (length (unpublished out) <= k * limit)%nat as Hk' by (rewrite H3, length_drop; lia).
  specialize (IH out log' Hk'). destruct (flushes k limit out log') as [out' log''].
  destruct IH as (E1 & E2 & E3). split_and!; [done|by rewrite E2|].
  rewrite E3, H2, H3, <- app_assoc, <- map_app. by rewrite take_drop.
Qed.

(** A receiver that refuses the first [limit] rows keeps every later one waiting:
    each flush tries the same rows, and none after them. *)
Lemma refused_rows_starve {W} (send : string -> json -> St W unit) limit first rest w :
  length first = limit ->
  Forall (fun r => o_published r = false /\ forall w, exists e, send r.(o_topic) r.(o_payload) w = (w, Throw e)) first ->
  exists first', flush_rows send message limit (first ++ rest) w = (first' ++ rest, limit, w)
    /\ length first' = limit
    /\ Forall (fun r => o_published r = false /\ forall w, exists e, send r.(o_topic) r.(o_payload) w = (w, Throw e)) first'.
Proof.
  intros <-. induction 1 as [|r first [Hp He] _ (first' & E & El & Hf)].
  { exists []. split; [|by split]. cbn. destruct rest as [|row rest]; [done|]. cbn.
    destruct (o_published row) eqn:P; [|done].
    assert (forall l, flush_rows send message 0 l w = (l, 0%nat, w)) as H0.
    { intros l. induction l as [|x l IHl]; [done|]. cbn. destruct (o_published x); [by rewrite IHl|done]. }
    by rewrite H0. }
  cbn [app flush_rows length]. rewrite Hp. destruct (He w) as [e Ee]. rewrite Ee, E.
  exists (attempted r (Throw e) message :: first'). cbn [app length]. split_and!; [done|by rewrite El|].
  constructor; [|done]. cbn. by split.
Qed.
End drain.

Lemma outbox_drains_witness :
  let row t b := {| o_topic := t; o_payload := JNum 1; o_published := b; o_attempts := 0; o_error := None |} in
  unpublished (flushes (fun _ => "") 1 100 [row "a" false; row "b" true; row "c" false] []).1 = []
  /\ (flushes (fun _ => "") 1 100 [row "a" false; row "b" true; row "c" false] []).2 = [("a", JNum 1); ("c", JNum 1)].
Proof.
  intros row.
  pose proof (outbox_drains (fun _ => "") 1 100 [row "a" false; row "b" true; row "c" false] []
                ltac:(apply Nat.ltb_lt; reflexivity) ltac:(apply Nat.leb_le; reflexivity)) as H.
  destruct (flushes (fun _ => "") 1 100 [row "a" false; row "b" true; row "c" false] []) as [out log].
  destruct H as (H1 & _ & H3). split; [exact H1|exact H3].
Defined.

(** ** Signatures of events *)

(** A signature made with the secret verifies. *)
Lemma outbox_sign_verifies hmac secret topic event :
  outbox_verify hmac secret topic event (outbox_sign hmac secret topic event) = true.
Proof. unfold outbox_verify. apply String.eqb_refl. Qed.
