(* ===== verification/ControlPlane.v ===== *)
(** * The control-plane API

    The routes and handlers of [src/src/runtime/production-server.ts], over the
    services modelled in the other files, wired as that file wires them.  A body
    is given by its fields at the types the handler's callers declare; [None] is
    an absent or null field.  The identifiers a request draws and the time it
    reads are arguments; AWS and the clearance verifier are parameters. *)

From S2P Require Import Prelude Json Text Domain Database Repositories PolicyDecision AuditChain CommandQueue Enforcer Rollout SafeApply Mesh ThreatResponse Certificates Correlation Rest Router Agent Reconciliation Oob Egress Clearance.
Open Scope Z_scope.

(** The tables the handlers write, outside [Db] those of their own files, and
    the recovery channel. *)
Record App := mkApp {
  cp_db : Db; cp_signals : PgSignals; cp_relays : gmap string RelayRow; cp_egress : EgressTable;
  cp_oob : SnapshotTable * OobLink
}.

Definition on_db {A} (m : St Db A) : St App A := fun a =>
  let '(d, r) := m a.(cp_db) in (mkApp d a.(cp_signals) a.(cp_relays) a.(cp_egress) a.(cp_oob), r).
Definition on_oob {A} (m : St (SnapshotTable * OobLink) A) : St App A := fun a =>
  let '(o, r) := m a.(cp_oob) in (mkApp a.(cp_db) a.(cp_signals) a.(cp_relays) a.(cp_egress) o, r).
Definition set_relays (t : gmap string RelayRow) (a : App) : App :=
  mkApp a.(cp_db) a.(cp_signals) t a.(cp_egress) a.(cp_oob).
Definition set_egress (t : EgressTable) (a : App) : App :=
  mkApp a.(cp_db) a.(cp_signals) a.(cp_relays) t a.(cp_oob).
(** An operation on the signal table and the database. *)
Definition on_signals {A} (m : PgSignals -> Db -> PgSignals * (Db * res A)) : St App A := fun a =>
  let '(s, (d, r)) := m a.(cp_signals) a.(cp_db) in (mkApp d s a.(cp_relays) a.(cp_egress) a.(cp_oob), r).

Definition not_found (what : string) : exn := HttpError 404 (what +:+ " not found") "not_found".
Definition invalid_request (message : string) : exn := HttpError 400 message "invalid_request".

Section control_plane.
Context `{Coll : Collation} (sha256 : string -> string) (hmac : string -> string -> string).
(** [Sha256.digest] *)
Definition hex_digest (v : string) : string := to_hex (sha256 v).

(** [audit.record] *)
Definition audit (now : Date) (actor action subject : string) (payload : json) : St App unit :=
  on_db (AuditChain.record hex_digest actor action subject payload now) ;;; mret tt.

(** [repo.get(id)], refused unless it is a node *)
Definition require_node (id : string) : St App MeshNode :=
  let* found := on_db (gets (repo_get id)) in
  match found with Some (ENode n) => mret n | _ => throw (not_found "node") end.

(** ** Policies *)

Record PolicyBody := mkPolicyBody {
  pb_name : option string; pb_sourceZones : option (list SecurityZone); pb_destinationZones : option (list SecurityZone);
  pb_protocols : option (list Protocol); pb_destinationPorts : option (list Z); pb_action : option PolicyAction;
  pb_requiredRoles : option (list string); pb_requiresJit : bool; pb_priority : option Z; pb_version : option Z;
  pb_active : option bool
}.

Definition policy_of (id : string) (b : PolicyBody) : NetworkPolicy :=
  {| p_id := id; p_name := default id b.(pb_name);
     sourceZones := default [] b.(pb_sourceZones); destinationZones := default [] b.(pb_destinationZones);
     protocols := default [ANY] b.(pb_protocols); destinationPorts := default [] b.(pb_destinationPorts);
     p_action := default DENY b.(pb_action); requiredRoles := default [] b.(pb_requiredRoles);
     requiresJit := b.(pb_requiresJit); priority := default 0 b.(pb_priority);
     p_version := default 1 b.(pb_version); p_active := default true b.(pb_active) |}.

Definition put_policy (now : Date) (actor id : string) (b : PolicyBody) : St App NetworkPolicy :=
  let policy := policy_of id b in
  on_db (save (EPolicy policy)) ;;;
  audit now actor "POLICY_UPDATED" policy.(p_id)
    (JObj [("name", JStr policy.(p_name)); ("action", JStr (action_name policy.(p_action)));
           ("active", JBool policy.(p_active))]) ;;;
  mret policy.

(** [POST /api/v1/policies/apply]; [None] when the fuel of the rollout's wait is
    used up.  [env] is what happens while it waits, [finished] the time the clock
    shows when it is over. *)
Definition apply_result_json (commitId status : string) (count : nat) : json :=
  JObj [("commitId", JStr commitId); ("status", JStr status); ("policyCount", JNum (Z.of_nat count))].

Definition apply_summary (r : ApplyResult) : string * string :=
  match r with Committed c => (c, "COMMITTED") | RolledBack c _ => (c, "ROLLED_BACK") end.

Section apply.
Context (JSON_parse : string -> res json) (serverSecret : string).
Context (cfg : SafeApplyConfig) (oobRequired : bool) (safeApplyTimeoutMs : Z).

Definition oob_gate : St App unit :=
  if oobRequired then
    let* up := on_oob (on_channel (http_healthy sha256 JSON_parse serverSecret)) in
    if up : bool then mret tt
    else throw (HttpError 503 "OOB recovery channel is unreachable — refusing to apply a policy change with no independent recovery path (set OOB_REQUIRED=false to override)" "oob_unavailable")
  else mret tt.

Definition apply_policies (env : Env Db) (fuel : nat) (now finished : Date) (commitId actor : string)
    (timeoutMs : option Z) (a : App) : option (App * res ApplyResult) :=
  match oob_gate a with
  | (a0, Throw e) => Some (a0, Throw e)
  | (a0, Ok _) =>
      let policies := listActive_policies a0.(cp_db) in
      let window := Some (default safeApplyTimeoutMs timeoutMs) in
      match apply (H0 := pg_ports sha256 now) cfg env fuel commitId now policies window (Some actor) a0.(cp_db) with
      | None => None
      | Some (d, r) =>
          let a1 := mkApp d a0.(cp_signals) a0.(cp_relays) a0.(cp_egress) a0.(cp_oob) in
          match r with
          | Throw e => Some (a1, Throw e)
          | Ok result =>
              let '(c, status) := apply_summary result in
              Some ((audit finished actor "POLICY_APPLIED" "network-policies"
                       (apply_result_json c status (length policies)) ;;; mret result) a1)
          end
      end
  end.

End apply.

(** ** The actions that are audited

    One constructor per route, with the path parameters and the fields of the
    body it reads. *)
Inductive Action :=
  | ApplyPolicies (timeoutMs : option Z)
  | PutPolicy (id : string) (b : PolicyBody)
  | Lockdown (reason confirmation : option string)
  | Checkpoint (scope : option string) (document : option json)
  | Rollback (scope : option string)
  | ApproveJit (id : string) (approverRoles : list string)
  | TerminateJit (id : string) (why : option string)
  | SetRegion (nodeId : string) (where_ : option string)
  | Quarantine (nodeId : string) (why : option string)
  | RestoreNode (nodeId : string) (token : option string)
  | KillSwitch (nodeId : string) (enabled : bool)
  | SetDns (nodeId : string) (servers : list string)
  | SetDesired (nodeId : string) (input : DesiredInput)
  | Reconcile (nodeId : string)
  | Dismiss (nodeId : string)
  | Provision (where_ instanceType : option string)
  | Terminate (relayId : string).

(** What a request draws: [clock.now()], an identifier, the relays the mesh
    controller is offered, what AWS answers, what happens while a rollout waits and
    the time when it is over. *)
Record Draws := {
  dw_now : Date; dw_finished : Date; dw_env : Env Db; dw_id : string; dw_relays : option (list RelayHealth); dw_relays' : option (list RelayHealth);
  dw_launch : res (string * string); dw_terminate : res unit
}.

(** [relayFleet]: its region, [None] when it is not configured. *)
Definition not_configured : exn := HttpError 501
  "AWS relay auto-provisioning is not configured yet — set AWS_RELAY_AMI_ID and AWS_RELAY_REGION (coming soon)" "not_configured".

(** What the configuration says of a rollout: how the recovery channel's answers
    are read, its secret, the thresholds, [OOB_REQUIRED] and the default window. *)
Record ApplySettings := {
  as_parse : string -> res json; as_secret : string; as_cfg : SafeApplyConfig; as_oobRequired : bool; as_timeoutMs : Z
}.

Section actions.
Context `{Input : !JsonInput} (settings : ApplySettings).
Context `{Channel : !OobChannel OobLink} (clearance : string -> string -> Date -> St Db (json * json)).
Context (relayFleet : option string).
Variables (d : Draws) (who : string).
Local Notation now := (dw_now d).

(** The route of [apply_policies].  The fuel is a round for every millisecond of
    the window, which is enough when timers wait as long as asked
    ([SafeApply.apply_terminates]). *)
Definition apply_route (timeoutMs : option Z) : St App unit := fun a =>
  match apply_policies settings.(as_parse) settings.(as_secret) settings.(as_cfg) settings.(as_oobRequired)
      settings.(as_timeoutMs) d.(dw_env) (S (Z.to_nat (default settings.(as_timeoutMs) timeoutMs)))
      now d.(dw_finished) d.(dw_id) who timeoutMs a with
  | Some (a', Ok _) => (a', Ok tt)
  | Some (a', Throw e) => (a', Throw e)
  | None => (a, Throw (JsError "the rollout is still waiting"))
  end.

Definition lockdown_route (reason confirmation : option string) : St App unit :=
  on_db (emergencyLockdown now (default "" reason) who (default "" confirmation)) ;;;
  audit now who "EMERGENCY_LOCKDOWN" "ecosystem" (JObj [("reason", JStr (default "" reason))]).

Definition checkpoint_route (scope : option string) (document : option json) : St App Snapshot :=
  match when_truthy scope, document with
  | Some scope, Some document =>
      let* snapshot := on_oob (checkpoint sha256 d.(dw_id) scope document who) in
      audit now who "OOB_CHECKPOINT" scope
        (JObj [("snapshotId", JStr snapshot.(sn_id)); ("checksum", JStr snapshot.(sn_checksum))]) ;;;
      mret snapshot
  | _, _ => throw (invalid_request "scope and document are required")
  end.

Definition rollback_route (scope : option string) : St App (string * string) :=
  match when_truthy scope with
  | Some scope =>
      let* result := on_oob (oob_rollback scope) in
      audit now who "OOB_ROLLBACK" scope (JObj [("restored", JStr result.1); ("checksum", JStr result.2)]) ;;;
      mret result
  | None => throw (invalid_request "scope is required")
  end.

Definition approve_route (id : string) (approverRoles : list string) : St App Entity :=
  let* result := on_db (approve id who approverRoles) in
  audit now who "JIT_APPROVED" id (JObj []) ;;;
  mret result.

Definition terminate_route (id : string) (why : option string) : St App Entity :=
  let reason := default "terminated by security operator" why in
  let* result := on_db (terminate id reason) in
  audit now who "JIT_TERMINATED" id (JObj [("reason", JStr reason)]) ;;;
  mret result.

Definition with_region (where_ : string) (n : MeshNode) : MeshNode :=
  mkNode n.(n_id) n.(deviceId) n.(wireGuardPublicKey) n.(internalIpv4) n.(internalIpv6) n.(listenPort)
    n.(nodeType) n.(zone) (Some where_) n.(active) n.(lastHandshake).

Definition region_route (nodeId : string) (where_ : option string) : St App unit :=
  let where_ := trim (default "" where_) in
  if negb (truthy where_) then throw (invalid_request "region is required")
  else
    let* node := require_node nodeId in
    on_db (save (ENode (with_region where_ node))) ;;;
    audit now who "NODE_REGION_SET" nodeId (JObj [("region", JStr where_)]).

Definition manual_event (nodeId why : string) : SecurityEvent :=
  {| e_id := d.(dw_id); e_nodeId := Some nodeId; e_at := now; severity := CRITICAL; engine := "soc-manual";
     e_type := "MANUAL_QUARANTINE"; description := why; metadata := [("score", JNum 90)] |}.

Definition quarantine_route (nodeId : string) (why : option string) : St App (Z * string) :=
  let reason := default "manual SOC quarantine" why in
  let* result := on_db (ThreatResponse.handle (manual_event nodeId reason)) in
  audit now who "NODE_QUARANTINED" nodeId (JObj [("reason", JStr reason)]) ;;;
  mret result.

Definition restore_route (nodeId : string) (token : option string) : St App unit :=
  on_db (restore clearance nodeId (default "" token) now) ;;;
  audit now who "NODE_RESTORED" nodeId (JObj []).

Definition kill_switch_route (nodeId : string) (enabled : bool) : St App unit :=
  require_node nodeId ;;;
  on_db (enqueue nodeId "SET_KILL_SWITCH" (JObj [("enabled", JBool enabled)]) default_priority default_ttl) ;;;
  audit now who "KILL_SWITCH_SET" nodeId (JObj [("enabled", JBool enabled)]).

Definition dns_route (nodeId : string) (servers : list string) : St App unit :=
  require_node nodeId ;;;
  match servers with
  | [] => throw (invalid_request "servers (non-empty array) is required")
  | _ =>
      on_db (enqueue nodeId "SET_DNS" (JObj [("servers", jstrs servers)]) default_priority default_ttl) ;;;
      audit now who "DNS_SET" nodeId (JObj [("servers", jstrs servers)])
  end.

Definition desired_route (nodeId : string) (input : DesiredInput) : St App DesiredStateRow :=
  require_node nodeId ;;;
  let* state := on_db (desired_upsert nodeId input (Some who)) in
  audit now who "DESIRED_STATE_SET" nodeId (JObj [("revision", JNum state.(ds_revision))]) ;;;
  mret state.

Definition dimension_name (x : DriftDimension) : string :=
  match x with
  | ROUTES_AND_INTEGRITY => "ROUTES_AND_INTEGRITY" | DNS => "DNS" | KILL_SWITCH => "KILL_SWITCH"
  | PEER_TOPOLOGY => "PEER_TOPOLOGY" | POLICY_VERSION => "POLICY_VERSION"
  end.
Definition corrected_json (f : DriftFinding) : json := JObj
  (("dimension", JStr (dimension_name f.(df_dimension))) ::
   match f.(df_correctedBy) with Some c => [("correctedBy", JStr c)] | None => [] end).

Definition reconcile_route (nodeId : string) : St App (list DriftFinding) :=
  let* result := on_db (checkNode sha256 d.(dw_relays) d.(dw_relays') now nodeId) in
  (match List.filter df_drifted result with
   | [] => mret tt
   | drifted => audit now who "NODE_RECONCILED" nodeId (JObj [("corrected", JArr (map corrected_json drifted))])
   end) ;;;
  mret result.

Definition record_dismissal (nodeId dismissedBy : string) (signalCount : nat) : St Db unit :=
  AuditChain.record hex_digest dismissedBy "THREAT_DISMISSED" nodeId
    (JObj [("signalCount", JNum (Z.of_nat signalCount))]) now ;;; mret tt.
Definition dismiss_route (nodeId : string) : St App nat :=
  on_signals (dismiss record_dismissal d.(dw_id) now nodeId who).

Definition provision_route (where_ instanceType : option string) : St App (string * string) :=
  match relayFleet with
  | None => throw not_configured
  | Some fleet_region =>
      let where_ := default fleet_region where_ in
      let instanceType := default "t3.small" instanceType in
      let* instance := lift_res d.(dw_launch) in
      modify (fun a => set_relays (relay_insert (pg_now a.(cp_db)) d.(dw_id) where_ instance.2 (Some instance.1) None a.(cp_relays)) a) ;;;
      audit now who "RELAY_PROVISIONED" d.(dw_id)
        (JObj [("region", JStr where_); ("instanceType", JStr instanceType); ("instanceId", JStr instance.1)]) ;;;
      mret instance
  end.

Definition terminate_relay_route (relayId : string) : St App unit :=
  match relayFleet with
  | None => throw not_configured
  | Some _ =>
      let* relay := gets (fun a => a.(cp_relays) !! relayId) in
      match relay with
      | None => throw (not_found "relay")
      | Some relay =>
          match when_truthy relay.(rl_instance) with
          | None => throw (invalid_request "this relay has no associated AWS instance to terminate — it was added manually")
          | Some instanceId =>
              lift_res d.(dw_terminate) ;;;
              modify (fun a => set_relays (relay_remove relayId a.(cp_relays)) a) ;;;
              audit now who "RELAY_TERMINATED" relayId (JObj [("instanceId", JStr instanceId)])
          end
      end
  end.

Definition perform (a : Action) : St App unit :=
  match a with
  | ApplyPolicies t => apply_route t
  | PutPolicy id b => put_policy now who id b ;;; mret tt
  | Lockdown reason confirmation => lockdown_route reason confirmation
  | Checkpoint scope document => checkpoint_route scope document ;;; mret tt
  | Rollback scope => rollback_route scope ;;; mret tt
  | ApproveJit id rs => approve_route id rs ;;; mret tt
  | TerminateJit id why => terminate_route id why ;;; mret tt
  | SetRegion n w => region_route n w
  | Quarantine n why => quarantine_route n why ;;; mret tt
  | RestoreNode n token => restore_route n token
  | KillSwitch n b => kill_switch_route n b
  | SetDns n l => dns_route n l
  | SetDesired n i => desired_route n i ;;; mret tt
  | Reconcile n => reconcile_route n ;;; mret tt
  | Dismiss n => dismiss_route n ;;; mret tt
  | Provision w t => provision_route w t ;;; mret tt
  | Terminate r => terminate_relay_route r
  end.
End actions.

(** ** The routes agents call *)

Definition THREAT_CORRELATION_WINDOW_MS : Z := 300000.

(** [jit.request] *)
Definition jit_route (now : Date) (id who : string) (targetResource : option string) (zone : SecurityZone)
    (durationMinutes : Z) (justification : option string) : St App JitGrant :=
  on_db (request id now who (default "" targetResource) zone durationMinutes (default "" justification)).

Definition posture_signal (now : Date) (nodeId : string) (p : DevicePosture) : ThreatSignal :=
  mkSignal (Some nodeId) "posture_failure" (Fin 1) (Fin 15) now [("posture", posture_json p)].

Definition ingest_route (incidentId eventId : string) (now : Date) (s : ThreatSignal) : St App Evaluation :=
  on_signals (ingest THREAT_CORRELATION_WINDOW_MS incidentId eventId now s).

(** [now] is the clock of [accept] and of the signal. *)
Definition heartbeat_route (incidentId eventId : string) (now : Date) (h : Heartbeat) : St App (bool * list QueuedCommand) :=
  let* compliant := on_db (accept h now) in
  (if compliant : bool then mret tt
   else ingest_route incidentId eventId now (posture_signal now h.(h_nodeId) h.(h_posture)) ;;; mret tt) ;;;
  let* commands := on_db (gets (pending h.(h_nodeId) 20)) in
  mret (compliant, commands).

(** The signal of a body: the numbers are clamped, which leaves [NaN] as it is. *)
Definition signal_of (now : Date) (nodeId kind : option string) (confidence weight : option number)
    (metadata : option (list (string * json))) : ThreatSignal :=
  mkSignal (when_truthy nodeId) (default "unknown" kind)
    (js_max (Fin 0) (js_min (Fin 1) (default (Fin 1) confidence)))
    (js_max (Fin 0) (default (Fin 10) weight)) now (default [] metadata).

Definition ack_route (id : string) (result : json) : St App unit := on_db (acknowledge id result).

Definition decide_route (secret : string) (authorizationRefreshMs now : Z) (id deviceId nodeId : string)
    (identity : IdentityContext) (r : ResourceContext) : St App (AccessDecision * string) :=
  let* device := on_db (gets (get_device deviceId)) in
  match device with
  | None => throw (JsError "device not found")
  | Some device =>
      let* node := on_db (gets (get_node nodeId)) in
      match node with
      | None => throw (JsError "node not found")
      | Some node =>
          on_db (gets (decide hmac secret authorizationRefreshMs now id identity device node
            {| resource := r.(resource); r_zone := r.(r_zone); protocol := r.(protocol); port := port_given r.(port) |}))
      end
  end.

Definition register_relay_route (relayId where_ endpoint : option string) (capacityMbps : option Z) : St App unit :=
  match when_truthy relayId, when_truthy where_, when_truthy endpoint with
  | Some relayId, Some where_, Some endpoint =>
      modify (fun a => set_relays (relay_insert (pg_now a.(cp_db)) relayId where_ endpoint None capacityMbps a.(cp_relays)) a)
  | _, _, _ => throw (invalid_request "relayId, region and endpoint are required")
  end.
Definition relay_heartbeat_route (relayId : string) (h : RelayHeartbeat) : St App unit :=
  modify (fun a => set_relays (relay_heartbeat (pg_now a.(cp_db)) relayId h a.(cp_relays)) a).

Definition register_egress_route (gatewayId where_ fixedIp : option string) (maxSessions : option Z) : St App unit :=
  match when_truthy gatewayId, when_truthy where_, when_truthy fixedIp with
  | Some gatewayId, Some where_, Some fixedIp =>
      modify (fun a => set_egress (egress_insert (pg_now a.(cp_db)) gatewayId where_ fixedIp maxSessions a.(cp_egress)) a)
  | _, _, _ => throw (invalid_request "gatewayId, region and fixedIp are required")
  end.
Definition egress_heartbeat_route (gatewayId : string) (h : EgressHeartbeat) : St App unit :=
  modify (fun a => set_egress (egress_heartbeat (pg_now a.(cp_db)) gatewayId h a.(cp_egress)) a).

Definition desired_get_route (nodeId : string) : St App DesiredStateRow :=
  let* state := on_db (gets (desired_get nodeId)) in
  match state with
  | Some state => mret state
  | None => throw (HttpError 404 "no desired state configured for this node" "not_found")
  end.

(** What an action that returns is recorded as: actor, action and subject. *)
Definition action_label (d : Draws) (a : Action) : string * string :=
  match a with
  | ApplyPolicies _ => ("POLICY_APPLIED", "network-policies")
  | PutPolicy id _ => ("POLICY_UPDATED", id)
  | Lockdown _ _ => ("EMERGENCY_LOCKDOWN", "ecosystem")
  | Checkpoint scope _ => ("OOB_CHECKPOINT", default "" scope)
  | Rollback scope => ("OOB_ROLLBACK", default "" scope)
  | ApproveJit id _ => ("JIT_APPROVED", id)
  | TerminateJit id _ => ("JIT_TERMINATED", id)
  | SetRegion n _ => ("NODE_REGION_SET", n)
  | Quarantine n _ => ("NODE_QUARANTINED", n)
  | RestoreNode n _ => ("NODE_RESTORED", n)
  | KillSwitch n _ => ("KILL_SWITCH_SET", n)
  | SetDns n _ => ("DNS_SET", n)
  | SetDesired n _ => ("DESIRED_STATE_SET", n)
  | Reconcile n => ("NODE_RECONCILED", n)
  | Dismiss n => ("THREAT_DISMISSED", n)
  | Provision _ _ => ("RELAY_PROVISIONED", d.(dw_id))
  | Terminate r => ("RELAY_TERMINATED", r)
  end.
(** The time it is recorded with. *)
Definition recorded_at (d : Draws) (a : Action) : Date :=
  match a with ApplyPolicies _ => d.(dw_finished) | _ => d.(dw_now) end.
End control_plane.

(** ** Frames: what leaves the audit log alone *)

Definition db_log (db : Db) : list AuditRecord * Z := (db.(audit_chain), db.(audit_identity)).
Definition calm {A} (m : St Db A) : Prop := forall db, db_log (m db).1 = db_log db.

Lemma calm_ret {A} (x : A) : calm (mret x).
Proof. done. Qed.
Lemma calm_throw {A} e : calm (throw (A := A) e).
Proof. done. Qed.
Lemma calm_gets {A} (f : Db -> A) : calm (gets f).
Proof. done. Qed.
Lemma calm_res {A} (r : res A) : calm (lift_res r).
Proof. done. Qed.
Lemma calm_bind {A B} (m : St Db A) (k : A -> St Db B) : calm m -> (forall a, calm (k a)) -> calm (m ≫= k).
Proof. intros Hm Hk db. apply (bind_frame db_log); [apply Hm|]. intros a s. apply Hk. Qed.
Lemma calm_for_each {A} (f : A -> St Db unit) l : (forall x, calm (f x)) -> calm (for_each l f).
Proof. intros Hf db. apply (for_each_frame db_log). intros x s. apply Hf. Qed.
Lemma calm_save v : calm (save v).
Proof.
  intros db. destruct v as [d|n|p|g]; simpl.
  - unfold saveDevice. destruct (devices db !! _); [done|]. by destruct (taken _ _ _ _).
  - unfold saveNode. destruct (taken _ _ _ _); [done|]. destruct (mesh_nodes db !! _); [done|].
    destruct (_ || _); [done|]. by case_bool_decide.
  - unfold savePolicy. by destruct (taken _ _ _ _).
  - done.
Qed.
Lemma calm_enqueue n t p pr ttl : calm (enqueue n t p pr ttl).
Proof. intros db. unfold enqueue. by case_bool_decide. Qed.
Lemma calm_publish t e : calm (publish t e).
Proof. done. Qed.
Lemma calm_append_event e : calm (append_event e).
Proof. intros db. unfold append_event. by case_match. Qed.
#[export] Hint Resolve calm_ret calm_throw calm_gets calm_res calm_save calm_enqueue calm_publish calm_append_event : calm.

(** Goes through a computation down to the operations with a [calm] lemma. *)
Ltac calm :=
  repeat (cbv zeta beta; first
    [ solve [auto with calm]
    | apply calm_for_each; intros
    | apply calm_bind; [|intros]
    | match goal with |- calm (match ?x with _ => _ end) => destruct x end ]).

Lemma calm_isolateNode n : calm (isolateNode n).
Proof. unfold isolateNode. calm. Qed.
Lemma calm_restoreNode n : calm (restoreNode n).
Proof. unfold restoreNode. calm. Qed.
Lemma calm_save_device_opt f o : calm (save_device_opt f o).
Proof. unfold save_device_opt. calm. Qed.
#[export] Hint Resolve calm_isolateNode calm_restoreNode calm_save_device_opt : calm.

Lemma calm_handle e : calm (ThreatResponse.handle e).
Proof. unfold ThreatResponse.handle. calm. Qed.
Lemma calm_restore clearance n t now : (forall t n now, calm (clearance t n now)) -> calm (restore clearance n t now).
Proof. intros Hc. unfold restore. calm. Qed.
Lemma calm_lockdown now r a c : calm (emergencyLockdown now r a c).
Proof. unfold emergencyLockdown, emergencyLockdown_action. calm. Qed.
Lemma calm_approve g a rs : calm (approve g a rs).
Proof. unfold approve. calm. Qed.
Lemma calm_terminate g r : calm (terminate g r).
Proof. unfold terminate. calm. Qed.
Lemma calm_upsert n i u : calm (desired_upsert n i u).
Proof. intros db. unfold desired_upsert. case_bool_decide; [|done]. cbv zeta. by destruct (max_int4 <? _). Qed.
Lemma calm_checkNode `{Collation} sha256 rs rs' now n : calm (checkNode sha256 rs rs' now n).
Proof.
  unfold checkNode, checkRoutesAndIntegrity, checkDns, checkKillSwitch, checkPeerTopology, checkPolicyVersion,
    mesh_reconcile, sink_configure. calm.
Qed.
Lemma calm_close e now n c : calm (close e now n c).
Proof. unfold close, incident_event. calm. done. Qed.
#[export] Hint Resolve calm_handle calm_restore calm_lockdown calm_approve calm_terminate calm_upsert calm_checkNode calm_close : calm.

Lemma calm_clearance hmac from_b64 parse getTime buffer_from secrets token n now :
  calm (clearance_verify hmac from_b64 parse getTime buffer_from secrets token n now).
Proof. unfold clearance_verify, eco_accept. calm. Qed.

(** A rollout leaves the log alone, when what happens while it waits does. *)
Definition calm_env (env : Env Db) : Prop := forall i db, db_log (env.(SafeApply.world) i db) = db_log db.

Lemma calm_try {A} (m : St Db A) h : calm m -> (forall e, calm (h e)) -> calm (try_catch m h).
Proof.
  intros Hm Hh db. unfold try_catch. specialize (Hm db). destruct (m db) as [db1 [x|e]]; [done|].
  cbn in Hm. rewrite <- Hm. apply Hh.
Qed.
Lemma calm_modify f : (forall db, db_log (f db) = db_log db) -> calm (modify f).
Proof. intros Hf db. apply Hf. Qed.
Lemma calm_stage sha256 now c ps b : calm (stage sha256 now c ps b).
Proof.
  unfold stage, broadcast. calm. intros db. unfold insert_commit. by case_match.
Qed.
Lemma calm_set_status c st : calm (set_commit_status c st).
Proof. unfold set_commit_status. by apply calm_modify. Qed.
Lemma calm_rollback c : calm (rollback c).
Proof. unfold rollback, broadcast. pose proof calm_set_status. calm. Qed.
Lemma calm_start c ns : calm (pg_start c ns).
Proof. unfold pg_start. calm. intros db. unfold insert_rollout. by repeat case_match. Qed.
Lemma calm_refresh c : calm (pg_refresh c).
Proof. unfold pg_refresh. calm. done. Qed.
#[export] Hint Resolve calm_stage calm_set_status calm_rollback calm_start calm_refresh : calm.

Lemma calm_prepare sha256 now c at_ ps t b : calm (@prepare Db PgRolloutStore (pg_ports sha256 now) c at_ ps t b).
Proof. unfold prepare. cbn. calm. Qed.
Lemma calm_revert sha256 now c : calm (@revert Db PgRolloutStore (pg_ports sha256 now) c).
Proof. unfold revert. cbn. calm. done. Qed.
#[export] Hint Resolve calm_prepare calm_revert : calm.
Lemma calm_conclude sha256 now cfg c why : calm (@conclude Db PgRolloutStore (pg_ports sha256 now) cfg c why).
Proof.
  unfold conclude. destruct why; [apply calm_bind; [apply calm_revert|intros _]|]; cbn; unfold commit; calm.
Qed.

Lemma calm_wait cfg env c ids dl fuel : calm_env env -> forall i db db' r,
  @waitForOutcome Db PgRolloutStore cfg env fuel i c ids dl db = Some (db', r) -> db_log db' = db_log db.
Proof.
  intros He. induction fuel as [|fuel IH]; intros i db db' r; [done|]. cbn [waitForOutcome].
  destruct (before _ _); [|intros E; cbn in E; by simplify_eq].
  destruct (race _) as [[]|e]; [|intros E; by simplify_eq..].
  destruct (match ids with [] => _ | _ => _ end) as [db2 [l|e]] eqn:M.
  2:{ intros E. simplify_eq. destruct ids; [done|]. rewrite <- (He i db).
      pose proof (calm_refresh c (SafeApply.world env i db)) as R. cbn in M. by rewrite M in R. }
  assert (db_log db2 = db_log db) as L.
  { rewrite <- (He i db). destruct ids; [by simplify_eq|].
    pose proof (calm_refresh c (SafeApply.world env i db)) as R. cbn in M. by rewrite M in R. }
  destruct (failureReason _ _ _ _); [intros [= <- _]; exact L|].
  destruct (_ || _); [intros [= <- _]; exact L|]. intros E. rewrite <- L. by apply (IH _ _ _ _ E).
Qed.

Lemma calm_apply sha256 now cfg env fuel c at_ ps t b db db' r : calm_env env ->
  @apply Db PgRolloutStore (pg_ports sha256 now) cfg env fuel c at_ ps t b db = Some (db', r) -> db_log db' = db_log db.
Proof.
  intros He. unfold apply. destruct (out_of_window t); [intros E; by simplify_eq|].
  pose proof (calm_prepare sha256 now c at_ ps t b db) as P.
  destruct (prepare c at_ ps t b db) as [db1 [ids|e]]; [|intros [= <- _]; exact P]. cbn in P.
  destruct (waitForOutcome _ _ _ _ _ _ _ _) as [[db2 o]|] eqn:Wt; [|done].
  intros [= E]. rewrite <- P, <- (calm_wait _ _ _ _ _ _ He _ _ _ _ Wt).
  match type of E with try_catch ?m ?h db2 = _ => pose proof (calm_try m h) as T end.
  specialize (fun a b => T a b db2). rewrite E in T. apply T; [|intros e; apply calm_bind; [apply calm_revert|done]].
  destruct o as [why|e]; [apply calm_conclude|done].
Qed.

(** ** The audit trail *)

Section trail.
Context `{Coll : Collation} (sha256 : string -> string).
Local Notation digest := (hex_digest sha256).

Definition app_log (a : App) : list AuditRecord * Z := db_log a.(cp_db).
Definition still {A} (m : St App A) : Prop := forall a, app_log (m a).1 = app_log a.

(** Who did what to what, and when. *)
Definition summary (r : AuditRecord) : Date * string * string * string := (r.(a_at), r.(actor), r.(a_action), r.(subject)).
Definition history (a : App) : list (Date * string * string * string) := map summary (chain a.(cp_db)).

Definition sound_log (a : App) : Prop := sound_chain digest a.(cp_db).

(** From a log in order, these records were added behind it and it is in order. *)
Definition adds (ws : list (Date * string * string * string)) (a a' : App) : Prop :=
  sound_log a -> (history a' = history a ++ ws /\ sound_log a') \/ collision sha256.

Definition logs_at {A} (w : Date * string * string * string) (a : App) (o : App * res A) : Prop :=
  adds (if is_ok o.2 then [w] else []) a o.1.
Definition logs {A} (w : Date * string * string * string) (m : St App A) : Prop := forall a, logs_at w a (m a).

Lemma still_bind {A B} (m : St App A) (k : A -> St App B) : still m -> (forall x, still (k x)) -> still (m ≫= k).
Proof. intros Hm Hk a. apply (bind_frame app_log); [apply Hm|]. intros x s. apply Hk. Qed.
Lemma still_on_db {A} (m : St Db A) : calm m -> still (on_db m).
Proof. intros Hm a. unfold on_db. specialize (Hm (cp_db a)). by destruct (m (cp_db a)). Qed.
Lemma still_on_oob {A} (m : St (SnapshotTable * OobLink) A) : still (on_oob m).
Proof. intros a. unfold on_oob. by destruct (m (cp_oob a)). Qed.
Lemma still_relays f : still (modify (fun a => set_relays (f a) a)).
Proof. done. Qed.
Lemma still_res {A} (r : res A) : still (lift_res r).
Proof. done. Qed.
Lemma still_gets {A} (f : App -> A) : still (gets f).
Proof. done. Qed.
Lemma still_require_node n : still (require_node n).
Proof. unfold require_node. apply still_bind; [by apply still_on_db|]. by intros [[]|]. Qed.

Lemma log_history a a' : app_log a' = app_log a -> history a' = history a.
Proof. intros E. injection E as E _. unfold history, chain. by rewrite E. Qed.
Lemma log_sound a a' : app_log a' = app_log a -> sound_log a -> sound_log a'.
Proof.
  intros E [V S F]. injection E as E1 E2. unfold sound_log, AuditChain.verify, in_step, chain, audit_last in *.
  constructor; unfold AuditChain.verify, in_step, chain, audit_last; by rewrite ?E1, ?E2.
Qed.

Lemma adds_log ws a a1 a2 : adds ws a a1 -> app_log a2 = app_log a1 -> adds ws a a2.
Proof.
  intros H E S. destruct (H S) as [[Hh Hs]|?]; [left|by right]. split; [|by eapply log_sound].
  by rewrite (log_history _ _ E).
Qed.
Lemma adds_from ws a a1 a2 : app_log a1 = app_log a -> adds ws a1 a2 -> adds ws a a2.
Proof.
  intros E H S. destruct (H (log_sound _ _ E S)) as [[Hh Hs]|?]; [left|by right]. split; [|done].
  by rewrite Hh, (log_history _ _ E).
Qed.
Lemma adds_nil a a' : app_log a' = app_log a -> adds [] a a'.
Proof. intros E S. left. rewrite app_nil_r. split; [by apply log_history|by eapply log_sound]. Qed.
Lemma adds_app ws ws' a a1 a2 : adds ws a a1 -> adds ws' a1 a2 -> adds (ws ++ ws') a a2.
Proof.
  intros H H' S. destruct (H S) as [[E S1]|?]; [|by right]. destruct (H' S1) as [[E' S2]|?]; [|by right].
  left. by rewrite E', E, app_assoc.
Qed.

Lemma logs_after {A B} w (m : St App A) (k : A -> St App B) : still m -> (forall x, logs w (k x)) -> logs w (m ≫= k).
Proof.
  intros Hm Hk a. specialize (Hm a). unfold mbind, St_bind. destruct (m a) as [a1 [x|e]]; cbn in Hm |- *.
  - by apply (adds_from _ a a1), Hk.
  - by apply adds_nil.
Qed.

Lemma logs_then {A B} w (m : St App A) (f : A -> B) : logs w m -> logs w (m ≫= fun x => mret (f x)).
Proof. intros Hm a. specialize (Hm a). unfold mbind, St_bind. by destruct (m a) as [a1 [x|e]]. Qed.

Lemma logs_throw {A} w e : logs w (throw (A := A) e).
Proof. intros a. by apply adds_nil. Qed.

Lemma collision_hex : collision digest -> collision sha256.
Proof. intros (x & y & N & E). exists x, y. split; [done|]. by apply (inj to_hex). Qed.

Lemma record_adds now who act subj payload a : iso_range now = true -> json_wf payload = true -> sound_log a ->
  (exists db' r, AuditChain.record digest who act subj payload now a.(cp_db) = (db', Ok r) /\
     forall a', cp_db a' = db' -> history a' = history a ++ [(now, who, act, subj)] /\ sound_log a') \/ collision sha256.
Proof.
  intros T W S. destruct (record_sound digest who act subj payload now a.(cp_db) W T S)
    as [(db' & r & E & C & Er & S')|X]; [left|right; by apply collision_hex].
  exists db', r. split; [done|]. intros a' <-. split; [|done]. unfold history. by rewrite C, map_app, Er.
Qed.

Lemma logs_audit now who act subj payload : iso_range now = true -> json_wf payload = true ->
  logs (now, who, act, subj) (audit sha256 now who act subj payload).
Proof.
  intros T W a S. unfold audit, on_db, mbind, St_bind.
  destruct (record_adds now who act subj payload a T W S) as [(db' & r & -> & H)|?]; [left|by right]. by apply H.
Qed.

Context `{Channel : !OobChannel OobLink} (clearance : string -> string -> Date -> St Db (json * json)).
Context `{Input : !JsonInput} (settings : ApplySettings) (clearance_calm : forall token n now, calm (clearance token n now)) (relayFleet : option string).
Local Notation perform := (perform sha256 settings clearance relayFleet).

Lemma when_truthy_text o s : when_truthy o = Some s -> default "" o = s.
Proof. unfold when_truthy. destruct (truthy_opt o); [|done]. by intros ->. Qed.

(** The dismissal port records before the incidents are closed, so the record is
    there whatever becomes of the closing. *)
Lemma adds_dismiss d who n a : iso_range d.(dw_now) = true ->
  adds [(d.(dw_now), who, "THREAT_DISMISSED", n)] a (dismiss_route sha256 d who n a).1.
Proof.
  intros T S. unfold dismiss_route, on_signals, dismiss.
  destruct (store_clear n (cp_signals a)) as [s' count]. unfold record_dismissal, mbind, St_bind.
  destruct (record_adds d.(dw_now) who "THREAT_DISMISSED" n (JObj [("signalCount", JNum (Z.of_nat count))]) a T eq_refl S)
    as [(db1 & r & -> & H)|?]; [left|by right].
  pose proof (calm_close d.(dw_id) d.(dw_now) n who db1) as Hc. cbn.
  destruct (H (mkApp db1 s' a.(cp_relays) a.(cp_egress) a.(cp_oob)) eq_refl) as [Hh Hs].
  destruct (close _ _ _ _ db1) as [db2 [k|e]]; cbn in Hc |- *; (split; [|by eapply log_sound; [|exact Hs]]);
    by rewrite <- Hh; apply log_history.
Qed.

(** A rollout is recorded when it is over, whether it was committed or rolled
    back. *)
Lemma logs_apply d who t : iso_range d.(dw_finished) = true -> calm_env d.(dw_env) ->
  logs (d.(dw_finished), who, "POLICY_APPLIED", "network-policies") (apply_route sha256 settings d who t).
Proof.
  intros T He a. unfold apply_route, apply_policies.
  assert (still (oob_gate sha256 settings.(as_parse) settings.(as_secret) settings.(as_oobRequired))) as G.
  { unfold oob_gate. destruct (as_oobRequired settings); [|done]. apply still_bind; [apply still_on_oob|]. by intros []. }
  specialize (G a). destruct (oob_gate _ _ _ _ a) as [a0 [[]|e]]; cbn in G |- *; [|by apply adds_nil].
  destruct (apply _ _ _ _ _ _ _ _ _) as [[db1 r]|] eqn:A; [|by apply adds_nil].
  apply (calm_apply _ _ _ _ _ _ _ _ _ _ _ _ _ He) in A.
  set (a1 := mkApp db1 _ _ _ _). assert (app_log a1 = app_log a) as E by (rewrite <- G; exact A).
  destruct r as [result|e]; [|by apply adds_nil]. destruct (apply_summary result) as [c status].
  apply (adds_from _ a a1 _ E). unfold mbind, St_bind.
  pose proof (logs_audit d.(dw_finished) who "POLICY_APPLIED" "network-policies"
    (apply_result_json c status (length (listActive_policies (cp_db a0)))) T eq_refl a1) as L.
  unfold logs_at in L |- *. by destruct (audit _ _ _ _ _ _ a1) as [a2 [[]|e]].
Qed.

(** The routes but for the one that may have nothing to report. *)
Ltac step :=
  first
    [ apply logs_audit; [done|solve [reflexivity | cbn -[jstrs]; by rewrite jstrs_wf]]
    | apply logs_throw
    | apply logs_after; [solve [apply still_on_oob | apply still_require_node | apply still_relays | apply still_res | apply still_gets
        | apply still_on_db; calm ]|intros]
    | apply logs_then
    | match goal with |- logs _ (match ?x with _ => _ end) => destruct x eqn:? end ].

(** What is asked of a request: the dates it reads have a four-digit year, and
    nothing else writes the log while a rollout waits. *)
Definition orderly (d : Draws) : Prop :=
  iso_range d.(dw_now) = true /\ iso_range d.(dw_finished) = true /\ calm_env d.(dw_env).

Lemma perform_logs d who a : orderly d ->
  match a with Reconcile _ | Dismiss _ => False | _ => True end ->
  logs (recorded_at d a, who, (action_label d a).1, (action_label d a).2) (perform d who a).
Proof.
  intros (T & T' & He) NR. destruct a; cbn [ControlPlane.perform action_label recorded_at fst snd].
  - by apply logs_apply.
  - unfold put_policy. repeat step.
  - unfold lockdown_route. repeat step.
  - unfold checkpoint_route. apply logs_then. destruct (when_truthy scope) as [s|] eqn:E; [|apply logs_throw].
    rewrite (when_truthy_text _ _ E). repeat step.
  - unfold rollback_route. apply logs_then. destruct (when_truthy scope) as [s|] eqn:E; [|apply logs_throw].
    rewrite (when_truthy_text _ _ E). repeat step.
  - unfold approve_route. repeat step.
  - unfold terminate_route. repeat step.
  - unfold region_route. repeat step.
  - unfold quarantine_route. repeat step.
  - unfold restore_route. repeat step.
  - unfold kill_switch_route. repeat step.
  - unfold dns_route. repeat step.
  - unfold desired_route. repeat step.
  - done.
  - done.
  - unfold provision_route. repeat step.
  - unfold terminate_relay_route. repeat step.
Qed.

(** What an action leaves in the log.  A reconciliation is recorded when it
    returned and something had drifted, a dismissal in any case, any other action
    when it returned. *)
Definition entry (d : Draws) (who : string) (act : Action) (a : App) : list (Date * string * string * string) :=
  let it := [(recorded_at d act, who, (action_label d act).1, (action_label d act).2)] in
  let returned := is_ok (perform d who act a).2 in
  match act with
  | Reconcile n =>
      match (checkNode sha256 d.(dw_relays) d.(dw_relays') d.(dw_now) n a.(cp_db)).2 with
      | Ok l => if returned && existsb df_drifted l then it else []
      | Throw _ => []
      end
  | Dismiss _ => it
  | _ => if returned then it else []
  end.

Lemma filter_nil_existsb {A} (p : A -> bool) l : List.filter p l = [] <-> existsb p l = false.
Proof. induction l as [|x l IH]; cbn; [done|]. by destruct (p x). Qed.

Lemma corrected_wf l : json_wf (JArr (map corrected_json l)) = true.
Proof.
  cbn. apply forallb_Forall, Forall_fmap, Forall_forall. intros [x dr [c|]] _; reflexivity.
Qed.

Lemma drifted_wf l : json_wf (JObj [("corrected", JArr (map corrected_json l))]) = true.
Proof. pose proof (corrected_wf l) as W. cbn in W |- *. by rewrite W. Qed.

Lemma reconcile_adds_entry d who n a : orderly d ->
  adds (entry d who (Reconcile n) a) a (perform d who (Reconcile n) a).1.
Proof.
  intros (T & _). pose proof (calm_checkNode sha256 (dw_relays d) (dw_relays' d) (dw_now d) n (cp_db a)) as C.
  unfold entry. cbn [ControlPlane.perform recorded_at action_label fst snd]. unfold reconcile_route, on_db.
  unfold mbind, St_bind. cbn beta.
  destruct (checkNode sha256 (dw_relays d) (dw_relays' d) (dw_now d) n (cp_db a)) as [db1 [l|e]]; cbn [snd];
    [|by apply adds_nil].
  set (a1 := mkApp db1 _ _ _ _). assert (app_log a1 = app_log a) as E by exact C.
  destruct (existsb df_drifted l) eqn:X; [|apply filter_nil_existsb in X; rewrite X; cbn; rewrite ?andb_false_r; by apply adds_nil].
  destruct (List.filter df_drifted l) as [|f fs] eqn:F; [apply filter_nil_existsb in F; congruence|].
  apply (adds_from _ a a1 _ E).
  assert (json_wf (JObj [("corrected", JArr (map corrected_json (f :: fs)))]) = true) as W
    by apply drifted_wf.
  pose proof (logs_audit d.(dw_now) who "NODE_RECONCILED" n (JObj [("corrected", JArr (map corrected_json (f :: fs)))]) T W a1) as L.
  unfold logs_at in L. by destruct (audit _ _ _ _ _ _ a1) as [a2 [[]|e]].
Qed.

Lemma dismiss_adds_entry d who n a : orderly d -> adds (entry d who (Dismiss n) a) a (perform d who (Dismiss n) a).1.
Proof.
  intros (T & _). cbn [ControlPlane.perform]. unfold entry. cbn [recorded_at action_label fst snd].
  pose proof (adds_dismiss d who n a T) as H. unfold mbind, St_bind.
  by destruct (dismiss_route sha256 d who n a) as [a' [k|e]].
Qed.

Lemma perform_adds_entry d who act a : orderly d -> adds (entry d who act a) a (perform d who act a).1.
Proof.
  intros O. destruct act; try (by apply reconcile_adds_entry); try (by apply dismiss_adds_entry);
    match goal with |- adds (entry _ _ ?act _) _ _ => exact (perform_logs d who act O I a) end.
Qed.

Fixpoint perform_all (qs : list (Draws * string * Action)) (a : App) : App :=
  match qs with [] => a | (d, who, act) :: qs' => perform_all qs' (perform d who act a).1 end.
Fixpoint entries (qs : list (Draws * string * Action)) (a : App) : list (Date * string * string * string) :=
  match qs with [] => [] | (d, who, act) :: qs' => entry d who act a ++ entries qs' (perform d who act a).1 end.

(** C9: the log is the history of the actions the API audits, all seventeen of
    them, performed one after the other.  From a log in order (it verifies, its
    numbers are consecutive and below the identity column), any sequence of actions,
    whether they return or fail, leaves a log in order, and behind what it held
    exactly their records, with time, actor, kind and subject: one for each action
    that returned, but none for a reconciliation that found no drift, and one for
    each dismissal even if closing its incidents failed; none for any other action
    that failed.  The exception is a collision of SHA-256.  The requests' dates have
    four-digit years, and nothing else writes the log while a rollout waits (a rollout
    whose timers never end it counts as one that failed). *)
Theorem log_is_history qs a :
  (forall d who act, (d, who, act) ∈ qs -> orderly d) -> sound_log a ->
  (history (perform_all qs a) = history a ++ entries qs a /\ sound_log (perform_all qs a)) \/ collision sha256.
Proof.
  intros O. change (adds (entries qs a) a (perform_all qs a)). revert a O.
  induction qs as [|[[d who] act] qs IH]; intros a O; cbn; [by apply adds_nil|].
  eapply adds_app; [apply perform_adds_entry|apply IH; intros d' w' x' Hx]; eapply O; [left|right; exact Hx].
Qed.
End trail.

(** ** The recovery channel before a policy change *)

Lemma http_healthy_run sha256 parse secret k : http_healthy sha256 parse secret k = (k, Ok (link_up k)).
Proof. destruct k as [[] docs]; reflexivity. Qed.

(** Also: with [OOB_REQUIRED], a policy change is refused with 503 and nothing is
    touched while the recovery channel is down; while it is up, the change runs
    exactly as it does without the requirement. *)
Theorem apply_needs_recovery_channel `{Collation} sha256 parse secret cfg timeout env fuel now finished commitId who t a :
  apply_policies sha256 parse secret cfg true timeout env fuel now finished commitId who t a =
  if link_up a.(cp_oob).2 then apply_policies sha256 parse secret cfg false timeout env fuel now finished commitId who t a
  else Some (a, Throw (HttpError 503 "OOB recovery channel is unreachable — refusing to apply a policy change with no independent recovery path (set OOB_REQUIRED=false to override)" "oob_unavailable")).
Proof.
  destruct a as [db sg rl eg [snaps k]]. unfold apply_policies, oob_gate, mbind, St_bind, on_oob, on_channel. cbn [cp_oob snd].
  rewrite http_healthy_run. by destruct (link_up k).
Qed.

(** ** Quarantine of a node that does not exist *)

(** Also: the quarantine route answers 200 and records [NODE_QUARANTINED] for an
    identifier no node has, although nothing was quarantined: no device, node, grant or
    command changes. *)
Theorem unknown_node_recorded_as_quarantined `{Collation} sha256 d who n why a :
  truthy n = true -> get_node n a.(cp_db) = None ->
  event_refused (manual_event d n (default "manual SOC quarantine" why)) a.(cp_db) = None ->
  hash_taken (next_record (hex_digest sha256) who "NODE_QUARANTINED" n
    (JObj [("reason", JStr (default "manual SOC quarantine" why))]) d.(dw_now) a.(cp_db)).(a_hash) a.(cp_db) = false ->
  exists a' level r, quarantine_route sha256 d who n why a = (a', Ok (level, "UNKNOWN_NODE")) /\
    chain a'.(cp_db) = chain a.(cp_db) ++ [r] /\ r.(actor) = who /\ r.(a_action) = "NODE_QUARANTINED" /\ r.(subject) = n /\
    devices a'.(cp_db) = devices a.(cp_db) /\ mesh_nodes a'.(cp_db) = mesh_nodes a.(cp_db) /\
    jit_grants a'.(cp_db) = jit_grants a.(cp_db) /\ controller_commands a'.(cp_db) = controller_commands a.(cp_db).
Proof.
  intros T N F H0. unfold quarantine_route. cbv zeta.
  set (e := manual_event d n (default "manual SOC quarantine" why)) in *.
  set (db1 := set_security_events ((cp_db a).(security_events) ++ [stored_event e]) (cp_db a)).
  assert (append_event e (cp_db a) = (db1, Ok tt)) as A by (unfold append_event; by rewrite F).
  assert (ThreatResponse.handle e (cp_db a) = (db1, Ok (threat_level e, "UNKNOWN_NODE"))) as R.
  { unfold ThreatResponse.handle. rewrite (bind_ok _ _ _ _ _ A). cbv zeta.
    change (threat_level e) with 3. change (3 =? 0) with false. change (3 =? 1) with false. cbv iota. change (when_truthy (e_nodeId e)) with (if truthy n then Some n else None). rewrite T.
    assert (gets (get_node n) db1 = (db1, Ok None)) as N' by (unfold gets; do 2 f_equal; exact N).
    by rewrite (bind_ok _ _ _ _ _ N'). }
  pose proof (record_run (hex_digest sha256) who "NODE_QUARANTINED" n
    (JObj [("reason", JStr (default "manual SOC quarantine" why))]) d.(dw_now) db1) as L.
  cbv zeta in L. change (hash_taken _ db1) with (hash_taken (next_record (hex_digest sha256) who "NODE_QUARANTINED" n
    (JObj [("reason", JStr (default "manual SOC quarantine" why))]) d.(dw_now) a.(cp_db)).(a_hash) a.(cp_db)) in L.
  rewrite H0 in L. unfold audit, on_db, mbind, St_bind. rewrite R. cbn [cp_db]. rewrite L.
  eexists _, _, _. by split_and!.
Qed.

(** ** Examples *)

Definition empty_app : App := mkApp (empty_db 1000) [] ∅ ∅ ([], mkLink true ∅).
Definition calm_sample_env : Env Db := {| clock := fun i => 1000 * Z.of_nat i; probe := fun _ => Answers (Ok true); SafeApply.world := fun _ db => db |}.
Definition some_settings : ApplySettings :=
  {| as_parse := fun _ => Throw (JsError "x"); as_secret := "s"; as_cfg := sample_cfg; as_oobRequired := false; as_timeoutMs := 30000 |}.
Definition some_draws : Draws := {| dw_now := 1000; dw_finished := 2000; dw_env := calm_sample_env; dw_id := "id1"; dw_relays := None; dw_relays' := None;
  dw_launch := Ok ("i-1", "203.0.113.9:51820"); dw_terminate := Ok tt |}.
Definition a_policy : PolicyBody := mkPolicyBody None None None None None None None false None None None.

Lemma unknown_node_recorded_as_quarantined_witness :
  exists a' level r, quarantine_route (Coll := code_point_collation) (fun s => s) some_draws "ann" "ghost" None empty_app = (a', Ok (level, "UNKNOWN_NODE")) /\
    chain a'.(cp_db) = chain empty_app.(cp_db) ++ [r] /\ r.(actor) = "ann" /\ r.(a_action) = "NODE_QUARANTINED" /\ r.(subject) = "ghost" /\
    devices a'.(cp_db) = devices empty_app.(cp_db) /\ mesh_nodes a'.(cp_db) = mesh_nodes empty_app.(cp_db) /\
    jit_grants a'.(cp_db) = jit_grants empty_app.(cp_db) /\ controller_commands a'.(cp_db) = controller_commands empty_app.(cp_db).
Proof.
  apply (unknown_node_recorded_as_quarantined (H := code_point_collation) (fun s => s) some_draws "ann" "ghost" None empty_app); vm_compute; reflexivity.
Defined.

Definition some_actions : list (Draws * string * Action) :=
  [(some_draws, "ann", PutPolicy "p1" a_policy); (some_draws, "bob", Quarantine "ghost" None);
   (some_draws, "eve", RestoreNode "ghost" None); (some_draws, "ann", ApplyPolicies None);
   (some_draws, "ann", Provision None None)].

#[local] Instance no_json_input : JsonInput := fun _ => None.

Local Notation sample_performs := (perform_all (Coll := code_point_collation) (fun s => s)
  (Channel := HttpOobChannel (fun s => s) (fun _ => Throw (JsError "x")) "s" "s") format_only_clearance some_settings
  (Some "eu-west-1") some_actions empty_app).

(** The restoration has no clearance: four of the five are recorded. *)
Lemma log_is_history_witness :
  (history sample_performs
   = [(1000, "ann", "POLICY_UPDATED", "p1"); (1000, "bob", "NODE_QUARANTINED", "ghost");
      (2000, "ann", "POLICY_APPLIED", "network-policies"); (1000, "ann", "RELAY_PROVISIONED", "id1")] /\
   sound_log (Coll := code_point_collation) (fun s => s) sample_performs) \/ collision (fun s => s).
Proof.
  destruct (log_is_history (Coll := code_point_collation) (fun s => s)
    (Channel := HttpOobChannel (fun s => s) (fun _ => Throw (JsError "x")) "s" "s") format_only_clearance some_settings
    ltac:(intros; unfold format_only_clearance; calm) (Some "eu-west-1") some_actions empty_app) as [[E S]|X]; [| | |by right].
  - intros d who act Hin. assert (d = some_draws) as ->; [|by split_and!].
    repeat (apply elem_of_cons in Hin as [Hin|Hin]; [by inversion Hin|]). by apply elem_of_nil in Hin.
  - split; [reflexivity|reflexivity|constructor].
  - left. split; [|exact S]. rewrite E. vm_compute. reflexivity.
Defined.
