(* ===== verification/RouteTable.v ===== *)
(** * The route table of the control plane

    The routes [src/src/runtime/production-server.ts] adds, in its order, with their
    roles and options; the handler of a route is an argument, given by its method and
    path.  No request is served by two of them, so the order in which they are
    added says nothing. *)

From S2P Require Import Prelude Json Text Domain Rest Router ControlPlane.
Open Scope Z_scope.

Definition plain : RouteOptions := {| idempotent := false; rateLimit := None; public := false; replayProtected := false |}.
Definition keyed_by_client : RouteOptions := {| idempotent := true; rateLimit := None; public := false; replayProtected := false |}.
Definition open_to_all (n : option nat) : RouteOptions :=
  {| idempotent := false; rateLimit := (fun l => {| rl_limit := l; rl_windowMs := 60000 |}) <$> n; public := true; replayProtected := false |}.
Definition per_minute (n : nat) : RouteOptions :=
  {| idempotent := false; rateLimit := Some {| rl_limit := n; rl_windowMs := 60000 |}; public := false; replayProtected := false |}.

Definition route_specs : list (string * string * list string * RouteOptions) :=
  [("HEAD", "/", [], open_to_all None);
   ("GET", "/", [], open_to_all None);
   ("GET", "/api/v1/status", ["security-read"], plain);
   ("GET", "/api/v1/nodes", ["security-read"], plain);
   ("GET", "/api/v1/policies", ["security-read"], plain);
   ("PUT", "/api/v1/policies/:id", ["security-approver"], keyed_by_client);
   ("POST", "/api/v1/policies/apply", ["security-approver"], per_minute 5);
   ("GET", "/api/v1/policies/:commitId/rollout", ["security-read"], plain);
   ("GET", "/api/v1/events", ["security-read"], plain);
   ("GET", "/api/v1/audit", ["security-read"], plain);
   ("GET", "/api/v1/audit/verify", ["security-read"], plain);
   ("GET", "/api/v1/soc/snapshot", ["security-read"], plain);
   ("GET", "/api/v1/soc/snapshot/full", ["security-read"], plain);
   ("POST", "/api/v1/soc/emergency-lockdown", ["security-owner"],
    {| idempotent := false; rateLimit := Some {| rl_limit := 2; rl_windowMs := 60000 |}; public := false; replayProtected := true |});
   ("POST", "/api/v1/oob/checkpoint", ["security-approver"], plain);
   ("POST", "/api/v1/oob/rollback", ["security-owner"], per_minute 2);
   ("GET", "/api/v1/oob/status", ["security-read"], plain);
   ("GET", "/api/v1/certificates/crl", [], open_to_all (Some 120%nat));
   ("GET", "/api/bapc/handshake", [], open_to_all (Some 60%nat));
   ("POST", "/api/v1/jit", ["security-user"],
    {| idempotent := true; rateLimit := Some {| rl_limit := 20; rl_windowMs := 60000 |}; public := false; replayProtected := false |});
   ("POST", "/api/v1/jit/:id/approve", ["security-approver"], plain);
   ("POST", "/api/v1/jit/:id/terminate", ["security-approver"], plain);
   ("PUT", "/api/v1/nodes/:id/region", ["security-approver"], keyed_by_client);
   ("POST", "/api/v1/nodes/:id/quarantine", ["security-approver"], per_minute 10);
   ("POST", "/api/v1/nodes/:id/restore", ["security-approver"], plain);
   ("POST", "/api/v1/nodes/:id/kill-switch", ["security-approver"], plain);
   ("POST", "/api/v1/nodes/:id/dns", ["security-approver"], plain);
   ("PUT", "/api/v1/nodes/:id/desired-state", ["security-approver"], keyed_by_client);
   ("GET", "/api/v1/nodes/:id/desired-state", ["security-read"], plain);
   ("POST", "/api/v1/nodes/:id/reconcile", ["security-approver"], per_minute 30);
   ("POST", "/api/v1/agent/heartbeat", ["security-agent"], plain);
   ("POST", "/api/v1/threats/signal", ["security-agent"], per_minute 120);
   ("POST", "/api/v1/threats/:nodeId/dismiss", ["security-approver"], plain);
   ("GET", "/api/v1/threats/active", ["security-read"], plain);
   ("POST", "/api/v1/agent/commands/:id/ack", ["security-agent"], plain);
   ("POST", "/api/v1/access/decide", ["security-agent"], per_minute 300);
   ("GET", "/api/v1/relays", ["security-read"], plain);
   ("POST", "/api/v1/relays/provision", ["security-owner"], per_minute 5);
   ("POST", "/api/v1/relays/:id/terminate", ["security-owner"], per_minute 5);
   ("POST", "/api/v1/relays/register", ["security-agent"], keyed_by_client);
   ("POST", "/api/v1/relays/:id/heartbeat", ["security-agent"], per_minute 120);
   ("GET", "/api/v1/egress", ["security-read"], plain);
   ("POST", "/api/v1/egress/register", ["security-agent"], keyed_by_client);
   ("POST", "/api/v1/egress/:id/heartbeat", ["security-agent"], per_minute 120);
   ("GET", "/api/v1/egress/select", ["security-agent"], plain)].

Section table.
Context {A : Type} (handler : string -> string -> Handler A).

Definition route_of (s : string * string * list string * RouteOptions) : Route A :=
  let '(method, path, roles, options) := s in
  mkRoute method (map segment_of (split_on "/" path)) roles (handler method path) options.

(** The calls of [router.add], one after the other. *)
Definition production_routes : list (Route A) :=
  fold_left (fun routes s => let '(method, path, roles, options) := s in add method path roles (handler method path) options routes)
    route_specs [].

Definition serves (method path : string) (r : Route A) : bool :=
  String.eqb r.(rt_method) method && match path_match r.(rt_pattern) path with Some _ => true | None => false end.

(** ** Overlap *)

(** Some segment could match both; a prefix with a key against a literal is
    decided by the literal. *)
Definition seg_overlap (x y : Segment) : bool :=
  match x, y with
  | (p, None), (q, None) => String.eqb p q
  | (p, Some _), (q, None) => startsWith p q && truthy (String.substring (String.length p) (String.length q) q)
  | (p, None), (q, Some _) => startsWith q p && truthy (String.substring (String.length q) (String.length p) p)
  | (_, Some _), (_, Some _) => true
  end.
Fixpoint overlap (x y : list Segment) : bool :=
  match x, y with
  | [], [] => true
  | s :: x', t :: y' => seg_overlap s t && overlap x' y'
  | _, _ => false
  end.

Definition seg_match (x : Segment) (s : string) : bool :=
  match x with
  | (p, None) => String.eqb p s
  | (p, Some _) => startsWith p s && truthy (String.substring (String.length p) (String.length s) s)
  end.

Lemma match_segments_cons x p s l gs :
  match_segments (x :: p) (s :: l) = Some gs -> seg_match x s = true /\ exists gs', match_segments p l = Some gs'.
Proof.
  destruct x as [q [k|]]; cbn -[truthy String.substring]; destruct (_ : bool); try done; eauto.
  destruct (match_segments p l); [eauto|done].
Qed.

Lemma match_overlap p q l gs hs : match_segments p l = Some gs -> match_segments q l = Some hs -> overlap p q = true.
Proof.
  revert q l gs hs; induction p as [|x p IH]; intros [|y q] [|s l] gs hs; try done; try (destruct x as [? []]; done).
  - by destruct y as [? []].
  - intros H1 H2. apply match_segments_cons in H1 as (M1 & ? & ?), H2 as (M2 & ? & ?). cbn.
    rewrite (IH q l _ _) by done. rewrite andb_true_r.
    destruct x as [a [k|]], y as [b [k'|]]; cbn -[truthy String.substring] in *; try done.
    + by apply String.eqb_eq in M2 as ->.
    + by apply String.eqb_eq in M1 as ->.
    + apply String.eqb_eq in M1 as ->, M2 as ->. by rewrite String.eqb_refl.
Qed.

Definition clash (x y : string * string * list string * RouteOptions) : bool :=
  String.eqb x.1.1.1 y.1.1.1 && overlap (map segment_of (split_on "/" x.1.1.2)) (map segment_of (split_on "/" y.1.1.2)).
Fixpoint no_clash (l : list (string * string * list string * RouteOptions)) : bool :=
  match l with [] => true | x :: l' => forallb (fun y => negb (clash x y)) l' && no_clash l' end.

Lemma no_clash_unique l x y :
  no_clash l = true -> x ∈ l -> y ∈ l -> clash x y = true -> clash y x = true -> x = y.
Proof.
  induction l as [|z l IH]; intros N Hx Hy C C'; [by apply not_elem_of_nil in Hx|]. cbn in N. bools.
  apply forallb_Forall in H. rewrite Forall_forall in H.
  apply elem_of_cons in Hx as [->|Hx], Hy as [->|Hy]; [done| | |by apply IH].
  - apply H in Hy. by rewrite C in Hy.
  - apply H in Hx. by rewrite C' in Hx.
Qed.

Lemma production_routes_map : production_routes = map route_of route_specs.
Proof. reflexivity. Qed.

Lemma serves_clash method path x y :
  serves method path (route_of x) = true -> serves method path (route_of y) = true -> clash x y = true.
Proof.
  destruct x as [[[m p] rs] o], y as [[[m' p'] rs'] o']. unfold serves, clash, path_match. cbn [route_of rt_method rt_pattern fst snd].
  rewrite !andb_true_iff, !String.eqb_eq. intros [-> H1] [-> H2]. split; [done|].
  destruct (match_segments (map segment_of (split_on "/" p)) (split_on "/" path)) eqn:E1; [|done].
  destruct (match_segments (map segment_of (split_on "/" p')) (split_on "/" path)) eqn:E2; [|done].
  by eapply match_overlap.
Qed.

Lemma route_unique method path r r' :
  r ∈ production_routes -> r' ∈ production_routes -> serves method path r = true -> serves method path r' = true -> r = r'.
Proof.
  rewrite production_routes_map, !elem_of_List_map. intros (x & -> & Hx) (y & -> & Hy) S1 S2. f_equal.
  apply (no_clash_unique route_specs); [by vm_compute|done..| |]; by eapply serves_clash.
Qed.

(** ** Which route serves a request *)

Definition Roles : list string := ["security-read"; "security-user"; "security-agent"; "security-approver"; "security-owner"].

(** A route is public and only read, or asks for one role. *)
Definition guarded (s : string * string * list string * RouteOptions) : bool :=
  if s.2.(public) then includes ["GET"; "HEAD"] s.1.1.1 && bool_decide (s.1.2 = [])
  else match s.1.2 with [r] => includes Roles r | _ => false end.

Lemma table_guarded : forallb guarded route_specs = true.
Proof. by vm_compute. Qed.

Lemma find_perm {B} (p : B -> bool) l l' :
  l ≡ₚ l' -> (forall x y, x ∈ l' -> y ∈ l' -> p x = true -> p y = true -> x = y) -> List.find p l = List.find p l'.
Proof.
  intros P U. destruct (List.find p l) as [x|] eqn:E, (List.find p l') as [y|] eqn:E'; [| | |done].
  - apply find_elem in E as [Hx Px], E' as [Hy Py]. f_equal. apply U; [by rewrite <-P|done..].
  - apply find_elem in E as [Hx Px]. rewrite P in Hx. apply (find_None_elem p l') with (x := x) in E'; [congruence|done].
  - apply find_elem in E' as [Hx Px]. rewrite <-P in Hx. apply (find_None_elem p l) with (x := y) in E; [congruence|done].
Qed.

(** Also: the order of the routes does not matter: whatever the order in which they
    are added, a request is served by the same route, the only one that matches it. *)
Theorem route_order_irrelevant routes method path :
  routes ≡ₚ production_routes -> find_route routes method path = find_route production_routes method path.
Proof. intros P. apply find_perm; [done|]. intros x y. apply route_unique. Qed.

Lemma find_route_guarded method path r :
  find_route production_routes method path = Some r ->
  r.(rt_method) = method /\
  if r.(rt_options).(public) then (method = "GET" \/ method = "HEAD") /\ r.(rt_roles) = []
  else exists role, r.(rt_roles) = [role] /\ role ∈ Roles.
Proof.
  intros F. apply find_elem in F as [Hr S]. rewrite production_routes_map in Hr.
  apply elem_of_List_map in Hr as (x & -> & Hx).
  pose proof table_guarded as G. apply forallb_Forall in G. rewrite Forall_forall in G. specialize (G x Hx).
  destruct x as [[[m p] rs] o]. unfold guarded in G. cbn [route_of rt_method rt_options rt_roles fst snd] in *.
  apply andb_true_iff in S as [S _]. apply String.eqb_eq in S as ->. split; [done|].
  destruct (public o).
  - apply andb_true_iff in G as [G1 G2]. apply includes_spec in G1. apply bool_decide_eq_true in G2. set_solver.
  - destruct rs as [|role []]; try done. exists role. split; [done|]. by apply includes_spec.
Qed.
End table.

Section guard.
Context {I R A : Type} `{!IdempotencyStore I} `{!ReplayStore R} `{!Collation} (handler : string -> string -> Handler A).
Context (hmac : string -> string -> string) (sha256 base64url from_base64url : string -> string).
Context (JSON_parse : string -> res json) (secret : string).
Local Notation served := (handle (I := I) (R := R) hmac sha256 base64url from_base64url JSON_parse secret true (production_routes handler)).

(** C12: no write without a role.  A request other than a GET or a HEAD that changes
    anything carries a signed, unexpired token that names the one role its
    route asks for. *)
Theorem write_needs_role clk id req s :
  app (served clk id req s).1 <> app s -> req.(rq_method) <> "GET" -> req.(rq_method) <> "HEAD" ->
  exists route role claims, find_route (production_routes handler) req.(rq_method) (url_path req) = Some route /\
    route.(rt_roles) = [role] /\ role ∈ Roles /\
    bears_token hmac base64url from_base64url JSON_parse secret clk.(t_verify) req [role] claims /\
    JStr role ∈ claims.(c_roles) /\
    (forall n, js_number claims.(exp) = Some n -> clk.(t_verify) < n * 1000).
Proof.
  intros C NG NH. apply changed_by_route in C as (route & F & G). pose proof (find_route_guarded _ _ _ _ F) as [_ K].
  destruct (public (rt_options route)); [by destruct K as [[?|?] _]|].
  destruct G as [|(claims & B & [E|(r & Hr & Hc)] & T)]; [done| |]; destruct K as (role & E' & Hrole).
  - congruence.
  - exists route, role, claims. rewrite E' in *. apply list_elem_of_singleton in Hr as ->. done.
Qed.
End guard.

(** ** Examples *)

Definition counting (method path : string) : Handler Z := count_handler.
Definition provision_request : Request := sample_request "POST" "/api/v1/relays/provision".
Definition served0 := handle (H := code_point_collation) (I := PgIdem) (R := PgNonces) hmac0 id0 to_hex from_hex sample_parse "s3cret" true
  (production_routes counting).

Lemma write_needs_role_witness :
  exists route role claims, find_route (production_routes counting) "POST" "/api/v1/relays/provision" = Some route /\
    route.(rt_roles) = [role] /\ role ∈ Roles /\
    bears_token hmac0 to_hex from_hex sample_parse "s3cret" 1000000 provision_request [role] claims /\
    JStr role ∈ claims.(c_roles) /\ (forall n, js_number claims.(exp) = Some n -> 1000000 < n * 1000).
Proof.
  apply (write_needs_role (I := PgIdem) (R := PgNonces) (H := code_point_collation) counting hmac0 id0 to_hex from_hex sample_parse "s3cret"
    (at_ 1000000) "r1" provision_request sample_server); vm_compute; discriminate.
Defined.

Lemma route_order_irrelevant_witness :
  find_route (rev (production_routes counting)) "PUT" "/api/v1/nodes/n1/region" =
  find_route (production_routes counting) "PUT" "/api/v1/nodes/n1/region".
Proof. apply (route_order_irrelevant counting). symmetry. apply Permutation_rev. Defined.
