(* ===== verification/Maintenance.v ===== *)
(** * The maintenance worker

    The reconciliation, key-rotation and outbox cycles of
    [src/src/runtime/maintenance-worker.ts] between two sleeps, each with the handler
    that keeps its loop alive.  What the cycles print is left out. *)

From S2P Require Import Prelude Json Text Domain Database Repositories AuditChain CommandQueue Mesh Reconciliation Storage ControlPlane.
Open Scope Z_scope.

Definition RECONCILIATION_ACTOR : string := "system:maintenance-worker".

Section worker.
Context `{Coll : Collation} (sha256 : string -> string).
Local Notation digest := (hex_digest sha256).

Definition record_drift (now : Date) (result : string * list DriftFinding) : St Db unit :=
  match List.filter df_drifted result.2 with
  | [] => mret tt
  | drifted =>
      AuditChain.record digest RECONCILIATION_ACTOR "NODE_RECONCILED" result.1
        (JObj [("corrected", JArr (map corrected_json drifted))]) now ;;; mret tt
  end.

Definition reconciliation_cycle (relays : option (list RelayHealth)) (now : Date) : St Db unit :=
  try_catch
    (let* results := checkAll sha256 relays now in for_each results (record_drift now))
    (fun _ => mret tt).

Definition record_rotation (keyRotationDays : Z) (now : Date) (nodeId : string) : St Db unit :=
  AuditChain.record digest RECONCILIATION_ACTOR "KEY_ROTATION_REQUESTED" nodeId
    (JObj [("reason", JStr ("key not rotated within " +:+ str_of_Z keyRotationDays +:+ " days"))]) now ;;; mret tt.

Definition rotation_cycle (keyRotationDays : Z) (now : Date) : St Db unit :=
  try_catch
    (let* nodeIds := run_rotation_scheduler keyRotationDays now in for_each nodeIds (record_rotation keyRotationDays now))
    (fun _ => mret tt).

(** ** What the cycles add to the log *)

Definition sound_db (db : Db) : Prop := AuditChain.verify digest db = true /\ in_step db.

Definition db_logs (w : list (Date * string * string * string)) (m : St Db unit) : Prop := forall db,
  match m db with
  | (db', Ok _) => map summary (chain db') = map summary (chain db) ++ w /\ (sound_db db -> sound_db db')
  | (db', Throw _) => exists w', w' `prefix_of` w /\ map summary (chain db') = map summary (chain db) ++ w'
  end.

Lemma record_logs act subj payload now : json_wf payload = true ->
  db_logs [(now, RECONCILIATION_ACTOR, act, subj)]
    (AuditChain.record digest RECONCILIATION_ACTOR act subj payload now ;;; mret tt).
Proof.
  intros W db. pose proof (record_step digest RECONCILIATION_ACTOR act subj payload now db) as R.
  unfold mbind, St_bind. rewrite record_run in R |- *. cbv zeta in R |- *.
  destruct (hash_taken _ _).
  - exists []. split; [apply prefix_nil|]. by rewrite app_nil_r.
  - split; [cbn; by rewrite map_app|]. intros [V I]. by destruct (R W V I) as (_ & _ & ? & ?).
Qed.

Lemma ret_logs : db_logs [] (mret tt).
Proof. intros db. split; [by rewrite app_nil_r|done]. Qed.

Lemma for_each_logs {X} (f : X -> St Db unit) (w : X -> list (Date * string * string * string)) l :
  (forall x, db_logs (w x) (f x)) -> db_logs (concat (map w l)) (for_each l f).
Proof.
  intros Hf. induction l as [|x l IH]; [apply ret_logs|]. intros db. cbn. unfold mbind, St_bind.
  specialize (Hf x db). destruct (f x db) as [db1 [[]|e]].
  - destruct Hf as [E S]. specialize (IH db1). destruct (for_each l f db1) as [db2 [[]|e]].
    + destruct IH as [E' S']. split; [by rewrite E', E, app_assoc|auto].
    + destruct IH as (w' & P & E'). exists (w x ++ w'). split; [by apply prefix_app|]. by rewrite E', E, app_assoc.
  - destruct Hf as (w' & P & E). exists w'. split; [by apply prefix_app_r|done].
Qed.

Definition drift_entry (now : Date) (result : string * list DriftFinding) : list (Date * string * string * string) :=
  if existsb df_drifted result.2 then [(now, RECONCILIATION_ACTOR, "NODE_RECONCILED", result.1)] else [].

Lemma record_drift_logs now r : db_logs (drift_entry now r) (record_drift now r).
Proof.
  unfold drift_entry, record_drift. destruct (List.filter df_drifted r.2) eqn:F.
  - apply filter_nil_existsb in F. rewrite F. apply ret_logs.
  - destruct (existsb df_drifted r.2) eqn:E; [apply record_logs; apply drifted_wf|]. apply filter_nil_existsb in E. congruence.
Qed.

(** A cycle: a job that does not touch the log, then a record per result. *)
Definition cycle {X} (job : St Db (list X)) (f : X -> St Db unit) : St Db unit :=
  try_catch (let* results := job in for_each results f) (fun _ => mret tt).

(** What the cycle adds, given what the job returns on [db]. *)
Definition cycle_adds {X} (job : St Db (list X)) (f : X -> St Db unit) (w : X -> list (Date * string * string * string))
    (db db' : Db) : Prop :=
  match job db with
  | (_, Throw _) => chain db' = chain db
  | (db1, Ok results) => exists added, added `prefix_of` concat (map w results) /\
      map summary (chain db') = map summary (chain db) ++ added /\
      (is_ok (for_each results f db1).2 = true -> added = concat (map w results) /\ (sound_db db -> sound_db db'))
  end.

Lemma cycle_logs {X} (job : St Db (list X)) f w db :
  calm job -> (forall x, db_logs (w x) (f x)) ->
  is_ok (cycle job f db).2 = true /\ cycle_adds job f w db (cycle job f db).1.
Proof.
  intros C Hf. unfold cycle, cycle_adds, try_catch, mbind, St_bind. specialize (C db).
  destruct (job db) as [db1 [results|e]]; cbn in C; injection C as C1 C2.
  2:{ split; [done|]. cbn. unfold chain. by rewrite C1. }
  pose proof (for_each_logs f w results Hf db1) as L. unfold chain in *. rewrite C1 in L.
  assert (sound_db db -> sound_db db1) as S1.
  { unfold sound_db, AuditChain.verify, in_step, chain, audit_last. by rewrite C1, C2. }
  destruct (for_each results f db1) as [db2 [[]|e]].
  - destruct L as [E So]. split; [done|]. exists (concat (map w results)). split_and!; [done|done|]. auto.
  - destruct L as (w' & P & E). split; [done|]. by exists w'.
Qed.

Lemma calm_checkAll relays now : calm (checkAll sha256 relays now).
Proof.
  unfold checkAll. apply calm_bind; [apply calm_gets|]. intros l. generalize (map fst l) as ids.
  induction ids as [|id ids IH]; cbn [check_each]; calm.
Qed.
Lemma calm_scheduler days now : calm (run_rotation_scheduler days now).
Proof. unfold run_rotation_scheduler. calm. Qed.

(** The worker's corrections are on record.  Neither cycle ever throws, so its
    loop goes on; when the pass over the fleet completes, the log gains one
    [NODE_RECONCILED] per node with drift, and one [KEY_ROTATION_REQUESTED] per node
    overdue, in order, and still verifies, unless a record is refused, in which case
    it gains the records before that one; when the pass fails the log is as it was. *)
Lemma worker_keeps_record relays days now db :
  (is_ok (reconciliation_cycle relays now db).2 = true /\
   cycle_adds (checkAll sha256 relays now) (record_drift now) (drift_entry now) db (reconciliation_cycle relays now db).1) /\
  (is_ok (rotation_cycle days now db).2 = true /\
   cycle_adds (run_rotation_scheduler days now) (record_rotation days now)
     (fun n => [(now, RECONCILIATION_ACTOR, "KEY_ROTATION_REQUESTED", n)]) db (rotation_cycle days now db).1).
Proof.
  split.
  - apply (cycle_logs (checkAll sha256 relays now)); [apply calm_checkAll|apply record_drift_logs].
  - apply (cycle_logs (run_rotation_scheduler days now)); [apply calm_scheduler|]. intros n. by apply record_logs.
Qed.

Lemma for_each_skip {X} (f : X -> St Db unit) l db : (forall x, x ∈ l -> f x db = (db, Ok tt)) -> for_each l f db = (db, Ok tt).
Proof.
  induction l as [|x l IH]; intros H; [done|]. cbn. rewrite (bind_ok _ _ _ _ _ (H x ltac:(left))).
  apply IH. intros y Hy. apply H. by right.
Qed.

(** A request that is still waiting is not sent again, and is recorded again all
    the same. *)
Lemma waiting_rotation_recorded_again days now db :
  (forall n, n ∈ nodesOverdueForRotation days now db -> hasPending n rotation_command db = true) ->
  is_ok (for_each (nodesOverdueForRotation days now db) (record_rotation days now) db).2 = true ->
  map summary (chain (rotation_cycle days now db).1) = map summary (chain db) ++
    map (fun n => (now, RECONCILIATION_ACTOR, "KEY_ROTATION_REQUESTED", n)) (nodesOverdueForRotation days now db) /\
  (run_rotation_scheduler days now db).1 = db.
Proof.
  intros P R. set (ids := nodesOverdueForRotation days now db) in *.
  assert (run_rotation_scheduler days now db = (db, Ok ids)) as S.
  { unfold run_rotation_scheduler, gets. unfold mbind at 1, St_bind at 1. fold ids.
    rewrite (bind_ok _ _ db db tt); [done|]. apply for_each_skip. intros n Hn. unfold mbind, St_bind. by rewrite (P n Hn). }
  split; [|by rewrite S].
  destruct (cycle_logs (run_rotation_scheduler days now) (record_rotation days now)
    (fun n => [(now, RECONCILIATION_ACTOR, "KEY_ROTATION_REQUESTED", n)]) db) as [_ A].
  - apply calm_scheduler.
  - intros n. by apply record_logs.
  - unfold cycle_adds in A. rewrite S in A. destruct A as (w & _ & E & F). destruct (F R) as [-> _].
    unfold rotation_cycle. unfold cycle in E. rewrite E. f_equal.
    clear. induction ids as [|n l IH]; cbn; [done|by f_equal].
Qed.
End worker.
