(* ===== verification/X509.v ===== *)
(** * Certificates and revocation lists as they are built

    [ForgeX509Builder] ([src/services/trust-core/x509-forge.ts]) and
    [ForgeCrlBuilder] ([crl-builder.ts]).  node-forge is a parameter: reading and
    writing PEM, the DER encoding of a structure, dates and object identifiers.  A
    certificate is the fields the builder sets; its serial number is, as node-forge
    documents, the hexadecimal form of the content octets of an ASN.1 INTEGER. *)

From S2P Require Import Prelude Json Text Domain Words Database Repositories CommandQueue Rest Certificates.
Open Scope Z_scope.

(** ** Reading the builder's input *)

(** [const [a,b]=s.split(c)] *)
Definition first_two (c : ascii) (s : string) : string * option string :=
  match split_on c s with a :: b :: _ => (a, Some b) | [a] => (a, None) | [] => ("", None) end.

Definition dn_name (name : string) : string :=
  if String.eqb name "CN" then "commonName" else if String.eqb name "OU" then "organizationalUnitName" else name.

Definition parseDn (dn : string) : list (string * option string) :=
  map (fun pair => let '(name, value) := first_two "=" pair in (dn_name (trim name), trim <$> value)) (split_on "," dn).

Record KeyUsage := mkKeyUsage {
  digitalSignature : bool; keyEncipherment : bool; keyAgreement : bool; keyCertSign : bool; cRLSign : bool
}.
Definition csv_flags (csv : string) : list string := map trim (split_on "," csv).
Definition parseKeyUsage (csv : string) : KeyUsage :=
  let flags := csv_flags csv in
  mkKeyUsage (includes flags "digitalSignature") (includes flags "keyEncipherment") (includes flags "keyAgreement")
    (includes flags "keyCertSign") (includes flags "cRLSign").
Definition parseExtKeyUsage (csv : string) : bool * bool :=
  let flags := csv_flags csv in (includes flags "serverAuth", includes flags "clientAuth").

(** The type is 6 for a URI and 2 for a DNS name. *)
Definition parseSubjectAltName (value : string) : Z * option string :=
  let '(type, name) := first_two ":" value in
  if String.eqb type "URI" then (6, name) else (2, Some (default value name)).

(** ** [ForgeX509Builder] *)

Record Extensions := mkExtensions {
  ext_cA : option bool; ext_keyUsage : option KeyUsage; ext_extKeyUsage : option (bool * bool);
  ext_subjectAltName : option (Z * option string)
}.

Definition extension (k : string) (l : list (string * string)) : option string :=
  when_truthy (snd <$> List.find (fun kv => String.eqb kv.1 k) l).

Definition read_extensions (l : list (string * string)) : Extensions :=
  mkExtensions (str_includes "TRUE" <$> extension "basicConstraints" l) (parseKeyUsage <$> extension "keyUsage" l)
    (parseExtKeyUsage <$> extension "extendedKeyUsage" l) (parseSubjectAltName <$> extension "subjectAltName" l).

(** What is signed. *)
Record Tbs := mkTbs {
  tb_serial : string; tb_publicKey : string; tb_notBefore : Date; tb_notAfter : Date;
  tb_subject : list (string * option string); tb_issuer : list (string * option string); tb_extensions : Extensions
}.
Record Certificate := mkCert { ct_tbs : Tbs; ct_signature : string }.

Section builder.
Context (certificateFromPem : string -> res Certificate) (certificateToPem : Certificate -> string).
Context (publicKeyFromPem : string -> res string) (tbsDer : Tbs -> string).

(** [create]; [sign] is the external signer. *)
Definition x509_build (issuerCertificatePem : string) (sign : string -> res string) (input : X509Input) : res string :=
  match certificateFromPem issuerCertificatePem with
  | Throw e => Throw e
  | Ok issuerCert =>
      match publicKeyFromPem input.(x_publicKeyPem) with
      | Throw e => Throw e
      | Ok key =>
          let tbs := mkTbs input.(x_serial) key input.(x_notBefore) input.(x_notAfter) (parseDn input.(x_subject))
                       issuerCert.(ct_tbs).(tb_subject) (read_extensions input.(x_extensions)) in
          match sign (tbsDer tbs) with
          | Throw e => Throw e
          | Ok signature => Ok (certificateToPem (mkCert tbs signature))
          end
      end
  end.
End builder.

(** ** ASN.1 *)

Inductive Asn1Type := INTEGER | OID | ASN_NULL | UTCTIME | BITSTRING.
Inductive Asn1 :=
  | Prim (type : Asn1Type) (content : string)
  | SEQUENCE (children : list Asn1).

Definition high_bit (s : string) : bool :=
  match s with String c _ => (128 <=? nat_of_ascii c)%nat | EmptyString => false end.

(** [intHex] *)
Definition intHex (hex : string) : Asn1 :=
  let bytes := from_hex hex in Prim INTEGER (if high_bit bytes then String (ascii_of_nat 0) bytes else bytes).

(** ** [ForgeCrlBuilder] *)

Section crl.
Context (certificateFromPem : string -> res Certificate) (integerToDer : Z -> string) (oidToDer : string -> string).
Context (dateToUtcTime : Date -> string) (distinguishedNameToAsn1 : list (string * option string) -> Asn1).
Context (toDer : Asn1 -> string) (sha256WithRSAEncryption : string).

Definition asn_int (n : Z) : Asn1 := Prim INTEGER (integerToDer n).
Definition algorithmIdentifier (oid : string) : Asn1 := SEQUENCE [Prim OID (oidToDer oid); Prim ASN_NULL ""].
Definition utcTime (d : Date) : Asn1 := Prim UTCTIME (dateToUtcTime d).

Definition revoked_entry (r : string * Date) : Asn1 := SEQUENCE [intHex r.1; utcTime r.2].

Definition tbsCertList (issuer : list (string * option string)) (thisUpdate nextUpdate : Date) (revoked : list (string * Date)) : Asn1 :=
  SEQUENCE [asn_int 1; algorithmIdentifier sha256WithRSAEncryption; distinguishedNameToAsn1 issuer;
            utcTime thisUpdate; utcTime nextUpdate; SEQUENCE (map revoked_entry revoked)].

Definition crl_build (issuerCertificatePem : string) (thisUpdate nextUpdate : Date) (revoked : list (string * Date))
    (sign : string -> res string) : res string :=
  match certificateFromPem issuerCertificatePem with
  | Throw e => Throw e
  | Ok issuerCert =>
      let tbs := tbsCertList issuerCert.(ct_tbs).(tb_subject) thisUpdate nextUpdate revoked in
      match sign (toDer tbs) with
      | Throw e => Throw e
      | Ok signature =>
          Ok (toDer (SEQUENCE [tbs; algorithmIdentifier sha256WithRSAEncryption;
                               Prim BITSTRING (String (ascii_of_nat 0) signature)]))
      end
  end.
End crl.

(** ** The value of an INTEGER *)

(** Big-endian, and in two's complement as a DER INTEGER is read. *)
Fixpoint unsigned_from (acc : Z) (s : string) : Z :=
  match s with EmptyString => acc | String c s' => unsigned_from (256 * acc + Z.of_nat (nat_of_ascii c)) s' end.
Definition unsigned (s : string) : Z := unsigned_from 0 s.
Definition twos_complement (s : string) : Z :=
  if high_bit s then unsigned s - 256 ^ Z.of_nat (String.length s) else unsigned s.

Definition asn_value (a : Asn1) : option Z := match a with Prim INTEGER s => Some (twos_complement s) | _ => None end.

(** The serial number a relying party reads out of the certificate, and out of
    the entry of a revocation list. *)
Definition certificate_serial (t : Tbs) : Z := twos_complement (from_hex t.(tb_serial)).
Definition entry_serial (a : Asn1) : option Z := match a with SEQUENCE (i :: _) => asn_value i | _ => None end.

Lemma unsigned_from_shift acc s : unsigned_from acc s = acc * 256 ^ Z.of_nat (String.length s) + unsigned s.
Proof.
  unfold unsigned. revert acc. induction s as [|c s IH]; intros acc; cbn [unsigned_from String.length]; [lia|].
  rewrite IH, (IH (256 * 0 + _)), Nat2Z.inj_succ, Z.pow_succ_r by lia. ring.
Qed.

Lemma unsigned_bounds s : 0 <= unsigned s < 256 ^ Z.of_nat (String.length s).
Proof.
  induction s as [|c s IH]; [done|]. unfold unsigned in *. cbn [unsigned_from String.length].
  rewrite unsigned_from_shift, Nat2Z.inj_succ, Z.pow_succ_r by lia. unfold unsigned.
  pose proof (nat_ascii_bounded c). nia.
Qed.

Lemma intHex_value hex : asn_value (intHex hex) = Some (unsigned (from_hex hex)).
Proof.
  unfold intHex. cbv zeta. destruct (high_bit (from_hex hex)) eqn:H; cbn; unfold twos_complement; [done|by rewrite H].
Qed.

Lemma revoked_entry_serial utc r : entry_serial (revoked_entry utc r) = Some (unsigned (from_hex r.1)).
Proof. apply intHex_value. Qed.

(** ** Revocation *)

(** The entries of the list, as the builder orders them. *)
Definition crl_serials (dateToUtcTime : Date -> string) (revoked : list (string * Date)) : list (option Z) :=
  map (fun r => entry_serial (revoked_entry dateToUtcTime r)) revoked.

(** Also: the revocation list that is distributed names exactly the certificates
    that are revoked on record, each by the number its serial spells, which is
    never negative. *)
Theorem crl_names_revoked dateToUtcTime db v :
  Some v ∈ crl_serials dateToUtcTime (listRevoked db) <->
  exists c, c ∈ db.(certificates) /\ c.(ce_revoked) = true /\ is_Some c.(ce_revoked_at) /\
    v = unsigned (from_hex c.(ce_serial)) /\ 0 <= v.
Proof.
  unfold crl_serials, listRevoked. rewrite elem_of_List_map. setoid_rewrite list_elem_of_omap.
  setoid_rewrite elem_of_sort_by. setoid_rewrite elem_of_List_filter. split.
  - intros (r & E & c & [Hc B] & Hr). bools. destruct (ce_revoked_at c) as [t|] eqn:T; [|done].
    injection Hr as <-. rewrite revoked_entry_serial in E. injection E as ->.
    exists c. split_and!; [done..|rewrite T; eauto|done|apply unsigned_bounds].
  - intros (c & Hc & R & [t T] & -> & _). exists (ce_serial c, t). rewrite revoked_entry_serial. split; [done|].
    exists c. rewrite R, T. done.
Qed.

(** Also: a relying party that reads the serial number out of a certificate finds
    it on the revocation list exactly when its first bit is clear: the certificate
    carries the octets of the serial as they are, the list prefixes a zero, so that
    the two spell different numbers for half of all serials. *)
Theorem crl_matches_certificate_iff dateToUtcTime t at_ :
  entry_serial (revoked_entry dateToUtcTime (t.(tb_serial), at_)) = Some (certificate_serial t) <->
  high_bit (from_hex t.(tb_serial)) = false.
Proof.
  rewrite revoked_entry_serial. cbn [fst]. unfold certificate_serial, twos_complement.
  destruct (high_bit _) eqn:H; [|done]. split; [|done]. intros [= E].
  pose proof (Z.pow_pos_nonneg 256 (Z.of_nat (String.length (from_hex (tb_serial t))))). lia.
Qed.

(** ** What a node's certificate says *)

(** An identifier of letters, digits and dashes, say, as [randomUUID] draws. *)
Definition plain_id (id : string) : bool :=
  truthy id && all_chars (fun c => negb (is_space c) && negb (Ascii.eqb "," c) && negb (Ascii.eqb "=" c)) id.

Lemma plain_id_chars id : plain_id id = true ->
  all_chars (fun c => negb (is_space c)) id = true /\ all_chars (fun c => negb (Ascii.eqb "," c)) id = true /\
  all_chars (fun c => negb (Ascii.eqb "=" c)) id = true.
Proof.
  unfold plain_id. rewrite andb_true_iff. intros [_ H].
  split_and!; (eapply all_chars_impl; [|exact H]); cbv beta; intros c; rewrite !andb_true_iff; tauto.
Qed.

Lemma parseDn_node id : plain_id id = true ->
  parseDn ("CN=node:" +:+ id +:+ ",OU=BAPC VPN Digital Security") =
  [("commonName", Some ("node:" +:+ id)); ("organizationalUnitName", Some "BAPC VPN Digital Security")].
Proof.
  intros H. apply plain_id_chars in H as (Hs & Hc & He). unfold parseDn.
  replace ("CN=node:" +:+ id +:+ ",OU=BAPC VPN Digital Security")
    with (("CN=node:" +:+ id) +:+ String "," "OU=BAPC VPN Digital Security") by (by rewrite <-app_assoc_s).
  rewrite split_on_line by (rewrite all_chars_app, Hc; done).
  change (split_on "," "OU=BAPC VPN Digital Security") with ["OU=BAPC VPN Digital Security"].
  cbn [map]. f_equal. unfold first_two.
  change ("CN=node:" +:+ id) with ("CN" +:+ String "=" ("node:" +:+ id)).
  rewrite split_on_line by done. rewrite split_on_none by (rewrite all_chars_app, He; done).
  cbn [fmap option_fmap option_map]. do 2 f_equal. unfold trim.
  rewrite trim_start_head by done. apply trim_end_word. by rewrite all_chars_app, Hs.
Qed.

Lemma san_node id : parseSubjectAltName ("URI:bapc:security:node:" +:+ id) = (6, Some "bapc").
Proof.
  unfold parseSubjectAltName, first_two.
  change ("URI:bapc:security:node:" +:+ id) with ("URI" +:+ String ":" ("bapc" +:+ String ":" ("security:node:" +:+ id))).
  by rewrite !split_on_line by done.
Qed.

(** The profile of a node's certificate. *)
Record node_profile (issuer : Certificate) (serial nodeId key : string) (now : Date) (ttl : Z) (t : Tbs) : Prop := {
  np_serial : t.(tb_serial) = serial;
  np_key : t.(tb_publicKey) = key;
  np_validity : t.(tb_notBefore) = now - 60000 /\ t.(tb_notAfter) = now + ttl * 60000;
  np_subject : t.(tb_subject) = [("commonName", Some ("node:" +:+ nodeId)); ("organizationalUnitName", Some "BAPC VPN Digital Security")];
  np_issuer : t.(tb_issuer) = issuer.(ct_tbs).(tb_subject);
  np_leaf : t.(tb_extensions).(ext_cA) = Some false;
  np_usage : t.(tb_extensions).(ext_keyUsage) = Some (mkKeyUsage true false true false false);
  np_peer : t.(tb_extensions).(ext_extKeyUsage) = Some (true, true);
  np_san : t.(tb_extensions).(ext_subjectAltName) = Some (6, Some "bapc")
}.

(** Also: a certificate issued to a node is signed over exactly its fields, names the
    issuer and the node, carries the key the node proved, is valid from a minute
    ago for the lifetime asked, and can neither sign certificates nor revocation
    lists.  Its alternative name is the URI "bapc" whatever the node is: the
    identifier is cut off. *)
Theorem node_certificate_profile fromPem toPem keyFromPem der issuerPem sign issuerId serial id now nodeId keyPem ttl db db' c :
  plain_id nodeId = true ->
  issueNode (x509_build fromPem toPem keyFromPem der issuerPem sign) issuerId serial id now nodeId keyPem ttl db = (db', Ok c) ->
  exists issuer cert key, fromPem issuerPem = Ok issuer /\ keyFromPem keyPem = Ok key /\ c.(is_pem) = toPem cert /\
    sign (der cert.(ct_tbs)) = Ok cert.(ct_signature) /\ node_profile issuer serial nodeId key now ttl cert.(ct_tbs).
Proof.
  intros Hid. unfold issueNode. destruct (_ || _); [done|]. unfold x509_build at 1.
  destruct (fromPem issuerPem) as [issuer|e]; [|done]. cbn [x_publicKeyPem].
  destruct (keyFromPem keyPem) as [key|e]; [|done]. cbv zeta.
  match goal with |- context [sign (der ?t)] => set (tbs := t) end.
  destruct (sign (der tbs)) as [sg|e] eqn:S; [|done]. intros R.
  apply bind_inv_ok in R as (db1 & [] & _ & R). injection R as _ <-.
  exists issuer, (mkCert tbs sg), key. split_and!; [done..|].
  assert (read_extensions [("basicConstraints", "CA:FALSE"); ("keyUsage", "digitalSignature,keyAgreement");
    ("extendedKeyUsage", "clientAuth,serverAuth"); ("subjectAltName", "URI:bapc:security:node:" +:+ nodeId)] =
    mkExtensions (Some false) (Some (mkKeyUsage true false true false false)) (Some (true, true)) (Some (6, Some "bapc"))) as X.
  { unfold read_extensions. rewrite <- (san_node nodeId). reflexivity. }
  unfold tbs. split; cbn [ct_tbs tb_serial tb_publicKey tb_notBefore tb_notAfter tb_subject tb_issuer tb_extensions
    x_serial x_notBefore x_notAfter x_subject x_extensions]; rewrite ?X; try done. by apply parseDn_node.
Qed.

(** ** Examples *)

Definition ca_cert : Certificate := mkCert (mkTbs "01" "ca-key" 0 100 [("commonName", Some "CA")] [("commonName", Some "CA")]
  (mkExtensions (Some true) None None None)) "sig".
Definition toy_build := x509_build (fun _ => Ok ca_cert) (fun c => c.(ct_signature)) (fun k => Ok k)
  (fun t => t.(tb_serial)) "ca.pem" (fun bytes => Ok ("signed " +:+ bytes)).

Lemma node_certificate_profile_witness :
  exists issuer cert key, Ok ca_cert = Ok issuer /\ Ok "pk" = Ok key /\ "signed ab" = cert.(ct_signature) /\
    Ok ("signed " +:+ cert.(ct_tbs).(tb_serial)) = Ok cert.(ct_signature) /\ node_profile issuer "ab" "n1" key 0 60 cert.(ct_tbs).
Proof.
  refine (node_certificate_profile (fun _ => Ok ca_cert) (fun c => c.(ct_signature)) (fun k => Ok k)
    (fun t => t.(tb_serial)) "ca.pem" (fun bytes => Ok ("signed " +:+ bytes)) "i1" "ab" "x1" 0 "n1" "pk" 60 sample_db _
    {| is_serial := "ab"; is_pem := "signed ab"; is_expiresAt := 3600000 |} eq_refl _).
  vm_compute. reflexivity.
Defined.
