(* ===== verification/TrustAnchor.v ===== *)
(** * The trust anchor the processes share

    [DevKeyProvider], [PgDevTrustAnchorStore], [upsertIssuerRow] and
    [loadTrustAnchor] ([src/services/trust-core/dev-key-provider.ts],
    [pg-dev-trust-anchor-store.ts], [dev-self-signed.ts], [trust-anchor.ts]).
    Several processes start at once: each of the three statements of
    [loadOrCreate] is a step, and the steps of the processes interleave freely.
    RSA keys, their PEM form and what KMS answers are parameters. *)

From S2P Require Import Prelude Json Text Domain Words Database Repositories Certificates X509.
From stdpp Require Import relations.
Open Scope Z_scope.

(** ** [DevKeyProvider] *)

Section keys.
(** A private key determines its public one; signing is deterministic. *)
Context {Priv Pub : Type} (public_of : Priv -> Pub) (rsa_sign : Priv -> string -> string).
Context (publicKeyToPem : Pub -> string) (privateKeyToPem : Priv -> string) (privateKeyFromPem : string -> res Priv).

Notation Keys := (gmap string Priv).
Inductive Algorithm := ES256 | RS256.

Definition unknown_key (keyReference : string) : exn := JsError ("unknown key reference " +:+ keyReference).

(** [pair] is the key pair forge generates. *)
Definition key_generate (keyReference : string) (pair : Priv) : St Keys string := fun k =>
  (<[keyReference := pair]> k, Ok (publicKeyToPem (public_of pair))).

Definition importPrivateKeyPem (keyReference pem : string) : St Keys string := fun k =>
  match privateKeyFromPem pem with
  | Throw e => (k, Throw e)
  | Ok priv => (<[keyReference := priv]> k, Ok (publicKeyToPem (public_of priv)))
  end.

Definition key_sign (keyReference : string) (algorithm : Algorithm) (payload : string) (k : Keys) : res string :=
  match algorithm with
  | ES256 => Throw (JsError "DevKeyProvider only supports RS256 (got ES256)")
  | RS256 =>
      match k !! keyReference with
      | None => Throw (unknown_key keyReference)
      | Some priv => Ok (rsa_sign priv payload)
      end
  end.

Definition key_public (keyReference : string) (k : Keys) : res string :=
  match k !! keyReference with
  | None => Throw (unknown_key keyReference)
  | Some priv => Ok (publicKeyToPem (public_of priv))
  end.

Definition exportPrivateKeyPemForDevOnly (keyReference : string) (k : Keys) : res string :=
  match k !! keyReference with
  | None => Throw (unknown_key keyReference)
  | Some priv => Ok (privateKeyToPem priv)
  end.
End keys.

(** ** [PgDevTrustAnchorStore.loadOrCreate] *)

Record Anchor := mkAnchor { an_certificatePem : string; an_privateKeyPem : string }.
Notation AnchorTable := (gmap string (string * Anchor)).

Definition anchor_select (keyReference : string) (t : AnchorTable) : option Anchor := snd <$> t !! keyReference.
(** [ON CONFLICT (key_reference) DO NOTHING] *)
Definition anchor_insert (keyReference subjectCn : string) (a : Anchor) (t : AnchorTable) : AnchorTable :=
  match t !! keyReference with Some _ => t | None => <[keyReference := (subjectCn, a)]> t end.

(** Where a process stands between its statements. *)
Inductive Stage :=
  | Selecting
  | Inserting (generated : Anchor)
  | Rereading
  | Loaded (a : Anchor)
  | Failed.

(** The next statement of a process that would generate [gen].  Reading
    [rows[0]] of an empty result throws. *)
Definition anchor_step (keyReference subjectCn : string) (gen : Anchor) (t : AnchorTable) (s : Stage) : AnchorTable * Stage :=
  match s with
  | Selecting => (t, match anchor_select keyReference t with Some a => Loaded a | None => Inserting gen end)
  | Inserting g => (anchor_insert keyReference subjectCn g t, Rereading)
  | Rereading => (t, match anchor_select keyReference t with Some a => Loaded a | None => Failed end)
  | Loaded a => (t, Loaded a)
  | Failed => (t, Failed)
  end.

(** [loadOrCreate], alone: [generate] runs when no row is found. *)
Definition loadOrCreate (keyReference subjectCn : string) (generate : res Anchor) : St AnchorTable Anchor := fun t =>
  match anchor_select keyReference t with
  | Some a => (t, Ok a)
  | None =>
      match generate with
      | Throw e => (t, Throw e)
      | Ok gen =>
          let t1 := anchor_insert keyReference subjectCn gen t in
          match anchor_select keyReference t1 with
          | Some a => (t1, Ok a)
          | None => (t1, Throw (JsError "Cannot read properties of undefined"))
          end
      end
  end.

(** ** Processes *)

(** The table and, by process, what it would generate and where it stands. *)
Record Deployment := mkDeployment { dp_table : AnchorTable; dp_procs : list (Anchor * Stage) }.

Section race.
Context (keyReference subjectCn : string).

Inductive dep_step : Deployment -> Deployment -> Prop :=
  | proc_step t ps i gen s :
      ps !! i = Some (gen, s) ->
      dep_step (mkDeployment t ps)
        (mkDeployment (anchor_step keyReference subjectCn gen t s).1
           (<[i := (gen, (anchor_step keyReference subjectCn gen t s).2)]> ps)).

Definition boot (t : AnchorTable) (gens : list Anchor) : Deployment := mkDeployment t (map (fun g => (g, Selecting)) gens).

(** The row is there when a process is past its INSERT, and is what a loaded
    process holds. *)
Definition stage_ok (t : AnchorTable) (s : Stage) : Prop :=
  match s with
  | Selecting | Inserting _ => True
  | Rereading => is_Some (anchor_select keyReference t)
  | Loaded a => anchor_select keyReference t = Some a
  | Failed => False
  end.
Definition deployment_ok (d : Deployment) : Prop := Forall (fun p => stage_ok d.(dp_table) p.2) d.(dp_procs).

Lemma anchor_insert_select g t : is_Some (anchor_select keyReference (anchor_insert keyReference subjectCn g t)).
Proof.
  unfold anchor_select, anchor_insert. destruct (t !! keyReference) eqn:E; [rewrite E; eauto|].
  rewrite lookup_insert_eq. eauto.
Qed.

(** A row that is there stays. *)
Lemma anchor_insert_keeps g t a :
  anchor_select keyReference t = Some a -> anchor_insert keyReference subjectCn g t = t.
Proof. unfold anchor_select, anchor_insert. by destruct (t !! keyReference). Qed.

Lemma step_keeps gen t s a :
  anchor_select keyReference t = Some a -> (anchor_step keyReference subjectCn gen t s).1 = t.
Proof. intros H. destruct s; try done. by apply (anchor_insert_keeps _ t a). Qed.

Lemma stage_ok_mono gen t s s' : stage_ok t s' -> stage_ok (anchor_step keyReference subjectCn gen t s).1 s'.
Proof.
  destruct s' as [| | |a|]; try done; cbn.
  - intros [a H]. rewrite (step_keeps _ _ _ a) by done. eauto.
  - intros H. by rewrite (step_keeps _ _ _ a).
Qed.

Lemma anchor_step_ok gen t s : stage_ok t s ->
  stage_ok (anchor_step keyReference subjectCn gen t s).1 (anchor_step keyReference subjectCn gen t s).2.
Proof.
  destruct s as [|g| |a|]; cbn; try done.
  - intros _. by destruct (anchor_select keyReference t) eqn:E.
  - intros _. apply anchor_insert_select.
  - intros [a E]. by rewrite E.
Qed.

Lemma dep_step_ok d d' : dep_step d d' -> deployment_ok d -> deployment_ok d'.
Proof.
  intros [t ps i gen s Hi] H. unfold deployment_ok in *. cbn in *.
  apply Forall_insert; cbn.
  - eapply Forall_impl; [exact H|]. intros p Hp. by apply stage_ok_mono.
  - apply anchor_step_ok. rewrite Forall_lookup in H. apply (H i _ Hi).
Qed.

Lemma reachable_ok t gens d : rtc dep_step (boot t gens) d -> deployment_ok d.
Proof.
  intros R. assert (deployment_ok (boot t gens)) as H.
  { unfold deployment_ok, boot. cbn. apply Forall_fmap, Forall_true. done. }
  revert H. induction R as [|d1 d2 d3 S R IH]; [done|]. intros H. by eapply IH, dep_step_ok.
Qed.

(** A schedule: the processes whose turn it is, one after the other. *)
Definition turn (d : Deployment) (i : nat) : Deployment :=
  match d.(dp_procs) !! i with
  | None => d
  | Some (gen, s) =>
      let '(t, s') := anchor_step keyReference subjectCn gen d.(dp_table) s in
      mkDeployment t (<[i := (gen, s')]> d.(dp_procs))
  end.
Definition schedule (turns : list nat) (d : Deployment) : Deployment := fold_left turn turns d.

Lemma turn_steps d i : rtc dep_step d (turn d i).
Proof.
  unfold turn. destruct d as [t ps]. cbn. destruct (ps !! i) as [[gen s]|] eqn:E; [|done].
  apply rtc_once. pose proof (proc_step t ps i gen s E) as S. by destruct (anchor_step _ _ _ _ _).
Qed.

Lemma schedule_steps turns d : rtc dep_step d (schedule turns d).
Proof.
  revert d. induction turns as [|i turns IH]; intros d; [done|]. etransitivity; [apply turn_steps|apply IH].
Qed.

(** Statements a process has left. *)
Definition left_to_do (s : Stage) : nat := match s with Selecting => 3 | Inserting _ => 2 | Rereading => 1 | _ => 0 end.
Definition stage_of (d : Deployment) (i : nat) : option Stage := snd <$> d.(dp_procs) !! i.

Lemma turn_stage d i j s : stage_of d j = Some s ->
  exists s', stage_of (turn d i) j = Some s' /\
    (left_to_do s' <= if decide (i = j) then left_to_do s - 1 else left_to_do s)%nat.
Proof.
  unfold stage_of, turn. destruct d as [t ps]. cbn. intros H.
  destruct (ps !! i) as [[gen si]|] eqn:E.
  - destruct (decide (i = j)) as [->|N].
    + rewrite E in H. injection H as ->. destruct (anchor_step _ _ _ _ _) as [t' s'] eqn:St. cbn.
      rewrite list_lookup_insert_eq by (by eapply lookup_lt_Some). exists s'. split; [done|].
      destruct s; injection St as _ <-; cbn; repeat case_match; cbn; lia.
    + destruct (anchor_step _ _ _ _ _). cbn. rewrite list_lookup_insert_ne by done. eauto.
  - exists s. split; [done|]. destruct (decide (i = j)) as [->|]; [|done]. by rewrite E in H.
Qed.

Fixpoint turns_of (i : nat) (turns : list nat) : nat :=
  match turns with [] => 0 | j :: l => (if decide (j = i) then 1 else 0) + turns_of i l end.

Lemma schedule_stage turns : forall d j s, stage_of d j = Some s ->
  exists s', stage_of (schedule turns d) j = Some s' /\ (left_to_do s' <= left_to_do s - turns_of j turns)%nat.
Proof.
  induction turns as [|i turns IH]; intros d j s H; [exists s; cbn; split; [done|lia]|].
  destruct (turn_stage d i j s H) as (s1 & H1 & L1). destruct (IH (turn d i) j s1 H1) as (s2 & H2 & L2).
  exists s2. split; [done|]. cbn [turns_of]. destruct (decide (i = j)); lia.
Qed.

(** The row, once there, is one that was there or that a process generated. *)
Definition provenance (t : AnchorTable) (gens : list Anchor) (d : Deployment) : Prop :=
  Forall (fun p => p.1 ∈ gens /\ match p.2 with Inserting g => g ∈ gens | _ => True end) d.(dp_procs) /\
  match anchor_select keyReference t with
  | Some a => anchor_select keyReference d.(dp_table) = Some a
  | None => forall a, anchor_select keyReference d.(dp_table) = Some a -> a ∈ gens
  end.

Lemma dep_step_provenance t gens d d' : dep_step d d' -> provenance t gens d -> provenance t gens d'.
Proof.
  intros [tb ps i gen s Hi] [Hp Ht]. pose proof (proj1 (Forall_lookup _ _) Hp i _ Hi) as [Hg Hs]. cbn in *. split; cbn.
  - apply Forall_insert; [done|]. cbn. split; [done|]. destruct s; cbn; try done; by destruct (anchor_select _ tb).
  - destruct (anchor_select keyReference t) as [a|]; [by rewrite (step_keeps _ _ _ a)|].
    destruct s as [|g| |a|]; cbn; try done. intros a. unfold anchor_insert.
    destruct (tb !! keyReference) eqn:E; [intros H; by apply Ht|].
    unfold anchor_select. rewrite lookup_insert_eq. by intros [= <-].
Qed.

Lemma schedule_provenance turns t gens : provenance t gens (schedule turns (boot t gens)).
Proof.
  assert (provenance t gens (boot t gens)) as H.
  { split; cbn.
    - apply Forall_fmap, Forall_forall. intros g Hg. done.
    - destruct (anchor_select keyReference t) eqn:E; [done|]. congruence. }
  revert H. generalize (schedule_steps turns (boot t gens)). generalize (schedule turns (boot t gens)) as d2.
  generalize (boot t gens) as d1. intros d1 d2 R. induction R as [|? ? ? S R IH]; [done|]. intros H.
  by eapply IH, dep_step_provenance.
Qed.

(** C15: the processes of a deployment agree on the trust anchor however their
    statements interleave: none fails, one that has had three turns has loaded an
    anchor, all that have loaded one hold the same, and it is the stored anchor, or,
    where none was stored, one of those they generated. *)
Theorem anchors_agree t gens turns i j a :
  let d := schedule turns (boot t gens) in
  stage_of d i <> Some Failed /\
  ((i < length gens)%nat /\ (3 <= turns_of i turns)%nat -> exists b, stage_of d i = Some (Loaded b)) /\
  (stage_of d i = Some (Loaded a) ->
   (forall b, stage_of d j = Some (Loaded b) -> b = a) /\
   match anchor_select keyReference t with Some stored => a = stored | None => a ∈ gens end).
Proof.
  intros d. pose proof (reachable_ok t gens d (schedule_steps turns _)) as Ok.
  unfold deployment_ok in Ok. rewrite Forall_lookup in Ok.
  assert (forall k s, stage_of d k = Some s -> stage_ok d.(dp_table) s) as Good.
  { intros k s H. unfold stage_of in H. destruct (dp_procs d !! k) as [p|] eqn:E; [|done]. injection H as <-. by apply (Ok k). }
  split; [intros H; by apply Good in H|]. split.
  - intros [Li Ti]. destruct (lookup_lt_is_Some_2 gens i Li) as [g Hg].
    destruct (schedule_stage turns (boot t gens) i Selecting) as (s & Hs & L).
    { unfold stage_of, boot. cbn. change (map ?f gens) with (f <$> gens). by rewrite list_lookup_fmap, Hg. }
    cbn in L. destruct s; cbn in L; try lia; [eauto|]. by apply Good in Hs.
  - intros Hi. apply Good in Hi. cbn in Hi. split.
    + intros b Hj. apply Good in Hj. cbn in Hj. congruence.
    + destruct (schedule_provenance turns t gens) as [_ P]. fold d in P.
      destruct (anchor_select keyReference t); [congruence|by apply P].
Qed.
End race.

(** ** The issuer row *)

Record IssuerRow := mkIssuer { ir_id : string; ir_certificatePem : string; ir_keyReference : string; ir_active : bool }.
Notation IssuerTable := (gmap string IssuerRow).

Definition ISSUER_NAME : string := "bapc-trust-anchor".

(** [upsertIssuerRow]; [fresh] is [gen_random_uuid()]. *)
Definition upsertIssuerRow (fresh certificatePem keyReference : string) : St IssuerTable string := fun t =>
  match t !! ISSUER_NAME with
  | None => (<[ISSUER_NAME := mkIssuer fresh certificatePem keyReference true]> t, Ok fresh)
  | Some row =>
      if row.(ir_active)
      then (<[ISSUER_NAME := mkIssuer row.(ir_id) certificatePem keyReference true]> t, Ok row.(ir_id))
      else (t, Throw (JsError ("certificate issuer '" +:+ ISSUER_NAME +:+ "' has been deactivated — cannot issue or sign with it")))
  end.

(** ** Self-signed certificates *)

(** A name [parseDn] reads back whole. *)
Definition dn_safe (cn : string) : bool :=
  all_chars (fun c => negb (Ascii.eqb "," c) && negb (Ascii.eqb "=" c)) cn && String.eqb (trim cn) cn.

Lemma parseDn_cn cn : dn_safe cn = true -> parseDn ("CN=" +:+ cn) = [("commonName", Some cn)].
Proof.
  unfold dn_safe. rewrite andb_true_iff. intros [Hc Ht]. bools.
  assert (all_chars (fun c => negb (Ascii.eqb "," c)) cn = true /\ all_chars (fun c => negb (Ascii.eqb "=" c)) cn = true) as [H1 H2].
  { split; (eapply all_chars_impl; [|exact Hc]); cbv beta; intros c; rewrite !andb_true_iff; tauto. }
  unfold parseDn. rewrite split_on_none by (rewrite all_chars_app, H1; done). cbn [map]. unfold first_two.
  change ("CN=" +:+ cn) with ("CN" +:+ String "=" cn). rewrite split_on_line by done. rewrite split_on_none by done.
  cbn [fmap option_fmap option_map]. by rewrite Ht.
Qed.

Section self_signed.
Context (certificateFromPem : string -> res Certificate) (certificateToPem : Certificate -> string).
Context (publicKeyFromPem : string -> res string) (tbsDer : Tbs -> string).

Definition ca_extensions : list (string * string) := [("basicConstraints", "CA:TRUE"); ("keyUsage", "keyCertSign,cRLSign")].

(** [selfSignWithExistingKey]: [publicKey] and [sign] are the key provider's;
    [placeholder] carries the subject into the issuer field. *)
Definition selfSignWithExistingKey (publicKey : res string) (sign : string -> res string) (subjectCn : string) (now : Date)
    (validityDays : Z) : res string :=
  match publicKey with
  | Throw e => Throw e
  | Ok publicKeyPem =>
      match publicKeyFromPem publicKeyPem with
      | Throw e => Throw e
      | Ok key =>
          let notAfter := now + validityDays * 86400000 in
          let placeholder := mkCert (mkTbs "00" key now notAfter [("commonName", Some subjectCn)] []
                               (mkExtensions None None None None)) "" in
          x509_build certificateFromPem certificateToPem publicKeyFromPem tbsDer (certificateToPem placeholder) sign
            {| x_serial := "01"; x_subject := "CN=" +:+ subjectCn; x_publicKeyPem := publicKeyPem;
               x_notBefore := now; x_notAfter := notAfter; x_extensions := ca_extensions |}
      end
  end.

Context {Priv Pub : Type} (public_of : Priv -> Pub) (rsa_sign : Priv -> string -> string).
Context (publicKeyToPem : Pub -> string) (privateKeyToPem : Priv -> string) (privateKeyFromPem : string -> res Priv).

(** [createSelfSignedDevCa] and the export of its key *)
Definition createSelfSignedDevCa (subjectCn keyReference : string) (pair : Priv) (now : Date) : res Anchor :=
  let keys := (key_generate public_of publicKeyToPem keyReference pair ∅).1 in
  match selfSignWithExistingKey (key_public public_of publicKeyToPem keyReference keys)
          (fun tbs => key_sign rsa_sign keyReference RS256 tbs keys) subjectCn now 365 with
  | Throw e => Throw e
  | Ok pem =>
      match exportPrivateKeyPemForDevOnly privateKeyToPem keyReference keys with
      | Ok key => Ok (mkAnchor pem key)
      | Throw e => Throw e
      end
  end.

(** ** [loadTrustAnchor] *)

Inductive AnchorMode := AWS_KMS (kmsKeyId : string) | DEVELOPMENT_SHARED_CA (keys : gmap string Priv).
Record TrustAnchor := mkTrustAnchor {
  ta_mode : AnchorMode; ta_keyReference : string; ta_issuerId : string; ta_certificatePem : string
}.

Definition DEV_SUBJECT : string := "BAPC Development CA - not for production".

Definition on_anchors {A} (m : St AnchorTable A) : St (AnchorTable * IssuerTable) A := fun '(a, i) =>
  let '(a', r) := m a in ((a', i), r).
Definition on_issuers {A} (m : St IssuerTable A) : St (AnchorTable * IssuerTable) A := fun '(a, i) =>
  let '(i', r) := m i in ((a, i'), r).

(** [kms] is the public key and the signer of the configured key; [gen] the pair
    a process without one would generate. *)
Definition loadTrustAnchor (kmsKeyId subject : option string) (kms : string -> res string * (string -> res string))
    (gen : Priv) (fresh : string) (now : Date) : St (AnchorTable * IssuerTable) TrustAnchor :=
  match when_truthy kmsKeyId with
  | Some kmsKeyId =>
      let* pem := lift_res (selfSignWithExistingKey (kms kmsKeyId).1 (kms kmsKeyId).2
                     (default "BAPC Intermediate CA 1" subject) now 365) in
      let* issuerId := on_issuers (upsertIssuerRow fresh pem "intermediate") in
      mret (mkTrustAnchor (AWS_KMS kmsKeyId) "intermediate" issuerId pem)
  | None =>
      let* anchor := on_anchors (loadOrCreate "trust-anchor" DEV_SUBJECT
                       (createSelfSignedDevCa DEV_SUBJECT "trust-anchor" gen now)) in
      let '(keys, r) := importPrivateKeyPem public_of publicKeyToPem privateKeyFromPem "trust-anchor" anchor.(an_privateKeyPem) ∅ in
      lift_res r ;;;
      let* issuerId := on_issuers (upsertIssuerRow fresh anchor.(an_certificatePem) "trust-anchor") in
      mret (mkTrustAnchor (DEVELOPMENT_SHARED_CA keys) "trust-anchor" issuerId anchor.(an_certificatePem))
  end.

(** ** What starting up guarantees *)

(** The certificate is its own issuer, may sign certificates and lists, and is
    signed by its own key. *)
Record self_signed_ca (cn key : string) (sign : string -> res string) (now : Date) (days : Z) (c : Certificate) : Prop := {
  ss_subject : c.(ct_tbs).(tb_subject) = [("commonName", Some cn)];
  ss_issuer : c.(ct_tbs).(tb_issuer) = c.(ct_tbs).(tb_subject);
  ss_key : c.(ct_tbs).(tb_publicKey) = key;
  ss_ca : c.(ct_tbs).(tb_extensions).(ext_cA) = Some true;
  ss_usage : c.(ct_tbs).(tb_extensions).(ext_keyUsage) = Some (mkKeyUsage false false false true true);
  ss_validity : c.(ct_tbs).(tb_notBefore) = now /\ c.(ct_tbs).(tb_notAfter) = now + days * 86400000;
  ss_signature : sign (tbsDer c.(ct_tbs)) = Ok c.(ct_signature)
}.

Lemma selfSign_profile publicKey sign cn now days pem :
  (forall c, certificateFromPem (certificateToPem c) = Ok c) -> dn_safe cn = true ->
  selfSignWithExistingKey publicKey sign cn now days = Ok pem ->
  exists c kp key, pem = certificateToPem c /\ publicKey = Ok kp /\ publicKeyFromPem kp = Ok key /\
    self_signed_ca cn key sign now days c.
Proof.
  intros RT Hcn. unfold selfSignWithExistingKey. destruct publicKey as [kp|]; [|done].
  destruct (publicKeyFromPem kp) as [key|] eqn:K; [|done]. cbv zeta. unfold x509_build. rewrite RT.
  cbn [x_publicKeyPem]. rewrite K. cbv zeta. destruct (sign _) as [sg|] eqn:S; [|done]. intros [= <-].
  eexists _, _, _. split; [done|]. split; [done|]. split; [done|].
  split; try done; cbn [ct_tbs ct_signature tb_subject tb_issuer x_subject]; by rewrite parseDn_cn.
Qed.

Lemma upsert_returns fresh pem ref t t' id :
  upsertIssuerRow fresh pem ref t = (t', Ok id) -> t' !! ISSUER_NAME = Some (mkIssuer id pem ref true) /\
    (forall row, t !! ISSUER_NAME = Some row -> row.(ir_active) = true /\ id = row.(ir_id)).
Proof.
  unfold upsertIssuerRow. destruct (t !! ISSUER_NAME) as [row|] eqn:E; [destruct (ir_active row) eqn:A|];
    intros [= <- <-]; rewrite lookup_insert_eq; split; try done; naive_solver.
Qed.

(** Also: a deactivated issuer stops every process that starts, with KMS or without:
    nothing is returned to sign with and the row stays as it is.  A process that does
    start holds the certificate its issuer row holds, under the row's old identity
    if it had one. *)
Theorem anchor_matches_issuer_row kmsKeyId subject kms gen fresh now a i :
  match loadTrustAnchor kmsKeyId subject kms gen fresh now (a, i) with
  | ((a', i'), Ok ta) =>
      i' !! ISSUER_NAME = Some (mkIssuer ta.(ta_issuerId) ta.(ta_certificatePem) ta.(ta_keyReference) true) /\
      (forall row, i !! ISSUER_NAME = Some row -> row.(ir_active) = true /\ ta.(ta_issuerId) = row.(ir_id))
  | ((a', i'), Throw _) => i' = i
  end.
Proof.
  assert (forall pem ref, match upsertIssuerRow fresh pem ref i with (i', Throw _) => i' = i | _ => True end) as Thr.
  { intros pem ref. unfold upsertIssuerRow. destruct (i !! ISSUER_NAME) as [row|]; [|done]. by destruct (ir_active row). }
  unfold loadTrustAnchor. destruct (when_truthy kmsKeyId) as [k|].
  - unfold mbind, St_bind, lift_res. destruct (selfSignWithExistingKey _ _ _ _ _) as [pem|]; [|done]. cbn.
    specialize (Thr pem "intermediate"). destruct (upsertIssuerRow _ _ _ i) as [i' [id|e]] eqn:U; [|done].
    cbn. by apply upsert_returns in U.
  - unfold mbind, St_bind, on_anchors. destruct (loadOrCreate _ _ _ a) as [a' [an|e]]; [|done].
    destruct (importPrivateKeyPem _ _ _ _ _ _) as [keys r]. unfold lift_res. destruct r as [pk|e]; [|done]. cbn.
    specialize (Thr (an_certificatePem an) "trust-anchor").
    destruct (upsertIssuerRow _ _ _ i) as [i' [id|e]] eqn:U; [|done]. cbn. by apply upsert_returns in U.
Qed.
End self_signed.
