(* ===== verification/Fleet.v ===== *)
(** * Relay and egress processes

    The two processes of the data plane as clients of the control plane:
    [src/src/runtime/relay-server.ts] and [egress-server.ts], with the samplers
    of [src/native/shared/process-metrics.ts].  The requests run the routes of
    [ControlPlane]; whether a request arrives, what the clocks and
    [process.cpuUsage] read, and the router's refusals are inputs.  A tick is
    modelled as one step, so two ticks that overlap because a request takes
    longer than the interval are not. *)

From Stdlib Require Import Lqa Qround.
From S2P Require Import Prelude Json Text Domain Database Repositories Mesh Correlation Rest Config Egress Relay ControlPlane.
Open Scope Z_scope.

(** ** [process-metrics.ts] *)

(** [Math.max] and [Math.min] of two numbers that are not NaN. *)
Definition Qmax_bool (a b : Q) : Q := if Qle_bool a b then b else a.
Definition Qmin_bool (a b : Q) : Q := if Qle_bool a b then a else b.

(** User and system time of the process in microseconds. *)
Record CpuUsage := mkUsage { cu_user : Z; cu_system : Z }.
Record CpuLoadSampler := mkCpu { cs_usage : CpuUsage; cs_time : Z }.

(** [before] and [after] are the readings of the two calls of [cpuUsage]. *)
Definition cpu_sample (before after : CpuUsage) (now : Z) (s : CpuLoadSampler) : CpuLoadSampler * Q :=
  let usage := mkUsage (before.(cu_user) - s.(cs_usage).(cu_user)) (before.(cu_system) - s.(cs_usage).(cu_system)) in
  let elapsedMicros := (inject_Z (now - s.(cs_time)) / 1000)%Q in
  (mkCpu after now,
   if Qle_bool elapsedMicros 0 then 0%Q
   else let cpuMicros := inject_Z (usage.(cu_user) + usage.(cu_system)) in
        Qmin_bool 100 (Qmax_bool 0 (cpuMicros / elapsedMicros * 100))).

Record ThroughputSampler := mkThroughput { tp_total : Z; tp_time : Z }.

Definition throughput_sample (cumulativeBytes now : Z) (s : ThroughputSampler) : ThroughputSampler * Z :=
  let elapsedSeconds := (inject_Z (now - s.(tp_time)) / 1000000000)%Q in
  let delta := Z.max 0 (cumulativeBytes - s.(tp_total)) in
  (mkThroughput cumulativeBytes now,
   if Qle_bool elapsedSeconds 0 then 0 else round (inject_Z delta / elapsedSeconds)).

(** ** Requests to the control plane *)

(** What becomes of a request: it does not arrive, the router refuses it before
    the handler runs (with a status and the message of its error envelope), the handler runs and the answer is lost, or the handler's
    answer arrives. *)
Inductive Delivery := Unreachable | Refused (status : Z) (message : option string) | Lost | Answered.

Definition at_time (t : Date) (a : App) : App :=
  mkApp (set_pg_now t a.(cp_db)) a.(cp_signals) a.(cp_relays) a.(cp_egress) a.(cp_oob).

Definition call_failed (path : string) (status : Z) : exn := JsError (path +:+ " failed (" +:+ str_of_Z status +:+ ")").

(** [call], for a handler that would run at the server's time [t] *)
Definition call (path : string) (d : Delivery) (t : Date) (route : St App unit) : St App unit := fun a =>
  match d with
  | Unreachable => (a, Throw (JsError "fetch failed"))
  | Refused status _ => (a, Throw (call_failed path status))
  | Lost => ((route (at_time t a)).1, Throw (JsError "fetch failed"))
  | Answered =>
      match route (at_time t a) with
      | (a', Ok _) => (a', Ok tt)
      | (a', Throw e) => (a', Throw (call_failed path (asHttpError e).1.1))
      end
  end.

(** What one tick meets: the two deliveries and the server times of the two
    requests, the readings of the process clocks, and the two readings of
    [Date.now()] around the construction of the heartbeat's body. *)
Record TickEnv := mkTick {
  te_register : Delivery; te_register_at : Date; te_heartbeat : Delivery; te_heartbeat_at : Date;
  te_before : CpuUsage; te_after : CpuUsage; te_cpu_now : Z; te_bytes_now : Z;
  te_start : Date; te_sent : Date
}.

(** [Number(process.env.X??500)]; [None] is NaN *)
Definition env_sessions (v : option string) : option Q := match v with Some s => Number s | None => Some 500%Q end.

(** ** [relay-server.ts] *)

(** [capacityMbps] as the route reads it: NaN is sent as null and read as 0. *)
Definition relay_capacity (maxSessions : option Q) : Z :=
  match maxSessions with Some m => Z.max 1 (round (m / 20)) | None => 0 end.

Record RelayConfig := mkRelayConfig { rc_id : string; rc_region : string; rc_endpoint : string; rc_maxSessions : option Q }.

(** The condition under which the process registers itself at all. *)
Definition relay_config (env : Env) : option RelayConfig :=
  let get k := when_truthy (env k) in
  match get "RELAY_ID", get "RELAY_REGION", get "RELAY_PUBLIC_ENDPOINT", get "BAPC_CONTROLLER_URL", get "BAPC_AGENT_TOKEN" with
  | Some id, Some where_, Some endpoint, Some _, Some _ =>
      Some (mkRelayConfig id where_ endpoint (env_sessions (env "RELAY_MAX_SESSIONS")))
  | _, _, _, _, _ => None
  end.

Record RelayProcess := mkRelayProcess { rp_cpu : CpuLoadSampler; rp_bytes : ThroughputSampler; rp_server : RelayServer }.

(** [registerAndHeartbeat]; the samplers are read only once the registration was
    answered, and an error is logged and dropped. *)
Definition relay_tick (c : RelayConfig) (e : TickEnv) (p : RelayProcess) (a : App) : RelayProcess * App :=
  match call "/api/v1/relays/register" e.(te_register) e.(te_register_at)
      (register_relay_route (Some c.(rc_id)) (Some c.(rc_region)) (Some c.(rc_endpoint)) (Some (relay_capacity c.(rc_maxSessions)))) a with
  | (a1, Throw _) => (p, a1)
  | (a1, Ok _) =>
      let activeSessions := Z.of_nat (activeSessionCount p.(rp_server)) in
      let '(cpu, loadPercent) := cpu_sample e.(te_before) e.(te_after) e.(te_cpu_now) p.(rp_cpu) in
      let '(bytes, throughputBytesPerSec) := throughput_sample (totalBytesRelayed p.(rp_server)) e.(te_bytes_now) p.(rp_bytes) in
      let h := {| hb_load := loadPercent; hb_latency := inject_Z (e.(te_sent) - e.(te_start));
                  hb_sessions := activeSessions; hb_throughput := inject_Z throughputBytesPerSec |} in
      (mkRelayProcess cpu bytes p.(rp_server),
       (call "/api/v1/relays/:id/heartbeat" e.(te_heartbeat) e.(te_heartbeat_at) (relay_heartbeat_route c.(rc_id) h) a1).1)
  end.

(** What happens to the process between two ticks is datagrams and sessions. *)
Definition relay_events (es : list RelayEvent) (p : RelayProcess) : RelayProcess :=
  mkRelayProcess p.(rp_cpu) p.(rp_bytes) (foldl (fun r e => relay_step e r) p.(rp_server) es).

Fixpoint relay_process (c : RelayConfig) (ticks : list (list RelayEvent * TickEnv)) (p : RelayProcess) (a : App) : RelayProcess * App :=
  match ticks with
  | [] => (p, a)
  | (es, e) :: rest => let '(p1, a1) := relay_tick c e (relay_events es p) a in relay_process c rest p1 a1
  end.

(** ** [egress-server.ts] *)

(** The policy handed to the proxy: without a list, every destination. *)
Definition egress_policy (allowlistEnv : option string) : string -> Z -> res bool := fun host port =>
  match when_truthy allowlistEnv with
  | None => Ok true
  | Some text =>
      let entries := map trim (split_on "," text) in
      Ok (includes entries host || includes entries (host +:+ ":" +:+ str_of_Z port))
  end.

(** [maxSessions] as the integer column takes it: NaN is sent as null and read
    as 0, and a fraction is refused by the database. *)
Definition egress_sessions (maxSessions : option Q) : option Z :=
  match maxSessions with
  | None => Some 0
  | Some q => if Pos.eqb (Qden (Qred q)) 1 then Some (Qnum (Qred q)) else None
  end.

Record EgressConfig := mkEgressConfig { ec_id : string; ec_region : string; ec_fixedIp : string; ec_maxSessions : option Q }.

Definition egress_config (env : Env) : option EgressConfig :=
  let get k := when_truthy (env k) in
  match get "EGRESS_ID", get "EGRESS_REGION", get "EGRESS_FIXED_IP", get "BAPC_CONTROLLER_URL", get "BAPC_AGENT_TOKEN" with
  | Some id, Some where_, Some ip, Some _, Some _ =>
      Some (mkEgressConfig id where_ ip (env_sessions (env "EGRESS_MAX_SESSIONS")))
  | _, _, _, _, _ => None
  end.

Record EgressProcess := mkEgressProcess { gp_cpu : CpuLoadSampler; gp_proxy : Proxy }.

Definition egress_register_body (c : EgressConfig) : St App unit :=
  match egress_sessions c.(ec_maxSessions) with
  | Some n => register_egress_route (Some c.(ec_id)) (Some c.(ec_region)) (Some c.(ec_fixedIp)) (Some n)
  | None => throw (PgError "22P02")
  end.

Definition egress_tick (c : EgressConfig) (e : TickEnv) (p : EgressProcess) (a : App) : EgressProcess * App :=
  match call "/api/v1/egress/register" e.(te_register) e.(te_register_at) (egress_register_body c) a with
  | (a1, Throw _) => (p, a1)
  | (a1, Ok _) =>
      let activeSessions := p.(gp_proxy).(px_active) in
      let '(cpu, loadPercent) := cpu_sample e.(te_before) e.(te_after) e.(te_cpu_now) p.(gp_cpu) in
      let h := {| eh_load := loadPercent; eh_healthy := true; eh_latency := inject_Z (e.(te_sent) - e.(te_start));
                  eh_sessions := activeSessions |} in
      (mkEgressProcess cpu p.(gp_proxy),
       (call "/api/v1/egress/:id/heartbeat" e.(te_heartbeat) e.(te_heartbeat_at) (egress_heartbeat_route c.(ec_id) h) a1).1)
  end.

Definition egress_events (allowlistEnv : option string) (es : list SocketEvent) (p : EgressProcess) : EgressProcess :=
  mkEgressProcess p.(gp_cpu) (foldl (fun q e => proxy_step (egress_policy allowlistEnv) e q) p.(gp_proxy) es).

Fixpoint egress_process (allowlistEnv : option string) (c : EgressConfig) (ticks : list (list SocketEvent * TickEnv))
    (p : EgressProcess) (a : App) : EgressProcess * App :=
  match ticks with
  | [] => (p, a)
  | (es, e) :: rest =>
      let '(p1, a1) := egress_tick c e (egress_events allowlistEnv es p) a in egress_process allowlistEnv c rest p1 a1
  end.

(** [setInterval(registerAndHeartbeat,30_000)], in both processes *)
Definition HEARTBEAT_INTERVAL : Z := 30000.

(** ** Contact with the control plane *)

(** The last time a tick's requests reached a handler: the heartbeat is sent
    only after an answered registration. *)
Definition tick_contact (e : TickEnv) : option Date :=
  match e.(te_register) with
  | Unreachable | Refused _ _ => None
  | Lost => Some e.(te_register_at)
  | Answered => match e.(te_heartbeat) with Unreachable | Refused _ _ => Some e.(te_register_at) | _ => Some e.(te_heartbeat_at) end
  end.
Definition last_contact {A} (ticks : list (A * TickEnv)) : option Date :=
  foldl (fun acc x => match tick_contact x.2 with Some t => Some t | None => acc end) None ticks.

Lemma last_contact_snoc {A} (ticks : list (A * TickEnv)) x :
  last_contact (ticks ++ [x]) = match tick_contact x.2 with Some t => Some t | None => last_contact ticks end.
Proof. unfold last_contact. by rewrite foldl_app. Qed.

Lemma relay_process_snoc c ticks x p a :
  relay_process c (ticks ++ [x]) p a =
  let '(p1, a1) := relay_process c ticks p a in relay_tick c x.2 (relay_events x.1 p1) a1.
Proof.
  revert p a. induction ticks as [|[es e] ticks IH]; intros p a; simpl.
  - destruct x as [es e]. by destruct (relay_tick _ _ _ _).
  - destruct (relay_tick _ _ _ _) as [p1 a1]. apply IH.
Qed.

Lemma egress_process_snoc l c ticks x p a :
  egress_process l c (ticks ++ [x]) p a =
  let '(p1, a1) := egress_process l c ticks p a in egress_tick c x.2 (egress_events l x.1 p1) a1.
Proof.
  revert p a. induction ticks as [|[es e] ticks IH]; intros p a; simpl.
  - destruct x as [es e]. by destruct (egress_tick _ _ _ _).
  - destruct (egress_tick _ _ _ _) as [p1 a1]. apply IH.
Qed.

Lemma when_truthy_Some o s : when_truthy o = Some s -> s <> "".
Proof.
  unfold when_truthy. destruct o as [x|]; simpl; [|done]. destruct (truthy x) eqn:E; [|done]. intros [= <-]. by apply truthy_spec.
Qed.
Lemma when_truthy_given s : s <> "" -> when_truthy (Some s) = Some s.
Proof. intros H%truthy_spec. unfold when_truthy. simpl. by rewrite H. Qed.

Definition relay_named (c : RelayConfig) : Prop := c.(rc_id) <> "" /\ c.(rc_region) <> "" /\ c.(rc_endpoint) <> "".
Lemma relay_config_named env c : relay_config env = Some c -> relay_named c.
Proof.
  unfold relay_config. intros H. repeat (case_match; try done). simplify_eq/=.
  repeat split; simpl; by eapply when_truthy_Some.
Qed.
Definition egress_named (c : EgressConfig) : Prop :=
  c.(ec_id) <> "" /\ c.(ec_region) <> "" /\ c.(ec_fixedIp) <> "".
Lemma egress_config_named env c : egress_config env = Some c -> egress_named c.
Proof.
  unfold egress_config. intros H. repeat (case_match; try done). simplify_eq/=.
  repeat split; simpl; by eapply when_truthy_Some.
Qed.

Lemma register_relay_run c cap a : relay_named c ->
  register_relay_route (Some c.(rc_id)) (Some c.(rc_region)) (Some c.(rc_endpoint)) cap a =
  (set_relays (relay_insert (pg_now a.(cp_db)) c.(rc_id) c.(rc_region) c.(rc_endpoint) None cap a.(cp_relays)) a, Ok tt).
Proof. intros (H1 & H2 & H3). unfold register_relay_route. by rewrite !when_truthy_given. Qed.
Lemma register_egress_run c cap a : egress_named c ->
  register_egress_route (Some c.(ec_id)) (Some c.(ec_region)) (Some c.(ec_fixedIp)) cap a =
  (set_egress (egress_insert (pg_now a.(cp_db)) c.(ec_id) c.(ec_region) c.(ec_fixedIp) cap a.(cp_egress)) a, Ok tt).
Proof. intros (H1 & H2 & H3). unfold register_egress_route. by rewrite !when_truthy_given. Qed.

(** The row a registered relay has, up to its measurements. *)
Definition relay_row_ok (c : RelayConfig) (t : Date) (row : RelayRow) : Prop :=
  row.(rl_region) = c.(rc_region) /\ row.(rl_endpoint) = c.(rc_endpoint) /\ row.(rl_available) = true /\
  row.(rl_heartbeat) = Some t /\ row.(rl_capacity_mbps) = relay_capacity c.(rc_maxSessions).

Lemma relay_insert_row c now cap t : exists row,
  relay_insert now c.(rc_id) c.(rc_region) c.(rc_endpoint) None (Some cap) t = <[c.(rc_id) := row]> t /\
  row.(rl_region) = c.(rc_region) /\ row.(rl_endpoint) = c.(rc_endpoint) /\ row.(rl_available) = true /\
  row.(rl_heartbeat) = Some now /\ row.(rl_capacity_mbps) = cap /\
  row.(rl_instance) = (t !! c.(rc_id)) ≫= rl_instance.
Proof. unfold relay_insert. destruct (t !! rc_id c) as [old|]; eexists; (split; [reflexivity|done]). Qed.

(** One tick writes this relay's row and no other, exactly when it made contact. *)
Lemma relay_tick_table c e p a : relay_named c ->
  let a' := (relay_tick c e p a).2 in
  match tick_contact e with
  | None => a'.(cp_relays) = a.(cp_relays)
  | Some t => exists row, a'.(cp_relays) = <[c.(rc_id) := row]> a.(cp_relays) /\ relay_row_ok c t row
  end.
Proof.
  intros Hc. unfold relay_tick, call, tick_contact.
  destruct (te_register e) as [|status| |] eqn:Er; [done|done| |]; rewrite (register_relay_run c _ _ Hc); simpl.
  all: destruct (relay_insert_row c (te_register_at e) (relay_capacity (rc_maxSessions c)) (cp_relays a))
      as (row & E & H1 & H2 & H3 & H4 & H5 & _).
  - by exists row.
  - destruct (te_heartbeat e); simpl; rewrite E; [by exists row..| |];
      unfold relay_heartbeat; rewrite alter_insert_eq; eexists; (split; [reflexivity|done]).
Qed.

Lemma elem_of_relay_candidates now t r :
  r ∈ candidates now t <->
  exists id row h, t !! id = Some row /\ r = toHealth id row /\ row.(rl_available) = true /\
    row.(rl_heartbeat) = Some h /\ now - 45000 < h.
Proof.
  unfold candidates. rewrite elem_of_List_map. split.
  - intros ([id row] & -> & H). apply elem_of_List_filter in H as [H Hp]. apply elem_of_map_to_list in H. simpl in *. bools.
    destruct (rl_heartbeat row) as [h|] eqn:Eh; [|done]. bools. by exists id, row, h.
  - intros (id & row & h & H & -> & Ea & Eh & Hh). exists (id, row). split; [done|].
    apply elem_of_List_filter. split; [by apply elem_of_map_to_list|]. simpl. rewrite Ea, Eh. simpl. by apply Z.ltb_lt.
Qed.

Lemma relay_process_table c ticks p a : relay_named c ->
  let a' := (relay_process c ticks p a).2 in
  match last_contact ticks with
  | None => a'.(cp_relays) = a.(cp_relays)
  | Some t => exists row, a'.(cp_relays) = <[c.(rc_id) := row]> a.(cp_relays) /\ relay_row_ok c t row
  end.
Proof.
  intros Hc. induction ticks as [|x ticks IH] using rev_ind; [done|].
  rewrite relay_process_snoc, last_contact_snoc. destruct (relay_process c ticks p a) as [p1 a1]. simpl in *.
  pose proof (relay_tick_table c x.2 (relay_events x.1 p1) a1 Hc) as Ht. simpl in Ht.
  destruct (tick_contact x.2) as [t|]; [|by rewrite Ht].
  destruct Ht as (row & E & Hrow). exists row. split; [|done]. rewrite E.
  destruct (last_contact ticks); [|by rewrite IH]. destruct IH as (row' & -> & _). apply insert_insert_eq.
Qed.

(** Also: A relay process is a routing candidate of the control plane exactly while
    its last contact is less than 45 seconds old.  Whatever ticks failed before and
    however (unreachable, refused, an answer lost, a heartbeat that did not follow
    its registration), the control plane's table holds the relay under its
    configured region, endpoint and capacity with the time of the last request that
    reached a handler; the relay is offered to the router until 45 seconds after
    that, so two ticks 30 seconds apart never leave a gap; no other relay's row is
    touched, and a process that never made contact has changed nothing. *)
Theorem relay_candidate_tracks_contact env c ticks p a :
  relay_config env = Some c ->
  let t' := (relay_process c ticks p a).2.(cp_relays) in
  match last_contact ticks with
  | None => t' = a.(cp_relays)
  | Some t =>
      (forall now, (exists r, r ∈ candidates now t' /\ r.(rh_id) = c.(rc_id)) <-> now < t + 45000) /\
      (forall now r, r ∈ candidates now t' -> r.(rh_id) = c.(rc_id) ->
         r.(rh_region) = c.(rc_region) /\ r.(rh_endpoint) = c.(rc_endpoint) /\ r.(lastHeartbeat) = t) /\
      (forall id, id <> c.(rc_id) -> t' !! id = a.(cp_relays) !! id)
  end.
Proof.
  intros Hc%relay_config_named. pose proof (relay_process_table c ticks p a Hc) as H. simpl in H |- *.
  destruct (last_contact ticks) as [t|]; [|done]. destruct H as (row & -> & H1 & H2 & H3 & H4 & H5). repeat split.
  - intros (r & (id & row' & h & E & -> & Ea & Eh & Hh)%elem_of_relay_candidates & Hid). simpl in Hid. subst id.
    rewrite lookup_insert_eq in E. simplify_eq. lia.
  - intros Hn. exists (toHealth (rc_id c) row). split; [|done]. apply elem_of_relay_candidates.
    exists (rc_id c), row, t. rewrite lookup_insert_eq. repeat split; [done..|lia].
  - by apply elem_of_relay_candidates in H as (id & row' & h & E & -> & _); simpl in *; subst; rewrite lookup_insert_eq in E; simplify_eq.
  - by apply elem_of_relay_candidates in H as (id & row' & h & E & -> & _); simpl in *; subst; rewrite lookup_insert_eq in E; simplify_eq.
  - apply elem_of_relay_candidates in H as (id & row' & h & E & -> & _); simpl in *; subst; rewrite lookup_insert_eq in E; simplify_eq.
    by rewrite H4.
  - intros id Hne. by rewrite lookup_insert_ne.
Qed.

(** ** What a tick reports *)

Lemma clamp_bounds q : (0 <= Qmin_bool 100 (Qmax_bool 0 q) <= 100)%Q.
Proof.
  unfold Qmin_bool, Qmax_bool.
  destruct (Qle_bool 0 q) eqn:E1; (destruct (Qle_bool 100 _) eqn:E2; [apply Qle_bool_iff in E2|]);
    try apply Qle_bool_iff in E1; split; try lra.
  apply Qlt_le_weak, Qnot_le_lt. intros H%Qle_bool_iff. congruence.
Qed.

Lemma cpu_sample_bounds before after now s : (0 <= (cpu_sample before after now s).2 <= 100)%Q.
Proof. unfold cpu_sample. simpl. destruct (Qle_bool _ 0); [lra|]. apply clamp_bounds. Qed.

Lemma round_bounds q : (inject_Z (round q) <= q + (1 # 2) /\ q - (1 # 2) < inject_Z (round q))%Q.
Proof.
  unfold round. split; [apply Qfloor_le|]. pose proof (Qlt_floor (q + (1 # 2))) as H.
  rewrite inject_Z_plus in H. change (inject_Z 1) with 1%Q in H. lra.
Qed.

(** Also: An answered tick leaves in the relay's row what the process measured:
    the sessions the server holds at that moment, a load between 0 and 100 percent
    whatever the clocks and counters read, the server's time, the capacity the
    process is configured with, and the instance a provisioned relay was recorded
    with.  The latency is the time between two readings of the clock that are both
    taken before the request is sent: it does not depend on when the control plane
    handled or answered the request. *)
Theorem relay_report_exact env c e p a :
  relay_config env = Some c -> e.(te_register) = Answered -> e.(te_heartbeat) = Answered ->
  exists row, (relay_tick c e p a).2.(cp_relays) !! c.(rc_id) = Some row /\
    row.(rl_sessions) = Z.of_nat (activeSessionCount p.(rp_server)) /\
    (0 <= row.(rl_load) <= 100)%Q /\
    row.(rl_latency) = inject_Z (e.(te_sent) - e.(te_start)) /\
    row.(rl_heartbeat) = Some e.(te_heartbeat_at) /\
    row.(rl_capacity_mbps) = relay_capacity c.(rc_maxSessions) /\
    row.(rl_instance) = (a.(cp_relays) !! c.(rc_id)) ≫= rl_instance.
Proof.
  intros Hc%relay_config_named Er Eh. unfold relay_tick, call. rewrite Er, Eh, (register_relay_run c _ _ Hc). simpl.
  destruct (relay_insert_row c (te_register_at e) (relay_capacity (rc_maxSessions c)) (cp_relays a))
    as (row & E & H1 & H2 & H3 & H4 & H5 & H6).
  rewrite E. unfold relay_heartbeat. rewrite alter_insert_eq, lookup_insert_eq. eexists. split; [reflexivity|]. simpl.
  pose proof (cpu_sample_bounds (te_before e) (te_after e) (te_cpu_now e) (rp_cpu p)) as Hcpu. by repeat split; try apply Hcpu.
Qed.

(** The rate the sampler reports, over the time it covers, is within half a byte
    per second of the bytes relayed since the last sample. *)
Lemma throughput_sample_error total now s :
  let '(s', rate) := throughput_sample total now s in
  s' = mkThroughput total now /\
  (s.(tp_time) < now -> s.(tp_total) <= total ->
   2 * Z.abs (rate * (now - s.(tp_time)) - (total - s.(tp_total)) * 1000000000) <= now - s.(tp_time)).
Proof.
  unfold throughput_sample. split; [done|]. intros Ht Hd. set (dt := now - tp_time s). assert (0 < dt) as Hdt by (unfold dt; lia).
  assert (0 < inject_Z dt)%Q as Hq by (change 0%Q with (inject_Z 0); by rewrite <- Zlt_Qlt).
  destruct (Qle_bool (inject_Z dt / 1000000000) 0) eqn:E.
  { apply Qle_bool_iff in E. exfalso. assert (0 < inject_Z dt / 1000000000)%Q by (apply Qlt_shift_div_l; lra). lra. }
  rewrite Z.max_r by lia. set (d := total - tp_total s).
  destruct (round_bounds (inject_Z d / (inject_Z dt / 1000000000))) as [H1 H2].
  assert (inject_Z d / (inject_Z dt / 1000000000) == inject_Z (d * 1000000000) / inject_Z dt)%Q as Eq.
  { rewrite inject_Z_mult. change (inject_Z 1000000000) with 1000000000%Q. field. lra. }
  set (r := round (inject_Z d / (inject_Z dt / 1000000000))) in *. setoid_rewrite Eq in H1. setoid_rewrite Eq in H2.
  clearbody r d dt.
  assert (forall q, q == inject_Z (d * 1000000000) / inject_Z dt -> q * inject_Z dt == inject_Z (d * 1000000000))%Q as Hm.
  { intros q ->. field. lra. }
  set (q := (inject_Z (d * 1000000000) / inject_Z dt)%Q) in *. specialize (Hm q ltac:(reflexivity)).
  assert (inject_Z (2 * (r * dt - d * 1000000000)) <= inject_Z dt /\ - inject_Z dt <= inject_Z (2 * (r * dt - d * 1000000000)))%Q as [Ha Hb].
  { rewrite inject_Z_mult. unfold Zminus. rewrite inject_Z_plus, inject_Z_mult, inject_Z_opp, <- Hm.
    change (inject_Z 2) with 2%Q. split; nra. }
  rewrite <- inject_Z_opp, <- Zle_Qle in Hb. rewrite <- Zle_Qle in Ha. lia.
Qed.

(** Also: The capacity a relay reports is its session limit in units of twenty
    sessions: from ten sessions up, the limit the control plane computes from it is
    within ten of the configured one; below ten it is twenty, more than the relay
    was configured for; and a limit that is not a number is reported as capacity 0,
    for which the control plane computes a utilisation of 0 percent however many
    sessions the relay holds. *)
Theorem relay_capacity_bounds m :
  let limit := inject_Z (relay_capacity (Some m) * 20) in
  ((10 <= m)%Q -> (m - 10 <= limit <= m + 10)%Q) /\
  ((m < 10)%Q -> limit = 20%Q) /\
  forall id row, row.(rl_capacity_mbps) = relay_capacity None -> (toHealth id row).(capacityPercent) = 0%Q.
Proof.
  simpl. destruct (round_bounds (m / 20)) as [H1 H2].
  assert (m == m / 20 * 20)%Q as Em by field.
  set (r := round (m / 20)) in *. clearbody r. set (q := (m / 20)%Q) in *. clearbody q.
  assert (forall z, inject_Z (z * 20) == inject_Z z * 20)%Q as Ez by (intros; by rewrite inject_Z_mult).
  assert (forall k, (inject_Z k < 1)%Q -> k <= 0) as Hk by (intros k Hk; change 1%Q with (inject_Z 1) in Hk; rewrite <- Zlt_Qlt in Hk; lia).
  assert (forall k, (0 < inject_Z k)%Q -> 1 <= k) as Hk' by (intros k Hk0; change 0%Q with (inject_Z 0) in Hk0; rewrite <- Zlt_Qlt in Hk0; lia).
  repeat split.
  - rewrite Z.max_r; [rewrite Ez; lra|]. apply Hk'. lra.
  - rewrite Z.max_r; [rewrite Ez; lra|]. apply Hk'. lra.
  - intros Hm. rewrite Z.max_l; [done|]. enough (r <= 0) by lia. apply Hk. lra.
  - intros id row E. unfold toHealth. simpl. by rewrite E.
Qed.

(** ** The egress gateway *)

Definition gateway_row_ok (c : EgressConfig) (t : Date) (row : GatewayRow) : Prop :=
  row.(gr_region) = c.(ec_region) /\ row.(gr_fixedIp) = c.(ec_fixedIp) /\ row.(gr_healthy) = true /\ row.(gr_state) = "ACTIVE" /\
  row.(gr_heartbeat) = Some t.
(** The gateway's state is not one an operator took it out of service with. *)
Definition in_service (id : string) (t : EgressTable) : Prop := forall row, t !! id = Some row -> row.(gr_state) = "ACTIVE".

Lemma egress_insert_row c now cap t : in_service c.(ec_id) t -> exists row,
  egress_insert now c.(ec_id) c.(ec_region) c.(ec_fixedIp) (Some cap) t = <[c.(ec_id) := row]> t /\ gateway_row_ok c now row.
Proof.
  intros Hs. unfold egress_insert, in_service in *. destruct (t !! ec_id c) as [old|]; eexists; (split; [reflexivity|]); [|done].
  repeat split; try done. simpl. by apply (Hs old).
Qed.

Lemma egress_tick_table c n e p a : egress_named c -> egress_sessions c.(ec_maxSessions) = Some n -> in_service c.(ec_id) a.(cp_egress) ->
  let a' := (egress_tick c e p a).2 in
  match tick_contact e with
  | None => a'.(cp_egress) = a.(cp_egress)
  | Some t => exists row, a'.(cp_egress) = <[c.(ec_id) := row]> a.(cp_egress) /\ gateway_row_ok c t row
  end.
Proof.
  intros Hc Hn Hs. unfold egress_tick, call, tick_contact, egress_register_body. rewrite Hn.
  destruct (te_register e) as [|status| |] eqn:Er; [done|done| |]; rewrite (register_egress_run c _ _ Hc); simpl.
  all: destruct (egress_insert_row c (te_register_at e) n (cp_egress a) Hs) as (row & E & H).
  - by exists row.
  - destruct (te_heartbeat e); simpl; rewrite E; [by exists row..| |]; destruct H as (H1 & H2 & H3 & H4 & H5);
      unfold egress_heartbeat; rewrite alter_insert_eq; eexists; (split; [reflexivity|done]).
Qed.

Lemma egress_process_table l c n ticks p a :
  egress_named c -> egress_sessions c.(ec_maxSessions) = Some n -> in_service c.(ec_id) a.(cp_egress) ->
  let a' := (egress_process l c ticks p a).2 in
  match last_contact ticks with
  | None => a'.(cp_egress) = a.(cp_egress)
  | Some t => exists row, a'.(cp_egress) = <[c.(ec_id) := row]> a.(cp_egress) /\ gateway_row_ok c t row
  end.
Proof.
  intros Hc Hn Hs. induction ticks as [|x ticks IH] using rev_ind; [done|].
  rewrite egress_process_snoc, last_contact_snoc. destruct (egress_process l c ticks p a) as [p1 a1]. simpl in *.
  assert (in_service (ec_id c) (cp_egress a1)) as Hs1.
  { destruct (last_contact ticks) as [t|]; [|by rewrite IH]. destruct IH as (row & -> & H). intros row'.
    rewrite lookup_insert_eq. intros [= <-]. apply H. }
  pose proof (egress_tick_table c n x.2 (egress_events l x.1 p1) a1 Hc Hn Hs1) as Ht. simpl in Ht.
  destruct (tick_contact x.2) as [t|]; [|by rewrite Ht].
  destruct Ht as (row & E & Hrow). exists row. split; [|done]. rewrite E.
  destruct (last_contact ticks); [|by rewrite IH]. destruct IH as (row' & -> & _). apply insert_insert_eq.
Qed.

(** Also: An egress gateway is offered to agents exactly while its last contact is
    less than 30 seconds old, which is also the interval between its ticks.  So
    unlike a relay it has no margin: once a full interval has passed since a
    gateway's last contact it is no candidate, and when it is the only gateway the
    control plane refuses every agent that asks for one, for every region, until the
    next tick arrives. *)
Theorem egress_interval_has_no_margin env allowlist c n ticks p a t :
  egress_config env = Some c -> egress_sessions c.(ec_maxSessions) = Some n -> in_service c.(ec_id) a.(cp_egress) ->
  last_contact ticks = Some t ->
  let t' := (egress_process allowlist c ticks p a).2.(cp_egress) in
  (forall now, (exists g, g ∈ egress_candidates now t' /\ g.(eg_id) = c.(ec_id)) <-> now < t + HEARTBEAT_INTERVAL) /\
  (delete c.(ec_id) a.(cp_egress) = ∅ ->
   forall now region, t + HEARTBEAT_INTERVAL <= now ->
     select_route now region t' = Throw (HttpError 503 "no healthy egress gateway is currently registered" "not_configured")).
Proof.
  intros Hc%egress_config_named Hn Hs Hl. pose proof (egress_process_table allowlist c n ticks p a Hc Hn Hs) as H.
  rewrite Hl in H. simpl in H |- *. destruct H as (row & -> & H1 & H2 & H3 & H4 & H5). unfold HEARTBEAT_INTERVAL.
  assert (forall now g, g ∈ egress_candidates now (<[ec_id c := row]> (cp_egress a)) -> eg_id g = ec_id c -> now < t + 30000) as Hfresh.
  { intros now g (id & row' & h & E & -> & Ea & Eh & Hh)%elem_of_candidates Hid. simpl in Hid. subst id.
    rewrite lookup_insert_eq in E. simplify_eq. lia. }
  split.
  - intros now. split; [intros (g & Hg & Hid); eauto|]. intros Hlt. exists (toGateway (ec_id c) row). split; [|done].
    apply elem_of_candidates. exists (ec_id c), row, t. rewrite lookup_insert_eq. repeat split; [done..|lia].
  - intros Hd now region Hlate. unfold select_route. pose proof (egress_select_spec (egress_candidates now (<[ec_id c := row]> (cp_egress a)))
      (default "" region) now) as Hsel.
    destruct (egress_select _ _ _) as [g|e]; [|done]. destruct Hsel as (Hg & _). exfalso.
    destruct (proj1 (elem_of_candidates _ _ _) Hg) as (id & row' & h & E & Eg & _).
    assert (id = ec_id c) as ->.
    { destruct (decide (id = ec_id c)) as [|Hne]; [done|]. rewrite <- insert_delete_eq, Hd, lookup_insert_ne in E by done.
      by rewrite lookup_empty in E. }
    specialize (Hfresh now g Hg ltac:(by subst)). lia.
Qed.

(** Also: With an allowlist, the gateway opens and pipes connections only to listed
    destinations: after any sequence of socket events, the host of every connection
    being opened or in use is an entry of [EGRESS_ALLOWLIST], or its host and port
    are.  Without the variable, or with an empty one, every destination is allowed. *)
Theorem allowlist_confines env es :
  let p := proxy_run (egress_policy (env "EGRESS_ALLOWLIST")) es in
  match when_truthy (env "EGRESS_ALLOWLIST") with
  | Some text => forall id c h q, p.(px_conns) !! id = Some c -> target c.(cn_stage) = Some (h, q) ->
      exists entry, entry ∈ split_on "," text /\ (trim entry = h \/ trim entry = h +:+ ":" +:+ str_of_Z q)
  | None => forall h q, egress_policy (env "EGRESS_ALLOWLIST") h q = Ok true
  end.
Proof.
  simpl. destruct (when_truthy (env "EGRESS_ALLOWLIST")) as [text|] eqn:E.
  - intros id c h q Hc Ht. pose proof (targets_allowed _ _ (proxy_run_ok (egress_policy (env "EGRESS_ALLOWLIST")) es) id c h q Hc Ht) as H.
    unfold egress_policy in H. rewrite E in H. injection H as H.
    apply orb_true_iff in H as [H|H]; apply includes_spec, elem_of_List_map in H as (entry & -> & Hin); eauto.
  - intros h q. unfold egress_policy. by rewrite E.
Qed.

(** ** The theorems applied *)

Definition sample_fleet_env : Env := fun k =>
  if String.eqb k "RELAY_ID" || String.eqb k "EGRESS_ID" then Some "edge-1"
  else if String.eqb k "RELAY_REGION" || String.eqb k "EGRESS_REGION" then Some "eu"
  else if String.eqb k "RELAY_PUBLIC_ENDPOINT" || String.eqb k "EGRESS_FIXED_IP" then Some "203.0.113.7"
  else if String.eqb k "BAPC_CONTROLLER_URL" then Some "https://control"
  else if String.eqb k "BAPC_AGENT_TOKEN" then Some "token"
  else None.
Definition sample_tick (r h : Delivery) (t : Date) : TickEnv :=
  mkTick r t h (t + 40) (mkUsage 500 100) (mkUsage 501 100) 2000000 2000000 (t + 10) (t + 10).
Definition sample_relay : RelayProcess := mkRelayProcess (mkCpu (mkUsage 0 0) 0) (mkThroughput 0 0) relay_start.
Definition sample_gateway : EgressProcess := mkEgressProcess (mkCpu (mkUsage 0 0) 0) proxy_start.
Definition sample_relay_config : RelayConfig := mkRelayConfig "edge-1" "eu" "203.0.113.7" (Some 500%Q).
Definition sample_egress_config : EgressConfig := mkEgressConfig "edge-1" "eu" "203.0.113.7" (Some 500%Q).
Definition sample_relay_ticks : list (list RelayEvent * TickEnv) :=
  [([], sample_tick Unreachable Unreachable 0); ([], sample_tick Answered Answered 30000); ([], sample_tick Answered (Refused 429 (Some "rate limit exceeded")) 60000)].

Lemma relay_candidate_tracks_contact_witness :
  exists r, r ∈ candidates 104999 (relay_process sample_relay_config sample_relay_ticks sample_relay empty_app).2.(cp_relays) /\
    r.(rh_id) = "edge-1".
Proof.
  pose proof (relay_candidate_tracks_contact sample_fleet_env sample_relay_config sample_relay_ticks sample_relay empty_app eq_refl) as H.
  destruct H as [H _]. apply H. vm_compute. reflexivity.
Defined.

Lemma relay_report_exact_witness :
  exists row, (relay_tick sample_relay_config (sample_tick Answered Answered 30000) sample_relay empty_app).2.(cp_relays) !! "edge-1" = Some row /\
    row.(rl_latency) = 0%Q.
Proof.
  destruct (relay_report_exact sample_fleet_env sample_relay_config (sample_tick Answered Answered 30000) sample_relay empty_app
    eq_refl eq_refl eq_refl) as (row & H & _ & _ & Hl & _).
  exists row. split; [exact H|]. rewrite Hl. reflexivity.
Defined.

Lemma egress_interval_has_no_margin_witness :
  select_route 60040 (Some "eu") (egress_process None sample_egress_config [([], sample_tick Answered Answered 30000)] sample_gateway empty_app).2.(cp_egress)
  = Throw (HttpError 503 "no healthy egress gateway is currently registered" "not_configured").
Proof.
  apply (egress_interval_has_no_margin sample_fleet_env None sample_egress_config 500 [([], sample_tick Answered Answered 30000)]
    sample_gateway empty_app 30040); try reflexivity.
  intros row H. vm_compute in H. discriminate.
Defined.
