(* ===== verification/EnvFile.v ===== *)
(** * The agent's environment file

    [upsertEnvLine] of [src/src/runtime/enroll.ts]: a line [KEY=VALUE] is put
    into the file systemd reads the agent's environment from.  The regular
    expression [^KEY=.*$] with the flag [m] is read by its meaning: the first
    line, between carriage returns and line feeds, that starts with [KEY=]; the
    key has no characters of the pattern language.  The replacement text has the
    meaning [String.prototype.replace] gives its dollar signs. *)

From S2P Require Import Prelude Json Text Domain Words.
Open Scope Z_scope.

Definition is_eol (c : ascii) : bool := Ascii.eqb c newline || Ascii.eqb c (ascii_of_nat 13).

(** The text up to the end of its first line, and the rest. *)
Fixpoint span_line (s : string) : string * string :=
  match s with
  | EmptyString => ("", "")
  | String c s' => if is_eol c then ("", s) else let '(l, r) := span_line s' in (String c l, r)
  end.

(** The first match of [^p.*$]: what is before it, the match, what follows;
    [bol] says that the text starts a line. *)
Fixpoint find_line (p : string) (bol : bool) (s : string) : option (string * string * string) :=
  if bol && String.prefix p s then let '(m, r) := span_line s in Some ("", m, r)
  else match s with
  | EmptyString => None
  | String c s' => (fun '(b, m, r) => (String c b, m, r)) <$> find_line p (is_eol c) s'
  end.

(** The replacement template, for a pattern without groups. *)
Fixpoint expand (before matched after : string) (t : string) : string :=
  match t with
  | EmptyString => ""
  | String c t' =>
      match t' with
      | String d t'' =>
          if Ascii.eqb c "$" then
            if Ascii.eqb d "$" then String "$" (expand before matched after t'')
            else if Ascii.eqb d "&" then matched +:+ expand before matched after t''
            else if Ascii.eqb d "`" then before +:+ expand before matched after t''
            else if Ascii.eqb d "'" then after +:+ expand before matched after t''
            else String c (expand before matched after t')
          else String c (expand before matched after t')
      | EmptyString => t
      end
  end.

(** [s.replace(/^\n+/,"")] *)
Fixpoint strip_newlines (s : string) : string :=
  match s with String c s' => if Ascii.eqb c newline then strip_newlines s' else s | EmptyString => "" end.

(** The file's new content; [existing] is empty when there is no file. *)
Definition upsertEnvLine (key value existing : string) : string :=
  let line := key +:+ "=" +:+ value in
  let updated := match find_line (key +:+ "=") true existing with
    | Some (before, matched, after) => before +:+ expand before matched after line +:+ after
    | None => trim_end existing +:+ nl +:+ line +:+ nl
    end in
  strip_newlines updated.

(** ** Reading the file back *)

Fixpoint drop_chars (n : nat) (s : string) : string :=
  match n, s with S n', String _ s' => drop_chars n' s' | O, _ => s | _, _ => "" end.

(** The first line that assigns [key], and the value it gives. *)
Definition assigned (p : string) (bol : bool) (s : string) : option string := (fun '(_, m, _) => m) <$> find_line p bol s.
Definition env_value (key s : string) : option string :=
  drop_chars (String.length key + 1) <$> assigned (key +:+ "=") true s.

(** What may stand left of the equals sign, and right of it. *)
Definition env_key (k : string) : bool := truthy k && all_chars (fun c => negb (is_eol c) && negb (Ascii.eqb c "=") && negb (Ascii.eqb c "$")) k.
Definition env_text (v : string) : bool := all_chars (fun c => negb (is_eol c) && negb (Ascii.eqb c "$")) v.

Definition on_one_line (s : string) : bool := all_chars (fun c => negb (is_eol c)) s.
Definition ends_line (r : string) : bool := match r with EmptyString => true | String c _ => is_eol c end.

Lemma span_line_app l r : on_one_line l = true -> ends_line r = true -> span_line (l +:+ r) = (l, r).
Proof.
  intros Hl Hr. induction l as [|c l IH].
  - change ("" +:+ r) with r. destruct r as [|c r]; [done|]. simpl in *. by rewrite Hr.
  - rewrite app_cons_s. cbn [on_one_line all_chars] in Hl. apply andb_true_iff in Hl as [Hc Hl].
    cbn [span_line]. apply negb_true_iff in Hc as ->. by rewrite IH.
Qed.

Lemma span_line_spec s : s = (span_line s).1 +:+ (span_line s).2 /\ on_one_line (span_line s).1 = true /\ ends_line (span_line s).2 = true.
Proof.
  induction s as [|c s IH]; [done|]. cbn [span_line]. destruct (is_eol c) eqn:E; [by rewrite app_nil_s|].
  destruct (span_line s) as [l r]. destruct IH as (-> & Hl & Hr). simpl in Hl, Hr |- *.
  rewrite app_cons_s. split_and!; [done| |done]. unfold on_one_line in *. cbn [all_chars]. by rewrite E.
Qed.

Lemma prefix_app p t : String.prefix p (p +:+ t) = true.
Proof. induction p as [|c p IH]; [by destruct t|]. rewrite app_cons_s. simpl. by destruct (Ascii.ascii_dec c c). Qed.
Lemma prefix_inv p s : String.prefix p s = true -> exists t, s = p +:+ t.
Proof.
  revert s. induction p as [|c p IH]; intros s H; [by exists s|]. destruct s as [|d s]; [done|]. simpl in H.
  destruct (Ascii.ascii_dec c d) as [->|]; [|done]. destruct (IH s H) as [t ->]. exists t. by rewrite app_cons_s.
Qed.

Lemma find_line_spec p bol s b m r : find_line p bol s = Some (b, m, r) ->
  s = b +:+ m +:+ r /\ on_one_line m = true /\ ends_line r = true /\ (p <> "" -> on_one_line p = true -> String.prefix p m = true).
Proof.
  revert bol b. induction s as [|c s IH]; intros bol b.
  - cbn [find_line]. destruct (bol && String.prefix p "") eqn:E; [|done]. intros [= <- <- <-]. split_and!; try done.
    apply andb_true_iff in E as [_ E]. by destruct p.
  - cbn [find_line]. destruct (bol && String.prefix p (String c s)) eqn:E.
    + destruct (span_line (String c s)) as [l q] eqn:El. intros [= <- <- <-].
      destruct (span_line_spec (String c s)) as (Es & Hl & Hr). rewrite El in *. simpl in Es, Hl, Hr. split_and!; [done..|].
      intros _ Hp. apply andb_true_iff in E as [_ E]. apply prefix_inv in E as [t E].
      assert (span_line (p +:+ t) = (p +:+ (span_line t).1, (span_line t).2)) as Ep.
      { destruct (span_line_spec t) as (Et & Ht1 & Ht2). rewrite Et at 1. rewrite <- app_assoc_s. apply span_line_app; [|done].
        unfold on_one_line in *. by rewrite all_chars_app, Hp, Ht1. }
      rewrite E, Ep in El. injection El as <- _. apply prefix_app.
    + destruct (find_line p (is_eol c) s) as [[[b' m'] r']|] eqn:Ef; [|done]. intros [= <- <- <-].
      destruct (IH _ _ Ef) as (-> & H). by rewrite app_cons_s.
Qed.

(** *** Texts by their lines *)

Lemma line_ind (P : string -> Prop) :
  (forall x, on_one_line x = true -> P x) ->
  (forall x e y, on_one_line x = true -> is_eol e = true -> P y -> P (x +:+ String e y)) -> forall s, P s.
Proof.
  intros H1 H2 s. remember (String.length s) as n eqn:En. revert s En.
  induction n as [n IH] using (well_founded_induction lt_wf). intros s ->.
  destruct (span_line_spec s) as (Es & Hl & Hr). destruct (span_line s) as [x r]. simpl in *. subst s.
  destruct r as [|e y]; [rewrite app_nil_r_s; by apply H1|].
  apply H2; [done..|]. eapply IH; [|done]. rewrite length_app_s. simpl. lia.
Qed.

Lemma prefix_one_line p x e y : on_one_line p = true -> is_eol e = true ->
  String.prefix p (x +:+ String e y) = String.prefix p x.
Proof.
  intros Hp He. revert x. induction p as [|c p IH]; intros x; [by destruct x; destruct (_ +:+ _)|].
  cbn [on_one_line all_chars] in Hp. apply andb_true_iff in Hp as [Hc Hp].
  destruct x as [|d x]; [rewrite app_nil_s|rewrite app_cons_s]; simpl.
  - destruct (Ascii.ascii_dec c e) as [->|]; [|done]. by rewrite He in Hc.
  - destruct (Ascii.ascii_dec c d); [|done]. by apply IH.
Qed.

Lemma find_line_skip p l r : on_one_line l = true ->
  find_line p false (l +:+ r) = (fun '(b, m, q) => (l +:+ b, m, q)) <$> find_line p false r.
Proof.
  intros Hl. induction l as [|c l IH].
  - rewrite app_nil_s. destruct (find_line p false r) as [[[b m] q]|]; simpl; [by rewrite app_nil_s|done].
  - cbn [on_one_line all_chars] in Hl. apply andb_true_iff in Hl as [Hc%negb_true_iff Hl]. rewrite app_cons_s.
    cbn [find_line andb]. rewrite Hc, (IH Hl). destruct (find_line p false r) as [[[b m] q]|]; [|done]. simpl. by rewrite app_cons_s.
Qed.

Lemma find_line_hit p s : String.prefix p s = true ->
  find_line p true s = let '(m, r) := span_line s in Some ("", m, r).
Proof. intros H. destruct s; cbn [find_line andb]; by rewrite H. Qed.
Lemma find_line_miss p s : String.prefix p s = false -> find_line p true s = find_line p false s.
Proof. intros H. destruct s; cbn [find_line andb]; by rewrite H. Qed.

Lemma find_line_last p x : on_one_line x = true ->
  find_line p true x = if String.prefix p x then Some ("", x, "") else None.
Proof.
  intros Hx. destruct (String.prefix p x) eqn:E.
  - rewrite (find_line_hit _ _ E), <- (app_nil_r_s x). rewrite span_line_app by done. by rewrite app_nil_r_s.
  - rewrite (find_line_miss _ _ E), <- (app_nil_r_s x), find_line_skip by done. done.
Qed.

Lemma find_line_cons p x e y : on_one_line p = true -> on_one_line x = true -> is_eol e = true ->
  find_line p true (x +:+ String e y) =
  if String.prefix p x then Some ("", x, String e y)
  else (fun '(b, m, r) => (x +:+ String e b, m, r)) <$> find_line p true y.
Proof.
  intros Hp Hx He. pose proof (prefix_one_line p x e y Hp He) as Ep. destruct (String.prefix p x) eqn:E.
  - rewrite (find_line_hit _ _ Ep), span_line_app by done. done.
  - rewrite (find_line_miss _ _ Ep), find_line_skip by done. cbn [find_line andb]. rewrite He.
    by destruct (find_line p true y) as [[[b m] r]|].
Qed.

Lemma assigned_last p x : on_one_line x = true -> assigned p true x = if String.prefix p x then Some x else None.
Proof. intros Hx. unfold assigned. rewrite find_line_last by done. by destruct (String.prefix p x). Qed.
Lemma assigned_cons p x e y : on_one_line p = true -> on_one_line x = true -> is_eol e = true ->
  assigned p true (x +:+ String e y) = if String.prefix p x then Some x else assigned p true y.
Proof.
  intros Hp Hx He. unfold assigned. rewrite find_line_cons by done. destruct (String.prefix p x); [done|].
  by destruct (find_line p true y) as [[[b m] r]|].
Qed.

(** *** Keys *)

Definition key_eq (k : string) : string := k +:+ "=".

Lemma env_key_line k : env_key k = true -> on_one_line (key_eq k) = true.
Proof.
  unfold env_key, on_one_line, key_eq. intros [_ H]%andb_true_iff. rewrite all_chars_app. apply andb_true_iff. split; [|done].
  eapply all_chars_impl; [|exact H]. simpl. intros c Hc. by bools.
Qed.

Lemma key_eq_inj k k' s : env_key k = true -> env_key k' = true ->
  String.prefix (key_eq k) s = true -> String.prefix (key_eq k') s = true -> k = k'.
Proof.
  unfold env_key, key_eq. intros [_ H]%andb_true_iff [_ H']%andb_true_iff [t ->]%prefix_inv [t' E]%prefix_inv.
  rewrite !app_assoc_s in E. revert k' H' E. induction k as [|c k IH]; intros [|c' k'] H' E; [done|..].
  - rewrite app_nil_s, app_cons_s in E. injection E as <- _. cbn in H'. discriminate.
  - rewrite app_nil_s, app_cons_s in E. injection E as -> _. cbn in H. discriminate.
  - rewrite !app_cons_s in E. injection E as <- E. cbn [all_chars] in H, H'.
    apply andb_true_iff in H as [_ H]. apply andb_true_iff in H' as [_ H']. f_equal. by apply IH.
Qed.

Lemma other_key k k' s : env_key k = true -> env_key k' = true -> k <> k' ->
  String.prefix (key_eq k) s = true -> String.prefix (key_eq k') s = false.
Proof.
  intros Hk Hk' Hne H. destruct (String.prefix (key_eq k') s) eqn:E; [|done]. exfalso. by apply Hne, (key_eq_inj k k' s).
Qed.

(** Replacing the line that assigns one key changes no other. *)
Lemma assigned_replaced k k' line s b m r : env_key k = true -> env_key k' = true -> k <> k' ->
  on_one_line line = true -> String.prefix (key_eq k) line = true ->
  find_line (key_eq k) true s = Some (b, m, r) ->
  assigned (key_eq k') true (b +:+ line +:+ r) = assigned (key_eq k') true s.
Proof.
  intros Hk Hk' Hne Hl Hp. pose proof (env_key_line k Hk) as Lk. pose proof (env_key_line k' Hk') as Lk'.
  assert (forall x, String.prefix (key_eq k) x = true -> String.prefix (key_eq k') x = false) as Ho by eauto using other_key.
  revert b. induction s as [x Hx|x e y Hx He IH] using line_ind; intros b.
  - rewrite find_line_last by done. destruct (String.prefix (key_eq k) x) eqn:E; [|done]. intros [= <- <- <-].
    rewrite app_nil_s, app_nil_r_s, !assigned_last by done. by rewrite !Ho.
  - rewrite find_line_cons by done. destruct (String.prefix (key_eq k) x) eqn:E.
    + intros [= <- <- <-]. rewrite app_nil_s, !assigned_cons by done. by rewrite !Ho.
    + destruct (find_line (key_eq k) true y) as [[[b' m'] r']|]; [|done]. intros [= <- <- <-].
      rewrite app_assoc_s, app_cons_s, !assigned_cons by done. by rewrite (IH b').
Qed.

(** *** Trimming, appending, stripping *)

Lemma trim_end_split a b : trim_end (a +:+ b) = if truthy (trim_end b) then a +:+ trim_end b else trim_end a.
Proof.
  induction a as [|c a IH]; [rewrite !app_nil_s; by destruct (trim_end b)|].
  rewrite !app_cons_s. cbn [trim_end]. rewrite IH. destruct (truthy (trim_end b)) eqn:E; [|done].
  destruct (a +:+ trim_end b) eqn:Ea; [|done]. destruct a; [rewrite app_nil_s in Ea; by rewrite Ea in E|done].
Qed.

Lemma trim_end_rest s : exists w, s = trim_end s +:+ w.
Proof.
  induction s as [|c s [w Hw]]; [by exists ""|]. cbn [trim_end]. destruct (trim_end s) as [|d t] eqn:E.
  - destruct (is_space c); [by exists (String c s)|]. exists s. done.
  - exists w. rewrite app_cons_s. by f_equal.
Qed.

Lemma trim_end_idem s : trim_end (trim_end s) = trim_end s.
Proof.
  induction s as [|c s IH]; [done|]. cbn [trim_end]. destruct (trim_end s) as [|d t] eqn:E.
  - destruct (is_space c) eqn:Ec; [done|]. cbn [trim_end]. by rewrite Ec.
  - cbn [trim_end] in IH |- *. by rewrite IH.
Qed.

Lemma trim_end_key k v : trim_end (key_eq k +:+ v) = key_eq k +:+ trim_end v.
Proof.
  rewrite trim_end_split. destruct (trim_end v) as [|c t] eqn:E; [|done]. simpl.
  rewrite app_nil_r_s. unfold key_eq. by apply trim_end_app.
Qed.

Lemma one_line_trim x : on_one_line x = true -> on_one_line (trim_end x) = true.
Proof.
  intros H. destruct (trim_end_rest x) as [w E]. unfold on_one_line in *. rewrite E, all_chars_app in H. by bools.
Qed.

Lemma prefix_trim k x : String.prefix (key_eq k) (trim_end x) = String.prefix (key_eq k) x.
Proof.
  apply eq_bool_prop_intro. split; intros H%Is_true_true; apply Is_true_true; apply prefix_inv in H as [t H].
  - destruct (trim_end_rest x) as [w E]. rewrite E, H, app_assoc_s. apply prefix_app.
  - rewrite H, trim_end_key. apply prefix_app.
Qed.

Lemma eol_space e : is_eol e = true -> is_space e = true.
Proof. unfold is_eol. intros [H|H]%orb_true_iff; by apply Ascii.eqb_eq in H as ->. Qed.

(** Trimming a text changes at most the white space at the end of a value. *)
Lemma assigned_trim k s : env_key k = true ->
  trim_end <$> assigned (key_eq k) true (trim_end s) = trim_end <$> assigned (key_eq k) true s.
Proof.
  intros Hk%env_key_line. induction s as [x Hx|x e y Hx He IH] using line_ind.
  - rewrite !assigned_last, prefix_trim by eauto using one_line_trim. destruct (String.prefix _ x); [|done]. simpl. by rewrite trim_end_idem.
  - rewrite trim_end_split. cbn [trim_end]. destruct (trim_end y) as [|c t] eqn:Ey.
    + rewrite (eol_space e He). cbn [truthy String.eqb negb].
      rewrite assigned_last, assigned_cons, prefix_trim by eauto using one_line_trim.
      destruct (String.prefix (key_eq k) x); simpl; [by rewrite trim_end_idem|].
      rewrite <- IH. rewrite assigned_last by done. by destruct k.
    + cbn [truthy String.eqb negb]. rewrite !assigned_cons by done. destruct (String.prefix (key_eq k) x); [done|]. exact IH.
Qed.

Lemma assigned_append k t e y : env_key k = true -> is_eol e = true ->
  assigned (key_eq k) true (t +:+ String e y) =
  match assigned (key_eq k) true t with Some m => Some m | None => assigned (key_eq k) true y end.
Proof.
  intros Hk%env_key_line He. induction t as [x Hx|x e' z Hx He' IH] using line_ind.
  - rewrite assigned_cons, (assigned_last _ x) by done. by destruct (String.prefix _ x).
  - rewrite app_assoc_s, app_cons_s, !(assigned_cons _ x) by done. destruct (String.prefix _ x); [done|]. exact IH.
Qed.

Lemma assigned_strip k s : env_key k = true -> assigned (key_eq k) true (strip_newlines s) = assigned (key_eq k) true s.
Proof.
  intros Hk. induction s as [|c s IH]; [done|]. cbn [strip_newlines]. destruct (Ascii.eqb c newline) eqn:E; [|done].
  apply Ascii.eqb_eq in E as ->. rewrite IH. change (String newline s) with ("" +:+ String newline s).
  rewrite assigned_cons by eauto using env_key_line. by destruct k.
Qed.

Lemma strip_idem s : strip_newlines (strip_newlines s) = strip_newlines s.
Proof.
  induction s as [|c s IH]; [done|]. cbn [strip_newlines]. destruct (Ascii.eqb c newline) eqn:E; [done|].
  cbn [strip_newlines]. by rewrite E.
Qed.

Lemma expand_plain b m a t : all_chars (fun c => negb (Ascii.eqb c "$")) t = true -> expand b m a t = t.
Proof.
  induction t as [|c t IH]; [done|]. cbn [all_chars]. intros [Hc%negb_true_iff Ht]%andb_true_iff. cbn [expand].
  destruct t as [|d t]; [done|]. rewrite Hc. f_equal. by apply IH.
Qed.

(** *** The update *)

Lemma value_of_line k v : drop_chars (String.length k + 1) (key_eq k +:+ v) = v.
Proof. unfold key_eq. induction k as [|c k IH]; [done|]. rewrite !app_cons_s. exact IH. Qed.

Lemma assigned_prefix k s m : env_key k = true -> assigned (key_eq k) true s = Some m -> exists v, m = key_eq k +:+ v.
Proof.
  intros Hk. unfold assigned. destruct (find_line (key_eq k) true s) as [[[b m'] r]|] eqn:E; [|done]. intros [= <-].
  apply find_line_spec in E as (_ & _ & _ & H). apply prefix_inv, H; [by destruct k|by apply env_key_line].
Qed.

Lemma env_value_trim k s s' : env_key k = true ->
  trim_end <$> assigned (key_eq k) true s = trim_end <$> assigned (key_eq k) true s' ->
  trim_end <$> env_value k s = trim_end <$> env_value k s'.
Proof.
  intros Hk. unfold env_value. fold (key_eq k).
  destruct (assigned (key_eq k) true s) as [m|] eqn:E, (assigned (key_eq k) true s') as [m'|] eqn:E'; try done.
  apply assigned_prefix in E as [v ->]; [|done]. apply assigned_prefix in E' as [v' ->]; [|done]. simpl. rewrite !value_of_line.
  intros [= H]. rewrite !trim_end_key in H. f_equal. apply append_inj in H as [_ H]; done.
Qed.

(** The new line is found where the old one was. *)
Lemma find_replaced k line s b m r : env_key k = true -> on_one_line line = true -> String.prefix (key_eq k) line = true ->
  find_line (key_eq k) true s = Some (b, m, r) -> find_line (key_eq k) true (b +:+ line +:+ r) = Some (b, line, r).
Proof.
  intros Hk%env_key_line Hl Hp. revert b. induction s as [x Hx|x e y Hx He IH] using line_ind; intros b.
  - rewrite find_line_last by done. destruct (String.prefix _ x); [|done]. intros [= <- <- <-].
    rewrite app_nil_s, app_nil_r_s, find_line_last by done. by rewrite Hp.
  - rewrite find_line_cons by done. destruct (String.prefix (key_eq k) x) eqn:E.
    + intros [= <- <- <-]. rewrite app_nil_s, find_line_cons by done. by rewrite Hp.
    + destruct (find_line (key_eq k) true y) as [[[b' m'] r']|]; [|done]. intros [= <- <- <-].
      rewrite app_assoc_s, app_cons_s, find_line_cons by done. by rewrite E, (IH b').
Qed.

Section upsert.
Context (k v : string) (Hk : env_key k = true) (Hv : env_text v = true).
Let line := key_eq k +:+ v.

Lemma line_ok : on_one_line line = true /\ String.prefix (key_eq k) line = true /\ all_chars (fun c => negb (Ascii.eqb c "$")) line = true.
Proof.
  unfold line. split_and!; [|apply prefix_app|].
  - unfold on_one_line. rewrite all_chars_app. apply andb_true_iff. split; [by apply env_key_line|].
    eapply all_chars_impl; [|exact Hv]. simpl. intros c Hc. by bools.
  - unfold key_eq. rewrite !all_chars_app. apply andb_true_iff in Hk as [_ H].
    rewrite (all_chars_impl _ (fun c => negb (Ascii.eqb c "$")) k (fun c Hc => proj2 (proj1 (andb_true_iff _ _) Hc)) H).
    apply andb_true_iff. split; [done|]. eapply all_chars_impl; [|exact Hv]. simpl. intros c Hc. by bools.
Qed.

Lemma upsert_cases s :
  (exists b m r, find_line (key_eq k) true s = Some (b, m, r) /\ upsertEnvLine k v s = strip_newlines (b +:+ line +:+ r)) \/
  (find_line (key_eq k) true s = None /\ upsertEnvLine k v s = strip_newlines (trim_end s +:+ String newline (line +:+ nl))).
Proof.
  unfold upsertEnvLine. fold (key_eq k). replace (k +:+ "=" +:+ v) with line by (unfold line, key_eq; by rewrite app_assoc_s).
  destruct (find_line (key_eq k) true s) as [[[b m] r]|]; [left|by right].
  exists b, m, r. rewrite expand_plain by apply line_ok. done.
Qed.

Lemma assigned_upsert s : assigned (key_eq k) true (upsertEnvLine k v s) = Some line.
Proof.
  destruct line_ok as (H1 & H2 & _). destruct (upsert_cases s) as [(b & m & r & E & ->)|[E ->]]; rewrite assigned_strip by done.
  - unfold assigned. by rewrite (find_replaced k line s b m r).
  - rewrite assigned_append by done. pose proof (assigned_trim k s Hk) as Ht. unfold assigned at 2 in Ht. rewrite E in Ht. simpl in Ht.
    apply fmap_None in Ht as ->. unfold nl. rewrite assigned_cons by eauto using env_key_line. by rewrite H2.
Qed.

Lemma assigned_upsert_other k' s : env_key k' = true -> k <> k' ->
  trim_end <$> assigned (key_eq k') true (upsertEnvLine k v s) = trim_end <$> assigned (key_eq k') true s.
Proof.
  intros Hk' Hne. destruct line_ok as (H1 & H2 & _).
  destruct (upsert_cases s) as [(b & m & r & E & ->)|[E ->]]; rewrite assigned_strip by done.
  - by rewrite (assigned_replaced k k' line s b m r).
  - rewrite assigned_append by done. rewrite <- (assigned_trim k' s) by done.
    destruct (assigned (key_eq k') true (trim_end s)); [done|]. unfold nl.
    rewrite assigned_cons by eauto using env_key_line. rewrite (other_key k k' line) by done.
    rewrite assigned_last by done. by destruct k'.
Qed.

(** Also: Recording the node id does what it is for and nothing else: for a key and a
    value that are one piece of text without line breaks or dollar signs, the updated
    file assigns the value to the key, every other key reads the same value as before
    up to white space at the end of a line, and doing it again changes nothing.  This
    holds for any file: with several assignments, none, blank lines, Windows line
    ends, or no file at all. *)
Theorem upsert_reads_back s :
  let s' := upsertEnvLine k v s in
  env_value k s' = Some v /\
  (forall k', env_key k' = true -> k' <> k -> trim_end <$> env_value k' s' = trim_end <$> env_value k' s) /\
  upsertEnvLine k v s' = s'.
Proof.
  simpl. split_and!.
  - unfold env_value. fold (key_eq k). rewrite assigned_upsert. simpl. unfold line. by rewrite value_of_line.
  - intros k' Hk' Hne. apply env_value_trim; [done|]. by apply assigned_upsert_other.
  - pose proof (assigned_upsert s) as Ha. unfold assigned in Ha.
    destruct (upsert_cases (upsertEnvLine k v s)) as [(b & m & r & E & ->)|[E _]]; rewrite E in Ha; [|done].
    injection Ha as ->. apply find_line_spec in E as (<- & _).
    destruct (upsert_cases s) as [(b' & m' & r' & _ & ->)|[_ ->]]; apply strip_idem.
Qed.
End upsert.

Lemma upsert_reads_back_witness :
  env_value "BAPC_NODE_ID" (upsertEnvLine "BAPC_NODE_ID" "n-1" ("A=1" +:+ nl +:+ "BAPC_NODE_ID=old" +:+ nl +:+ "B=2")) = Some "n-1".
Proof.
  exact (proj1 (upsert_reads_back "BAPC_NODE_ID" "n-1" eq_refl eq_refl ("A=1" +:+ nl +:+ "BAPC_NODE_ID=old" +:+ nl +:+ "B=2"))).
Defined.
