(* ===== verification/Enroll.v ===== *)
(** * Enrolling a machine

    [enrollNode] ([src/src/runtime/enroll-node.ts]) and the command line around
    it ([src/src/runtime/enroll.ts]), over the gRPC service of [Enrollment] and
    a platform adapter.  The world is the control plane's database and the
    machine: the effects of the adapter and of the programs run, and the files
    of the output directory.  Key generation and the CSR, the identifiers the
    control plane draws, [randomUUID] and what the file system says to each write are
    inputs.  The output directory is joined to a file name with one separator. *)

From S2P Require Import Prelude Json Text Domain Database Repositories Certificates Mesh Words Native LinuxAdapter WindowsAdapter Enrollment Config EnvFile.
Open Scope Z_scope.

(** ** [enroll-node.ts] *)

Record ReplyPeer := mkReplyPeer { ip_publicKey : string; ip_endpoint : string; ip_allowedIps : list string; ip_keepalive : Z }.
Record RegisterNodeReply := mkNodeReply {
  nr_ipv4 : string; nr_ipv6 : string; nr_peers : list ReplyPeer; nr_certificate : string; nr_zone : string; nr_nodeId : string
}.

(** The keys a machine generates: the WireGuard pair, and the identity key with
    the CSR that proves its possession. *)
Record NodeKeys := mkNodeKeys { nk_private : string; nk_public : string; nk_csrDer : string; nk_identityPem : string }.

Record EnrollNodeResult := mkEnrollResult {
  rs_nodeId : string; rs_zone : string; rs_wgPrivate : string; rs_wgPublic : string; rs_identityPem : string; rs_certificatePem : string
}.

Definition WIREGUARD_LISTEN_PORT : Z := 51820.

Definition peer_of_reply (p : ReplyPeer) : Native.Peer :=
  Native.mkPeer p.(ip_publicKey) (if truthy p.(ip_endpoint) then Some p.(ip_endpoint) else None) p.(ip_allowedIps) p.(ip_keepalive).

Definition wireguard_input (keys : NodeKeys) (reply : RegisterNodeReply) : WireGuardInput :=
  mkWireGuard keys.(nk_private) [reply.(nr_ipv4) +:+ "/32"; reply.(nr_ipv6) +:+ "/128"] (Some WIREGUARD_LISTEN_PORT)
    (map peer_of_reply reply.(nr_peers)).

(** The quote is sent empty. *)
Definition register_request (hardwareUuid osSignature : string) (keys : NodeKeys) : RegisterRequest :=
  mkRegister hardwareUuid osSignature keys.(nk_csrDer) "" keys.(nk_public).

Definition no_node_id : exn := JsError "registerNode did not return a node_id — is the control plane running an older mesh.proto?".

Definition enrollNode {W} (client : RegisterRequest -> St W RegisterNodeReply) (platform : WireGuardInput -> St W unit)
    (keys : NodeKeys) (hardwareUuid osSignature : string) : St W EnrollNodeResult :=
  let* reply := client (register_request hardwareUuid osSignature keys) in
  if negb (truthy reply.(nr_nodeId)) then throw no_node_id
  else
    platform (wireguard_input keys reply) ;;;
    mret (mkEnrollResult reply.(nr_nodeId) reply.(nr_zone) keys.(nk_private) keys.(nk_public) keys.(nk_identityPem) reply.(nr_certificate)).

(** ** [enroll.ts] *)

(** The text of [os.platform()]. *)
Notation linux_os := "linux" (only parsing).
Notation windows_os := "win32" (only parsing).

(** [argOf] *)
Definition argOf (argv : list string) (name : string) : option string := word_after ("--" +:+ name) argv.

Record Machine := mkMachine { mc_effects : Effects; mc_files : gmap string string }.
Notation World := (Db * Machine)%type.

Definition on_machine {A} (m : St Effects A) : St World A := fun '(db, mc) =>
  let '(t, r) := m mc.(mc_effects) in ((db, mkMachine t mc.(mc_files)), r).
Definition on_database {A} (m : St Db A) : St World A := fun '(db, mc) =>
  let '(d, r) := m db in ((d, mc), r).

(** What the file system does with a write of a path: [None] when it succeeds,
    [Some ruin] when it fails and leaves [ruin] of what the file was (the file as it
    was, nothing, or a part of the new text). *)
Notation Disk := (string -> option (option string -> option string)).
Definition write_failed : exn := JsError "EIO: i/o error, write".

(** [writeFileSync] *)
Definition write_out (disk : Disk) (path content : string) : St World unit := fun '(db, mc) =>
  match disk path with
  | None => ((db, mkMachine mc.(mc_effects) (<[path := content]> mc.(mc_files))), Ok tt)
  | Some ruin => ((db, mkMachine mc.(mc_effects) (partial_alter ruin path mc.(mc_files))), Throw write_failed)
  end.

Section command_line.
Context `{Hst : Host} (mkdir : res unit) (disk : Disk) (os : string) (argv : list string) (random : string).

Definition machine_id : option string :=
  if String.eqb os linux_os
  then match host_file "/etc/machine-id" with Some text => when_truthy (Some (trim text)) | None => None end
  else None.

Definition WMI_UUID_ARGS : list string :=
  ["-NoProfile"; "-NonInteractive"; "-Command"; "(Get-CimInstance Win32_ComputerSystemProduct).UUID"].

Definition detectHardwareUuid : St Effects string :=
  match when_truthy (argOf argv "hardware-uuid") with
  | Some override => mret override
  | None =>
    match machine_id with
    | Some id => mret id
    | None =>
      if String.eqb os windows_os then
        let* found := try_catch (let* stdout := run "powershell.exe" WMI_UUID_ARGS in mret (when_truthy (Some (trim stdout))))
                        (fun _ => mret None) in
        mret (default random found)
      else mret random
    end
  end.

Definition defaultOutDir : string :=
  if String.eqb os windows_os then "C:\Program Files\BapcSecurityAgent" else "/etc/bapc-security".
Definition join_path (dir file : string) : string := dir +:+ (if String.eqb os windows_os then "\" else "/") +:+ file.
Definition outDir : string := default defaultOutDir (argOf argv "out-dir").

Definition no_adapter : exn := JsError ("no PlatformAdapter for os.platform()=" +:+ os
  +:+ ". macOS/iOS/iPadOS require a native Swift NetworkExtension — see native/apple/adapter.ts.").

(** The platform adapter of this machine, with the adapters' default interfaces. *)
Definition platform_for : res (WireGuardInput -> St Effects unit) :=
  if String.eqb os windows_os then Ok (WindowsAdapter.applyWireGuard "BAPC")
  else if String.eqb os linux_os then Ok (LinuxAdapter.applyWireGuard "bapc0")
  else Throw no_adapter.

(** What the command does with the outcome of [enrollNode]. *)
Definition write_results (result : EnrollNodeResult) : St World unit :=
  write_out disk (join_path outDir "wg-private.key") result.(rs_wgPrivate) ;;;
  write_out disk (join_path outDir "identity-key.pem") result.(rs_identityPem) ;;;
  write_out disk (join_path outDir "client-cert.pem") result.(rs_certificatePem) ;;;
  if String.eqb os linux_os then
    let env := join_path outDir "agent.env" in
    let* existing := gets (fun w : World => default "" (w.2.(mc_files) !! env)) in
    write_out disk env (upsertEnvLine "BAPC_NODE_ID" result.(rs_nodeId) existing)
  else mret tt.

Definition enroll (osSignature : string) (client : RegisterRequest -> St World RegisterNodeReply) (keys : NodeKeys) : St World unit :=
  lift_res mkdir ;;;
  let* apply := lift_res platform_for in
  let* hardwareUuid := on_machine detectHardwareUuid in
  let* result := enrollNode client (fun input => on_machine (apply input)) keys hardwareUuid osSignature in
  write_results result.
End command_line.

(** ** The control plane as the client's service *)

Section service_client.
Context `{Coll : Collation} (sha256 : string -> string) (attest : string -> string -> option string -> res bool)
  (x509 : X509Input -> res string) (issuerId : string) (ttl : Z) (relays : option (list RelayHealth))
  (parse_csr : string -> option (bool * string)).

(** The reply as [server.ts] sends it: peers without an endpoint, kept alive every 25 seconds. *)
Definition wire_reply (r : RegisterReply) : RegisterNodeReply :=
  mkNodeReply r.(rp_internalIpv4) r.(rp_internalIpv6)
    (map (fun p => mkReplyPeer p.(pr_publicKey) "" p.(pr_allowedIps) 25) r.(rp_initialPeers))
    r.(rp_certificate) (zone_name r.(rp_zone)) r.(rp_nodeId).

(** [buildGrpcClient]'s [registerNode]: an error of the service rejects. *)
Definition grpc_client (dr : Draw) (req : RegisterRequest) : St World RegisterNodeReply :=
  let* reply := on_database (registerNode sha256 attest x509 issuerId ttl relays parse_csr req dr) in
  match reply with
  | Reply r => mret (wire_reply r)
  | GrpcError _ message => throw (JsError message)
  end.
End service_client.

(** ** What an enrollment leaves behind *)

Section enrolled.
Context `{Coll : Collation} (sha256 : string -> string) (attest : string -> string -> option string -> res bool)
  (x509 : X509Input -> res string) (issuerId : string) (ttl : Z) (relays : option (list RelayHealth))
  (parse_csr : string -> option (bool * string)).

Notation register_node := (registerNode sha256 attest x509 issuerId ttl relays parse_csr).
Notation service := (grpc_client sha256 attest x509 issuerId ttl relays parse_csr).

(** The rows a successful registration adds, and what the reply says of them. *)
Definition registered (req : RegisterRequest) (dr : Draw) (db db' : Db) (r : RegisterReply) : Prop :=
  exists lease key, lease_from db = Ok lease /\ publicKeyPemFromCsrDer parse_csr req.(rq_csrDer) = Ok key /\
    let er := enrollment_request req lease key in
    db'.(mesh_nodes) = (saved er dr db).(mesh_nodes) /\ db'.(devices) = (saved er dr db).(devices) /\
    r.(rp_internalIpv4) = lease.1 /\ r.(rp_internalIpv6) = lease.2 /\ r.(rp_nodeId) = dr.(dr_node).

Lemma registerNode_cases req dr db : db_ok db -> fresh_draw dr db ->
  match register_node req dr db with
  | (db', Ok (Reply r)) => registered req dr db db' r
  | (db', Ok (GrpcError _ _)) => db'.(devices) = db.(devices) \/
      exists lease key, db'.(devices) = (saved (enrollment_request req lease key) dr db).(devices)
  | (_, Throw _) => False
  end.
Proof.
  intros Hok Hf. unfold registerNode, grpc_call, try_catch.
  change (mbind ?k (mbind ?j (gets ?g)) db) with (mbind k (j (g db)) db). cbn beta.
  unfold lift_res at 1, mbind at 1 2, St_bind at 1 2. destruct (lease_from db) as [lease|e] eqn:El; [|by left].
  unfold lift_res at 1, mbind at 1, St_bind at 1. destruct (publicKeyPemFromCsrDer _ _) as [key|e] eqn:Ek; [|by left].
  unfold mbind at 1, St_bind at 1. set (er := enrollment_request req lease key).
  destruct (register_checks sha256 attest x509 issuerId ttl relays er dr db) as [[Ha E]|[_ [e E]]]; rewrite E; [|by left].
  pose proof (admit_outcome sha256 attest x509 issuerId ttl relays er dr db Hok Hf Ha) as H.
  destruct (admit_ _ _ _ _ _ er dr db) as [db' [en|e]]; [|destruct H as [->| ->]; [by left|right; by exists lease, key]].
  destruct H as (_ & Hd & Hn & _ & En & _). exists lease, key. cbn. rewrite En. done.
Qed.

(** A machine that is on record is not registered again. *)
Lemma registerNode_again req dr db k d :
  db.(devices) !! k = Some d -> d.(hardwareId) = req.(rq_hardwareUuid) ->
  exists code message, register_node req dr db = (db, Ok (GrpcError code message)).
Proof.
  intros Hd Hh. unfold registerNode, grpc_call, try_catch.
  change (mbind ?k (mbind ?j (gets ?g)) db) with (mbind k (j (g db)) db). cbn beta.
  unfold lift_res at 1, mbind at 1 2, St_bind at 1 2. destruct (lease_from db) as [lease|e] eqn:El; [|eauto].
  unfold lift_res at 1, mbind at 1, St_bind at 1. destruct (publicKeyPemFromCsrDer _ _) as [key|e] eqn:Ek; [|eauto].
  unfold mbind at 1, St_bind at 1. set (er := enrollment_request req lease key).
  destruct (register_checks sha256 attest x509 issuerId ttl relays er dr db) as [[Ha E]|[_ [e E]]]; rewrite E; [|eauto].
  destruct Ha as (_ & _ & _ & H & _). rewrite findByHardwareId_None in H. by destruct (H k d Hd).
Qed.

Section machine.
Context `{Hst : Host} (mkdir : res unit) (disk : Disk) (os : string) (argv : list string).


Notation out f := (join_path os (outDir os argv) f).
Notation run_enroll random osSig dr keys := (enroll mkdir disk os argv random osSig (service dr) keys).

(** An identity the machine shows every time it enrolls. *)
Definition stable_id : option string :=
  match when_truthy (argOf argv "hardware-uuid") with Some id => Some id | None => machine_id os end.

Lemma detect_stable random id t : stable_id = Some id -> detectHardwareUuid os argv random t = (t, Ok id).
Proof. unfold stable_id, detectHardwareUuid. destruct (when_truthy _); [by intros [= ->]|]. by intros ->. Qed.

(** The files the command writes, in order. *)
Definition output_files : list string :=
  [out "wg-private.key"; out "identity-key.pem"; out "client-cert.pem"] ++ (if String.eqb os "linux" then [out "agent.env"] else []).

Definition files_of (result : EnrollNodeResult) (mc : Machine) : gmap string string :=
  let files := <[out "client-cert.pem" := result.(rs_certificatePem)]> (<[out "identity-key.pem" := result.(rs_identityPem)]>
    (<[out "wg-private.key" := result.(rs_wgPrivate)]> mc.(mc_files))) in
  if String.eqb os "linux"
  then <[out "agent.env" := upsertEnvLine "BAPC_NODE_ID" result.(rs_nodeId) (default "" (files !! out "agent.env"))]> files
  else files.

(** Either every file is written, or the first that cannot be ends the command. *)
Lemma write_results_cases result db mc :
  match write_results disk os argv result (db, mc) with
  | ((db', mc'), Ok _) => db' = db /\ mc'.(mc_effects) = mc.(mc_effects) /\ mc'.(mc_files) = files_of result mc /\
      forall f, f ∈ output_files -> disk f = None
  | ((db', mc'), Throw _) => db' = db /\ exists pre f post, output_files = pre ++ f :: post /\ disk f <> None /\
      (forall g, g ∈ pre -> disk g = None) /\ forall g, g ∉ pre ++ [f] -> mc'.(mc_files) !! g = mc.(mc_files) !! g
  end.
Proof.
  unfold write_results, mbind, St_bind, write_out.
  assert (forall (m : gmap string string) ruin f g, g <> f -> partial_alter ruin f m !! g = m !! g) as PA
    by (intros; by apply lookup_partial_alter_ne).
  destruct (disk (out "wg-private.key")) eqn:D1; cbn [mc_files mc_effects].
  { split; [done|]. eexists [], _, _. split; [reflexivity|]. split_and!; [congruence|set_solver|].
    intros g Hg. apply PA. set_solver. }
  destruct (disk (out "identity-key.pem")) eqn:D2; cbn [mc_files mc_effects].
  { split; [done|]. eexists [_], _, _. split; [reflexivity|]. split_and!; [congruence|set_solver|].
    intros g Hg. rewrite PA by set_solver. apply lookup_insert_ne. set_solver. }
  destruct (disk (out "client-cert.pem")) eqn:D3; cbn [mc_files mc_effects].
  { split; [done|]. eexists [_; _], _, _. split; [reflexivity|]. split_and!; [congruence|set_solver|].
    intros g Hg. rewrite PA by set_solver. rewrite !lookup_insert_ne by set_solver. done. }
  unfold output_files, files_of. destruct (String.eqb os "linux"); [|split_and!; try done; set_solver].
  unfold gets. cbn [mc_files mc_effects snd]. destruct (disk (out "agent.env")) eqn:D4; cbn [mc_files mc_effects].
  { split; [done|]. eexists [_; _; _], _, []. split; [reflexivity|]. split_and!; [congruence|set_solver|].
    intros g Hg. rewrite PA by set_solver. rewrite !lookup_insert_ne by set_solver. done. }
  split_and!; try done. set_solver.
Qed.

(** What a run of the command does: it ends before the files are written, or at one
    of them, or it returns. *)
Lemma enroll_cases random osSig dr keys db mc : db_ok db -> fresh_draw dr db ->
  exists uuid, (forall id, stable_id = Some id -> uuid = id) /\
  let reached db' mc1 r := exists apply t,
    register_node (register_request uuid osSig keys) dr db = (db', Ok (Reply r)) /\
    registered (register_request uuid osSig keys) dr db db' r /\ platform_for os = Ok apply /\
    apply (wireguard_input keys (wire_reply r)) t = (mc1.(mc_effects), Ok tt) /\ mc1.(mc_files) = mc.(mc_files) in
  let result r := mkEnrollResult dr.(dr_node) (zone_name r.(rp_zone)) keys.(nk_private)
        keys.(nk_public) keys.(nk_identityPem) r.(rp_certificate) in
  (exists db' mc1 r, reached db' mc1 r /\
     run_enroll random osSig dr keys (db, mc) = write_results disk os argv (result r) (db', mc1)) \/
  match run_enroll random osSig dr keys (db, mc) with
  | (_, Ok _) => False
  | ((db', mc'), Throw _) => mc'.(mc_files) = mc.(mc_files) /\
      (db'.(devices) = db.(devices) \/ exists lease key,
         db'.(devices) = (saved (enrollment_request (register_request uuid osSig keys) lease key) dr db).(devices))
  end.
Proof.
  intros Hok Hf. unfold enroll, enrollNode, grpc_client, on_database, on_machine, lift_res, mbind, St_bind, mret, St_ret.
  destruct mkdir as [[]|e]; [|exists (default "" stable_id); split; [by intros id ->|right; split; [done|by left]]].
  destruct (platform_for os) as [apply|e] eqn:Ep; [|exists (default "" stable_id); split; [by intros id ->|right; split; [done|by left]]].
  destruct (detectHardwareUuid os argv random (mc_effects mc)) as [t [uuid|e]] eqn:Ed;
    [|exists (default "" stable_id); split; [by intros id ->|right; split; [done|by left]]].
  exists uuid. split; [intros id Hid; rewrite (detect_stable random id _ Hid) in Ed; by simplify_eq|].
  pose proof (registerNode_cases (register_request uuid osSig keys) dr db Hok Hf) as Hr.
  destruct (register_node (register_request uuid osSig keys) dr db) as [db1 [[r|code msg]|e]] eqn:Eg; [|right; split; [done|exact Hr]|done].
  pose proof Hr as (lease & key & _ & _ & _ & Hd & _ & _ & Hid).
  cbn [wire_reply nr_nodeId]. rewrite Hid.
  destruct (negb (truthy (dr_node dr))); [right; split; [done|right; by exists lease, key]|]. cbn [mc_effects mc_files].
  destruct (apply (wireguard_input keys (wire_reply r)) t) as [t' [[]|e]] eqn:Ea; [|right; split; [done|right; by exists lease, key]].
  left. exists db1, (mkMachine t' (mc_files mc)), r. split; [|done]. exists apply, t. by split_and!.
Qed.



(** Also: An enrollment that fails after the control plane stored the device cannot be
    repeated.  The control plane refuses hardware it already knows, so when the adapter
    or a write fails (or the certificate is refused), every further run on this machine,
    with whatever keys and state, fails and changes neither the control plane's database
    nor any file of the machine; and unless it was a write that failed, the keys of the
    stored node were not written either and are gone. *)
Theorem failed_enrollment_strands_machine random osSig dr keys db mc db' mc' e id :
  db_ok db -> fresh_draw dr db -> stable_id = Some id ->
  run_enroll random osSig dr keys (db, mc) = ((db', mc'), Throw e) -> db'.(devices) <> db.(devices) ->
  ((forall f, f ∈ output_files -> disk f = None) -> mc'.(mc_files) = mc.(mc_files)) /\
  forall mkdir2 disk2 random2 osSig2 dr2 keys2 mc2, exists e2 mc2',
    enroll mkdir2 disk2 os argv random2 osSig2 (service dr2) keys2 (db', mc2) = ((db', mc2'), Throw e2) /\
    mc2'.(mc_files) = mc2.(mc_files).
Proof.
  intros Hok Hf Hs E Hne. destruct (enroll_cases random osSig dr keys db mc Hok Hf) as (uuid & Huuid & H).
  specialize (Huuid id Hs). subst uuid.
  assert (((forall f, f ∈ output_files -> disk f = None) -> mc'.(mc_files) = mc.(mc_files)) /\
    exists lease key, db'.(devices) = (saved (enrollment_request (register_request id osSig keys) lease key) dr db).(devices))
    as [Hfiles (lease & key & Hd)].
  { destruct H as [(db1 & mc1 & r & (apply & t & _ & (lease & key & _ & _ & _ & Hd & _) & _) & Ew)|H].
    - rewrite E in Ew. set (res := mkEnrollResult _ _ _ _ _ _) in Ew. pose proof (write_results_cases res db1 mc1) as Hw.
      rewrite <- Ew in Hw. destruct Hw as (-> & pre & f & post & Ef & Hf' & _). split; [|by exists lease, key].
      intros Hall. destruct Hf'. apply Hall. rewrite Ef. set_solver.
    - rewrite E in H. destruct H as [Hfiles [|Hd]]; [done|]. by split. }
  split; [done|]. intros mkdir2 disk2 random2 osSig2 dr2 keys2 mc2.
  unfold enroll, enrollNode, grpc_client, on_database, on_machine, lift_res, mbind, St_bind, mret, St_ret.
  destruct mkdir2 as [[]|e2]; [|by exists e2, mc2].
  destruct (platform_for os) as [apply|e2]; [|by exists e2, mc2]. rewrite (detect_stable random2 id _ Hs).
  destruct (registerNode_again (register_request id osSig2 keys2) dr2 db' dr.(dr_device)
    (enrolled_device (enrollment_request (register_request id osSig keys) lease key) dr)) as (code & msg & Eg); [|done|].
  { rewrite Hd. cbn. by rewrite lookup_insert_eq. }
  rewrite Eg. eexists _, _. split; reflexivity.
Qed.
End machine.
End enrolled.

(** ** The theorems applied *)

Definition sample_argv : list string := ["node"; "enroll"; "--hardware-uuid"; "hw2"; "--out-dir"; "/srv/agent"].
Definition sample_keys : NodeKeys := mkNodeKeys "private" "key2" "csr" "identity".
Definition new_machine : Machine := mkMachine [] ∅.
(** A host without [wg]. *)
Definition bare_host : Host :=
  {| run_program := fun _ _ _ => Throw (JsError "not found"); tmp_suffix := fun _ => ""; tmpdir := "/tmp"; host_file := fun _ => None |}.
(** A file system that accepts every write. *)
Definition sound_disk : Disk := fun _ => None.
Definition sample_service (dr : Draw) :=
  @grpc_client code_point_collation (fun s => s) (fun _ _ _ => Ok true) (fun _ => Ok "PEM") "ca" 1440 None (fun _ => Some (true, "KEY")) dr.


Lemma failed_enrollment_strands_machine_witness :
  exists db1 mc1 e1, @enroll bare_host (Ok tt) sound_disk "linux" sample_argv "r" "Linux 6.1" (sample_service sample_draw) sample_keys (empty_db 1000, new_machine)
    = ((db1, mc1), Throw e1) /\
  exists e2 mc2, @enroll bare_host (Ok tt) sound_disk "linux" sample_argv "r" "Linux 6.1" (sample_service sample_draw) sample_keys (db1, mc1) = ((db1, mc2), Throw e2).
Proof.
  destruct (@enroll bare_host (Ok tt) sound_disk "linux" sample_argv "r" "Linux 6.1" (sample_service sample_draw) sample_keys (empty_db 1000, new_machine))
    as [[db1 mc1] [u|e]] eqn:E; [vm_compute in E; discriminate E|].
  exists db1, mc1, e. split; [reflexivity|].
  destruct (@failed_enrollment_strands_machine code_point_collation (fun s => s) (fun _ _ _ => Ok true) (fun _ => Ok "PEM") "ca" 1440 None
    (fun _ => Some (true, "KEY")) bare_host (Ok tt) sound_disk "linux" sample_argv "r" "Linux 6.1" sample_draw sample_keys (empty_db 1000) new_machine db1 mc1 e "hw2"
    (empty_db_ok 1000) ltac:(split; vm_compute; reflexivity) eq_refl E) as [_ H].
  - intros Hd. assert (db1.(devices) !! "d2" = None) as Hn by (rewrite Hd; vm_compute; reflexivity).
    vm_compute in E. injection E as <- _ _. vm_compute in Hn. discriminate Hn.
  - destruct (H (Ok tt) sound_disk "r" "Linux 6.1" sample_draw sample_keys mc1) as (e2 & mc2 & H2 & _). exists e2, mc2. exact H2.
Defined.
