(* ===== verification/Retention.v ===== *)
(** * Retention

    [RetentionService] ([src/src/infrastructure/postgres/maintenance.ts]) over
    the SQL functions it calls ([src/db/005_event_partitions.sql],
    [006_retention.sql], [008_fix_purge_search_path.sql]), and the retention
    cycle of [maintenance-worker.ts].  The table [security_events] is
    partitioned by month; a month is counted as twelve times the year plus its
    number from 0, and the database's time zone is UTC.  The driver writes a
    [Date] as the local time of the process, of which a [date] parameter keeps
    the day; [offset] is that local time minus UTC. *)

From S2P Require Import Prelude Json Text Domain Database Rest.
Open Scope Z_scope.

(** [lia] reads divisions by constants. *)
#[local] Ltac Zify.zify_post_hook ::= Z.div_mod_to_equations.

(** ** Months *)

(** [Date.UTC(y,m,1)] for the month [12 y + m] *)
Definition first_day (k : Z) : Z := days_from_civil (k / 12, k mod 12 + 1, 1).
Definition month_start (k : Z) : Date := first_day k * DAY.

(** ** The tables *)

Record DatedOutbox := mkDated { do_row : OutboxRow; do_published_at : option Date }.
Record Store := mkStore {
  es_months : gset Z; es_events : list SecurityEvent; rt_idem : PgIdem; rt_nonces : PgNonces; rt_outbox : list DatedOutbox
}.

(** An insert is routed to the partition of its month; without one it fails. *)
Definition insert_event (e : SecurityEvent) : St Store unit := fun s =>
  if bool_decide (month_of e.(e_at) ∈ s.(es_months))
  then (mkStore s.(es_months) (s.(es_events) ++ [e]) s.(rt_idem) s.(rt_nonces) s.(rt_outbox), Ok tt)
  else (s, Throw (PgError "23514")).

Definition partition_name (k : Z) : string := "security_events_" +:+ digits 4 (k / 12) +:+ "_" +:+ digits 2 (k mod 12 + 1).

(** [ensure_month_partition(for_date)] *)
Definition ensure_month_partition (for_date : Z) : St Store string := fun s =>
  let k := month_of_day for_date in
  (mkStore ({[k]} ∪ s.(es_months)) s.(es_events) s.(rt_idem) s.(rt_nonces) s.(rt_outbox), Ok (partition_name k)).

(** [drop_expired_event_partitions(retention_months)] *)
Definition cutoff (pg_now : Date) (retention_months : Z) : Z := month_of pg_now - retention_months.
Definition drop_expired_event_partitions (pg_now : Date) (retention_months : Z) : St Store (list string) := fun s =>
  let c := cutoff pg_now retention_months in
  let expired k := bool_decide (k < c) in
  (mkStore (filter (fun k => ~ k < c) s.(es_months)) (List.filter (fun e => negb (expired (month_of e.(e_at)))) s.(es_events))
     s.(rt_idem) s.(rt_nonces) s.(rt_outbox),
   Ok (map partition_name (List.filter expired (elements s.(es_months))))).

Definition SEVEN_DAYS : Z := 604800000.

(** [purge_expired_control_plane_rows()] *)
Definition purge_idem (now : Date) (t : PgIdem) : PgIdem := {| pg_idem := filter (fun kv => ~ kv.2.(id_expires) < now) t.(pg_idem) |}.
Definition purge_nonces (now : Date) (t : PgNonces) : PgNonces := {| pg_nonces := filter (fun kv => ~ kv.2 < now) t.(pg_nonces) |}.
Definition keep_outbox (now : Date) (r : DatedOutbox) : bool :=
  match r.(do_published_at) with Some at_ => negb (at_ <? now - SEVEN_DAYS) | None => true end.
Definition purge_outbox (now : Date) (rows : list DatedOutbox) : list DatedOutbox := List.filter (keep_outbox now) rows.

Definition purge_expired_control_plane_rows (now : Date) : St Store (nat * nat * nat) := fun s =>
  let i := purge_idem now s.(rt_idem) in
  let n := purge_nonces now s.(rt_nonces) in
  let o := purge_outbox now s.(rt_outbox) in
  (mkStore s.(es_months) s.(es_events) i n o,
   Ok (size s.(rt_idem).(pg_idem) - size i.(pg_idem), size s.(rt_nonces).(pg_nonces) - size n.(pg_nonces),
       length s.(rt_outbox) - length o)%nat).

(** ** [RetentionService] *)

(** The [date] the database makes of the timestamp. *)
Definition pg_date (offset : Z) (t : Date) : Z := (t + offset) / DAY.

Fixpoint ensure_from (offset : Z) (now : Date) (i : Z) (n : nat) : St Store (list string) :=
  match n with
  | O => mret []
  | S n' =>
      let* name := ensure_month_partition (pg_date offset (month_start (month_of now + i))) in
      let* rest := ensure_from offset now (i + 1) n' in
      mret (name :: rest)
  end.
Definition ensureUpcomingPartitions (offset : Z) (now : Date) (monthsAhead : nat) : St Store (list string) :=
  ensure_from offset now 0 (S monthsAhead).

(** [retentionMonths] is [None] when the variable is not an integer: the query fails. *)
Definition dropExpiredPartitions (pg_now : Date) (retentionMonths : option Z) : St Store (list string) :=
  match retentionMonths with
  | Some n => drop_expired_event_partitions pg_now n
  | None => throw (PgError "22P02")
  end.
Definition purgeExpiredRows (pg_now : Date) : St Store (nat * nat * nat) := purge_expired_control_plane_rows pg_now.

(** One round of [runRetentionLoop]; an error is logged. *)
Definition retention_cycle (offset : Z) (now pg_now : Date) (retentionMonths : option Z) : St Store unit :=
  try_catch (
    ensureUpcomingPartitions offset now 1 ;;;
    dropExpiredPartitions pg_now retentionMonths ;;;
    purgeExpiredRows pg_now ;;;
    mret tt) (fun _ => mret tt).

(** ** The calendar by months *)

(** The first day of month [j], counted from March of the year 0. *)
Definition march_day (j : Z) : Z :=
  j / 12 / 400 * 146097 + era_start ((j / 12) mod 400) + (153 * (j mod 12) + 2) / 5 - 719468.

Lemma first_day_march k : first_day k = march_day (k - 2).
Proof.
  unfold first_day, march_day, days_from_civil. pose proof (Z.mod_pos_bound k 12 ltac:(lia)).
  destruct (Z.leb_spec (k mod 12 + 1) 2).
  - rewrite (proj2 (Z.ltb_ge 2 (k mod 12 + 1))) by lia.
    replace ((k - 2) / 12) with (k / 12 - 1) by lia. replace ((k - 2) mod 12) with (k mod 12 + 1 + 9) by lia. lia.
  - rewrite (proj2 (Z.ltb_lt 2 (k mod 12 + 1))) by lia.
    replace ((k - 2) / 12) with (k / 12 - 0) by lia. replace ((k - 2) mod 12) with (k mod 12 + 1 - 3) by lia. lia.
Qed.

(** A month has at least 28 days. *)
Lemma march_day_length j : march_day j + 28 <= march_day (j + 1).
Proof.
  unfold march_day. destruct (Z.eq_dec (j mod 12) 11) as [E|E].
  - replace ((j + 1) / 12) with (j / 12 + 1) by lia. replace ((j + 1) mod 12) with 0 by lia. rewrite E. set (y := j / 12). clearbody y.
    change ((153 * 11 + 2) / 5) with 337. change ((153 * 0 + 2) / 5) with 0.
    pose proof (Z.mod_pos_bound y 400 ltac:(lia)). destruct (Z.eq_dec (y mod 400) 399) as [Ey|Ey].
    + replace ((y + 1) / 400) with (y / 400 + 1) by lia. replace ((y + 1) mod 400) with 0 by lia. rewrite Ey.
      change (era_start 399) with 145731. change (era_start 0) with 0. lia.
    + replace ((y + 1) / 400) with (y / 400) by lia. replace ((y + 1) mod 400) with (y mod 400 + 1) by lia.
      unfold era_start. lia.
  - replace ((j + 1) / 12) with (j / 12) by lia. replace ((j + 1) mod 12) with (j mod 12 + 1) by lia. lia.
Qed.

Lemma first_day_length k : first_day k + 28 <= first_day (k + 1).
Proof. rewrite !first_day_march. replace (k + 1 - 2) with (k - 2 + 1) by lia. apply march_day_length. Qed.

Lemma first_day_mono k k' : k <= k' -> first_day k <= first_day k'.
Proof.
  intros H. replace k' with (k + Z.of_nat (Z.to_nat (k' - k))) by lia. induction (Z.to_nat (k' - k)) as [|n IH]; [rewrite Z.add_0_r; lia|].
  pose proof (first_day_length (k + Z.of_nat n)). replace (k + Z.of_nat (S n)) with (k + Z.of_nat n + 1) by lia. lia.
Qed.

(** A day lies in its month. *)
Lemma month_span d : first_day (month_of_day d) <= d < first_day (month_of_day d + 1).
Proof.
  unfold month_of_day, civil_from_days.
  pose proof (Z.mod_pos_bound (d + 719468) 146097 ltac:(lia)) as Hdoe.
  pose proof (Z.div_mod (d + 719468) 146097 ltac:(lia)) as Hz.
  set (era := (d + 719468) / 146097) in *. set (doe := (d + 719468) mod 146097) in *.
  destruct (year_of_era_bounds doe Hdoe) as [Hyoe Hdoy].
  assert (era_day doe / 365 < 399 -> doe < era_start (era_day doe / 365 + 1)) as Hnext.
  { intros Hlt. destruct (era_day_start (era_day doe / 365 + 1) ltac:(lia)) as [Hs _].
    destruct (Z_lt_le_dec doe (era_start (era_day doe / 365 + 1))) as [|L]; [done|]. exfalso.
    assert (0 <= era_start (era_day doe / 365 + 1)) by (unfold era_start; lia).
    pose proof (era_day_mono (era_start (era_day doe / 365 + 1)) doe ltac:(lia)). lia. }
  set (yoe := era_day doe / 365) in *. set (doy := doe - era_start yoe) in *. set (mp := (5 * doy + 2) / 153).
  assert (0 <= mp <= 11) as Hmp by (subst mp; lia).
  assert (12 * (yoe + era * 400 + (if (if mp <? 10 then mp + 3 else mp - 9) <=? 2 then 1 else 0))
    + ((if mp <? 10 then mp + 3 else mp - 9) - 1) = 12 * (yoe + era * 400) + mp + 2) as ->.
  { destruct (Z.ltb_spec mp 10); [rewrite (proj2 (Z.leb_gt (mp + 3) 2)) by lia; lia|].
    rewrite (proj2 (Z.leb_le (mp - 9) 2)) by lia. lia. }
  rewrite !first_day_march. replace (12 * (yoe + era * 400) + mp + 2 - 2) with (12 * (yoe + era * 400) + mp) by lia.
  replace (12 * (yoe + era * 400) + mp + 2 + 1 - 2) with (12 * (yoe + era * 400) + mp + 1) by lia.
  assert (march_day (12 * (yoe + era * 400) + mp) = era * 146097 + era_start yoe + (153 * mp + 2) / 5 - 719468) as ->.
  { unfold march_day. replace ((12 * (yoe + era * 400) + mp) / 12) with (yoe + era * 400) by lia.
    replace ((12 * (yoe + era * 400) + mp) mod 12) with mp by lia.
    replace ((yoe + era * 400) / 400) with era by lia. replace ((yoe + era * 400) mod 400) with yoe by lia. lia. }
  split; [subst mp doy; lia|]. clearbody yoe. unfold march_day. destruct (Z.eq_dec mp 11) as [E|E].
  - replace ((12 * (yoe + era * 400) + mp + 1) / 12) with (yoe + 1 + era * 400) by lia.
    replace ((12 * (yoe + era * 400) + mp + 1) mod 12) with 0 by lia. change ((153 * 0 + 2) / 5) with 0.
    destruct (Z.eq_dec yoe 399) as [->|Hy].
    + replace ((399 + 1 + era * 400) / 400) with (era + 1) by lia. replace ((399 + 1 + era * 400) mod 400) with 0 by lia.
      change (era_start 0) with 0. lia.
    + replace ((yoe + 1 + era * 400) / 400) with era by lia. replace ((yoe + 1 + era * 400) mod 400) with (yoe + 1) by lia.
      specialize (Hnext ltac:(lia)). lia.
  - replace ((12 * (yoe + era * 400) + mp + 1) / 12) with (yoe + era * 400) by lia.
    replace ((12 * (yoe + era * 400) + mp + 1) mod 12) with (mp + 1) by lia.
    replace ((yoe + era * 400) / 400) with era by lia. replace ((yoe + era * 400) mod 400) with yoe by lia.
    subst mp doy. lia.
Qed.

Lemma month_of_day_unique k d : first_day k <= d < first_day (k + 1) -> month_of_day d = k.
Proof.
  intros H. pose proof (month_span d) as Hs.
  destruct (Z_lt_le_dec (month_of_day d) k) as [L|L].
  - pose proof (first_day_mono (month_of_day d + 1) k ltac:(lia)). lia.
  - destruct (Z.eq_dec (month_of_day d) k) as [|Hne]; [done|].
    pose proof (first_day_mono (k + 1) (month_of_day d) ltac:(lia)). lia.
Qed.

(** An instant is in month [k] or later exactly when [k] has started. *)
Lemma month_of_ge k t : k <= month_of t <-> month_start k <= t.
Proof.
  unfold month_of, month_start. pose proof (month_span (t / DAY)) as Hs. assert (0 < DAY) by done.
  assert (first_day k * DAY <= t <-> first_day k <= t / DAY) as ->.
  { unfold DAY in *. split; intros; lia. }
  split; intros H0.
  - pose proof (first_day_mono k (month_of_day (t / DAY)) H0). lia.
  - destruct (Z_lt_le_dec (month_of_day (t / DAY)) k) as [L|]; [|done].
    pose proof (first_day_mono (month_of_day (t / DAY) + 1) k ltac:(lia)). lia.
Qed.


Lemma pg_date_ahead offset k : 0 <= offset < DAY -> month_of_day (pg_date offset (month_start k)) = k.
Proof.
  intros H. apply month_of_day_unique. pose proof (first_day_length k). unfold pg_date, month_start, DAY in *. lia.
Qed.

Lemma pg_date_behind offset k : - DAY <= offset < 0 -> month_of_day (pg_date offset (month_start k)) = k - 1.
Proof.
  intros H. apply month_of_day_unique. pose proof (first_day_length (k - 1)). unfold pg_date, month_start, DAY in *.
  replace (k - 1 + 1) with k in * by lia. lia.
Qed.

(** ** What a cycle leaves *)

Definition stored_in_partitions (s : Store) : Prop := forall e, e ∈ s.(es_events) -> month_of e.(e_at) ∈ s.(es_months).

Lemma cycle_run offset now pg_now n s :
  let k i := month_of_day (pg_date offset (month_start (month_of now + i))) in
  let c := cutoff pg_now n in
  (retention_cycle offset now pg_now (Some n) s).1 =
  mkStore (filter (fun k => ~ k < c) ({[k 1]} ∪ ({[k 0]} ∪ s.(es_months))))
    (List.filter (fun e => negb (bool_decide (month_of e.(e_at) < c))) s.(es_events))
    (purge_idem pg_now s.(rt_idem)) (purge_nonces pg_now s.(rt_nonces)) (purge_outbox pg_now s.(rt_outbox)).
Proof. done. Qed.

(** C27: A retention cycle of a worker whose local time is UTC or ahead of it, and
    whose clock is not in a month before the window the database's clock gives, keeps
    the event table writable and keeps what it should.  Afterwards every event of the
    current and of the next calendar month is accepted, so inserts keep working until
    the month after next begins even if no further cycle succeeds; of the stored
    events exactly those of the retention window, the current month and the given
    number of months before it, are kept; and no partition older than that window is
    left. *)
Theorem retention_window offset now pg_now n s :
  0 <= offset < DAY -> cutoff pg_now n <= month_of now -> stored_in_partitions s ->
  let s' := (retention_cycle offset now pg_now (Some n) s).1 in
  (forall e, month_start (month_of now) <= e.(e_at) -> e.(e_at) < month_start (month_of now + 2) -> (insert_event e s').2 = Ok tt) /\
  (forall e, e ∈ s'.(es_events) <-> e ∈ s.(es_events) /\ month_start (month_of pg_now - n) <= e.(e_at)) /\
  (forall k, k ∈ s'.(es_months) -> month_of pg_now - n <= k) /\
  stored_in_partitions s'.
Proof.
  intros Ho Hc Hs. cbv zeta. rewrite cycle_run. rewrite !pg_date_ahead by done. unfold cutoff in *. split_and!.
  - intros e H1 H2. unfold insert_event. cbn [es_months]. rewrite bool_decide_eq_true_2; [done|].
    apply month_of_ge in H1. assert (~ month_of now + 2 <= month_of (e_at e)) by (rewrite month_of_ge; lia).
    apply elem_of_filter. split; [lia|]. rewrite !elem_of_union, !elem_of_singleton. lia.
  - intros e. cbn [es_events]. rewrite elem_of_List_filter, negb_true_iff, bool_decide_eq_false, <- month_of_ge. split; intros [H1 H2]; (split; [done|lia]).
  - intros k. cbn [es_months]. rewrite elem_of_filter. lia.
  - intros e. cbn [es_events es_months]. rewrite elem_of_List_filter, negb_true_iff, bool_decide_eq_false. intros [H1 H2].
    apply elem_of_filter. split; [done|]. apply elem_of_union_r, elem_of_union_r. by apply Hs.
Qed.

(** Also: West of Greenwich a cycle prepares the wrong months: the driver writes the
    first instant of a month as the evening before, so the partitions of the previous
    and of the current month are made, and the first event of the next month is
    refused until a cycle has run in that month. *)
Theorem retention_cycle_behind_utc offset now pg_now n s e :
  - DAY <= offset < 0 -> month_of e.(e_at) = month_of now + 1 -> month_of now + 1 ∉ s.(es_months) ->
  (insert_event e (retention_cycle offset now pg_now (Some n) s).1).2 = Throw (PgError "23514").
Proof.
  intros Ho He Hk. rewrite cycle_run, !pg_date_behind by done. unfold insert_event. cbn [es_months].
  rewrite bool_decide_eq_false_2; [done|]. rewrite He, elem_of_filter, !elem_of_union, !elem_of_singleton. intros [_ [H|[H|H]]]; [lia|lia|done].
Qed.

(** ** Purging *)

(** Claims of a nonce and purges, each at its time, and the claims accepted. *)
Inductive NonceEvent := Claim (nonce : string) | Purge.
Fixpoint run_nonces (ttl : Z) (es : list (Date * NonceEvent)) (t : PgNonces) : PgNonces * list (Date * string) :=
  match es with
  | [] => (t, [])
  | (now, Purge) :: es' => run_nonces ttl es' (purge_nonces now t)
  | (now, Claim nonce) :: es' =>
      let '(t1, ok) := pg_claim now nonce ttl t in
      let '(t2, accepted) := run_nonces ttl es' t1 in
      (t2, if ok then (now, nonce) :: accepted else accepted)
  end.

Lemma purge_nonces_keeps now t nonce e : t.(pg_nonces) !! nonce = Some e -> now <= e -> (purge_nonces now t).(pg_nonces) !! nonce = Some e.
Proof. intros H Hle. cbn. apply map_lookup_filter_Some_2; [done|]. cbn. lia. Qed.

Lemma accepted_at_event ttl es t at_ n : (at_, n) ∈ (run_nonces ttl es t).2 -> exists x, x ∈ es /\ x.1 = at_.
Proof.
  revert t. induction es as [|[u [m|]] es IH]; intros t Hin; [by apply elem_of_nil in Hin|..]; cbn [run_nonces] in Hin.
  - destruct (pg_claim u m ttl t) as [t1 ok]. destruct (run_nonces ttl es t1) as [t2 acc] eqn:Er. cbn [snd] in Hin.
    destruct ok; [apply elem_of_cons in Hin as [[= -> _]|Hin]; [eexists; split; [by left|done]|]|];
      (destruct (IH t1) as (x & Hx & Ex); [by rewrite Er|]; exists x; split; [by right|done]).
  - destruct (IH _ Hin) as (x & Hx & Ex). exists x. split; [by right|done].
Qed.

(** While its row has not expired, a nonce is not accepted. *)
Lemma nonce_blocked ttl es t nonce e : t.(pg_nonces) !! nonce = Some e ->
  forall at_, (at_, nonce) ∈ (run_nonces ttl es t).2 -> StronglySorted (fun a b => a.1 <= b.1) es -> e < at_.
Proof.
  revert t e. induction es as [|[now [n|]] es IH]; intros t e He at_ Hin Hsort.
  - by apply elem_of_nil in Hin.
  - inversion_clear Hsort as [|? ? Hs Hall]. cbn [run_nonces] in Hin. unfold pg_claim in Hin.
    destruct (t.(pg_nonces) !! n) as [e'|] eqn:En.
    + destruct (run_nonces ttl es t) as [t2 acc] eqn:Er. cbn [snd] in Hin. eapply (IH t); [done| |done]. by rewrite Er.
    + destruct (run_nonces ttl es _) as [t2 acc] eqn:Er. cbn [snd] in Hin.
      assert (n <> nonce) as Hne by congruence. apply elem_of_cons in Hin as [Heq|Hin]; [congruence|].
      eapply IH; [|by rewrite Er|done]. cbn. by rewrite lookup_insert_ne.
  - inversion_clear Hsort as [|? ? Hs Hall]. cbn [run_nonces] in Hin. destruct (Z_lt_le_dec e now) as [L|L].
    + enough (now <= at_) by lia. clear -Hin Hall. rewrite Forall_forall in Hall.
      apply accepted_at_event in Hin as (x & Hx & <-). by apply Hall.
    + eapply IH; [by apply purge_nonces_keeps|done|done].
Qed.

Lemma accepted_spaced ttl es t : StronglySorted (fun a b => a.1 <= b.1) es ->
  StronglySorted (fun a b => a.2 = b.2 -> a.1 + ttl < b.1) (run_nonces ttl es t).2.
Proof.
  revert t. induction es as [|[now [n|]] es IH]; intros t Hsort; [constructor|..]; inversion_clear Hsort as [|? ? Hs Hall]; cbn [run_nonces].
  - unfold pg_claim. destruct (t.(pg_nonces) !! n) as [e|] eqn:En.
    + specialize (IH t Hs). by destruct (run_nonces ttl es t).
    + set (t1 := {| pg_nonces := _ |}). specialize (IH t1 Hs). destruct (run_nonces ttl es t1) as [t2 acc] eqn:Er.
      constructor; [exact IH|]. apply Forall_forall. intros [at_ n'] Hin. cbn. intros <-.
      apply (nonce_blocked ttl es t1 n); [cbn; by rewrite lookup_insert_eq|by rewrite Er|done].
  - by apply IH.
Qed.

(** Also: Purging never undoes a guarantee of the stores it cleans, however purges and
    requests alternate: a replay nonce that was accepted is accepted again only after
    its lifetime is over; a lookup of an idempotency key at the time of the purge or
    later finds what it would have found without it; and of the outbox only rows that
    were published more than seven days before go, so every undelivered event is still
    there, in order. *)
Theorem purge_keeps_guarantees :
  (forall ttl es t, StronglySorted (fun a b => a.1 <= b.1) es ->
     StronglySorted (fun a b => a.2 = b.2 -> a.1 + ttl < b.1) (run_nonces ttl es t).2) /\
  (forall now later key t, now <= later -> pg_get later key (purge_idem now t) = pg_get later key t) /\
  (forall now rows, List.filter (fun r => bool_decide (r.(do_published_at) = None)) (purge_outbox now rows)
     = List.filter (fun r => bool_decide (r.(do_published_at) = None)) rows /\
     forall r, r ∈ purge_outbox now rows <-> r ∈ rows /\ forall at_, r.(do_published_at) = Some at_ -> now - SEVEN_DAYS <= at_).
Proof.
  split_and!; [intros; by apply accepted_spaced|..].
  - intros now later key t Hle. unfold pg_get. cbn.
    destruct (t.(pg_idem) !! key) as [r|] eqn:E.
    + destruct (Z_lt_le_dec (id_expires r) now) as [L|L].
      * rewrite map_lookup_filter_None_2; [|right; intros x Hx; cbn; replace x with r by congruence; lia].
        by rewrite (proj2 (Z.ltb_ge later (id_expires r))) by lia.
      * rewrite (map_lookup_filter_Some_2 _ _ _ r); [done|done|cbn; lia].
    + by rewrite map_lookup_filter_None_2 by (by left).
  - intros now rows. split.
    + unfold purge_outbox. induction rows as [|r rows IH]; [done|]. cbn [List.filter]. unfold keep_outbox at 1.
      destruct (do_published_at r) as [at_|] eqn:E; [destruct (at_ <? now - SEVEN_DAYS)|]; cbn [negb List.filter]; rewrite ?E; cbn; [exact IH|exact IH|by f_equal].
    + intros r. unfold purge_outbox. rewrite elem_of_List_filter. unfold keep_outbox. destruct (do_published_at r) as [at_|].
      * rewrite negb_true_iff, Z.ltb_ge. split; intros [H1 H2]; (split; [done|]); [intros ? [= <-]; lia|by apply H2].
      * split; intros [H1 _]; done.
Qed.

(** ** The theorems applied *)

Definition sample_event (t : Date) : SecurityEvent :=
  {| e_id := "e"; e_nodeId := None; e_at := t; severity := INFO; engine := "x"; e_type := "t"; description := ""; metadata := [] |}.
Definition sample_store : Store := mkStore ∅ [] {| pg_idem := ∅ |} {| pg_nonces := ∅ |} [].

(** Noon of 2024-02-29, and an event of the next day. *)
Lemma retention_window_witness :
  (insert_event (sample_event 1709300000000) (retention_cycle 3600000 1709208000000 1709208000000 (Some 13) sample_store).1).2 = Ok tt.
Proof.
  destruct (retention_window 3600000 1709208000000 1709208000000 13 sample_store) as (H & _).
  - split; vm_compute; [discriminate|reflexivity].
  - vm_compute. discriminate.
  - intros e He. by apply elem_of_nil in He.
  - apply H; vm_compute; [discriminate|reflexivity].
Defined.

Lemma retention_cycle_behind_utc_witness :
  (insert_event (sample_event 1709300000000) (retention_cycle (-18000000) 1709208000000 1709208000000 (Some 13) sample_store).1).2
  = Throw (PgError "23514").
Proof.
  apply retention_cycle_behind_utc.
  - split; vm_compute; [discriminate|reflexivity].
  - vm_compute. reflexivity.
  - intros H. by apply elem_of_empty in H.
Defined.
