(* ===== verification/AgentRuntime.v ===== *)
(** * The agent on the wire

    The endpoint agent of [Agent] over the control plane of [ControlPlane] and
    [Enrollment]: [RestAgentController] and [GrpcMeshRotationClient]
    ([src/services/mesh-controller/rest-agent-controller.ts],
    [grpc-rotation-client.ts]), [FileIdentitySigner]
    ([src/agents/shared/identity-signer.ts]) and the start of the agent's process
    ([src/src/runtime/agent.ts]).  The link to the control plane carries its state
    and what becomes of the coming requests, in order; when that list is used up
    the control plane is unreachable. *)

From S2P Require Import Prelude Json Text Domain Database Repositories CommandQueue Mesh ThreatResponse Certificates Rest Config Oob Fleet ControlPlane Enrollment Agent.
Open Scope Z_scope.

(** ** [agent.ts] *)

Record AgentConfig := mkAgentConfig {
  ac_nodeId : string; ac_controllerUrl : string; ac_token : string; ac_version : string; ac_intervalMs : option Q;
  ac_grpcUrl : option string; ac_identityKeyPath : option string
}.

Definition requireEnv (env : Env) (name : string) : res string :=
  match when_truthy (env name) with
  | Some v => Ok v
  | None => Throw (JsError (name +:+ " environment variable is required to run the agent"))
  end.

Definition no_platform (os : string) : exn := JsError ("no PlatformAdapter for process.platform=" +:+ os
  +:+ ". macOS/iOS/iPadOS require a native Swift NetworkExtension — see native/apple/adapter.ts.").

(** What the agent is started with; [file_exists] is [existsSync]. *)
Definition agent_config (env : Env) (os : string) (file_exists : string -> bool) : res AgentConfig :=
  match requireEnv env "BAPC_NODE_ID" with
  | Throw e => Throw e
  | Ok nodeId =>
    match requireEnv env "BAPC_CONTROLLER_URL" with
    | Throw e => Throw e
    | Ok controllerUrl =>
      match requireEnv env "BAPC_AGENT_TOKEN" with
      | Throw e => Throw e
      | Ok token =>
        if negb (String.eqb os "win32" || String.eqb os "linux") then Throw (no_platform os)
        else Ok (mkAgentConfig nodeId controllerUrl token (default "0.4.0" (env "BAPC_AGENT_VERSION"))
          (match env "BAPC_HEARTBEAT_INTERVAL_MS" with Some s => Number s | None => Some 30000%Q end)
          (when_truthy (env "BAPC_CONTROLLER_GRPC_URL"))
          (match when_truthy (env "BAPC_IDENTITY_KEY_PATH") with
           | Some path => if file_exists path then Some path else None
           | None => None
           end))
      end
    end
  end.

(** ** The link *)

Record Link := mkLinkTo { lk_app : App; lk_requests : list (Delivery * Date) }.

Definition fetch_failed : exn := JsError "fetch failed".

(** One request.  [refused] is the error for an answer the router gave before the
    handler, [failed] for one of the handler. *)
Definition over_link {A} (refused : Z -> option string -> exn) (failed : exn -> exn) (route : Date -> St App A) : St Link A := fun l =>
  match l.(lk_requests) with
  | [] => (l, Throw fetch_failed)
  | (d, t) :: rest =>
      match d with
      | Unreachable => (mkLinkTo l.(lk_app) rest, Throw fetch_failed)
      | Refused status message => (mkLinkTo l.(lk_app) rest, Throw (refused status message))
      | Lost => (mkLinkTo (route t (at_time t l.(lk_app))).1 rest, Throw fetch_failed)
      | Answered =>
          let '(a, r) := route t (at_time t l.(lk_app)) in
          (mkLinkTo a rest, match r with Ok v => Ok v | Throw e => Throw (failed e) end)
      end
  end.

(** [RestAgentController.call]: the message of the error envelope. *)
Definition rest_call {A} (path : string) (route : Date -> St App A) : St Link A :=
  over_link (fun status message => JsError (default ("agent request to " +:+ path +:+ " failed (" +:+ str_of_Z status +:+ ")") message))
    (fun e => JsError (asHttpError e).1.2) route.

Section link.
Context `{Coll : Collation} (sha256 : string -> string).
(** The body of a heartbeat at the types its handler reads it, and the
    identifiers the handler draws at a time. *)
Context (heartbeat_of : json -> Heartbeat) (draws : Date -> string * string).

Definition rest_heartbeat (input : json) : St Link (list QueuedCommand) :=
  let* reply := rest_call "/api/v1/agent/heartbeat" (fun t => heartbeat_route (draws t).1 (draws t).2 t (heartbeat_of input)) in
  mret reply.2.
Definition rest_acknowledge (id : string) (result : json) : St Link unit :=
  rest_call ("/api/v1/agent/commands/" +:+ encodeURIComponent id +:+ "/ack") (fun _ => ack_route id result).

#[export] Instance RestAgentController : AgentController Link := {
  ctl_heartbeat := rest_heartbeat;
  ctl_acknowledge := rest_acknowledge
}.

(** ** Rotating over gRPC *)

Context (relays : option (list RelayHealth)) (rsa_verify : string -> string -> string -> res bool) (rsa_sign : string -> string -> string).

(** [FileIdentitySigner.sign], for the key in the file *)
Definition identity_sign (pem nodeId newPublicKey : string) : string := rsa_sign pem (nodeId +:+ ":" +:+ newPublicKey).

(** [GrpcMeshRotationClient.rotatePeerKey]: an error of the service rejects. *)
Definition grpc_rotate (others : nat -> list KeyRotationRow) (nodeId newPublicKey signature : string) : St Link (bool * Z) :=
  let* reply := over_link (fun _ _ => JsError "UNAVAILABLE") (fun e => e)
    (fun t => ControlPlane.on_db (Enrollment.rotatePeerKey sha256 relays rsa_verify others t nodeId newPublicKey signature)) in
  match reply with
  | Reply r => mret r
  | GrpcError _ message => throw (JsError message)
  end.
End link.

(** ** Commands that end in one acknowledgement *)

Section one_request.
Context {P : Type} `{!PlatformAdapter P} `{Coll : !Collation} (sha256 : string -> string).
Context (heartbeat_of : json -> Heartbeat) (draws : Date -> string * string).
Context (nodeId : string) (hasReconciler : bool) (now : Date).
Context (rotate : option (string -> string -> string -> St Link (bool * Z))).
Context (sign : option (string -> string -> string)) (wg : string * string).

#[local] Instance controller : AgentController Link := RestAgentController heartbeat_of draws.
Notation exec_type := (execute_type (C := Link) (P := P) sha256 nodeId hasReconciler rotate sign wg now).
Notation exec := (execute (C := Link) (P := P) sha256 nodeId hasReconciler rotate sign wg now).

(** The platform decides alone whether the branch fails or ends in its
    acknowledgement, and nothing is sent before it. *)
Definition ends_in_ack (id : string) (m : St (Link * Agent P) unit) : Prop := forall a,
  (exists a' e, forall l, m (l, a) = ((l, a'), Throw e)) \/
  (exists a' r, forall l, m (l, a) = ack id (okAt now ++ r) (l, a')).

Definition off_line {A} (m : St (Link * Agent P) A) : Prop := forall a, exists a' r, forall l, m (l, a) = ((l, a'), r).

Lemma ends_bind {A} id (m : St (Link * Agent P) A) k : off_line m -> (forall x, ends_in_ack id (k x)) -> ends_in_ack id (m ≫= k).
Proof.
  intros Hm Hk a. destruct (Hm a) as (a1 & [x|e] & E).
  - destruct (Hk x a1) as [(a' & e & H)|(a' & r & H)]; [left; exists a', e|right; exists a', r]; intros l;
      unfold mbind, St_bind; by rewrite E, H.
  - left. exists a1, e. intros l. unfold mbind, St_bind. by rewrite E.
Qed.

Lemma ends_ack id r : ends_in_ack id (ack id (okAt now ++ r)).
Proof. intros a. right. by exists a, r. Qed.
Lemma ends_ack_plain id : ends_in_ack id (ack id (okAt now)).
Proof. pose proof (ends_ack id []) as H. by rewrite app_nil_r in H. Qed.
Lemma ends_throw id e : ends_in_ack id (throw e).
Proof. intros a. left. by exists a, e. Qed.
Lemma off_at_agent {A} (m : St (Agent P) A) : off_line (at_agent m).
Proof. intros a. destruct (m a) as [a' r] eqn:E. exists a', r. intros l. unfold at_agent. by rewrite E. Qed.
Lemma off_platform {A} (m : St P A) : off_line (platform m).
Proof. apply off_at_agent. Qed.
Lemma off_field k v : off_line (field k v).
Proof. intros a. by exists a, (get_prop k v). Qed.

Hint Resolve off_at_agent off_platform off_field ends_ack ends_ack_plain ends_throw : acks.

Lemma execute_type_ends c : c.(q_type) <> "ROTATE_IDENTITY_REQUIRED" -> ends_in_ack c.(q_id) (exec_type c).
Proof.
  intros Hne%String.eqb_neq. unfold execute_type. rewrite Hne.
  repeat match goal with
  | |- ends_in_ack _ (if _ then _ else _) => case_match
  | |- ends_in_ack _ (match ?x with _ => _ end) => destruct x eqn:?
  | |- ends_in_ack _ (mbind _ _) => apply ends_bind; [by auto with acks|intros]
  end; auto with acks.
Qed.

(** What the handler does with a second acknowledgement. *)
Lemma acknowledge_again id o1 o2 t2 db c :
  queue_ok db -> c ∈ db.(controller_commands) -> c.(c_id) = id -> c.(c_acknowledged) = None ->
  let db1 := (acknowledge id (JObj o1) db).1 in
  exists db2, acknowledge id (JObj o2) (set_pg_now t2 db1) = (db2, Throw unique_violation) /\
    db2.(command_acknowledgements) = db1.(command_acknowledgements) /\
    exists row, row ∈ db2.(controller_commands) /\ row.(c_id) = id /\ row.(c_result) = Some (jsonb (JObj o2)).
Proof.
  intros Hq Hc Hid Hn. cbv zeta. set (r1 := Some (jsonb (JObj o1))). set (r2 := Some (jsonb (JObj o2))).
  rewrite (acknowledge_run id (JObj o1) r1 db c eq_refl Hq Hc Hid Hn). cbn [fst].
  set (row1 := mark_acknowledged id (pg_now db) r1 c).
  assert (c_id row1 = id /\ c_node row1 = c_node c) as [Hid1 Hnode1].
  { unfold row1, mark_acknowledged. destruct (String.eqb _ _); by split. }
  unfold acknowledge. change (jsonb_param _ (JObj o2)) with (Ok r2). cbn [controller_commands set_pg_now set_command_acknowledgements set_controller_commands].
  destruct (List.find (fun c => String.eqb (c_id c) id) (map (mark_acknowledged id (pg_now db) r1) (controller_commands db))) as [d|] eqn:F.
  - apply find_elem in F as [Hd Ed]. bools. apply elem_of_List_map in Hd as (c' & -> & Hc').
    assert (c_id c' = id) as Hid' by (unfold mark_acknowledged in Ed; by destruct (String.eqb _ _)).
    assert (c' = c) as -> by (apply (command_id_inj db); [done..|congruence]). fold row1.
    cbn [command_acknowledgements set_pg_now set_command_acknowledgements set_controller_commands].
    replace (existsb _ _) with true.
    + eexists. split; [done|]. split; [done|]. exists (mark_acknowledged id t2 r2 row1). cbn. split_and!.
      * apply elem_of_List_map. exists row1. split; [done|]. apply elem_of_List_map. by exists c.
      * unfold mark_acknowledged. rewrite Hid1, String.eqb_refl. done.
      * unfold mark_acknowledged. rewrite Hid1, String.eqb_refl. done.
    + symmetry. apply existsb_elem. eexists. split; [apply elem_of_app; right; by left|]. cbn.
      by rewrite Hnode1, !String.eqb_refl.
  - exfalso. rewrite find_None_elem in F. specialize (F row1). rewrite Hid1, String.eqb_refl in F.
    enough (true = false) by done. apply F, elem_of_List_map. by exists c.
Qed.

Lemma queue_ok_at t a : queue_ok (cp_db a) -> queue_ok (cp_db (at_time t a)).
Proof. intros [H1 H2 H3]. by constructor. Qed.

(** One answered acknowledgement of a waiting command. *)
Lemma rest_acknowledge_answered id o app t rest c :
  let result := JObj o in
  queue_ok (cp_db app) -> c ∈ (cp_db app).(controller_commands) -> c.(c_id) = id -> c.(c_acknowledged) = None ->
  exists db', rest_acknowledge id result (mkLinkTo app ((Answered, t) :: rest)) =
    (mkLinkTo (mkApp db' (cp_signals app) (cp_relays app) (cp_egress app) (cp_oob app)) rest, Ok tt) /\
    acknowledge id result (set_pg_now t (cp_db app)) = (db', Ok tt) /\
    db'.(command_acknowledgements) = (cp_db app).(command_acknowledgements) ++
      [mkAck id c.(c_node) c.(c_type) c.(c_issued) t (ack_status result) (jsonb result)].
Proof.
  intros result Hq Hc Hid Hn.
  pose proof (acknowledge_run id result (Some (jsonb result)) (set_pg_now t (cp_db app)) c eq_refl (queue_ok_at t app Hq) Hc Hid Hn) as E.
  eexists. split; [|split; [exact E|reflexivity]].
  unfold rest_acknowledge, rest_call, over_link. cbn [lk_requests lk_app].
  unfold ack_route, ControlPlane.on_db. cbn [cp_db at_time]. by rewrite E.
Qed.

(** Also: When the acknowledgement arrives and its answer comes back, executing a
    command (other than a rotation) sends exactly this one request and records
    exactly one acknowledgement: SUCCEEDED when the command's branch went through on
    the machine, FAILED when it did not. *)
Theorem command_reported_over_link c app t rest a row :
  c.(q_type) <> "ROTATE_IDENTITY_REQUIRED" -> queue_ok (cp_db app) ->
  row ∈ (cp_db app).(controller_commands) -> row.(c_id) = c.(q_id) -> row.(c_acknowledged) = None ->
  exists l a' status details, exec c (mkLinkTo app ((Answered, t) :: rest), a) = ((l, a'), Ok tt) /\ l.(lk_requests) = rest /\
    (cp_db l.(lk_app)).(command_acknowledgements) = (cp_db app).(command_acknowledgements) ++
      [mkAck c.(q_id) row.(c_node) row.(c_type) row.(c_issued) t status details] /\
    (status = "SUCCEEDED" <-> (exec_type c (mkLinkTo app ((Answered, t) :: rest), a)).2 = Ok tt) /\
    (status = "SUCCEEDED" \/ status = "FAILED").
Proof.
  intros Hne Hq Hrow Hid Hn. unfold execute, try_catch. destruct (execute_type_ends c Hne a) as [(a' & e & H)|(a' & r & H)]; rewrite H.
  - destruct (rest_acknowledge_answered c.(q_id) [("ok", JBool false); ("error", JStr (exn_message e))] app t rest row Hq Hrow Hid Hn)
      as (db' & E & _ & Ha).
    unfold ack, at_controller. cbn [ctl_acknowledge controller RestAgentController]. rewrite E.
    eexists _, a', "FAILED", _. split; [reflexivity|]. split_and!; [done|exact Ha|done|by right].
  - destruct (rest_acknowledge_answered c.(q_id) (okAt now ++ r) app t rest row Hq Hrow Hid Hn) as (db' & E & _ & Ha).
    unfold ack, at_controller. cbn [ctl_acknowledge controller RestAgentController]. rewrite E.
    eexists _, a', "SUCCEEDED", _. split; [reflexivity|]. split_and!; [done|exact Ha|done|by left].
Qed.

(** Also: When the control plane records a success and its answer is lost, the agent
    contradicts it and ends.  The lost answer looks to the agent like a failed
    command, so it acknowledges the command again as failed; the handler overwrites
    the stored result with that failure and then refuses the second acknowledgement,
    and that error leaves the agent's loop.  The acknowledgement table says
    SUCCEEDED, the command's result says it failed, and the command was applied. *)
Theorem lost_answer_contradicts c app t1 t2 rest a row :
  c.(q_type) <> "ROTATE_IDENTITY_REQUIRED" -> queue_ok (cp_db app) ->
  row ∈ (cp_db app).(controller_commands) -> row.(c_id) = c.(q_id) -> row.(c_acknowledged) = None ->
  (exec_type c (mkLinkTo app [(Answered, t1)], a)).2 = Ok tt ->
  exists l a' e, exec c (mkLinkTo app ((Lost, t1) :: (Answered, t2) :: rest), a) = ((l, a'), Throw e) /\
    let db := cp_db l.(lk_app) in
    (exists details, db.(command_acknowledgements) = (cp_db app).(command_acknowledgements) ++
       [mkAck c.(q_id) row.(c_node) row.(c_type) row.(c_issued) t1 "SUCCEEDED" details]) /\
    (exists row', row' ∈ db.(controller_commands) /\ row'.(c_id) = c.(q_id) /\
       row'.(c_result) = Some (jsonb (JObj [("ok", JBool false); ("error", JStr "fetch failed")]))).
Proof.
  intros Hne Hq Hrow Hid Hn Hok. destruct (execute_type_ends c Hne a) as [(a' & e & H)|(a' & r & H)]; [by rewrite H in Hok|].
  clear Hok. unfold execute, try_catch. rewrite H. clear H.
  destruct (rest_acknowledge_answered c.(q_id) (okAt now ++ r) app t1 [] row Hq Hrow Hid Hn) as (db1 & _ & E1 & Ha).
  unfold ack, at_controller. cbn [ctl_acknowledge controller RestAgentController].
  unfold rest_acknowledge at 1, rest_call at 1, over_link at 1. cbn [lk_requests lk_app].
  unfold ack_route at 1, ControlPlane.on_db at 1. cbn [cp_db at_time]. rewrite E1. cbn [fst].
  destruct (acknowledge_again c.(q_id) (okAt now ++ r) [("ok", JBool false); ("error", JStr "fetch failed")] t2
    (set_pg_now t1 (cp_db app)) row (queue_ok_at t1 app Hq) Hrow Hid Hn) as (db2 & E2 & Hacks & row' & Hr).
  rewrite E1 in E2, Hacks. cbn [fst] in E2, Hacks.
  unfold rest_acknowledge, rest_call, over_link. cbn [lk_requests lk_app].
  change (exn_message fetch_failed) with "fetch failed". unfold ack_route, ControlPlane.on_db. cbn [cp_db at_time]. rewrite E2.
  eexists _, a', _. split; [reflexivity|]. cbn [lk_app cp_db]. split; [|by exists row'].
  exists (jsonb (JObj (okAt now ++ r))). by rewrite Hacks.
Qed.
End one_request.

(** ** Rotating the key *)

Definition nodes_of (l : Link) : gmap string MeshNode := (cp_db l.(lk_app)).(mesh_nodes).

Lemma rest_acknowledge_nodes id result l : nodes_of (rest_acknowledge id result l).1 = nodes_of l.
Proof.
  assert (forall a, (cp_db (ack_route id result a).1).(mesh_nodes) = (cp_db a).(mesh_nodes)) as H.
  { intros a. unfold ack_route, ControlPlane.on_db, acknowledge. destruct (jsonb_param _ _); [|done]. destruct (List.find _ _); [|done]. by destruct (existsb _ _). }
  unfold nodes_of, rest_acknowledge, rest_call, over_link. destruct (lk_requests l) as [|[[] t] rest]; try done.
  - cbn. by rewrite H.
  - specialize (H (at_time t (lk_app l))). destruct (ack_route id result (at_time t (lk_app l))) as [a' [|]]; exact H.
Qed.

Section rotation.
Context {P : Type} `{!PlatformAdapter P} `{Coll : !Collation} (sha256 : string -> string).
Context (heartbeat_of : json -> Heartbeat) (draws : Date -> string * string).
Context (nodeId : string) (hasReconciler : bool) (now : Date) (wg : string * string).
Context (relays : option (list RelayHealth)) (rsa_verify : string -> string -> string -> res bool) (rsa_sign : string -> string -> string).
Context (others : nat -> list KeyRotationRow) (pem : string).

#[local] Instance rotation_controller : AgentController Link := RestAgentController heartbeat_of draws.
Notation exec := (execute (C := Link) (P := P) sha256 nodeId hasReconciler (Some (grpc_rotate sha256 relays rsa_verify others))
  (Some (identity_sign rsa_sign pem)) wg now).

Lemma ack_keeps id r l (a : Agent P) : nodes_of (ack id r (l, a)).1.1 = nodes_of l /\ (ack id r (l, a)).1.2 = a.
Proof.
  unfold ack, at_controller. cbn [ctl_acknowledge rotation_controller RestAgentController].
  pose proof (rest_acknowledge_nodes id (JObj r) l) as H. by destruct (rest_acknowledge id (JObj r) l).
Qed.

Notation rotate_rpc t := (Enrollment.rotatePeerKey sha256 relays rsa_verify others t nodeId wg.1 (identity_sign rsa_sign pem nodeId wg.1)).
Notation after db app := (mkApp db (cp_signals app) (cp_relays app) (cp_egress app) (cp_oob app)).

Lemma grpc_rotate_run (d : Delivery) app t rest db' r :
  rotate_rpc t (set_pg_now t (cp_db app)) = (db', Ok (Reply r)) -> d = Answered \/ d = Lost ->
  grpc_rotate sha256 relays rsa_verify others nodeId wg.1 (identity_sign rsa_sign pem nodeId wg.1) (mkLinkTo app ((d, t) :: rest))
  = (mkLinkTo (after db' app) rest, match d with Answered => Ok r | _ => Throw fetch_failed end).
Proof.
  intros E Hd. unfold grpc_rotate, over_link, mbind, St_bind. cbn [lk_requests lk_app].
  unfold ControlPlane.on_db. cbn [cp_db at_time]. rewrite E. by destruct Hd as [-> | ->].
Qed.

(** The branch of the [switch]. *)
Lemma rotation_branch c : c.(q_type) = "ROTATE_IDENTITY_REQUIRED" ->
  execute_type (C := Link) (P := P) sha256 nodeId hasReconciler (Some (grpc_rotate sha256 relays rsa_verify others))
    (Some (identity_sign rsa_sign pem)) wg now c =
  (let* result := at_controller (grpc_rotate sha256 relays rsa_verify others nodeId wg.1 (identity_sign rsa_sign pem nodeId wg.1)) in
   (if (result.1 : bool) then mret tt else throw (JsError "mesh rejected the identity rotation")) ;;;
   platform (rotatePrivateKey wg.2) ;;;
   ack c.(q_id) (okAt now ++ [("newPublicKey", JStr wg.1); ("effectiveEpoch", JNum result.2)])).
Proof. intros Hc. unfold execute_type. by rewrite Hc. Qed.

(** Reporting a failure changes neither the nodes nor the machine. *)
Lemma failure_keeps (m : St (Link * Agent P) unit) id s l (a : Agent P) :
  (m s).1 = (l, a) ->
  let o := (try_catch m (fun e => ack id [("ok", JBool false); ("error", JStr (exn_message e))]) s).1 in
  nodes_of o.1 = nodes_of l /\ o.2 = a.
Proof.
  unfold try_catch. destruct (m s) as [[l' a'] [[]|e]]; cbn [fst]; intros [= -> ->]; [done|]. apply ack_keeps.
Qed.

(** C31: A rotation changes the record before the machine, and does not undo it.  Once
    the control plane has accepted a rotation the agent signed with the node's
    identity key, its record holds the new public key whatever happens afterwards.
    When the answer arrives, the machine is in the state the adapter's key change
    leaves, also when that failed; when the answer is lost, the machine has not been
    touched at all: in both cases the peers are configured for a key the node does
    not use. *)
Theorem rotation_changes_record_first c app t rest a db' epoch :
  c.(q_type) = "ROTATE_IDENTITY_REQUIRED" -> db_ok (cp_db app) ->
  Enrollment.rotatePeerKey sha256 relays rsa_verify others t nodeId wg.1 (identity_sign rsa_sign pem nodeId wg.1)
    (set_pg_now t (cp_db app)) = (db', Ok (Reply (true, epoch))) ->
  (let o := (exec c (mkLinkTo app ((Answered, t) :: rest), a)).1 in
   (exists n', nodes_of o.1 !! nodeId = Some n' /\ n'.(wireGuardPublicKey) = wg.1) /\
   ag_platform o.2 = (rotatePrivateKey wg.2 (ag_platform a)).1) /\
  (let o := (exec c (mkLinkTo app ((Lost, t) :: rest), a)).1 in
   (exists n', nodes_of o.1 !! nodeId = Some n' /\ n'.(wireGuardPublicKey) = wg.1) /\ ag_platform o.2 = ag_platform a).
Proof.
  intros Hc Hok E. assert (db_ok (set_pg_now t (cp_db app))) as Hok' by (destruct Hok; by constructor).
  destruct (rotation_stored _ _ _ _ _ _ _ _ _ _ _ Hok' E) as [(n' & Hn & Hkey) _].
  assert (forall l, nodes_of l = db'.(mesh_nodes) -> exists n', nodes_of l !! nodeId = Some n' /\ n'.(wireGuardPublicKey) = wg.1) as Hfound.
  { intros l ->. exists n'. by rewrite Hn, lookup_insert_eq. }
  unfold execute. rewrite (rotation_branch c Hc).
  assert (forall d, d = Answered \/ d = Lost -> at_controller (P := P) (grpc_rotate sha256 relays rsa_verify others nodeId wg.1
      (identity_sign rsa_sign pem nodeId wg.1)) (mkLinkTo app ((d, t) :: rest), a) =
    ((mkLinkTo (after db' app) rest, a), match d with Answered => Ok (true, epoch) | _ => Throw fetch_failed end)) as Er.
  { intros d Hd. unfold at_controller. by rewrite (grpc_rotate_run d app t rest db' (true, epoch) E Hd). }
  split; cbv zeta.
  - set (m := mbind _ _).
    assert (exists l, nodes_of l = db'.(mesh_nodes) /\ (m (mkLinkTo app ((Answered, t) :: rest), a)).1 =
      (l, mkAgent (rotatePrivateKey wg.2 (ag_platform a)).1 (ag_revision a))) as (l & Hl & El).
    { unfold m. rewrite (bind_ok _ _ _ _ _ (Er Answered ltac:(by left))). cbn [fst].
      unfold mret, St_ret, mbind at 1, St_bind at 1. unfold mbind, St_bind, platform, at_agent, on_platform.
      destruct (rotatePrivateKey wg.2 (ag_platform a)) as [p [[]|e]]; [|by exists (mkLinkTo (after db' app) rest)].
      destruct (ack_keeps c.(q_id) (okAt now ++ [("newPublicKey", JStr wg.1); ("effectiveEpoch", JNum (true, epoch).2)])
        (mkLinkTo (after db' app) rest) (mkAgent p (ag_revision a))) as [H1 H2].
      destruct (ack _ _ _) as [[l2 a2] r]. cbn [fst snd] in *. subst a2. by exists l2. }
    destruct (failure_keeps m c.(q_id) _ _ _ El) as [H1 H2]. split; [apply Hfound; by rewrite H1|by rewrite H2].
  - set (m := mbind _ _).
    assert ((m (mkLinkTo app ((Lost, t) :: rest), a)).1 = (mkLinkTo (after db' app) rest, a)) as El.
    { unfold m. by rewrite (bind_throw _ _ _ _ _ (Er Lost ltac:(by right))). }
    destruct (failure_keeps m c.(q_id) _ _ _ El) as [H1 H2]. split; [apply Hfound; by rewrite H1|by rewrite H2].
Qed.
End rotation.

(** ** The theorems applied *)

Definition agent_app (db : Db) : App := mkApp db [] ∅ ∅ ([], mkLink true ∅).
Definition no_heartbeat (_ : json) : Heartbeat := {| h_nodeId := "n1"; h_at := 0; h_posture := enrolled_posture 0; h_agentVersion := "" |}.
Definition no_draws (_ : Date) : string * string := ("i", "e").
Definition queued_db : Db := (enqueue "n1" "RESTORE" (JObj []) 200 60 CommandQueue.sample_db).1.
Definition restore_command : QueuedCommand := {| q_id := "1"; q_type := "RESTORE"; q_payload := JObj [] |}.
Definition rotate_command : QueuedCommand := {| q_id := "1"; q_type := "ROTATE_IDENTITY_REQUIRED"; q_payload := JObj [] |}.

Lemma queued_db_ok : queue_ok queued_db.
Proof. apply enqueue_queue_ok. destruct (empty_queue_ok 1000). by constructor. Qed.

#[local] Existing Instance code_point_collation.
#[local] Instance sample_controller : AgentController Link := RestAgentController no_heartbeat no_draws.
Notation sample_exec c := (execute (C := Link) (P := Machine) (fun x => x) "n1" true None None ("pub", "priv") 1000 c).

Lemma command_reported_over_link_witness :
  (sample_exec restore_command (mkLinkTo (agent_app queued_db) [(Answered, 2000)], tampered)).2 = Ok tt.
Proof.
  destruct (command_reported_over_link (P := Machine) (fun x => x) no_heartbeat no_draws "n1" true 1000 None None ("pub", "priv") restore_command
    (agent_app queued_db) 2000 [] tampered (new_command "n1" "RESTORE" (JObj []) 200 60 CommandQueue.sample_db)) as (l & a' & st & d & E & _).
  - discriminate.
  - exact queued_db_ok.
  - vm_compute. left.
  - vm_compute. reflexivity.
  - reflexivity.
  - exact (f_equal snd E).
Defined.

Lemma lost_answer_contradicts_witness :
  exists s e, sample_exec restore_command (mkLinkTo (agent_app queued_db) [(Lost, 2000); (Answered, 3000)], tampered) = (s, Throw e).
Proof.
  destruct (lost_answer_contradicts (P := Machine) (fun x => x) no_heartbeat no_draws "n1" true 1000 None None ("pub", "priv") restore_command
    (agent_app queued_db) 2000 3000 [] tampered (new_command "n1" "RESTORE" (JObj []) 200 60 CommandQueue.sample_db)) as (l & a' & e & E & _).
  - discriminate.
  - exact queued_db_ok.
  - vm_compute. left.
  - vm_compute. reflexivity.
  - reflexivity.
  - vm_compute. reflexivity.
  - exists (l, a'), e. exact E.
Defined.

(** A signature that names its message and its key. *)
Definition toy_sign (pem m : string) : string := pem +:+ "|" +:+ m.
Definition toy_verify (m pem s : string) : res bool := Ok (String.eqb s (toy_sign pem m)).

Lemma rotation_changes_record_first_witness :
  exists n', nodes_of (execute (C := Link) (P := Machine) (fun x => x) "n1" true
      (Some (grpc_rotate (fun x => x) None toy_verify (fun _ => []))) (Some (identity_sign toy_sign "PEM")) ("key2", "priv") 1000 rotate_command
      (mkLinkTo (agent_app identity_db) [(Lost, 2000)], tampered)).1.1 !! "n1" = Some n' /\ n'.(wireGuardPublicKey) = "key2".
Proof.
  destruct (Enrollment.rotatePeerKey (fun x => x) None toy_verify (fun _ => []) 2000 "n1" "key2" (identity_sign toy_sign "PEM" "n1" "key2")
    (set_pg_now 2000 identity_db)) as [db' r] eqn:E.
  assert (r = Ok (Reply (true, 1))) as -> by (apply (f_equal snd) in E; cbn [snd] in E; rewrite <- E; vm_compute; reflexivity).
  destruct (rotation_changes_record_first (P := Machine) (fun x => x) no_heartbeat no_draws "n1" true 1000 ("key2", "priv") None toy_verify toy_sign
    (fun _ => []) "PEM" rotate_command (agent_app identity_db) 2000 [] tampered db' 1 eq_refl identity_db_ok E) as [_ [H _]].
  exact H.
Defined.
