(* ===== verification/Cloud.v ===== *)
(** * AWS: secrets and the relay fleet

    [hydrateSecretsFromAws] ([src/src/infrastructure/aws-secrets.ts]),
    [AwsEc2RelayProvisioner] and [loadRelayFleet]
    ([src/services/relay-fleet/]), with the environment a launched relay's
    process gets.  Secrets Manager and EC2 are parameters: what a request
    returns, and for EC2 the state of the account, which the requests change. *)

From S2P Require Import Prelude Json Text Domain Words Database Native Repositories AuditChain Mesh Relay Egress Oob Config Fleet EnvFile ControlPlane.
Open Scope Z_scope.

(** ** [aws-secrets.ts] *)

Notation Environment := (gmap string string).
Definition read_env (env : Environment) : Env := fun k => env !! k.

(** [Object.entries(v)] *)
Definition object_entries (v : json) : res (list (string * json)) :=
  match v with
  | JObj l => Ok l
  | JArr l => Ok (imap (fun i x => (str_of_Z (Z.of_nat i), x)) l)
  | JStr s => Ok (imap (fun i c => (str_of_Z (Z.of_nat i), JStr (String c ""))) (list_ascii_of_string s))
  | JNull => Throw (JsError "Cannot convert undefined or null to object")
  | _ => Ok []
  end.

Definition apply_secret (env : Environment) (kv : string * json) : Environment :=
  match kv.2 with
  | JStr value => if truthy (default "" (env !! kv.1)) then env else <[kv.1 := value]> env
  | _ => env
  end.

(** [send] is [secretsClient.send(new GetSecretValueCommand(...))], its
    [SecretString]; [parse] is [JSON.parse]. *)
Definition hydrateSecretsFromAws (send : string -> res (option string)) (parse : string -> res json) (env : Environment) : res Environment :=
  match when_truthy (env !! "AWS_SECRETS_MANAGER_SECRET_ID") with
  | None => Ok env
  | Some secretId =>
      match send secretId with
      | Throw e => Throw e
      | Ok result =>
          match when_truthy result with
          | None => Throw (JsError ("AWS Secrets Manager secret " +:+ quoted secretId +:+ " has no SecretString"))
          | Some text =>
              match parse text with
              | Throw _ => Throw (JsError ("AWS Secrets Manager secret " +:+ quoted secretId
                  +:+ " is not a JSON object of key/value secrets"))
              | Ok v =>
                  match object_entries v with
                  | Throw e => Throw e
                  | Ok entries => Ok (fold_left apply_secret entries env)
                  end
              end
          end
      end
  end.

(** ** [aws-ec2-relay-provisioner.ts] *)

Record ProvisionerConfig := mkProvisioner {
  pc_amiId : string; pc_relayPort : string; pc_subnetId : option string; pc_securityGroupIds : option (list string);
  pc_keyName : option string; pc_pollAttempts : option nat; pc_pollIntervalMs : option nat
}.

(** What [RunInstancesCommand] carries. *)
Record RunInstances := mkRunInstances {
  ri_imageId : string; ri_instanceType : string; ri_minCount : Z; ri_maxCount : Z; ri_userData : string;
  ri_tags : list (string * string); ri_subnetId : option string; ri_securityGroupIds : option (list string); ri_keyName : option string
}.

(** The file the boot script writes, and the script. *)
Definition relay_env_file (relayPort : string) : string :=
  "RELAY_PORT=" +:+ relayPort +:+ nl +:+ "RELAY_BIND_HOST=0.0.0.0" +:+ nl.
Definition buildUserData (relayPort : string) : string :=
  "#!/bin/bash" +:+ nl +:+ "set -e" +:+ nl +:+ "mkdir -p /etc/bapc" +:+ nl +:+ "cat > /etc/bapc/relay.env <<EOF" +:+ nl
  +:+ relay_env_file relayPort +:+ "EOF" +:+ nl
  +:+ "systemctl restart bapc-relay || { echo " 
  +:+ quoted "bapc-relay.service not found — this AMI must have the relay pre-installed, see docs/RELAY-FLEET-AMI.md" +:+ " >&2; exit 1; }" +:+ nl.

Section ec2.
(** The account, and the three requests. *)
Context {E : Type} (run_instances : RunInstances -> St E (option string)) (describe : string -> St E (option string))
  (terminate_instances : string -> St E unit) (base64 : string -> string).
Context (config : ProvisionerConfig).

Record RelayInstance := mkInstance { in_id : string; in_region : string; in_publicIp : string; in_endpoint : string }.

(** [`${ms/1000}`] for a number of milliseconds *)
Definition seconds_text (ms : Z) : string :=
  str_of_Z (ms / 1000) +:+
  (let r := ms mod 1000 in
   if r =? 0 then "" else if r mod 100 =? 0 then "." +:+ str_of_Z (r / 100)
   else if r mod 10 =? 0 then "." +:+ (if r <? 100 then "0" else "") +:+ str_of_Z (r / 10)
   else "." +:+ (if r <? 10 then "00" else if r <? 100 then "0" else "") +:+ str_of_Z r).

Definition no_public_ip (instanceId : string) : exn :=
  JsError ("relay instance " +:+ instanceId +:+ " did not receive a public IP within "
    +:+ seconds_text (Z.of_nat (default 30%nat config.(pc_pollAttempts)) * Z.of_nat (default 2000%nat config.(pc_pollIntervalMs)))
    +:+ "s — check its subnet has auto-assign public IP enabled").

(** The loop of [pollForPublicIp]. *)
Fixpoint poll (attempts : nat) (instanceId : string) : St E string :=
  match attempts with
  | O => throw (no_public_ip instanceId)
  | S n =>
      let* ip := describe instanceId in
      match when_truthy ip with
      | Some ip => mret ip
      | None => poll n instanceId
      end
  end.
Definition pollForPublicIp (instanceId : string) : St E string := poll (default 30%nat config.(pc_pollAttempts)) instanceId.

Definition launch_command (instanceType : string) : RunInstances :=
  mkRunInstances config.(pc_amiId) instanceType 1 1 (base64 (buildUserData config.(pc_relayPort)))
    [("Name", "bapc-relay"); ("bapc:managed", "true"); ("bapc:role", "relay")]
    (when_truthy config.(pc_subnetId)) config.(pc_securityGroupIds) (when_truthy config.(pc_keyName)).

Definition launch (where_ instanceType : string) : St E RelayInstance :=
  let* result := run_instances (launch_command instanceType) in
  match when_truthy result with
  | None => throw (JsError "AWS EC2 did not return an instance id for the new relay")
  | Some instanceId =>
      let* publicIp := pollForPublicIp instanceId in
      mret (mkInstance instanceId where_ publicIp (publicIp +:+ ":" +:+ config.(pc_relayPort)))
  end.

Definition ec2_terminate (instanceId : string) : St E unit := terminate_instances instanceId.
End ec2.

(** ** [load-relay-fleet.ts] *)

(** The configuration and the region of the client; [number_text] is the text of
    [Number(env.RELAY_PORT??51900)]. *)
Definition loadRelayFleet (number_text : option string -> string) (env : Environment) : option (ProvisionerConfig * string) :=
  match when_truthy (env !! "AWS_RELAY_AMI_ID"),
        when_truthy (match env !! "AWS_RELAY_REGION" with Some r => Some r | None => env !! "AWS_REGION" end) with
  | Some amiId, Some where_ =>
      Some (mkProvisioner amiId (number_text (env !! "RELAY_PORT")) (when_truthy (env !! "AWS_RELAY_SUBNET_ID"))
        (split_on "," <$> when_truthy (env !! "AWS_RELAY_SECURITY_GROUP_IDS")) (when_truthy (env !! "AWS_RELAY_KEY_NAME")) None None, where_)
  | _, _ => None
  end.

(** ** What hydration changes *)

Lemma apply_secrets_spec entries env k :
  let env' := fold_left apply_secret entries env in
  (truthy (default "" (env !! k)) = true -> env' !! k = env !! k) /\
  (env' !! k = env !! k \/ exists value, (k, JStr value) ∈ entries /\ env' !! k = Some value).
Proof.
  revert env. induction entries as [|[k0 v0] entries IH]; intros env; [split; [done|by left]|]. cbn [fold_left].
  assert (apply_secret env (k0, v0) !! k = env !! k \/
    exists value, v0 = JStr value /\ k0 = k /\ truthy (default "" (env !! k)) = false /\ apply_secret env (k0, v0) !! k = Some value) as H.
  { unfold apply_secret. cbn [fst snd]. destruct v0; try by left. destruct (truthy (default "" (env !! k0))) eqn:E; [by left|].
    destruct (decide (k0 = k)) as [->|Hne]; [right; eexists; by rewrite lookup_insert_eq|left; by rewrite lookup_insert_ne]. }
  destruct (IH (apply_secret env (k0, v0))) as [I1 I2]. cbv zeta in I1, I2 |- *. split.
  - intros Ht. destruct H as [H|(value & _ & _ & H & _)]; [|congruence]. rewrite H in I1. by rewrite I1.
  - destruct I2 as [I2|(value & Hin & I2)]; [|right; exists value; split; [by right|done]]. rewrite I2.
    destruct H as [H|(value & -> & -> & _ & H)]; [by left|]. right. exists value. split; [by left|done].
Qed.

(** Also: Loading secrets never overrides a variable that has a value, and invents
    nothing: without a secret id the environment is unchanged; otherwise a variable
    that is set and not empty keeps its value, and a variable that changed has the
    value of an entry of the secret with its name.  A variable that is set to the
    empty string is not kept. *)
Theorem hydration_keeps_values send parse env env' :
  hydrateSecretsFromAws send parse env = Ok env' ->
  (when_truthy (env !! "AWS_SECRETS_MANAGER_SECRET_ID") = None -> env' = env) /\
  (forall k v, env !! k = Some v -> v <> "" -> env' !! k = Some v) /\
  (forall k, env' !! k <> env !! k -> exists secretId text v entries value,
     send secretId = Ok (Some text) /\ parse text = Ok v /\ object_entries v = Ok entries /\
     (k, JStr value) ∈ entries /\ env' !! k = Some value).
Proof.
  unfold hydrateSecretsFromAws. destruct (when_truthy (env !! "AWS_SECRETS_MANAGER_SECRET_ID")) as [secretId|];
    [|intros [= <-]; split_and!; done].
  destruct (send secretId) as [result|] eqn:Es; [|done]. destruct (when_truthy result) as [text|] eqn:Et; [|done].
  destruct (parse text) as [v|] eqn:Ep; [|done]. destruct (object_entries v) as [entries|] eqn:Eo; [|done]. intros [= <-].
  split_and!; [done|..].
  - intros k w Hk Hw. destruct (apply_secrets_spec entries env k) as [H _]. rewrite H; [done|]. rewrite Hk. cbn. by apply truthy_spec.
  - intros k Hne. destruct (apply_secrets_spec entries env k) as [_ [H|(value & Hin & H)]]; [done|].
    exists secretId, text, v, entries, value. split_and!; try done. rewrite Es. f_equal.
    unfold when_truthy in Et. by destruct (truthy_opt result).
Qed.

(** ** What a launch leaves in the account *)

Section account.
Context {E : Type} (run_instances : RunInstances -> St E (option string)) (describe : string -> St E (option string)) (base64 : string -> string).
Context (config : ProvisionerConfig) (running : E -> gset string).
(** EC2: a launched instance is new and runs; a refused launch and a description
    change nothing. *)
Context (run_adds : forall cmd e, match run_instances cmd e with
  | (e', Ok (Some id)) => id ∉ running e /\ running e' = {[id]} ∪ running e
  | (e', _) => running e' = running e
  end).
Context (describe_reads : forall id e, running (describe id e).1 = running e).

Notation launch := (launch run_instances describe base64 config).

Lemma poll_keeps n id e : running (poll describe config n id e).1 = running e.
Proof using describe_reads.
  revert e. induction n as [|n IH]; intros e; [done|]. cbn [poll]. unfold mbind, St_bind. specialize (describe_reads id e).
  destruct (describe id e) as [e1 [ip|err]]; cbn [fst] in describe_reads |- *; [|done].
  destruct (when_truthy ip); [done|]. by rewrite IH.
Qed.

(** Also: Whatever EC2 answers, a launch adds at most one instance to the account; one
    that returns names the new instance, its region and an endpoint at the address
    EC2 reported. *)
Theorem launch_adds_at_most_one where_ t e :
  match launch where_ t e with
  | (e', Ok i) => i.(in_id) ∉ running e /\ running e' = {[i.(in_id)]} ∪ running e /\ i.(in_region) = where_ /\
      i.(in_endpoint) = i.(in_publicIp) +:+ ":" +:+ config.(pc_relayPort)
  | (e', Throw _) => running e' = running e \/ exists id, id ∉ running e /\ running e' = {[id]} ∪ running e
  end.
Proof using run_adds describe_reads.
  unfold Cloud.launch, mbind, St_bind. specialize (run_adds (launch_command base64 config t) e).
  destruct (run_instances (launch_command base64 config t) e) as [e1 [[id|]|err]]; [|by left..].
  destruct run_adds as [Hnew Hrun]. cbn [when_truthy]. unfold when_truthy. cbn [truthy_opt].
  destruct (truthy id); [|right; by exists id].
  pose proof (poll_keeps (default 30%nat (pc_pollAttempts config)) id e1) as Hp. unfold pollForPublicIp.
  destruct (poll describe config _ id e1) as [e2 [ip|err]]; cbn [fst] in Hp.
  - cbn. by rewrite Hp.
  - right. exists id. by rewrite Hp.
Qed.

(** A launch without a public address. *)
Lemma poll_without_ip n id e : (forall e, (describe id e).2 = Ok None) -> (poll describe config n id e).2 = Throw (no_public_ip config id).
Proof using.
  intros Hd. revert e. induction n as [|n IH]; intros e; [done|]. cbn [poll]. unfold mbind, St_bind. specialize (Hd e).
  destruct (describe id e) as [e1 r]. cbn [snd] in Hd. subst r. apply IH.
Qed.

Context `{Coll : Collation} (sha256 : string -> string) (relayFleet : option string).

(** Also: A launch that ends without a public address leaks its instance.  When EC2
    starts an instance and never reports an address for it, the launch throws after
    its bounded number of polls, the new instance stays running, and the provisioning
    route throws without recording the instance in any relay row or in the audit
    log: nothing in the control plane can terminate it. *)
Theorem timed_out_launch_leaks where_ t e id e1 d who w2 t2 (a : App) :
  run_instances (launch_command base64 config t) e = (e1, Ok (Some id)) -> id <> "" -> (forall e, (describe id e).2 = Ok None) ->
  let '(e', r) := launch where_ t e in
  r = Throw (no_public_ip config id) /\ id ∈ running e' /\ id ∉ running e /\
  (d.(dw_launch) = Throw (no_public_ip config id) -> exists err, provision_route sha256 relayFleet d who w2 t2 a = (a, Throw err)).
Proof using run_adds describe_reads.
  intros Er Hid Hd.
  assert ((launch where_ t e).2 = Throw (no_public_ip config id)) as Ht.
  { unfold Cloud.launch, mbind, St_bind. rewrite Er. unfold when_truthy. cbn [truthy_opt]. apply truthy_spec in Hid as ->.
    unfold pollForPublicIp. pose proof (poll_without_ip (default 30%nat (pc_pollAttempts config)) id e1 Hd) as Hp.
    destruct (poll describe config _ id e1) as [e2 r]. cbn [snd] in Hp. by subst r. }
  assert (running (launch where_ t e).1 = {[id]} ∪ running e /\ id ∉ running e) as [Hr Hn].
  { specialize (run_adds (launch_command base64 config t) e). rewrite Er in run_adds. destruct run_adds as [Hnew Hrun]. split; [|done].
    unfold Cloud.launch, mbind, St_bind. rewrite Er. unfold when_truthy. cbn [truthy_opt]. apply truthy_spec in Hid as ->.
    unfold pollForPublicIp. pose proof (poll_keeps (default 30%nat (pc_pollAttempts config)) id e1) as Hp.
    destruct (poll describe config _ id e1) as [e2 [ip|err]]; cbn [fst] in Hp; cbn; by rewrite Hp. }
  destruct (launch where_ t e) as [e' r]. cbn [fst snd] in *. subst r. split_and!; [done|set_solver|done|].
  intros Ed. unfold provision_route. destruct relayFleet; [|by eexists]. unfold lift_res, mbind, St_bind. rewrite Ed. by eexists.
Qed.
End account.

(** Also: The region of a provisioning request is a label.  What is sent to EC2, in
    the region the client was built for, does not depend on it: with another region
    the same instance is started and only the recorded name differs. *)
Theorem requested_region_is_a_label {E} (run_instances : RunInstances -> St E (option string)) describe base64 config w w' t e :
  launch run_instances describe base64 config w' t e =
  (fun o => (o.1, match o.2 with
     | Ok i => Ok (mkInstance i.(in_id) w' i.(in_publicIp) i.(in_endpoint))
     | Throw err => Throw err end)) (launch run_instances describe base64 config w t e).
Proof.
  unfold launch, mbind, St_bind. destruct (run_instances (launch_command base64 config t) e) as [e1 [result|err]]; [|done].
  destruct (when_truthy result) as [id|]; [|done]. by destruct (pollForPublicIp describe config id e1) as [e2 [ip|err]].
Qed.

(** ** A launched relay *)

(** The environment the service of a launched instance starts with: the file the
    boot script wrote. *)
Definition unit_env (relayPort : string) : Env := fun k => env_value k (relay_env_file relayPort).

Lemma unit_env_has relayPort k : on_one_line relayPort = true -> env_key k = true -> k <> "RELAY_PORT" -> k <> "RELAY_BIND_HOST" ->
  unit_env relayPort k = None.
Proof.
  intros Hp Hk H1 H2. unfold unit_env, env_value, relay_env_file. fold (key_eq k).
  assert ("RELAY_PORT=" +:+ relayPort +:+ nl +:+ "RELAY_BIND_HOST=0.0.0.0" +:+ nl
    = ("RELAY_PORT=" +:+ relayPort) +:+ String newline ("RELAY_BIND_HOST=0.0.0.0" +:+ String newline "")) as ->.
  { by rewrite app_assoc_s. }
  rewrite assigned_cons; [|by apply env_key_line| |done].
  - assert (String.prefix (key_eq "RELAY_PORT") ("RELAY_PORT=" +:+ relayPort) = true) as Hpre by apply prefix_app.
    rewrite (other_key "RELAY_PORT" k _ eq_refl Hk (not_eq_sym H1) Hpre).
    rewrite assigned_cons by (try done; by apply env_key_line).
    rewrite (other_key "RELAY_BIND_HOST" k "RELAY_BIND_HOST=0.0.0.0" eq_refl Hk (not_eq_sym H2) eq_refl).
    rewrite assigned_last by done. by destruct k.
  - unfold on_one_line in *. rewrite all_chars_app. by rewrite Hp.
Qed.

(** Also: A provisioned relay is forgotten after 45 seconds.  The route stores the new
    relay with the current time, so it is a candidate exactly until 45 seconds later;
    and the environment the boot script gives the relay's process lacks every variable
    the process needs to register itself, so it never sends the heartbeat that would
    keep it one. *)
Theorem provisioned_relay_goes_stale `{Collation} sha256 fleet d who where_ instanceType (a a' : App) relayPort x :
  provision_route sha256 fleet d who where_ instanceType a = (a', Ok x) -> on_one_line relayPort = true ->
  (forall now, (exists r, r ∈ candidates now a'.(cp_relays) /\ r.(rh_id) = d.(dw_id)) <-> now < pg_now a.(cp_db) + 45000) /\
  relay_config (unit_env relayPort) = None.
Proof.
  intros E Hp. split.
  - assert (a'.(cp_relays) !! d.(dw_id) = relay_insert (pg_now a.(cp_db)) d.(dw_id) (default (default "" fleet) where_) x.2 (Some x.1) None
        a.(cp_relays) !! d.(dw_id)) as Hrow.
    { unfold provision_route in E. destruct fleet as [fleet_region|]; [|done]. unfold lift_res, mbind, St_bind in E.
      destruct (dw_launch d) as [inst|]; [|done]. unfold modify in E.
      unfold audit, ControlPlane.on_db, mbind, St_bind in E. cbn [cp_db cp_relays set_relays] in E.
      destruct (AuditChain.record _ _ _ _ _ _ _) as [db' [r|e]]; [|done]. cbn in E. injection E as <- <-. done. }
    unfold relay_insert in Hrow. rewrite lookup_insert_eq in Hrow.
    assert (exists row, a'.(cp_relays) !! d.(dw_id) = Some row /\ row.(rl_available) = true /\ row.(rl_heartbeat) = Some (pg_now a.(cp_db)))
      as (row & Hr & Ha & Hb) by (destruct (cp_relays a !! dw_id d); eexists; (split; [exact Hrow|done])).
    intros now. split.
    + intros (r & (id & row' & h & Hl & -> & _ & Eh & Hh)%elem_of_relay_candidates & Hid). cbn in Hid. subst id.
      rewrite Hr in Hl. simplify_eq. lia.
    + intros Hlt. exists (toHealth d.(dw_id) row). split; [|done]. apply elem_of_relay_candidates.
      exists d.(dw_id), row, (pg_now (cp_db a)). split_and!; try done. lia.
  - unfold relay_config. by rewrite (unit_env_has relayPort "RELAY_ID") by done.
Qed.

(** ** The theorems applied *)

(** An account that starts an instance and never gives it an address. *)
Definition sample_run (_ : RunInstances) : St (gset string) (option string) := fun e =>
  if bool_decide ("i-1" ∈ e) then (e, Ok None) else ({["i-1"]} ∪ e, Ok (Some "i-1")).
Definition sample_describe (_ : string) : St (gset string) (option string) := fun e => (e, Ok None).
Definition sample_provisioner : ProvisionerConfig := mkProvisioner "ami" "51900" None None None None None.
Definition sample_environment : Environment := {["AWS_SECRETS_MANAGER_SECRET_ID" := "id"; "A" := "kept"]}.
Definition sample_secret_json : json := JObj [("A", JStr "secret"); ("B", JStr "new")].

Lemma hydration_keeps_values_witness :
  exists env', hydrateSecretsFromAws (fun _ => Ok (Some "text")) (fun _ => Ok sample_secret_json) sample_environment = Ok env' /\
    env' !! "A" = Some "kept".
Proof.
  destruct (hydrateSecretsFromAws (fun _ => Ok (Some "text")) (fun _ => Ok sample_secret_json) sample_environment) as [env'|e] eqn:E;
    [|vm_compute in E; discriminate E].
  destruct (hydration_keeps_values _ _ _ _ E) as (_ & H & _). exists env'. split; [reflexivity|]. by apply H.
Defined.

Lemma timed_out_launch_leaks_witness :
  "i-1" ∈ (launch sample_run sample_describe (fun s => s) sample_provisioner "eu" "t3.small" ∅).1.
Proof.
  pose proof (@timed_out_launch_leaks (gset string) sample_run sample_describe (fun s => s) sample_provisioner (fun e => e)) as T.
  specialize (T ltac:(intros cmd e; unfold sample_run; destruct (bool_decide ("i-1" ∈ e)) eqn:B; [done|]; apply bool_decide_eq_false in B; done)
    ltac:(done) code_point_collation (fun s => s) None "eu" "t3.small" ∅ "i-1" ({["i-1"]} ∪ ∅) some_draws "who" None None empty_app).
  specialize (T ltac:(vm_compute; reflexivity) ltac:(discriminate) ltac:(done)).
  destruct (launch sample_run sample_describe (fun s => s) sample_provisioner "eu" "t3.small" ∅) as [e' r]. apply T.
Defined.

Lemma provisioned_relay_goes_stale_witness :
  relay_config (unit_env "51900") = None /\
  exists a' x, @provision_route code_point_collation (fun s => s) (Some "eu") some_draws "who" None None empty_app = (a', Ok x).
Proof.
  destruct (@provision_route code_point_collation (fun s => s) (Some "eu") some_draws "who" None None empty_app) as [a' [x|e]] eqn:E;
    [|vm_compute in E; discriminate E].
  destruct (@provisioned_relay_goes_stale code_point_collation _ _ _ _ _ _ _ _ "51900" _ E eq_refl) as [_ H].
  split; [exact H|]. exists a', x. reflexivity.
Defined.
