(* ===== verification/StaticConsole.v ===== *)
(** * The console's file server

    [createAdminConsoleHandler] ([src/src/runtime/admin-console-server.ts]) with
    the functions of [node:path] it uses, for POSIX paths.  [readFile] is an
    argument: the content of a path, [None] when it throws (a missing file, a
    directory). *)

From S2P Require Import Prelude Json Text Words EnvFile.
Open Scope Z_scope.

(** ** [node:path] *)

Definition slash : ascii := "/".

(** [normalizeString]: the segments kept so far, the last first. *)
Definition path_step (absolute : bool) (acc : list string) (s : string) : list string :=
  if String.eqb s "" || String.eqb s "." then acc
  else if String.eqb s ".." then
    match acc with
    | x :: rest => if String.eqb x ".." then ".." :: acc else rest
    | [] => if absolute then [] else [".."]
    end
  else s :: acc.
Definition path_segments (absolute : bool) (p : string) : list string :=
  rev (fold_left (path_step absolute) (split_on slash p) []).

Fixpoint ends_with_slash (p : string) : bool :=
  match p with
  | EmptyString => false
  | String c EmptyString => Ascii.eqb c slash
  | String _ p' => ends_with_slash p'
  end.

Definition path_normalize (p : string) : string :=
  if String.eqb p "" then "." else
  let absolute := startsWith "/" p in
  let trailing := if ends_with_slash p then "/" else "" in
  match path_segments absolute p with
  | [] => if absolute then "/" else "." +:+ trailing
  | segs => (if absolute then "/" else "") +:+ join "/" segs +:+ trailing
  end.
Definition posix_join (a b : string) : string :=
  path_normalize (join "/" (List.filter truthy [a; b])).

(** [extname], of the last segment *)
Fixpoint last_dot (seen : string) (s : string) : option (string * string) :=
  match s with
  | EmptyString => None
  | String c s' =>
      match last_dot (seen +:+ String c "") s' with
      | Some found => Some found
      | None => if Ascii.eqb c "." then Some (seen, s) else None
      end
  end.
Definition extname (p : string) : string :=
  let base := List.last (List.filter truthy (split_on slash p)) "" in
  match last_dot "" base with
  | Some (before, ext) => if String.eqb before "" || String.eqb base ".." then "" else ext
  | None => ""
  end.

(** ** The handler *)

Definition CONTENT_TYPES (ext : string) : option string :=
  if String.eqb ext ".html" then Some "text/html; charset=utf-8"
  else if String.eqb ext ".js" then Some "text/javascript"
  else if String.eqb ext ".css" then Some "text/css" else None.

Record Page := mkPage { pg_status : Z; pg_contentType : option string; pg_body : string }.

Definition console_path (url : option string) : string :=
  match url with
  | None => "/index.html"
  | Some url => List.hd "" (split_on "?" (if String.eqb url "/" then "/index.html" else url))
  end.

Definition adminConsoleHandler (readFile : string -> option string) (publicDir : string) (url : option string) : Page :=
  let path := console_path url in
  if str_includes ".." path then mkPage 400 None ""
  else
    let filePath := posix_join publicDir path in
    match readFile filePath with
    | Some body => mkPage 200 (Some (default "application/octet-stream" (CONTENT_TYPES (extname filePath)))) body
    | None => mkPage 404 None "not found"
    end.

(** ** Segments *)

(** A name of a file or directory: no separator, and neither empty nor a dot
    directory. *)
Definition file_name (s : string) : bool :=
  all_chars (fun c => negb (Ascii.eqb slash c)) s && negb (String.eqb s "") && negb (String.eqb s ".") && negb (String.eqb s "..").

Lemma file_name_spec s : file_name s = true ->
  all_chars (fun c => negb (Ascii.eqb slash c)) s = true /\ s <> "" /\ s <> "." /\ s <> "..".
Proof.
  unfold file_name. intros H. apply andb_true_iff in H as [H H4]. apply andb_true_iff in H as [H H3].
  apply andb_true_iff in H as [H1 H2]. rewrite negb_true_iff, String.eqb_neq in H2, H3, H4. done.
Qed.

Lemma path_step_name absolute acc s : file_name s = true -> path_step absolute acc s = s :: acc.
Proof.
  intros (_ & H1 & H2 & H3)%file_name_spec. unfold path_step.
  by rewrite (proj2 (String.eqb_neq _ _) H1), (proj2 (String.eqb_neq _ _) H2), (proj2 (String.eqb_neq _ _) H3).
Qed.

Lemma path_steps_names absolute segs acc : Forall (fun s => file_name s = true) segs ->
  fold_left (path_step absolute) segs acc = rev segs ++ acc.
Proof.
  intros H. revert acc. induction H as [|s segs Hs _ IH]; intros acc; [done|]. cbn [fold_left rev].
  by rewrite path_step_name, IH, <- app_assoc.
Qed.

(** Without a [".."] the segments kept are the names among them. *)
Lemma path_steps_kept absolute segs acc :
  ".." ∉ segs -> exists kept, fold_left (path_step absolute) segs acc = rev kept ++ acc /\
    Forall (fun s => s ∈ segs /\ s <> "" /\ s <> "." /\ s <> "..") kept.
Proof.
  revert acc. induction segs as [|s segs IH]; intros acc Hn; [exists []; split; [done|constructor]|].
  apply not_elem_of_cons in Hn as [Hs Hn]. cbn [fold_left].
  destruct (IH (path_step absolute acc s) Hn) as (kept & E & Hk).
  assert (Forall (fun t => t ∈ s :: segs /\ t <> "" /\ t <> "." /\ t <> "..") kept) as Hk'.
  { eapply Forall_impl; [exact Hk|]. intros t (? & ?). split; [by right|done]. }
  rewrite E. unfold path_step.
  destruct (String.eqb_spec s "") as [->|H1]; [by exists kept|]. destruct (String.eqb_spec s ".") as [->|H2]; [by exists kept|].
  cbn [orb]. destruct (String.eqb_spec s "..") as [->|H3]; [done|].
  exists (s :: kept). split; [cbn [rev]; by rewrite <- app_assoc|]. constructor; [|done]. split_and!; [by left|done..].
Qed.

Lemma split_on_names c s w : w ∈ split_on c s -> all_chars (fun d => negb (Ascii.eqb c d)) w = true.
Proof.
  revert w. induction s as [|d s IH]; cbn [split_on]; [intros w ->%list_elem_of_singleton; done|].
  destruct (split_on_cons c s) as (v & vs & E). rewrite E in *. destruct (Ascii.eqb c d) eqn:Ec; intros w Hw.
  - apply elem_of_cons in Hw as [->|Hw]; [done|auto].
  - apply elem_of_cons in Hw as [->|Hw]; [|apply IH; by right]. cbn [all_chars]. rewrite Ec. cbn. apply IH. by left.
Qed.

(** A segment is a part of the text. *)
Lemma split_on_part c s w : w ∈ split_on c s -> exists a b, s = a +:+ w +:+ b.
Proof.
  revert w. induction s as [|d s IH]; cbn [split_on]; [intros w ->%list_elem_of_singleton; by exists "", ""|].
  destruct (split_on_cons c s) as (v & vs & E). rewrite E in *.
  assert (forall w, w ∈ v :: vs -> exists a b, String d s = a +:+ w +:+ b) as Hin.
  { intros w Hw. destruct (IH w Hw) as (a & b & ->). by exists (String d a), b. }
  destruct (Ascii.eqb c d) eqn:Ec; intros w Hw.
  - apply elem_of_cons in Hw as [->|Hw]; [by exists "", (String d s)|auto].
  - apply elem_of_cons in Hw as [->|Hw]; [|apply Hin; by right].
    assert (forall s v vs, split_on c s = v :: vs -> exists b, s = v +:+ b) as First.
    { clear. induction s as [|e s IH]; intros v vs E; cbn [split_on] in E; [injection E as <- <-; by exists ""|].
      destruct (split_on_cons c s) as (v' & vs' & E'). rewrite E' in E. destruct (Ascii.eqb c e); injection E as <- <-.
      - by exists (String e s).
      - destruct (IH _ _ E') as [b ->]. exists b. by rewrite app_cons_s. }
    destruct (First _ _ _ E) as [b ->]. exists "", b. by rewrite app_nil_s, app_cons_s.
Qed.

Lemma str_includes_part a w b : str_includes w (a +:+ w +:+ b) = true.
Proof.
  unfold str_includes. destruct (String.index 0 w (a +:+ w +:+ b)) eqn:E; [done|].
  exfalso. revert E. induction a as [|c a IH].
  - rewrite app_nil_s. destruct w as [|d w]; [by destruct b|]. rewrite app_cons_s. cbn [String.index].
    rewrite <- app_cons_s. assert (String.prefix (String d w) (String d w +:+ b) = true) as -> by apply prefix_app. done.
  - rewrite app_cons_s. cbn [String.index]. destruct (String.prefix w (String c (a +:+ w +:+ b))); [done|].
    destruct (String.index 0 w (a +:+ w +:+ b)); [done|]. by intros _; apply IH.
Qed.

(** ** Where the server reads *)

(** An absolute directory, by its names. *)
Definition dir (names : list string) : string := "/" +:+ join "/" names.

Lemma no_dotdot p : str_includes ".." p = false -> ".." ∉ split_on slash p.
Proof.
  intros H Hin. destruct (split_on_part _ _ _ Hin) as (a & b & ->). by rewrite str_includes_part in H.
Qed.

Lemma fold_path_app absolute a b acc :
  fold_left (path_step absolute) (a ++ b) acc = fold_left (path_step absolute) b (fold_left (path_step absolute) a acc).
Proof. apply fold_left_app. Qed.

Lemma starts_dir names s : startsWith "/" (dir names +:+ s) = true.
Proof. unfold dir. rewrite app_assoc_s. apply prefix_app. Qed.

Lemma split_on_slash rest : split_on slash (String "/" rest) = "" :: split_on slash rest.
Proof. exact (split_on_line slash "" rest eq_refl). Qed.

(** The segments of a path below a directory. *)
Lemma split_dir names rest : Forall (fun s => file_name s = true) names ->
  fold_left (path_step true) (split_on slash (dir names +:+ String slash rest)) [] = 
  fold_left (path_step true) (split_on slash rest) (rev names).
Proof.
  intros Hn. unfold dir. rewrite app_assoc_s, app_cons_s, app_nil_s.
  rewrite split_on_slash. cbn [fold_left]. change (path_step true [] "") with (@nil string).
  assert (Forall (fun l => all_chars (fun d => negb (Ascii.eqb slash d)) l = true) names) as Hs.
  { eapply Forall_impl; [exact Hn|]. intros s H. by apply file_name_spec in H as [? _]. }
  assert (split_on slash (join "/" names +:+ String slash rest) = match names with [] => [""] | _ => names end ++ split_on slash rest) as ->.
  { destruct names as [|n names]; [apply split_on_slash|]. clear Hn.
    revert n Hs. induction names as [|m names IH]; intros n Hs; inversion Hs as [|? ? Hh Ht]; subst.
    - by apply split_on_line.
    - change (join "/" (n :: m :: names)) with (n +:+ "/" +:+ join "/" (m :: names)).
      rewrite app_assoc_s. change ("/" +:+ ?x) with (String slash x). rewrite app_cons_s, split_on_line by done. cbn [app]. f_equal. apply (IH m Ht). }
  rewrite fold_path_app. f_equal. destruct names as [|n names]; [done|]. rewrite path_steps_names by done. by rewrite app_nil_r.
Qed.

Lemma split_dir_alone names : Forall (fun s => file_name s = true) names ->
  fold_left (path_step true) (split_on slash (dir names)) [] = rev names.
Proof.
  intros Hn. unfold dir. rewrite app_cons_s, app_nil_s. rewrite split_on_slash. cbn [fold_left].
  change (path_step true [] "") with (@nil string). destruct names as [|n names]; [done|].
  rewrite split_on_join; [rewrite path_steps_names by done; by rewrite app_nil_r| |done].
  eapply Forall_impl; [exact Hn|]. intros s H. by apply file_name_spec in H as [? _].
Qed.

Lemma ends_with_slash_app a s : s <> "" -> ends_with_slash (a +:+ s) = ends_with_slash s.
Proof.
  intros Hs. induction a as [|c a IH]; [done|]. rewrite app_cons_s. cbn [ends_with_slash]. rewrite IH.
  destruct a; [by destruct s|by rewrite app_cons_s].
Qed.
Lemma ends_in_name s : all_chars (fun c => negb (Ascii.eqb slash c)) s = true -> ends_with_slash s = false.
Proof.
  induction s as [|c s IH]; [done|]. cbn [all_chars ends_with_slash]. intros [Hc Hs]%andb_true_iff.
  destruct s; [|by apply IH]. rewrite Ascii.eqb_sym. by apply negb_true_iff in Hc.
Qed.
Lemma ends_in_names names : names <> [] -> Forall (fun s => file_name s = true) names -> ends_with_slash (join "/" names) = false.
Proof.
  intros Hne H. destruct names as [|n names]; [done|]. clear Hne. revert n H.
  induction names as [|m names IH]; intros n H; inversion H as [|? ? Hh Ht]; subst; apply file_name_spec in Hh as (Hc & Hn & _).
  - by apply ends_in_name.
  - change (join "/" (n :: m :: names)) with (n +:+ "/" +:+ join "/" (m :: names)).
    inversion Ht as [|? ? Hm _]; subst. apply file_name_spec in Hm as (_ & Hm & _).
    rewrite !ends_with_slash_app; [by apply IH| |]; destruct names, m; done.
Qed.

(** The normal form of a directory, and of a path below it. *)
Lemma normalize_dir names : Forall (fun s => file_name s = true) names -> path_normalize (dir names) = dir names.
Proof.
  intros Hn. unfold path_normalize. change (String.eqb (dir names) "") with false.
  assert (startsWith "/" (dir names) = true) as -> by (rewrite <- (app_nil_r_s (dir names)); apply starts_dir).
  cbv iota zeta. unfold path_segments. rewrite split_dir_alone, rev_involutive by done. destruct names as [|n names]; [done|].
  assert (ends_with_slash (dir (n :: names)) = false) as ->; [|by rewrite app_nil_r_s].
  unfold dir. rewrite ends_with_slash_app; [by apply ends_in_names|]. inversion Hn as [|? ? Hh _]; subst.
  apply file_name_spec in Hh as (_ & Hh & _). destruct names, n; done.
Qed.

Lemma join_dir names segs : Forall (fun s => file_name s = true) names -> Forall (fun s => file_name s = true) segs -> segs <> [] ->
  posix_join (dir names) (dir segs) = dir (names ++ segs).
Proof.
  intros Hn Hs Hne. unfold posix_join. cbn [List.filter]. change (truthy (dir names)) with true. change (truthy (dir segs)) with true.
  cbv iota. change (join "/" [dir names; dir segs]) with (dir names +:+ String slash (dir segs)).
  unfold path_normalize. change (String.eqb (dir names +:+ String slash (dir segs)) "") with false.
  rewrite starts_dir. cbv iota zeta. unfold path_segments.
  rewrite split_dir by done. unfold dir at 1. rewrite app_cons_s, app_nil_s, split_on_slash. cbn [fold_left].
  change (path_step true (rev names) "") with (rev names).
  rewrite split_on_join; [|eapply Forall_impl; [exact Hs|]; intros s H; by apply file_name_spec in H as [? _]|done].
  rewrite path_steps_names by done. rewrite rev_app_distr, !rev_involutive.
  assert (ends_with_slash (dir names +:+ String slash (dir segs)) = false) as ->.
  { change (String slash (dir segs)) with ("//" +:+ join "/" segs). rewrite !ends_with_slash_app.
    - by apply ends_in_names.
    - destruct segs as [|s [|]]; [done|inversion Hs as [|? ? Hh _]; subst; by apply file_name_spec in Hh as (_ & Hh & _)|by destruct s].
    - done. }
  destruct (names ++ segs) eqn:E; [by apply app_eq_nil in E as [_ ->]|]. by rewrite app_nil_r_s.
Qed.

(** What [posix_join] makes of a directory and a path without [".."]. *)
Lemma join_confined names p : Forall (fun s => file_name s = true) names -> str_includes ".." p = false ->
  exists segs trailing, Forall (fun s => file_name s = true /\ s ∈ split_on slash p) segs /\ (trailing = "" \/ trailing = "/") /\
    (posix_join (dir names) p = dir (names ++ segs) +:+ trailing).
Proof.
  intros Hn Hp. destruct (decide (p = "")) as [->|Hne].
  { exists [], "". rewrite app_nil_r, app_nil_r_s. split_and!; [constructor|by left|]. by apply normalize_dir. }
  unfold posix_join. cbn [List.filter]. change (truthy (dir names)) with true. cbv iota.
  apply truthy_spec in Hne as ->. change (join "/" [dir names; p]) with (dir names +:+ String slash p).
  unfold path_normalize. change (String.eqb (dir names +:+ String slash p) "") with false.
  rewrite starts_dir. cbv iota zeta. unfold path_segments.
  rewrite split_dir by done. destruct (path_steps_kept true (split_on slash p) (rev names) (no_dotdot _ Hp)) as (kept & -> & Hk).
  rewrite rev_app_distr, !rev_involutive.
  assert (Forall (fun s => file_name s = true /\ s ∈ split_on slash p) kept) as Hk'.
  { eapply Forall_impl; [exact Hk|]. intros s (Hin & H1 & H2 & H3). split; [|done]. unfold file_name.
    rewrite (split_on_names _ _ _ Hin). by rewrite !(proj2 (String.eqb_neq _ _)). }
  destruct (names ++ kept) as [|s l] eqn:E.
  - exists [], "". apply app_eq_nil in E as [-> ->]. split_and!; [constructor|by left|done].
  - exists kept, (if ends_with_slash (dir names +:+ String slash p) then "/" else ""). rewrite E.
    split_and!; [done|destruct (ends_with_slash _); auto|]. unfold dir. by rewrite app_assoc_s.
Qed.

(** Also: the console's server reads only below its public directory, for every
    request: what it answers with 200 is the content of a path made of the
    directory's names, names that occur in the request, and perhaps a final
    slash, none of them a dot directory; a request with two dots in its path is
    refused without reading.  Every file below the directory is served at its
    own path, and [/] serves [index.html]. *)
Theorem console_reads_public_only readFile names url : Forall (fun s => file_name s = true) names ->
  let page := adminConsoleHandler readFile (dir names) url in
  (page.(pg_status) = 200 -> exists segs trailing,
     Forall (fun s => file_name s = true /\ s ∈ split_on slash (console_path url)) segs /\ (trailing = "" \/ trailing = "/") /\
     readFile (dir (names ++ segs) +:+ trailing) = Some page.(pg_body)) /\
  (str_includes ".." (console_path url) = true <-> page.(pg_status) = 400) /\
  (forall segs body, segs <> [] -> Forall (fun s => file_name s = true) segs -> console_path url = dir segs ->
     str_includes ".." (dir segs) = false -> readFile (dir (names ++ segs)) = Some body ->
     page.(pg_status) = 200 /\ page.(pg_body) = body) /\
  (url = Some "/" -> page = adminConsoleHandler readFile (dir names) (Some "/index.html")).
Proof.
  intros Hn page. unfold page, adminConsoleHandler. split_and!.
  - destruct (str_includes ".." (console_path url)) eqn:Ed; [done|]. intros H200.
    destruct (join_confined names _ Hn Ed) as (segs & trailing & Hs & Ht & Ej). rewrite Ej in *.
    exists segs, trailing. split_and!; [done..|]. by destruct (readFile _).
  - destruct (str_includes ".." (console_path url)); [done|]. by destruct (readFile _).
  - intros segs body Hne Hs E Hd Hr. rewrite E, Hd.
    by rewrite join_dir, Hr by done.
  - by intros ->.
Qed.

Lemma join_root names : Forall (fun s => file_name s = true) names -> names <> [] -> posix_join (dir names) "/" = dir names +:+ "/".
Proof.
  intros Hn Hne. unfold posix_join. cbn [List.filter]. change (truthy (dir names)) with true. change (truthy "/") with true. cbv iota.
  change (join "/" [dir names; "/"]) with (dir names +:+ String slash "/").
  unfold path_normalize. change (String.eqb (dir names +:+ String slash "/") "") with false. rewrite starts_dir. cbv iota zeta.
  unfold path_segments. rewrite split_dir by done. change (split_on slash "/") with ["" : string; ""]. cbn [fold_left].
  change (path_step true (path_step true (rev names) "") "") with (rev names). rewrite rev_involutive.
  rewrite ends_with_slash_app by done. change (ends_with_slash (String slash "/")) with true. cbv iota.
  destruct names; [done|]. unfold dir. by rewrite app_assoc_s.
Qed.

(** Also: the page is not found at [/] followed by a query.  The comparison with [/]
    is made before the query is cut off, so the directory itself is read, which
    throws. *)
Theorem root_with_query_not_found readFile names query :
  names <> [] -> Forall (fun s => file_name s = true) names -> readFile (dir names +:+ "/") = None ->
  (adminConsoleHandler readFile (dir names) (Some ("/?" +:+ query))).(pg_status) = 404.
Proof.
  intros Hne Hn Hr. unfold adminConsoleHandler, console_path.
  assert (String.eqb ("/?" +:+ query) "/" = false) as -> by done.
  assert (List.hd "" (split_on "?" ("/?" +:+ query)) = "/") as ->.
  { change ("/?" +:+ query) with ("/" +:+ String "?" query). by rewrite split_on_line. }
  change (str_includes ".." "/") with false. cbv iota zeta. by rewrite join_root, Hr.
Qed.

(** ** The theorems applied *)

Definition sample_files (p : string) : option string := if String.eqb p "/srv/public/index.html" then Some "page" else None.

Lemma console_reads_public_only_witness :
  (adminConsoleHandler sample_files (dir ["srv"; "public"]) (Some "/")).(pg_body) = "page" /\
  (adminConsoleHandler sample_files (dir ["srv"; "public"]) (Some "/../../etc/passwd")).(pg_status) = 400.
Proof.
  assert (Forall (fun s => file_name s = true) ["srv"; "public"]) as Hn by (repeat constructor).
  split.
  - destruct (console_reads_public_only sample_files ["srv"; "public"] (Some "/") Hn) as (_ & _ & H & _).
    apply (H ["index.html"] "page"); vm_compute; try reflexivity; try discriminate. repeat constructor.
  - destruct (console_reads_public_only sample_files ["srv"; "public"] (Some "/../../etc/passwd") Hn) as (_ & [H _] & _).
    apply H. vm_compute. reflexivity.
Defined.

Lemma root_with_query_not_found_witness :
  (adminConsoleHandler sample_files (dir ["srv"; "public"]) (Some "/?token")).(pg_status) = 404.
Proof. apply (root_with_query_not_found sample_files ["srv"; "public"] "token"); [discriminate|repeat constructor|vm_compute; reflexivity]. Defined.
