(* ===== verification/Tokens.v ===== *)
(** * Credentials made outside the server, and the handshake

    [scripts/mint-token.mjs] with the guard that accepts its tokens,
    [SignedEventClient] ([src/integrations/signed-event-client.ts]) with the
    service that accepts its events, and [verifyBapcHandshakeSignature]
    ([src/src/infrastructure/bapc-handshake.ts]) with its route in
    [production-server.ts].  HMAC, base64url and [JSON.parse] are arguments. *)

From S2P Require Import Prelude Json Text Domain Words Database Native Repositories ThreatResponse Rest Router LinuxAdapter Config Clearance Enroll Fleet.
Open Scope Z_scope.

(** ** [mint-token.mjs] *)

(** [UUID_RE] *)
Definition uuid_groups (s : string) : list string := split_on "-" s.
Definition is_uuid (s : string) : bool :=
  let groups := uuid_groups s in
  forallb (all_chars (fun c => match hex_value c with Some _ => true | None => false end)) groups &&
  bool_decide (map String.length groups = [8; 4; 4; 4; 12]%nat).

(** What the script prints and its exit code. *)
Record Printed := mkPrinted { pr_token : option string; pr_warned : bool; pr_exit : Z }.
Definition refused_run : Printed := mkPrinted None false 1.

Section mint.
Context (hmac : string -> string -> string) (base64url : string -> string).
(** [Number(text)] for the texts of integers, [None] for [NaN]. *)
Context (Number : string -> option Z).

Definition roles_of (rolesArg : string) : list string := List.filter truthy (map trim (split_on "," rolesArg)).

(** [built] is whether the compiled guard exists, [random] the [randomUUID()].
    With an [exp] that is not a number the token is printed with a [null] and
    [toISOString] then throws. *)
Definition mint_token (argv : list string) (env : Env) (built : bool) (random : string) (now : Z) : Printed :=
  if negb built then refused_run else
  let secretEnvVar := default "CONTROL_API_TOKEN_SECRET" (argOf argv "secret-env") in
  match when_truthy (match argOf argv "secret" with Some s => Some s | None => env secretEnvVar end) with
  | None => refused_run
  | Some secret =>
      match when_truthy (argOf argv "roles") with
      | None => refused_run
      | Some rolesArg =>
          let subject := default random (argOf argv "sub") in
          let expiry := match Number (default "3600" (argOf argv "ttl")) with
                        | Some ttl => Some (now / 1000 + ttl) | None => None end in
          let full := claims_object subject (roles_of rolesArg) (match expiry with Some n => JNum n | None => JNull end) in
          mkPrinted (Some (token_of hmac base64url secret full)) (negb (is_uuid subject))
            (match expiry with Some n => if Z.abs (n * 1000) <=? 8640000000000000 then 0 else 1 | None => 1 end)
      end
  end.
End mint.

(** ** [SignedEventClient] *)

Section client.
Context (hmac : string -> string -> string) (source secret : string).

(** [publish]; [nonce] is the [randomUUID()], [at_] the time.  What is sent. *)
Definition client_unsigned (type nonce : string) (payload : json) (at_ : Date) : list (string * json) :=
  [("source", JStr source); ("type", JStr type); ("at", jdate at_); ("nonce", JStr nonce); ("payload", payload)].
Definition client_publish (type nonce : string) (payload : json) (at_ : Date) : list (string * json) :=
  let unsigned := client_unsigned type nonce payload at_ in
  unsigned ++ [("signature", JStr (to_hex (hmac secret (json_stringify (JObj unsigned)))))].
End client.

(** ** The handshake *)

Definition BAPC_APP_ID : string := "bapc-vpn-and-digital-security".

Section handshake.
Context (hmac : string -> string -> string).

Definition verifyBapcHandshakeSignature (appId secret : string) (nonce signature : option string) : bool :=
  match when_truthy nonce, when_truthy signature with
  | Some nonce, Some signature =>
      let expected := from_hex (to_hex (hmac secret (appId +:+ ":" +:+ nonce))) in
      let actual := from_hex signature in
      (String.length expected =? String.length actual)%nat && String.eqb expected actual
  | _, _ => false
  end.

Definition handshake_body (production healthy : bool) (now : Date) : json :=
  JObj [("bapcAppId", JStr BAPC_APP_ID); ("name", JStr "BAPC VPN & Digital Security"); ("version", JStr "0.4.0");
        ("environment", JStr (if production then "production" else "development"));
        ("status", JStr (if healthy then "healthy" else "degraded"));
        ("headquartersCompatible", JBool true); ("diagnosisCompatible", JBool false);
        ("capabilities", JObj [("healthCheck", JBool true); ("diagnosis", JBool false); ("deploymentReporting", JBool false);
           ("databaseReporting", JBool false); ("centralAuthentication", JBool false)]);
        ("timestamp", jdate now)].

(** The handler of [GET /api/bapc/handshake]; [healthy] is whether [db.health()]
    resolves. *)
Definition handshake_route (secret : string) (production healthy : bool) (now : Date) (nonce signature : option string) :
    res (string * string) :=
  if negb (verifyBapcHandshakeSignature BAPC_APP_ID secret nonce signature)
  then Throw (HttpError 403 "invalid handshake signature" "forbidden")
  else Ok ("application/json", json_stringify (handshake_body production healthy now)).
End handshake.

(** ** What a minted token admits *)

Definition carries_token (token : string) (req : Request) : Prop := req.(rq_authorization) = Some ("Bearer " +:+ token).

Lemma names_a_role (roles required : list string) :
  (match required with [] => false
   | _ => negb (existsb (fun r => existsb (fun x => match x with JStr y => String.eqb r y | _ => false end) (map JStr roles)) required)
   end = false) <-> required = [] \/ exists r, r ∈ required /\ r ∈ roles.
Proof.
  destruct required as [|r0 required]; [naive_solver|]. rewrite negb_false_iff, existsb_elem. split.
  - intros (r & Hr & Hx). right. exists r. split; [done|]. apply existsb_elem in Hx as (x & (y & -> & Hy)%elem_of_List_map & Hx).
    apply String.eqb_eq in Hx. by subst.
  - intros [?|(r & Hr & Hy)]; [done|]. exists r. split; [done|]. apply existsb_elem. exists (JStr r). split; [|apply String.eqb_refl].
    apply elem_of_List_map. by exists r.
Qed.

(** Claims of the shape the script writes. *)
Lemma check_minted now required subject roles n : 0 <= now ->
  let claims := mkClaims (JStr subject) (map JStr roles) (JNum n) in
  (check_claims now required (claims_object subject roles (JNum n)) = Ok claims <->
   subject <> "" /\ now < n * 1000 /\ (required = [] \/ exists r, r ∈ required /\ r ∈ roles)).
Proof.
  intros Hnow claims. rewrite <- names_a_role. unfold check_claims, claims_object, jstrs. cbn -[Z.mul Z.leb].
  destruct (truthy subject) eqn:Ts; cbn -[Z.mul Z.leb].
  2:{ split; [done|]. intros (H & _). apply truthy_spec in H. congruence. }
  apply truthy_spec in Ts. destruct (Z.eqb_spec n 0) as [->|Hz]; cbn -[Z.mul Z.leb]; [split; [done|lia]|].
  destruct (Z.leb_spec (n * 1000) now) as [Hle|Hlt]; [split; [done|lia]|].
  destruct (match required with [] => _ | _ => _ end); [split; [done|naive_solver]|]. done.
Qed.

Section minted.
Context (hmac : string -> string -> string) (base64url from_base64url : string -> string) (JSON_parse : string -> res json).
(** base64url: a codec whose texts have no dot, and none of which is empty for a
    text that is not.  A MAC is not empty. *)
Context (decodes : forall s, from_base64url (base64url s) = s).
Context (no_dots : forall s, all_chars (fun c => negb (Ascii.eqb "." c)) (base64url s) = true).
Context (keeps_text : forall s, s <> "" -> base64url s <> "").
Context (hmac_text : forall k m, hmac k m <> "").

(** The guard reads the claims of a token of its own secret. *)
Lemma verify_token secret now req required full : carries_token (token_of hmac base64url secret full) req ->
  (exists l, full = JObj l) -> JSON_parse (json_stringify full) = Ok full ->
  Router.verify hmac base64url from_base64url JSON_parse secret now req required = check_claims now required full.
Proof using decodes no_dots keeps_text hmac_text.
  intros Hb [l ->] Hp. unfold Router.verify. rewrite Hb, startsWith_app. change 7%nat with (String.length "Bearer ").
  rewrite substring_app by (rewrite length_app_s; lia). unfold token_of. cbv zeta.
  change ("." +:+ sign_token hmac base64url secret (base64url (json_stringify (JObj l))))
    with (String "." (sign_token hmac base64url secret (base64url (json_stringify (JObj l))))).
  rewrite split_on_line by apply no_dots. unfold sign_token. rewrite split_on_none by apply no_dots.
  assert (truthy (base64url (json_stringify (JObj l))) = true) as -> by (apply truthy_spec, keeps_text; done).
  assert (truthy (base64url (hmac secret (base64url (json_stringify (JObj l))))) = true) as -> by (apply truthy_spec, keeps_text, hmac_text).
  cbn [andb negb]. by rewrite String.eqb_refl, decodes, Hp.
Qed.

(** Also: A token the script prints is accepted by the control plane exactly as long
    and as far as the operator asked: with the server's secret, roles and a numeric
    lifetime, a request that carries it passes the guard of a route exactly while its
    lifetime has not passed, when the route names one of the roles (or none) and the
    subject is not empty; the claims the handler gets are those asked for. *)
Theorem minted_token_admits Number argv env random now secret rolesArg ttl :
  when_truthy (match argOf argv "secret" with Some s => Some s
    | None => env (default "CONTROL_API_TOKEN_SECRET" (argOf argv "secret-env")) end) = Some secret ->
  when_truthy (argOf argv "roles") = Some rolesArg -> Number (default "3600" (argOf argv "ttl")) = Some ttl ->
  let subject := default random (argOf argv "sub") in
  let roles := roles_of rolesArg in
  let claims := claims_object subject roles (JNum (now / 1000 + ttl)) in
  JSON_parse (json_stringify claims) = Ok claims ->
  exists token, (mint_token hmac base64url Number argv env true random now).(pr_token) = Some token /\
    forall later req required, 0 <= later -> carries_token token req ->
      (Router.verify hmac base64url from_base64url JSON_parse secret later req required
         = Ok (mkClaims (JStr subject) (map JStr roles) (JNum (now / 1000 + ttl))) <->
       subject <> "" /\ later < (now / 1000 + ttl) * 1000 /\ (required = [] \/ exists r, r ∈ required /\ r ∈ roles)).
Proof using decodes no_dots keeps_text hmac_text.
  intros Es Er En subject roles claims Hp. unfold mint_token. cbn [negb]. rewrite Es, Er, En. eexists. split; [reflexivity|].
  intros later req required Hl Hb. fold subject roles in Hb. fold claims in Hb. rewrite (verify_token secret later req required claims); [|done|by eexists|done].
  by apply check_minted.
Qed.

(** Also: with a lifetime that is not a number the script still prints a token, before
    it fails, and no route with a guard accepts it. *)
Theorem token_without_lifetime Number argv env random now secret rolesArg :
  when_truthy (match argOf argv "secret" with Some s => Some s
    | None => env (default "CONTROL_API_TOKEN_SECRET" (argOf argv "secret-env")) end) = Some secret ->
  when_truthy (argOf argv "roles") = Some rolesArg -> Number (default "3600" (argOf argv "ttl")) = None ->
  let claims := claims_object (default random (argOf argv "sub")) (roles_of rolesArg) JNull in
  JSON_parse (json_stringify claims) = Ok claims ->
  let out := mint_token hmac base64url Number argv env true random now in
  out.(pr_exit) = 1 /\ exists token, out.(pr_token) = Some token /\
    forall later req required, carries_token token req ->
      Router.verify hmac base64url from_base64url JSON_parse secret later req required = unauthorized "invalid bearer claims".
Proof using decodes no_dots keeps_text hmac_text.
  intros Es Er En claims Hp out. unfold out, mint_token. cbn [negb]. rewrite Es, Er, En. split; [done|]. eexists. split; [reflexivity|].
  intros later req required Hb. fold claims in Hb. rewrite (verify_token secret later req required claims); [|done|by eexists|done].
  unfold check_claims, claims, claims_object. cbn -[truthy]. by rewrite andb_false_r.
Qed.
End minted.

(** ** Events of other systems *)

(** Also: An event the client signs is accepted by the service that shares its secret,
    for five minutes, and published once per delivery under the source and type the
    client gave.  The signature admits only events whose printed fields have the same
    MAC, and an event signed with another secret is refused unless the two MACs
    agree. *)
Theorem signed_event_accepted hmac getTime buffer_from secrets source secret type nonce payload at_ now db :
  getTime (jdate at_) = Some at_ -> Z.abs (now - at_) <= 300000 ->
  let e := client_publish hmac source secret type nonce payload at_ in
  let text := json_stringify (JObj (client_unsigned source type nonce payload at_)) in
  (hmac secret text = hmac (secrets source) text ->
   eco_accept hmac getTime buffer_from secrets source e now db = publish ("ecosystem." +:+ source +:+ "." +:+ type) (JObj e) db) /\
  (hmac secret text <> hmac (secrets source) text ->
   eco_accept hmac getTime buffer_from secrets source e now db = (db, Throw (JsError "invalid ecosystem signature"))) /\
  (forall e' db', jlookup "signature" e' = jlookup "signature" e -> eco_accept hmac getTime buffer_from secrets source e' now db = (db', Ok tt) ->
   hmac (secrets source) (event_body e') = hmac secret text).
Proof.
  intros Ht Hw e text.
  assert (outside_window getTime now (jlookup "at" e) = false) as W.
  { unfold outside_window. change (jlookup "at" e) with (Some (jdate at_)). cbv iota. rewrite Ht. apply Z.ltb_ge. lia. }
  assert (event_body e = text) as Eb by done.
  assert (jlookup "signature" e = Some (JStr (to_hex (hmac secret text)))) as Es by done.
  split_and!.
  - intros Hm. rewrite (eco_accept_signed _ _ _ _ _ _ _ _ _ W Es); [done|]. unfold eco_sign. by rewrite Eb, Hm.
  - intros Hm. unfold eco_accept. rewrite W, Es. cbn [signature_bytes]. unfold eco_sign. rewrite !from_to_hex, Eb.
    destruct (String.eqb_spec (hmac (secrets source) text) (hmac secret text)); [congruence|]. by rewrite orb_true_r.
  - intros e' db' Hs (_ & _ & Hb)%eco_accept_ok. rewrite Hs, Es in Hb. cbn [signature_bytes] in Hb. rewrite from_to_hex in Hb. by injection Hb.
Qed.

(** ** The handshake's answer *)

Lemma from_hex_tail x tail : hex_value (List.hd " "%char (list_ascii_of_string tail)) = None -> from_hex (to_hex x +:+ tail) = x.
Proof.
  intros Ht. induction x as [|c x IH].
  - cbn. rewrite app_nil_s. destruct tail as [|a [|b tail]]; try done. cbn in Ht |- *. by rewrite Ht.
  - cbn [to_hex]. rewrite !app_cons_s. cbn [from_hex]. destruct (hex_byte_roundtrip c) as (-> & -> & ->). by rewrite IH.
Qed.

(** Also: The handshake is answered exactly for a nonce and a signature that decodes to
    the MAC of the application's id and the nonce, and refused with 403 otherwise: the
    hexadecimal MAC of any nonce is accepted, also with text after it that is no
    hexadecimal digit, and the answer reports the health of the database and does not
    depend on the nonce. *)
Theorem handshake_needs_mac hmac secret production healthy now nonce signature :
  let answer := handshake_route hmac secret production healthy now nonce signature in
  let body := json_stringify (handshake_body production healthy now) in
  (answer = Ok ("application/json", body) <->
   exists n s, nonce = Some n /\ signature = Some s /\ n <> "" /\ s <> "" /\ from_hex s = hmac secret (BAPC_APP_ID +:+ ":" +:+ n)) /\
  (answer <> Ok ("application/json", body) -> answer = Throw (HttpError 403 "invalid handshake signature" "forbidden")) /\
  (forall n tail, n <> "" -> hmac secret (BAPC_APP_ID +:+ ":" +:+ n) <> "" ->
     hex_value (List.hd " "%char (list_ascii_of_string tail)) = None -> nonce = Some n ->
     signature = Some (to_hex (hmac secret (BAPC_APP_ID +:+ ":" +:+ n)) +:+ tail) -> answer = Ok ("application/json", body)).
Proof.
  intros answer body.
  assert (verifyBapcHandshakeSignature hmac BAPC_APP_ID secret nonce signature = true <->
    exists n s, nonce = Some n /\ signature = Some s /\ n <> "" /\ s <> "" /\ from_hex s = hmac secret (BAPC_APP_ID +:+ ":" +:+ n)) as V.
  { unfold verifyBapcHandshakeSignature, when_truthy. destruct nonce as [n|], signature as [s|]; cbn [truthy_opt].
    2,3,4: split; [try (destruct (truthy n)); try done|intros (? & ? & ? & ? & _); congruence].
    destruct (truthy n) eqn:Tn; [|split; [done|]; intros (? & ? & [= <-] & _ & H & _); apply truthy_spec in H; congruence].
    destruct (truthy s) eqn:Ts; [|split; [done|]; intros (? & ? & _ & [= <-] & _ & H & _); apply truthy_spec in H; congruence].
    apply truthy_spec in Tn, Ts. cbv zeta. rewrite from_to_hex, andb_true_iff, Nat.eqb_eq, String.eqb_eq. split.
    - intros [_ H]. by exists n, s.
    - intros (? & ? & [= <-] & [= <-] & _ & _ & ->). done. }
  unfold answer, handshake_route. destruct (verifyBapcHandshakeSignature _ _ _ _ _) eqn:E; cbn [negb].
  - split_and!; [by rewrite <- V|done|done].
  - split_and!; [rewrite <- V; done|done|]. intros n tail Hn Hm Ht -> ->. assert (false = true); [|done]. apply V. eexists _, _.
    split_and!; [reflexivity..|done| |by apply from_hex_tail].
    destruct (hmac secret _) as [|c m]; [done|]. cbn [to_hex]. by rewrite !app_cons_s.
Qed.

(** ** The theorems applied *)

Definition some_hmac (k m : string) : string := "m" +:+ k +:+ m.
Definition mint_argv : list string := ["node"; "mint"; "--roles"; "security-read, security-owner"; "--sub"; "ann"].
Definition mint_env : Env := fun k => if String.eqb k "CONTROL_API_TOKEN_SECRET" then Some "s3cret" else None.
Definition an_hour (s : string) : option Z := if String.eqb s "3600" then Some 3600 else None.
Definition mint_claims : json := claims_object "ann" ["security-read"; "security-owner"] (JNum 4600).
Definition parse_claims (t : string) : res json :=
  if String.eqb t (json_stringify mint_claims) then Ok mint_claims else Throw (JsError "Unexpected token").

Lemma to_hex_chars s : all_chars (fun c => negb (Ascii.eqb "." c)) (to_hex s) = true.
Proof.
  induction s as [|c s IH]; [done|]. cbn [to_hex all_chars]. rewrite IH.
  destruct c as [[] [] [] [] [] [] [] []]; vm_compute; reflexivity.
Qed.

Lemma minted_token_admits_witness :
  exists token, (mint_token some_hmac to_hex an_hour mint_argv mint_env true "u" 1000000).(pr_token) = Some token /\
    forall req, carries_token token req -> exists claims,
      Router.verify some_hmac to_hex from_hex parse_claims "s3cret" 2000000 req ["security-owner"] = Ok claims.
Proof.
  destruct (minted_token_admits some_hmac to_hex from_hex parse_claims from_to_hex to_hex_chars
    ltac:(intros [|c s] H; [done|cbn; discriminate]) ltac:(intros k m; unfold some_hmac; discriminate)
    an_hour mint_argv mint_env "u" 1000000 "s3cret" "security-read, security-owner" 3600) as (token & Et & H);
    [vm_compute; reflexivity..|].
  exists token. split; [exact Et|]. intros req Hb. eexists. apply (H 2000000 req ["security-owner"]); [done|exact Hb|].
  split_and!; [vm_compute; discriminate|vm_compute; reflexivity|]. right. exists "security-owner". split; [by left|].
  vm_compute. right. left.
Defined.

Lemma signed_event_accepted_witness :
  let e := client_publish some_hmac "integration" "k" "ping" "u1" (JObj []) 0 in
  eco_accept some_hmac (fun _ => Some 0) (fun _ => Throw (JsError "")) (fun _ => "k") "integration" e 1000 (empty_db 0) =
  publish "ecosystem.integration.ping" (JObj e) (empty_db 0).
Proof.
  destruct (signed_event_accepted some_hmac (fun _ => Some 0) (fun _ => Throw (JsError "")) (fun _ => "k") "integration" "k" "ping" "u1" (JObj []) 0 1000 (empty_db 0))
    as (H & _); [reflexivity|lia|]. apply H. reflexivity.
Defined.
