(* ===== verification/Ceremony.v ===== *)
(** * The development ceremony and the keys in KMS

    [runDevCeremony] ([src/services/trust-core/ceremony.ts]) over the key provider
    and the certificate builder, and [AwsKmsKeyProvider]
    ([aws-kms-key-provider.ts]), the signer behind a KMS trust anchor.  RSA, the
    encodings of forge, SHA-256, base64 and what KMS answers are arguments. *)

From S2P Require Import Prelude Json Text Domain Words Database Native Repositories Certificates X509 TrustAnchor Fleet EnvFile Config StaticConsole.
Open Scope Z_scope.

(** ** [ceremony.ts] *)

(** [JSON.stringify(v, null, 2)] *)
Fixpoint json_pretty (indent : string) (v : json) : string :=
  let inner := indent +:+ "  " in
  match v with
  | JArr (_ :: _ as l) => "[" +:+ nl +:+ inner +:+ join ("," +:+ nl +:+ inner) (map (json_pretty inner) l) +:+ nl +:+ indent +:+ "]"
  | JObj (_ :: _ as l) =>
      "{" +:+ nl +:+ inner +:+ join ("," +:+ nl +:+ inner) (map (fun kv => json_quote kv.1 +:+ ": " +:+ json_pretty inner kv.2) l)
      +:+ nl +:+ indent +:+ "}"
  | _ => json_stringify v
  end.

Definition YEARS (n : Z) (now : Date) : Date := now + n * 365 * 86400000.

Section ceremony.
Context (certificateFromPem : string -> res Certificate) (certificateToPem : Certificate -> string).
Context (publicKeyFromPem : string -> res string) (tbsDer : Tbs -> string) (certificateDer : Certificate -> string) (sha256 : string -> string).
Context {Priv Pub : Type} (public_of : Priv -> Pub) (rsa_sign : Priv -> string -> string).
Context (publicKeyToPem : Pub -> string) (privateKeyToPem : Priv -> string).

(** What the ceremony leaves: the files in the order they are written, and the
    manifest it returns. *)
Record Ceremony := mkCeremony { cm_writes : list (string * string); cm_manifest : json }.

Definition fingerprint (pem : string) : res string :=
  match certificateFromPem pem with
  | Ok c => Ok (to_hex (sha256 (certificateDer c)))
  | Throw e => Throw e
  end.

(** [rootSelfPem]: the placeholder that carries the subject *)
Definition rootSelfPem (rootPublicKeyPem : string) (t0 t1 : Date) : res string :=
  match publicKeyFromPem rootPublicKeyPem with
  | Throw e => Throw e
  | Ok key => Ok (certificateToPem (mkCert (mkTbs "00" key t0 (YEARS 15 t1) [("commonName", Some "BAPC Root CA")] []
                                     (mkExtensions None None None None)) ""))
  end.

Definition ca_input (serial subject keyPem : string) (from to : Date) : X509Input :=
  {| x_serial := serial; x_subject := subject; x_publicKeyPem := keyPem; x_notBefore := from; x_notAfter := to;
     x_extensions := ca_extensions |}.

Definition ceremony_manifest (at_ : Date) (rootPrint intermediatePrint : string) : json :=
  JObj [("generatedAt", jdate at_); ("warning", JStr "DEVELOPMENT CEREMONY ARTIFACTS — do not use in production.");
        ("root", JObj [("subject", JStr "CN=BAPC Root CA"); ("serial", JStr "01"); ("sha256", JStr rootPrint)]);
        ("intermediate", JObj [("subject", JStr "CN=BAPC Intermediate CA 1"); ("serial", JStr "02"); ("sha256", JStr intermediatePrint)])].

(** [runDevCeremony]; [clock n] is the [n]-th reading of the time, [root] and
    [intermediate] the generated pairs. *)
Definition runDevCeremony (outDir : string) (root intermediate : Priv) (clock : nat -> Date) : res Ceremony :=
  let build := x509_build certificateFromPem certificateToPem publicKeyFromPem tbsDer in
  let '(keys1, _) := key_generate public_of publicKeyToPem "root" root ∅ in
  let rootPublicKeyPem := publicKeyToPem (public_of root) in
  let sign_root keys := fun tbs => key_sign rsa_sign "root" RS256 tbs keys in
  let* selfPem := rootSelfPem rootPublicKeyPem (clock 0%nat) (clock 1%nat) in
  let* rootCertPem := build selfPem (sign_root keys1)
    (ca_input "01" "CN=BAPC Root CA" rootPublicKeyPem (clock 2%nat) (YEARS 15 (clock 3%nat))) in
  let '(keys2, _) := key_generate public_of publicKeyToPem "intermediate" intermediate keys1 in
  let intermediatePublicKeyPem := publicKeyToPem (public_of intermediate) in
  let* intermediateCertPem := build rootCertPem (sign_root keys2)
    (ca_input "02" "CN=BAPC Intermediate CA 1" intermediatePublicKeyPem (clock 4%nat) (YEARS 5 (clock 5%nat))) in
  let* rootKey := exportPrivateKeyPemForDevOnly privateKeyToPem "root" keys2 in
  let* intermediateKey := exportPrivateKeyPemForDevOnly privateKeyToPem "intermediate" keys2 in
  let* rootPrint := fingerprint rootCertPem in
  let* intermediatePrint := fingerprint intermediateCertPem in
  let manifest := ceremony_manifest (clock 6%nat) rootPrint intermediatePrint in
  Ok (mkCeremony
    [(posix_join outDir "root-ca.crt.pem", rootCertPem); (posix_join outDir "intermediate-ca.crt.pem", intermediateCertPem);
     (posix_join outDir "DEV-ONLY-root.key.pem", rootKey); (posix_join outDir "DEV-ONLY-intermediate.key.pem", intermediateKey);
     (posix_join outDir "manifest.json", json_pretty "" manifest)] manifest).

(** ** The chain *)

(** A certificate authority's certificate. *)
Record ca_profile (serial cn issuer key : string) (from to : Date) (c : Certificate) : Prop := {
  cp_serial : c.(ct_tbs).(tb_serial) = serial;
  cp_subject : c.(ct_tbs).(tb_subject) = [("commonName", Some cn)];
  cp_issuer : c.(ct_tbs).(tb_issuer) = [("commonName", Some issuer)];
  cp_key : c.(ct_tbs).(tb_publicKey) = key;
  cp_ca : c.(ct_tbs).(tb_extensions).(ext_cA) = Some true;
  cp_usage : c.(ct_tbs).(tb_extensions).(ext_keyUsage) = Some (mkKeyUsage false false false true true);
  cp_validity : c.(ct_tbs).(tb_notBefore) = from /\ c.(ct_tbs).(tb_notAfter) = to
}.

Lemma build_ca issuerPem issuer priv keys serial cn issuerCn keyPem key from to :
  certificateFromPem issuerPem = Ok issuer -> issuer.(ct_tbs).(tb_subject) = [("commonName", Some issuerCn)] ->
  publicKeyFromPem keyPem = Ok key -> keys !! "root" = Some priv -> dn_safe cn = true ->
  exists c, x509_build certificateFromPem certificateToPem publicKeyFromPem tbsDer issuerPem (fun tbs => key_sign rsa_sign "root" RS256 tbs keys)
      (ca_input serial ("CN=" +:+ cn) keyPem from to) = Ok (certificateToPem c) /\
    ca_profile serial cn issuerCn key from to c /\ c.(ct_signature) = rsa_sign priv (tbsDer c.(ct_tbs)).
Proof.
  intros Ei Es Ek Hk Hcn. unfold x509_build. rewrite Ei. cbn [x_publicKeyPem ca_input]. rewrite Ek. cbv zeta. unfold key_sign. rewrite Hk.
  eexists. split; [reflexivity|]. cbn [ct_tbs ct_signature]. split; [|done].
  split; cbn [ct_tbs tb_serial tb_subject tb_issuer tb_publicKey tb_notBefore tb_notAfter ca_input x_serial x_notBefore x_notAfter x_subject]; try done.
  by apply parseDn_cn.
Qed.

Context (rsa_verify : Pub -> string -> string -> bool).

(** Also: The ceremony always ends, and its files form a chain that verifies: the root
    certificate is its own issuer and carries the root's key, the intermediate one is
    issued by the root, both may sign certificates and lists, the signatures of both
    verify under the key in the root certificate, the private keys written are those
    of the two certificates, and the manifest names the fingerprints of the two
    certificates written.  When the clock moves by less than ten years while the
    ceremony runs, the intermediate certificate ends before the root. *)
Theorem ceremony_chain_verifies outDir root intermediate clock :
  (forall c, certificateFromPem (certificateToPem c) = Ok c) -> (forall k, exists d, publicKeyFromPem (publicKeyToPem k) = Ok d) ->
  (forall p m, rsa_verify (public_of p) m (rsa_sign p m) = true) ->
  exists rootCert intermediateCert rootKey intermediateKey manifest,
    runDevCeremony outDir root intermediate clock = Ok (mkCeremony
      [(posix_join outDir "root-ca.crt.pem", certificateToPem rootCert);
       (posix_join outDir "intermediate-ca.crt.pem", certificateToPem intermediateCert);
       (posix_join outDir "DEV-ONLY-root.key.pem", privateKeyToPem root);
       (posix_join outDir "DEV-ONLY-intermediate.key.pem", privateKeyToPem intermediate);
       (posix_join outDir "manifest.json", json_pretty "" manifest)] manifest) /\
    publicKeyFromPem (publicKeyToPem (public_of root)) = Ok rootKey /\
    publicKeyFromPem (publicKeyToPem (public_of intermediate)) = Ok intermediateKey /\
    ca_profile "01" "BAPC Root CA" "BAPC Root CA" rootKey (clock 2%nat) (YEARS 15 (clock 3%nat)) rootCert /\
    ca_profile "02" "BAPC Intermediate CA 1" "BAPC Root CA" intermediateKey (clock 4%nat) (YEARS 5 (clock 5%nat)) intermediateCert /\
    rsa_verify (public_of root) (tbsDer rootCert.(ct_tbs)) rootCert.(ct_signature) = true /\
    rsa_verify (public_of root) (tbsDer intermediateCert.(ct_tbs)) intermediateCert.(ct_signature) = true /\
    manifest = ceremony_manifest (clock 6%nat) (to_hex (sha256 (certificateDer rootCert))) (to_hex (sha256 (certificateDer intermediateCert))) /\
    (clock 5%nat - clock 3%nat < 10 * 365 * 86400000 -> intermediateCert.(ct_tbs).(tb_notAfter) < rootCert.(ct_tbs).(tb_notAfter)).
Proof.
  intros RT HK RV. destruct (HK (public_of root)) as [rk Erk], (HK (public_of intermediate)) as [ik Eik].
  set (keys1 := <["root" := root]> (∅ : gmap string Priv)). set (keys2 := <["intermediate" := intermediate]> keys1).
  set (placeholder := mkCert (mkTbs "00" rk (clock 0%nat) (YEARS 15 (clock 1%nat)) [("commonName", Some "BAPC Root CA")] [] (mkExtensions None None None None)) "").
  destruct (build_ca (certificateToPem placeholder) placeholder root keys1 "01" "BAPC Root CA" "BAPC Root CA"
    (publicKeyToPem (public_of root)) rk (clock 2%nat) (YEARS 15 (clock 3%nat))) as (rc & Erc & Prc & Src); [by rewrite ?RT..|].
  destruct (build_ca (certificateToPem rc) rc root keys2 "02" "BAPC Intermediate CA 1" "BAPC Root CA"
    (publicKeyToPem (public_of intermediate)) ik (clock 4%nat) (YEARS 5 (clock 5%nat))) as (ic & Eic & Pic & Sic); [by rewrite ?RT; destruct Prc..|].
  exists rc, ic, rk, ik. eexists. split_and!; [|done..|by rewrite Src|by rewrite Sic|reflexivity|].
  - unfold runDevCeremony, rootSelfPem. cbn [key_generate]. rewrite Erk. fold placeholder keys1 keys2. cbn [mbind res_bind].
    change ("CN=" +:+ "BAPC Root CA") with "CN=BAPC Root CA" in Erc. change ("CN=" +:+ "BAPC Intermediate CA 1") with "CN=BAPC Intermediate CA 1" in Eic.
    rewrite Erc. cbn [mbind res_bind]. rewrite Eic. cbn [mbind res_bind]. unfold fingerprint. by rewrite !RT.
  - intros Hc. destruct Prc as [_ _ _ _ _ _ [_ Hr]], Pic as [_ _ _ _ _ _ [_ Hi]]. rewrite Hr, Hi. unfold YEARS. lia.
Qed.
End ceremony.

(** ** [aws-kms-key-provider.ts] *)

Fixpoint split_at (n : nat) (s : string) : string * string :=
  match n, s with
  | S n, String c s => let '(a, b) := split_at n s in (String c a, b)
  | _, _ => ("", s)
  end.
(** [/.{1,64}/g] on a text without line breaks; the length of the text is enough
    fuel. *)
Fixpoint chunks (fuel : nat) (s : string) : list string :=
  match fuel, s with
  | S fuel, String _ _ => let '(line, rest) := split_at 64 s in line :: chunks fuel rest
  | _, _ => []
  end.
Definition pem_lines (base64 : string) : list string := chunks (String.length base64) base64.

Section kms.
Context (base64 : string -> string).
(** What [SignCommand] (key, message) and [GetPublicKeyCommand] answer: the
    [Signature], the [PublicKey]. *)
Context (kms_sign_command : string -> string -> res (option string)) (kms_public_command : string -> res (option string)).

Definition pem (der label : string) : string :=
  "-----BEGIN " +:+ label +:+ "-----" +:+ nl +:+ join nl (pem_lines (base64 der)) +:+ nl +:+ "-----END " +:+ label +:+ "-----" +:+ nl.

Definition kms_keyId (keyIds : gmap string string) (keyReference : string) : res string :=
  match when_truthy (keyIds !! keyReference) with
  | Some keyId => Ok keyId
  | None => Throw (JsError ("no AWS KMS key configured for reference " +:+ quoted keyReference))
  end.

Definition kms_sign (keyIds : gmap string string) (keyReference : string) (algorithm : Algorithm) (payload : string) : res string :=
  match algorithm with
  | ES256 => Throw (JsError "AwsKmsKeyProvider only supports RS256 (got ES256)")
  | RS256 =>
      let* keyId := kms_keyId keyIds keyReference in
      let* result := kms_sign_command keyId payload in
      match result with
      | Some signature => Ok signature
      | None => Throw (JsError ("AWS KMS returned no signature for key reference " +:+ quoted keyReference))
      end
  end.

Definition kms_publicKey (keyIds : gmap string string) (keyReference : string) : res string :=
  let* keyId := kms_keyId keyIds keyReference in
  let* result := kms_public_command keyId in
  match result with
  | Some der => Ok (pem der "PUBLIC KEY")
  | None => Throw (JsError ("AWS KMS returned no public key for key reference " +:+ quoted keyReference))
  end.

(** The provider [loadTrustAnchor] makes for a key. *)
Definition kms_provider (kmsKeyId : string) : res string * (string -> res string) :=
  let keyIds := {["intermediate" := kmsKeyId]} in
  (kms_publicKey keyIds "intermediate", kms_sign keyIds "intermediate" RS256).
End kms.

(** *** The lines of a PEM text *)

Lemma split_at_spec n s : let '(a, b) := split_at n s in s = a +:+ b /\ (String.length a <= n)%nat /\ (b <> "" -> String.length a = n).
Proof.
  revert s. induction n as [|n IH]; intros s; [destruct s; by split_and!|]. destruct s as [|c s]; cbn [split_at].
  { split_and!; [done|cbn; lia|done]. }
  specialize (IH s). destruct (split_at n s) as [a b]. destruct IH as (-> & Hl & He). rewrite app_cons_s. cbn [String.length].
  split_and!; [done|lia|]. intros Hb. by rewrite (He Hb).
Qed.

Lemma chunks_spec fuel s : (String.length s <= fuel)%nat ->
  join "" (chunks fuel s) = s /\ Forall (fun l => (1 <= String.length l <= 64)%nat) (chunks fuel s).
Proof.
  revert s. induction fuel as [|fuel IH]; intros [|c s] Hl; cbn [String.length] in Hl; try lia; try (split; [done|constructor]).
  cbn [chunks]. pose proof (split_at_spec 64 (String c s)) as H. destruct (split_at 64 (String c s)) as [a b] eqn:E.
  destruct H as (Es & Ha & Hb). assert (1 <= String.length a)%nat as H1.
  { destruct a; [|cbn; lia]. exfalso. rewrite app_nil_s in Es. by specialize (Hb ltac:(by rewrite <- Es)). }
  assert (String.length (String c s) = (String.length a + String.length b)%nat) as HL by (rewrite Es; apply length_app_s).
  cbn [String.length] in HL. destruct (IH b ltac:(lia)) as [Ej Hf]. split; [|by constructor].
  rewrite Es. rewrite <- Ej at 2. destruct (chunks fuel b) as [|l ls]; [|done]. cbn. by rewrite app_nil_r_s.
Qed.

(** What a reader of PEM puts together: the lines between the first and the last. *)
Definition pem_read (text : string) : string := join "" (rev (tl (tl (rev (tl (split_on newline text)))))).

Lemma chunk_chars p s fuel : all_chars p s = true -> Forall (fun l => all_chars p l = true) (chunks fuel s).
Proof.
  revert s. induction fuel as [|fuel IH]; intros [|c s] Hp; try constructor. cbn [chunks].
  pose proof (split_at_spec 64 (String c s)) as H. destruct (split_at 64 (String c s)) as [a b]. destruct H as (Es & _ & _).
  rewrite Es, all_chars_app in Hp. apply andb_true_iff in Hp as [Ha Hb]. constructor; [done|by apply IH].
Qed.

(** Also: The PEM text of a key reads back as the base64 of its DER form, with lines of
    one to sixty-four characters. *)
Theorem pem_reads_back base64 der label :
  all_chars (fun d => negb (Ascii.eqb newline d)) (base64 der) = true -> all_chars (fun d => negb (Ascii.eqb newline d)) label = true ->
  pem_read (pem base64 der label) = base64 der /\ Forall (fun l => (1 <= String.length l <= 64)%nat) (pem_lines (base64 der)).
Proof.
  intros Hb Hl. destruct (chunks_spec (String.length (base64 der)) (base64 der) ltac:(lia)) as [Ej Hf]. split; [|done].
  pose proof (chunk_chars _ (base64 der) (String.length (base64 der)) Hb) as Hc. fold (pem_lines (base64 der)) in Ej, Hc.
  set (lines := match pem_lines (base64 der) with [] => [""] | ls => ls end).
  assert (join "" lines = base64 der /\ join nl (pem_lines (base64 der)) = join nl lines /\ lines <> [] /\
    Forall (fun l => all_chars (fun d => negb (Ascii.eqb newline d)) l = true) lines) as (E1 & E2 & E3 & E4).
  { unfold lines. destruct (pem_lines (base64 der)); [|done]. split_and!; [done..|by repeat constructor]. }
  assert (split_on newline (pem base64 der label) = ("-----BEGIN " +:+ label +:+ "-----") :: lines ++ ["-----END " +:+ label +:+ "-----"; ""]) as Sp.
  { unfold pem. rewrite E2. transitivity (split_on newline (join nl (("-----BEGIN " +:+ label +:+ "-----") :: lines ++ ["-----END " +:+ label +:+ "-----"; ""]))).
    - f_equal. assert (forall ls a b, ls <> [] -> join nl (ls ++ [a; b]) = join nl ls +:+ nl +:+ a +:+ nl +:+ b) as J.
      { clear. intros ls a b Hne. destruct ls as [|l ls]; [done|]. clear Hne. revert l. induction ls as [|m ls IH]; intros l; [done|].
        change (join nl ((l :: m :: ls) ++ [a; b])) with (l +:+ nl +:+ join nl ((m :: ls) ++ [a; b])). rewrite IH.
        change (join nl (l :: m :: ls)) with (l +:+ nl +:+ join nl (m :: ls)). by rewrite !app_assoc_s. }
      destruct lines as [|l ls] eqn:El; [done|]. change (join nl (?h :: (l :: ls) ++ ?t)) with (h +:+ nl +:+ join nl ((l :: ls) ++ t)).
      rewrite J by done. by rewrite !app_assoc_s, app_nil_r_s.
    - apply split_on_join; [|done]. constructor; [|apply Forall_app; split; [done|]]; [by rewrite !all_chars_app, Hl|].
      repeat constructor. by rewrite !all_chars_app, Hl. }
  unfold pem_read. rewrite Sp. cbn [tl]. rewrite rev_app_distr. cbn [rev app tl]. by rewrite rev_involutive.
Qed.

(** ** A trust anchor in KMS *)

Lemma kms_keyId_configured keyId : keyId <> "" -> kms_keyId {["intermediate" := keyId]} "intermediate" = Ok keyId.
Proof. intros Hk. unfold kms_keyId. rewrite lookup_singleton_eq, when_truthy_given by done. done. Qed.

Section kms_anchor.
Context (certificateFromPem : string -> res Certificate) (certificateToPem : Certificate -> string).
Context (publicKeyFromPem : string -> res string) (tbsDer : Tbs -> string) (base64 : string -> string).
Context (kms_sign_command : string -> string -> res (option string)) (kms_public_command : string -> res (option string)).
Context {Priv Pub : Type} (public_of : Priv -> Pub) (rsa_sign : Priv -> string -> string).
Context (publicKeyToPem : Pub -> string) (privateKeyToPem : Priv -> string) (privateKeyFromPem : string -> res Priv).

(** Also: With a key id in the environment the trust anchor is a certificate of that KMS
    key: it is its own issuer, carries the public key KMS returns for that id, and its
    signature is the one KMS returned for that id over its own fields; no other key is
    used, and no private key is stored.  The provider refuses every other reference
    and ES256 without asking KMS. *)
Theorem kms_anchor_uses_configured_key keyId subject gen fresh now a i a' i' ta :
  (forall c, certificateFromPem (certificateToPem c) = Ok c) -> keyId <> "" ->
  dn_safe (default "BAPC Intermediate CA 1" subject) = true ->
  loadTrustAnchor certificateFromPem certificateToPem publicKeyFromPem tbsDer public_of rsa_sign publicKeyToPem privateKeyToPem privateKeyFromPem
    (Some keyId) subject (kms_provider base64 kms_sign_command kms_public_command) gen fresh now (a, i) = ((a', i'), Ok ta) ->
  a' = a /\ (exists c der key, ta.(ta_certificatePem) = certificateToPem c /\ kms_public_command keyId = Ok (Some der) /\
    publicKeyFromPem (pem base64 der "PUBLIC KEY") = Ok key /\
    kms_sign_command keyId (tbsDer c.(ct_tbs)) = Ok (Some c.(ct_signature)) /\
    self_signed_ca tbsDer (default "BAPC Intermediate CA 1" subject) key (kms_provider base64 kms_sign_command kms_public_command keyId).2 now 365 c) /\
  (forall ref payload, ref <> "intermediate" -> exists e, kms_sign kms_sign_command {["intermediate" := keyId]} ref RS256 payload = Throw e) /\
  (forall ref payload, exists e, kms_sign kms_sign_command {["intermediate" := keyId]} ref ES256 payload = Throw e).
Proof.
  intros RT Hk Hcn. unfold loadTrustAnchor. rewrite when_truthy_given by done. unfold mbind at 1, St_bind at 1, lift_res at 1.
  destruct (selfSignWithExistingKey _ _ _ _ _ _ _ _ _) as [anchorPem|err] eqn:Es; [|done].
  intros H. apply bind_inv_ok in H as (s1 & issuerId & H1 & H2). unfold mret, St_ret in H2.
  unfold on_issuers in H1. destruct (upsertIssuerRow fresh anchorPem "intermediate" i) as [i1 r1]. simplify_eq.
  assert (exists c kp key, anchorPem = certificateToPem c /\ (kms_provider base64 kms_sign_command kms_public_command keyId).1 = Ok kp /\ publicKeyFromPem kp = Ok key /\
    self_signed_ca tbsDer (default "BAPC Intermediate CA 1" subject) key (kms_provider base64 kms_sign_command kms_public_command keyId).2 now 365 c)
    as (c & kp & key & Ep & Ekp & Ek & Hc) by (eapply selfSign_profile; done).
  pose proof (kms_keyId_configured _ Hk) as Hid.
  split_and!; [done| | |].
  - cbn [kms_provider fst] in Ekp. unfold kms_publicKey in Ekp. rewrite Hid in Ekp. cbn [mbind res_bind] in Ekp.
    destruct (kms_public_command keyId) as [[der|]|] eqn:Ed; try done. cbn [mbind res_bind] in Ekp. injection Ekp as <-.
    exists c, der, key. split_and!; [done..| |done]. pose proof (ss_signature _ _ _ _ _ _ _ Hc) as Sg.
    cbn [kms_provider snd] in Sg. unfold kms_sign in Sg. rewrite Hid in Sg. cbn [mbind res_bind] in Sg.
    destruct (kms_sign_command keyId (tbsDer (ct_tbs c))) as [[sg|]|]; try done. cbn in Sg. by injection Sg as ->.
  - intros ref payload Hr. unfold kms_sign, kms_keyId. rewrite lookup_singleton_ne by done. by eexists.
  - intros ref payload. by eexists.
Qed.
End kms_anchor.

(** ** The theorems applied

    A codec for certificates: the number of the fields, in binary. *)

Definition CertificateFields : Type :=
  (string * string * Z * Z * list (string * option string) * list (string * option string)) *
  (option bool * option (bool * bool * bool * bool * bool) * option (bool * bool) * option (Z * option string)) * string.
Definition fields_of (c : Certificate) : CertificateFields :=
  let t := c.(ct_tbs) in let x := t.(tb_extensions) in
  ((t.(tb_serial), t.(tb_publicKey), t.(tb_notBefore), t.(tb_notAfter), t.(tb_subject), t.(tb_issuer)),
   (x.(ext_cA), (fun u => (digitalSignature u, keyEncipherment u, keyAgreement u, keyCertSign u, cRLSign u)) <$> x.(ext_keyUsage),
    x.(ext_extKeyUsage), x.(ext_subjectAltName)), c.(ct_signature)).
Definition of_fields (f : CertificateFields) : Certificate :=
  let '((serial, key, from, to, subject, issuer), (ca, usage, ext, san), sg) := f in
  mkCert (mkTbs serial key from to subject issuer
    (mkExtensions ca ((fun '(a, b, c, d, e) => mkKeyUsage a b c d e) <$> usage) ext san)) sg.

Fixpoint pos_text (p : positive) : string :=
  match p with xH => "" | xO p => String "0" (pos_text p) | xI p => String "1" (pos_text p) end.
Fixpoint text_pos (s : string) : positive :=
  match s with "" => xH | String c s => if Ascii.eqb c "0" then xO (text_pos s) else xI (text_pos s) end.

Definition toy_toPem (c : Certificate) : string := pos_text (encode (fields_of c)).
Definition toy_fromPem (s : string) : res Certificate :=
  match decode (A := CertificateFields) (text_pos s) with Some f => Ok (of_fields f) | None => Throw (JsError "Invalid PEM") end.

Lemma toy_codec c : toy_fromPem (toy_toPem c) = Ok c.
Proof.
  unfold toy_fromPem, toy_toPem. assert (forall p, text_pos (pos_text p) = p) as -> by (induction p; cbn; congruence).
  rewrite decode_encode. f_equal. destruct c as [[serial key from to subject issuer [ca [[]|] ext san]] sg]; done.
Qed.

Definition toy_rsa (p m : string) : string := p +:+ m.
Definition toy_check (p m s : string) : bool := String.eqb s (p +:+ m).
Definition toy_der (t : Tbs) : string := t.(tb_serial).

Lemma ceremony_chain_verifies_witness :
  exists rootCert intermediateCert ceremony,
    runDevCeremony toy_fromPem toy_toPem (fun k => Ok k) toy_der toy_toPem (fun s => s) (fun p => p) toy_rsa (fun k => k) (fun k => k)
      "deploy/dev-ca" "r" "i" (fun n => Z.of_nat n) = Ok ceremony /\
    toy_check "r" (toy_der rootCert.(ct_tbs)) rootCert.(ct_signature) = true /\
    toy_check "r" (toy_der intermediateCert.(ct_tbs)) intermediateCert.(ct_signature) = true /\
    intermediateCert.(ct_tbs).(tb_notAfter) < rootCert.(ct_tbs).(tb_notAfter).
Proof.
  destruct (ceremony_chain_verifies toy_fromPem toy_toPem (fun k => Ok k) toy_der toy_toPem (fun s => s) (fun p => p) toy_rsa
    (fun k => k) (fun k => k) toy_check "deploy/dev-ca" "r" "i" (fun n => Z.of_nat n) toy_codec
    ltac:(intros k; by exists k) ltac:(intros p m; apply String.eqb_refl)) as (rc & ic & rk & ik & m & E & _ & _ & _ & _ & V1 & V2 & _ & H).
  exists rc, ic. eexists. split; [exact E|]. split_and!; [exact V1|exact V2|]. apply H. lia.
Defined.

Definition toy_kms := kms_provider (fun s => s) (fun k m => Ok (Some (toy_rsa k m))) (fun k => Ok (Some k)).
Definition toy_load := loadTrustAnchor toy_fromPem toy_toPem (fun k => Ok k) toy_der (fun p => p) toy_rsa (fun k => k) (fun k => k) (fun s => Ok s)
  (Some "key-1") None toy_kms "g" "u" 0 (∅, ∅).

Lemma toy_load_ok : match toy_load with (_, Ok ta) => ta.(ta_mode) = AWS_KMS "key-1" | _ => False end.
Proof.
  unfold toy_load, loadTrustAnchor. change (when_truthy (Some "key-1")) with (Some "key-1").
  assert ((toy_kms "key-1").1 = Ok (pem (fun s => s) "key-1" "PUBLIC KEY")) as E1 by (cbn [toy_kms kms_provider fst]; unfold kms_publicKey; by rewrite kms_keyId_configured).
  assert (forall m, (toy_kms "key-1").2 m = Ok (toy_rsa "key-1" m)) as E2 by (intros m; cbn [toy_kms kms_provider snd]; unfold kms_sign; by rewrite kms_keyId_configured).
  unfold selfSignWithExistingKey. rewrite E1. unfold x509_build. rewrite toy_codec. cbv iota. rewrite E2. done.
Qed.

Lemma kms_anchor_uses_configured_key_witness :
  exists a' i' c ta, toy_load = ((a', i'), Ok ta) /\ ta.(ta_certificatePem) = toy_toPem c /\ toy_rsa "key-1" (toy_der c.(ct_tbs)) = c.(ct_signature).
Proof.
  destruct toy_load as [[a' i'] [ta|e]] eqn:E; [|pose proof toy_load_ok as H; rewrite E in H; destruct H].
  destruct (kms_anchor_uses_configured_key toy_fromPem toy_toPem (fun k => Ok k) toy_der (fun s => s) (fun k m => Ok (Some (toy_rsa k m)))
    (fun k => Ok (Some k)) (fun p => p) toy_rsa (fun k => k) (fun k => k) (fun s => Ok s) "key-1" None "g" "u" 0 ∅ ∅ a' i' ta
    toy_codec ltac:(discriminate) eq_refl E) as (_ & (c & der & key & Ep & _ & _ & Es & _) & _).
  exists a', i', c, ta. split; [reflexivity|]. split; [exact Ep|]. injection Es as Es. exact Es.
Defined.
