(* ===== verification/Dashboard.v ===== *)
(** * What operators and relying parties read

    What the summary of [SocService] counts, [PgSocData]
    ([src/apps/security-soc/pg-soc-data.ts]) with [SecuritySocBackend.snapshot]
    ([backend.ts]), the handlers of the GET routes of [production-server.ts], and
    the routes behind the router.  Rows are JSON objects with the columns of
    their query; relays and gateways keep their rational numbers and are printed
    by an argument. *)

From S2P Require Import Prelude Json Text Domain Words Database Native Repositories AuditChain Rollout Mesh Reconciliation ThreatResponse Certificates Correlation Rest Router RouteTable Oob Egress Config X509 TrustAnchor Fleet ControlPlane Tokens.
Open Scope Z_scope.

(** ** [PgSocData] *)

Definition jdate_opt (o : option Date) : json := match o with Some t => jdate t | None => JNull end.
Definition jstr_opt (o : option string) : json := match o with Some s => JStr s | None => JNull end.

Definition node_row (n : MeshNode) : json := JObj
  [("node_id", JStr n.(n_id)); ("device_id", JStr n.(deviceId)); ("zone_assignment", JStr (zone_name n.(zone)));
   ("node_type", JStr (node_type_name n.(nodeType))); ("is_active", JBool n.(active)); ("last_handshake", jdate_opt n.(lastHandshake))].
Definition soc_nodes (db : Db) : list json :=
  map node_row (sort_by (fun a b => String.leb a.(n_id) b.(n_id)) (rows db.(mesh_nodes))).

Definition incident_row (i : IncidentRow) : json := JObj
  [("incident_id", JStr i.(in_id)); ("title", JStr i.(in_title)); ("severity", JStr (severity_name i.(in_severity)));
   ("status", JStr (if i.(in_open) then "OPEN" else "RESOLVED")); ("primary_node_id", jstr_opt i.(in_node));
   ("opened_at", jdate i.(in_opened)); ("closed_at", jdate_opt i.(in_closed))].
Definition soc_incidents (db : Db) : list json :=
  map incident_row (take 100 (sort_by (fun a b => b.(in_opened) <=? a.(in_opened)) db.(incidents))).

Definition policy_row (p : NetworkPolicy) : json := JObj
  [("policy_id", JStr p.(p_id)); ("name", JStr p.(p_name)); ("version", JNum p.(p_version)); ("priority", JNum p.(priority));
   ("is_active", JBool p.(p_active))].
Definition soc_policies (db : Db) : list json :=
  map policy_row (sort_by (fun a b => b.(priority) <=? a.(priority)) (List.filter p_active (rows db.(network_policies)))).

Definition grant_row (g : JitGrant) : json := JObj
  [("grant_id", JStr g.(g_id)); ("user_id", JStr g.(g_userId)); ("target_resource", JStr g.(targetResource));
   ("target_zone", JStr (zone_name g.(targetZone))); ("granted_at", jdate g.(grantedAt)); ("expires_at", jdate g.(g_expiresAt))].
Definition soc_jit (db : Db) : list json :=
  map grant_row (sort_by (fun a b => a.(g_expiresAt) <=? b.(g_expiresAt))
    (List.filter (fun g => negb g.(terminated) && (db.(pg_now) <? g.(g_expiresAt))) (rows db.(jit_grants)))).

Definition soc_relays (t : gmap string RelayRow) : list (string * RelayRow) :=
  sort_by (fun a b => String.leb a.2.(rl_region) b.2.(rl_region)) (map_to_list t).

Definition certificate_row (c : CertificateRow) : json := JObj
  [("cert_id", JStr c.(ce_id)); ("node_id", JStr c.(ce_node)); ("serial_number", JStr c.(ce_serial)); ("subject_dn", JStr c.(ce_subject));
   ("issued_at", jdate c.(ce_issued)); ("expires_at", jdate c.(ce_expires)); ("is_revoked", JBool c.(ce_revoked))].
Definition live_certificates (db : Db) : list CertificateRow :=
  take 200 (sort_by (fun a b => a.(ce_expires) <=? b.(ce_expires)) (List.filter (fun c => negb c.(ce_revoked)) db.(certificates))).
Definition soc_certificates (db : Db) : list json := map certificate_row (live_certificates db).

Definition revoked_row (c : CertificateRow) : json := JObj
  [("cert_id", JStr c.(ce_id)); ("node_id", JStr c.(ce_node)); ("serial_number", JStr c.(ce_serial)); ("subject_dn", JStr c.(ce_subject));
   ("revoked_at", jdate_opt c.(ce_revoked_at)); ("revocation_reason", jstr_opt c.(ce_reason))].
(** [ORDER BY revoked_at DESC]: nulls come first *)
Definition later_revocation (a b : CertificateRow) : bool :=
  match a.(ce_revoked_at), b.(ce_revoked_at) with
  | None, _ => true
  | Some _, None => false
  | Some x, Some y => y <=? x
  end.
Definition revoked_certificates (db : Db) : list CertificateRow :=
  take 200 (sort_by later_revocation (List.filter ce_revoked db.(certificates))).
Definition soc_revokedCertificates (db : Db) : list json := map revoked_row (revoked_certificates db).

Definition event_row (e : SecurityEvent) : json := JObj
  [("event_id", JStr e.(e_id)); ("node_id", jstr_opt e.(e_nodeId)); ("event_timestamp", jdate e.(e_at));
   ("severity", JStr (severity_name e.(severity))); ("engine_source", JStr e.(engine)); ("event_type", JStr e.(e_type));
   ("description", JStr e.(description))].
Definition soc_events (limit : Z) (db : Db) : list json :=
  map event_row (take (Z.to_nat (Z.max 1 (Z.min limit 500))) (sort_by (fun a b => b.(e_at) <=? a.(e_at)) db.(security_events))).

(** [SecuritySocBackend.snapshot]; [print] prints the rows of relays. *)
Definition backend_snapshot (print : list (string * RelayRow) -> json) (now : Date) (a : App) : json :=
  let db := a.(cp_db) in
  JObj [("generatedAt", jdate now); ("nodes", JArr (soc_nodes db)); ("incidents", JArr (soc_incidents db));
        ("policies", JArr (soc_policies db)); ("jit", JArr (soc_jit db)); ("relays", print (soc_relays a.(cp_relays)));
        ("certificates", JArr (soc_certificates db)); ("revokedCertificates", JArr (soc_revokedCertificates db));
        ("events", JArr (soc_events 100 db))].

(** ** [PgThreatSignalStore.activeWindows] *)

Record ActiveWindow := mkActive { aw_nodeKey : string; aw_signalCount : nat; aw_latestAt : Date }.

(** The groups, in the order their keys first occur, then by latest signal. *)
Definition window_of (since : Z) (k : string) (t : PgSignals) : option ActiveWindow :=
  match List.filter (fun x => since <=? x.(ts_at)) (pg_rows k t) with
  | [] => None
  | x :: l => Some (mkActive k (length (x :: l)) (fold_left Z.max (map ts_at l) x.(ts_at)))
  end.
Definition activeWindows (since : Z) (t : PgSignals) : list ActiveWindow :=
  sort_by (fun a b => b.(aw_latestAt) <=? a.(aw_latestAt)) (omap (fun k => window_of since k t) (remove_dups (map fst t))).

(** ** The handlers of the GET routes *)

(** A SELECT on the database, and a handler whose result is sent as JSON. *)
Definition query {A} (f : Db -> A) : St App A := on_db (gets f).
Definition json_handler (h : Ctx -> St App json) : Handler App := JsonHandler (fun c => let* v := h c in mret (Some v)).

Definition param (k : string) (c : Ctx) : string := default "" (snd <$> List.find (fun kv => String.eqb kv.1 k) c.(cx_params)).

Definition audit_json (r : AuditRecord) : json := JObj
  [("sequence", JNum r.(sequence)); ("at", jdate r.(a_at)); ("actor", JStr r.(actor)); ("action", JStr r.(a_action));
   ("subject", JStr r.(subject)); ("payload", r.(payload)); ("previousHash", JStr r.(previousHash)); ("hash", JStr r.(a_hash))].
Definition rollout_json (r : NodeRolloutRecord) : json := JObj (
  [("nodeId", JStr r.(rr_node)); ("status", JStr (match r.(rr_status) with PENDING => "PENDING" | SUCCEEDED => "SUCCEEDED"
     | FAILED => "FAILED" | TIMED_OUT => "TIMED_OUT" | ROLLED_BACK => "ROLLED_BACK" end))]
  ++ jopt "acknowledgedAt" (jdate <$> r.(rr_acknowledged)) ++ [("details", r.(rr_details))]).
Definition window_json (w : ActiveWindow) : json := JObj
  [("nodeKey", JStr w.(aw_nodeKey)); ("signalCount", JNum (Z.of_nat w.(aw_signalCount))); ("latestAt", jdate w.(aw_latestAt))].
Definition jnat (n : nat) : json := JNum (Z.of_nat n).
Definition snapshot_json (now : Date) (s : SocCounts * list MeshNode * list SecurityEvent) : json :=
  let '(c, nodes, events) := s in
  JObj [("generatedAt", jdate now);
        ("counts", JObj [("devices", jnat c.(sc_devices)); ("revokedDevices", jnat c.(sc_revoked));
           ("compromisedDevices", jnat c.(sc_compromised)); ("nodes", jnat c.(sc_nodes)); ("activeNodes", jnat c.(sc_activeNodes));
           ("activeJit", jnat c.(sc_activeJit)); ("activePolicies", jnat c.(sc_activePolicies)); ("criticalEvents", jnat c.(sc_criticalEvents))]);
        ("nodes", JArr (map (fun n => JObj (node_json n)) nodes)); ("events", JArr (map event_json events))].

Section reads.
Context `{Collation} (sha256 : string -> string) (hmac : string -> string -> string) (JSON_parse : string -> res json).
(** The printers of rows with rational numbers, and of rows that are passed
    through. *)
Context (print_rows : list (string * RelayRow) -> json) (print_relays : list RelayHealth -> json) (print_gateways : list EgressGateway -> json).
Context (print_desired : DesiredStateRow -> json) (print_snapshots : list Snapshot -> json).
(** [query.get(name)], [Number(text)] for integers, [None] for [NaN], and the
    secret of the recovery server. *)
Context (query_get : string -> string -> option string) (Number : string -> option Z) (serverSecret : string).
(** The certificate builder and the signer of the trust anchor. *)
Context (certificateFromPem : string -> res Certificate) (integerToDer : Z -> string) (oidToDer : string -> string)
  (dateToUtcTime : Date -> string) (distinguishedNameToAsn1 : list (string * option string) -> Asn1) (toDer : Asn1 -> string)
  (sha256WithRSAEncryption anchorPem : string) (sign : string -> res string).
(** The configuration, the state of the database and the clock. *)
Context (environment headquarters : string) (healthy : bool) (now : Date).

Definition status_route (c : Ctx) : St App json :=
  if healthy then mret (JObj [("service", JStr "bapc-vpn-security"); ("version", JStr "0.4.0"); ("subject", c.(cx_claims).(sub));
    ("database", JBool true); ("environment", JStr environment)])
  else throw (JsError "database unreachable").

(** [LIMIT NaN] is refused by the database. *)
Definition events_route (c : Ctx) : St App json :=
  match Number (default "100" (query_get c.(cx_query) "limit")) with
  | Some limit => let* events := query (recent limit) in mret (JArr (map event_json events))
  | None => throw (PgError "22P02")
  end.

Definition oob_status_route : St App json :=
  let* up := on_oob (on_channel (http_healthy sha256 JSON_parse serverSecret)) in
  let* good := gets (fun a => listLastKnownGood a.(cp_oob).1) in
  mret (JObj [("healthy", JBool up); ("lastKnownGood", print_snapshots good)]).

Lemma healthy_reads k : (http_healthy sha256 JSON_parse serverSecret k).1 = k.
Proof.
  unfold http_healthy, try_catch, mbind, St_bind, fetch. destruct k as [[] docs]; [|done]. cbn [link_up link_docs].
  unfold oob_handle. cbn. done.
Qed.

(** [GET /api/v1/certificates/crl] *)
Definition crl_route : St App (string * string) :=
  let* revoked := query listRevoked in
  let* body := lift_res (crl_build certificateFromPem integerToDer oidToDer dateToUtcTime distinguishedNameToAsn1 toDer sha256WithRSAEncryption
    anchorPem now (now + 24 * 3600000) revoked sign) in
  mret ("application/pkix-crl", body).

(** The handler of a GET route, by its path; [nonce] and [signature] are the
    headers the handshake reads. *)
Definition get_handler (nonce signature : option string) (path : string) : Handler App :=
  let route := String.eqb path in
  if route "/" then json_handler (fun _ => mret (JObj [("service", JStr "bapc-vpn-security"); ("version", JStr "0.4.0")]))
  else if route "/api/v1/status" then json_handler status_route
  else if route "/api/v1/nodes" then
    json_handler (fun _ => let* nodes := query list_nodes in mret (JArr (map (fun n => JObj (node_json n)) nodes)))
  else if route "/api/v1/policies" then
    json_handler (fun _ => let* policies := query listActive_policies in mret (JArr (map (fun p => JObj (policy_json p)) policies)))
  else if route "/api/v1/policies/:commitId/rollout" then
    json_handler (fun c => let* records := query (pg_summary (param "commitId" c)) in mret (JArr (map rollout_json records)))
  else if route "/api/v1/events" then json_handler events_route
  else if route "/api/v1/audit" then json_handler (fun _ => let* records := query chain in mret (JArr (map audit_json records)))
  else if route "/api/v1/audit/verify" then
    json_handler (fun _ => let* valid := query (AuditChain.verify (hex_digest sha256)) in mret (JObj [("valid", JBool valid)]))
  else if route "/api/v1/soc/snapshot" then
    json_handler (fun _ => let* summary := query (ThreatResponse.snapshot now) in mret (snapshot_json now summary))
  else if route "/api/v1/soc/snapshot/full" then json_handler (fun _ => gets (backend_snapshot print_rows now))
  else if route "/api/v1/oob/status" then json_handler (fun _ => oob_status_route)
  else if route "/api/v1/certificates/crl" then RawHandler (fun _ => crl_route)
  else if route "/api/bapc/handshake" then
    RawHandler (fun _ => lift_res (handshake_route hmac headquarters (String.eqb environment "production") healthy now nonce signature))
  else if route "/api/v1/nodes/:id/desired-state" then
    json_handler (fun c => let* state := desired_get_route (param "id" c) in mret (print_desired state))
  else if route "/api/v1/threats/active" then
    json_handler (fun _ =>
      let* groups := gets (fun a => activeWindows (now - THREAT_CORRELATION_WINDOW_MS) a.(cp_signals)) in
      mret (JArr (map window_json groups)))
  else if route "/api/v1/relays" then
    json_handler (fun _ => let* relays := gets (fun a => relay_list a.(cp_relays)) in mret (print_relays relays))
  else if route "/api/v1/egress" then
    json_handler (fun _ => let* gateways := gets (fun a => egress_list a.(cp_egress)) in mret (print_gateways gateways))
  else if route "/api/v1/egress/select" then
    json_handler (fun c =>
      let* gateway := gets (fun a => select_route (pg_now a.(cp_db)) (query_get c.(cx_query) "region") a.(cp_egress)) in
      lift_res gateway)
  else json_handler (fun _ => throw (HttpError 404 "route not found" "not_found")).

(** The table of the server: the handlers above, and those of the other methods. *)
Definition all_handlers (nonce signature : option string) (writes : string -> string -> Handler App) (method path : string) : Handler App :=
  if String.eqb method "GET" then get_handler nonce signature path
  else if String.eqb method "HEAD" then json_handler (fun _ => mret (JObj []))
  else writes method path.

(** ** What a GET can do *)

(** A computation that leaves the application as it was, whatever it returns. *)
Definition keeps {A} (m : St App A) : Prop := forall a, (m a).1 = a.

Lemma keeps_bind {A B} (m : St App A) (k : A -> St App B) : keeps m -> (forall x, keeps (k x)) -> keeps (m ≫= k).
Proof.
  intros Hm Hk a. unfold mbind, St_bind. pose proof (Hm a) as E. destruct (m a) as [a' [x|e]]; cbn in E |- *; subst a'; [apply Hk|done].
Qed.
Lemma keeps_ret {A} (x : A) : keeps (mret x).
Proof. done. Qed.
Lemma keeps_throw {A} e : keeps (throw (A := A) e).
Proof. done. Qed.
Lemma keeps_gets {A} (f : App -> A) : keeps (gets f).
Proof. done. Qed.
Lemma keeps_res {A} (r : res A) : keeps (lift_res r).
Proof. done. Qed.
Lemma keeps_on_db {A} (m : St Db A) : (forall db, (m db).1 = db) -> keeps (on_db m).
Proof. intros Hm [db sg rl eg ob]. unfold on_db. cbn. pose proof (Hm db) as E. destruct (m db) as [db' r]. cbn in E. by subst db'. Qed.
Lemma keeps_query {A} (f : Db -> A) : keeps (query f).
Proof. by apply keeps_on_db. Qed.
Hint Resolve keeps_ret keeps_throw keeps_gets keeps_res keeps_query : reads.

Ltac keeps := repeat (first [ solve [auto with reads] | apply keeps_bind; [|intros] | case_match ]).

Lemma keeps_oob_status : keeps oob_status_route.
Proof.
  unfold oob_status_route. apply keeps_bind; [|intros; keeps].
  intros [db sg rl eg [st k]]. unfold on_oob, on_channel. cbn [cp_oob cp_db cp_signals cp_relays cp_egress].
  pose proof (healthy_reads k) as Hk. destruct (http_healthy sha256 JSON_parse serverSecret k) as [k' up]; cbn in Hk; by subst k'.
Qed.
Lemma keeps_desired nodeId : keeps (desired_get_route nodeId).
Proof. unfold desired_get_route. apply keeps_bind; [by apply keeps_on_db|intros [x|]; keeps]. Qed.
Hint Resolve keeps_oob_status keeps_desired : reads.

Lemma json_handler_reads h : (forall c, keeps (h c)) -> reads_only (json_handler h).
Proof. intros Hh c. apply (keeps_bind (h c)); [apply Hh|]. intros x. apply keeps_ret. Qed.

Lemma get_handler_reads nonce signature path : reads_only (get_handler nonce signature path).
Proof.
  unfold get_handler, status_route, events_route, crl_route. cbv zeta.
  repeat (destruct (String.eqb path _); [first [apply json_handler_reads; intros c|intros c]; keeps|]).
  apply json_handler_reads; intros c; keeps.
Qed.

Lemma production_handler handler method path (r : Route App) :
  find_route (production_routes handler) method path = Some r -> exists template, r.(rt_handler) = handler method template.
Proof.
  intros F. apply find_elem in F as [Hr S]. rewrite production_routes_map in Hr. apply elem_of_List_map in Hr as (x & -> & Hx).
  destruct x as [[[m p] rs] o]. cbn [route_of rt_method] in S. apply andb_true_iff in S as [S _]. apply String.eqb_eq in S as ->.
  by exists p.
Qed.

(** C13: A GET or HEAD request changes nothing of the application, whatever it asks
    for, whoever sends it and whatever the handlers of the other methods are: neither
    the database, nor the signals, relays and gateways, nor the recovery channel. *)
Theorem get_requests_read_only {I R} `{!IdempotencyStore I} `{!ReplayStore R} base64url from_base64url parse secret nonce signature writes
    clk id req (s : Edge I R App) :
  req.(rq_method) = "GET" \/ req.(rq_method) = "HEAD" ->
  app (handle hmac sha256 base64url from_base64url parse secret true
        (production_routes (all_handlers nonce signature writes)) clk id req s).1 = app s.
Proof.
  intros Hm. apply handle_reads. intros r F. apply production_handler in F as [template ->]. unfold all_handlers.
  destruct Hm as [-> | ->]; cbn [String.eqb]; [apply get_handler_reads|apply json_handler_reads; intros c; keeps].
Qed.

(** The answer of a handler. *)
Definition answers (h : Handler App) (c : Ctx) (a : App) : res (option json) * res (string * string) :=
  match h with
  | JsonHandler h => ((h c a).2, Throw (JsError ""))
  | RawHandler h => (Throw (JsError ""), (h c a).2)
  end.

(** The same row without its reason. *)
Definition hide_reason (c : CertificateRow) : CertificateRow :=
  mkCertificate c.(ce_id) c.(ce_node) c.(ce_issuer) c.(ce_serial) c.(ce_subject) c.(ce_issued) c.(ce_expires) c.(ce_revoked) None c.(ce_revoked_at).

Lemma sort_insert_map {A} (f : A -> A) (leb : A -> A -> bool) x l : (forall a b, leb (f a) (f b) = leb a b) ->
  sort_insert leb (f x) (map f l) = map f (sort_insert leb x l).
Proof.
  intros Hf. induction l as [|y l IH]; [done|]. cbn [map sort_insert]. rewrite Hf. destruct (leb x y); [done|]. cbn [map]. by rewrite IH.
Qed.
Lemma sort_by_map {A} (f : A -> A) (leb : A -> A -> bool) l : (forall a b, leb (f a) (f b) = leb a b) ->
  sort_by leb (map f l) = map f (sort_by leb l).
Proof.
  intros Hf. unfold sort_by. induction l as [|x l IH]; [done|]. cbn [map foldr]. by rewrite IH, sort_insert_map.
Qed.
Lemma filter_map_same {A} (f : A -> A) (p : A -> bool) l : (forall a, p (f a) = p a) -> List.filter p (map f l) = map f (List.filter p l).
Proof. intros Hf. induction l as [|x l IH]; [done|]. cbn. rewrite Hf. destruct (p x); [cbn; by rewrite IH|done]. Qed.

Lemma listRevoked_hides db : listRevoked (set_certificates (map hide_reason db.(certificates)) db) = listRevoked db.
Proof.
  unfold listRevoked. change (certificates (set_certificates ?v db)) with v. rewrite filter_map_same, sort_by_map by done.
  induction (sort_by _ _) as [|c l IH]; [done|]. cbn. destruct (ce_revoked_at c); cbn; by rewrite IH.
Qed.

(** Also: Without a token a client learns nothing from the control plane's state but
    the revocation list: on two states with the same revoked serials and times, every
    public route gives the same answer, whatever else differs; and the reasons of
    revocations are not part of that list. *)
Theorem public_routes_reveal_only_revocations nonce signature writes method path roles options c a b :
  (method, path, roles, options) ∈ route_specs -> options.(public) = true -> listRevoked a.(cp_db) = listRevoked b.(cp_db) ->
  answers (all_handlers nonce signature writes method path) c a = answers (all_handlers nonce signature writes method path) c b /\
  listRevoked (set_certificates (map hide_reason a.(cp_db).(certificates)) a.(cp_db)) = listRevoked a.(cp_db).
Proof.
  intros Hin Hp Hl. split; [|apply listRevoked_hides].
  assert (method = "HEAD" \/ (method = "GET" /\ (path = "/" \/ path = "/api/v1/certificates/crl" \/ path = "/api/bapc/handshake"))) as Hc.
  { revert Hin. unfold route_specs. rewrite !elem_of_cons. intros Hin.
    repeat (destruct Hin as [[= -> -> -> ->]|Hin]; [try done; auto 6|]). by apply elem_of_nil in Hin. }
  destruct Hc as [-> |[-> [-> |[-> | ->]]]]; try done.
  unfold all_handlers, get_handler, answers, crl_route. cbn [String.eqb Ascii.eqb Bool.eqb snd].
  unfold query, on_db, gets, mbind, St_bind. cbn [cp_db]. rewrite Hl. unfold lift_res. by destruct (crl_build _ _ _ _ _ _ _ _ _ _ _ _).
Qed.
End reads.

(** ** The two consoles *)

Lemma length_filter_map {A B} (f : A -> B) (p : B -> bool) l : length (List.filter p (map f l)) = length (List.filter (fun x => p (f x)) l).
Proof. induction l as [|x l IH]; [done|]. cbn. destruct (p (f x)); cbn; by rewrite IH. Qed.
Lemma length_filter_perm {A} (p : A -> bool) (l l' : list A) : l ≡ₚ l' -> length (List.filter p l) = length (List.filter p l').
Proof. intros E. induction E as [| |x y l|? ? ? _ IH1 _ IH2]; cbn; repeat case_match; cbn; congruence. Qed.
Lemma filter_all {A} (p : A -> bool) l : Forall (fun x => p x = true) l -> List.filter p l = l.
Proof. induction 1 as [|x l E _ IH]; [done|]. cbn. by rewrite E, IH. Qed.

(** Also: What the summary counts.  Devices are counted once each, with those revoked
    and those compromised, grants and policies as the policy decision point sees them.
    The number of nodes and the number of active nodes are the same number, that of
    the active rows: a node that was deactivated is in neither, and no list of the
    summary shows it. *)
Theorem summary_counts now db :
  let '(c, nodes, events) := ThreatResponse.snapshot now db in
  c.(sc_devices) = length (rows db.(devices)) /\
  c.(sc_revoked) = length (List.filter revoked (rows db.(devices))) /\
  c.(sc_compromised) = length (List.filter compromised (rows db.(devices))) /\
  c.(sc_activeJit) = length (listActive_grants now db) /\
  c.(sc_activePolicies) = length (List.filter p_active (rows db.(network_policies))) /\
  c.(sc_activeNodes) = c.(sc_nodes) /\
  c.(sc_nodes) = length (List.filter active (rows db.(mesh_nodes))) /\
  (forall n, n ∈ nodes -> n.(active) = true) /\
  (c.(sc_criticalEvents) <= 100)%nat.
Proof.
  unfold ThreatResponse.snapshot. cbn [sc_devices sc_revoked sc_compromised sc_activeJit sc_activePolicies sc_activeNodes sc_nodes sc_criticalEvents].
  assert (Forall (fun n => active n = true) (list_nodes db)) as Ha.
  { apply Forall_forall. intros n Hn. unfold list_nodes in Hn. apply elem_of_List_map in Hn as (x & -> & Hx).
    rewrite elem_of_sort_by, elem_of_List_filter in Hx. by destruct Hx. }
  split_and!.
  - unfold listAll. by rewrite length_map, length_sort_by.
  - unfold listAll. rewrite length_filter_map. apply length_filter_perm, sort_by_perm.
  - unfold listAll. rewrite length_filter_map. apply length_filter_perm, sort_by_perm.
  - done.
  - unfold listActive_policies. by rewrite length_sort_by.
  - by rewrite filter_all.
  - unfold list_nodes. by rewrite length_map, length_sort_by.
  - intros n Hn. rewrite Forall_forall in Ha. by apply Ha.
  - etransitivity; [apply List.filter_length_le|]. unfold recent. rewrite length_take. change (Z.to_nat (Z.max 1 (Z.min 100 500))) with 100%nat. lia.
Qed.

Lemma take_all_members {A} n (l : list A) x : (length l <= n)%nat -> x ∈ take n l <-> x ∈ l.
Proof. intros H. by rewrite take_ge. Qed.

(** Also: The console shows a certificate as live or as revoked and never as both, and
    as long as there are at most two hundred of each it shows every certificate; when
    there are more live ones, those it leaves out expire after those it shows. *)
Theorem certificate_shown_once db c :
  (c ∈ live_certificates db -> c ∈ db.(certificates) /\ c ∉ revoked_certificates db) /\
  (c ∈ revoked_certificates db -> c ∈ db.(certificates) /\ c ∉ live_certificates db) /\
  ((length db.(certificates) <= 200)%nat -> c ∈ db.(certificates) -> c ∈ live_certificates db \/ c ∈ revoked_certificates db) /\
  (c ∈ db.(certificates) -> c.(ce_revoked) = false -> c ∉ live_certificates db ->
   forall shown, shown ∈ live_certificates db -> shown.(ce_expires) <= c.(ce_expires)).
Proof.
  assert (forall x, x ∈ live_certificates db -> x ∈ db.(certificates) /\ x.(ce_revoked) = false) as HL.
  { intros x Hx. apply elem_of_take in Hx as (i & Hi & _).
    apply list_elem_of_lookup_2 in Hi. rewrite elem_of_sort_by, elem_of_List_filter, negb_true_iff in Hi. done. }
  assert (forall x, x ∈ revoked_certificates db -> x ∈ db.(certificates) /\ x.(ce_revoked) = true) as HR.
  { intros x Hx. apply elem_of_take in Hx as (i & Hi & _). apply list_elem_of_lookup_2 in Hi. by rewrite elem_of_sort_by, elem_of_List_filter in Hi. }
  split_and!.
  - intros Hc. destruct (HL c Hc) as [Hin Hr]. split; [done|]. intros Hc'. apply HR in Hc' as [_ ?]. congruence.
  - intros Hc. destruct (HR c Hc) as [Hin Hr]. split; [done|]. intros Hc'. apply HL in Hc' as [_ ?]. congruence.
  - intros Hlen Hin. destruct (ce_revoked c) eqn:Er; [right|left].
    + unfold revoked_certificates. rewrite take_all_members; [by rewrite elem_of_sort_by, elem_of_List_filter|].
      rewrite length_sort_by. etransitivity; [apply List.filter_length_le|done].
    + unfold live_certificates. rewrite take_all_members; [by rewrite elem_of_sort_by, elem_of_List_filter, Er|].
      rewrite length_sort_by. etransitivity; [apply List.filter_length_le|done].
  - intros Hin Hr Hn shown Hs. unfold live_certificates in *.
    set (l := sort_by _ _) in *.
    assert (StronglySorted (fun a b => (a.(ce_expires) <=? b.(ce_expires)) = true) l) as S.
    { apply sort_by_sorted; [intros x y; rewrite !Z.leb_le; lia|intros x y z; rewrite !Z.leb_le; lia]. }
    assert (c ∈ drop 200 l) as Hd.
    { assert (c ∈ l) as Hl by (unfold l; by rewrite elem_of_sort_by, elem_of_List_filter, Hr).
      rewrite <- (take_drop 200 l), elem_of_app in Hl. by destruct Hl. }
    rewrite <- (take_drop 200 l) in S. apply Z.leb_le. by apply (StronglySorted_app_1_elem_of _ _ _ shown c S).
Qed.

(** ** The active windows *)

Lemma pg_rows_key k t : pg_rows k t <> [] -> k ∈ map fst t.
Proof.
  unfold pg_rows. intros H. destruct (List.filter _ t) as [|[k' x] l] eqn:E; [done|].
  assert ((k', x) ∈ List.filter (fun kv => String.eqb kv.1 k) t) as Hin by (rewrite E; by left).
  apply elem_of_List_filter in Hin as [Hin Hk]. cbn in Hk. apply String.eqb_eq in Hk as ->. apply elem_of_List_map. by exists (k, x).
Qed.

Lemma pg_window_rows k since t : length (pg_window k since t).2 = length (List.filter (fun x => since <=? x.(ts_at)) (pg_rows k t)).
Proof.
  unfold pg_window. cbn [snd]. rewrite length_map, length_sort_by. unfold pg_rows. rewrite length_map, length_filter_map, filter_filter.
  rewrite filter_filter. f_equal. apply List.filter_ext. intros [k' x]. cbn [fst snd].
  rewrite (Z.leb_antisym (ts_at x) since). by destruct (String.eqb k' k), (ts_at x <? since).
Qed.

Lemma elem_of_activeWindows since t w : w ∈ activeWindows since t <-> window_of since w.(aw_nodeKey) t = Some w.
Proof.
  unfold activeWindows. rewrite elem_of_sort_by, list_elem_of_omap. split.
  - intros (k & _ & E). enough (aw_nodeKey w = k) as -> by done. unfold window_of in E.
    destruct (List.filter _ _); [done|]. by injection E as <-.
  - intros E. exists w.(aw_nodeKey). split; [|done]. apply elem_of_remove_dups, pg_rows_key. intros Hn. unfold window_of in E. by rewrite Hn in E.
Qed.

Lemma fold_max_spec l m : m <= fold_left Z.max l m /\ (forall x, x ∈ l -> x <= fold_left Z.max l m) /\
  (fold_left Z.max l m = m \/ fold_left Z.max l m ∈ l).
Proof.
  revert m. induction l as [|y l IH]; intros m; [cbn; split_and!; [lia|set_solver|by left]|]. cbn [fold_left].
  destruct (IH (Z.max m y)) as (H1 & H2 & H3). split_and!; [lia| |].
  - intros x [->|Hx]%elem_of_cons; [lia|auto].
  - destruct H3 as [->|?]; [destruct (Z.max_spec m y) as [[_ ->]|[_ ->]]; [right; by left|by left]|right; by right].
Qed.

(** Also: The list of active threats agrees with the correlator.  A node is listed
    exactly when the window the correlator would evaluate for it is not empty, and
    then once, with the number of signals of that window and the time of the latest of
    them; the latest comes first. *)
Theorem active_windows_agree since t :
  (forall k, (exists w, w ∈ activeWindows since t /\ w.(aw_nodeKey) = k) <-> (pg_window k since t).2 <> []) /\
  (forall w, w ∈ activeWindows since t -> w.(aw_signalCount) = length (pg_window w.(aw_nodeKey) since t).2 /\
     (forall x, x ∈ pg_rows w.(aw_nodeKey) t -> since <= x.(ts_at) -> x.(ts_at) <= w.(aw_latestAt)) /\
     exists x, x ∈ pg_rows w.(aw_nodeKey) t /\ x.(ts_at) = w.(aw_latestAt)) /\
  (forall w w', w ∈ activeWindows since t -> w' ∈ activeWindows since t -> w.(aw_nodeKey) = w'.(aw_nodeKey) -> w = w') /\
  StronglySorted (fun a b => (b.(aw_latestAt) <=? a.(aw_latestAt)) = true) (activeWindows since t).
Proof.
  split_and!.
  - intros k. assert (forall l : list ThreatSignal, l <> [] <-> length l <> 0%nat) as Hz by (intros []; cbn; split; [done|lia|lia|done]).
    rewrite Hz, pg_window_rows. split.
    + intros (w & Hw & <-). apply elem_of_activeWindows in Hw. unfold window_of in Hw. by destruct (List.filter _ _).
    + intros Hn. destruct (window_of since k t) as [w|] eqn:E.
      * assert (aw_nodeKey w = k) as Hk by (unfold window_of in E; destruct (List.filter _ _); [done|by injection E as <-]).
        exists w. split; [|done]. apply elem_of_activeWindows. by rewrite Hk.
      * unfold window_of in E. by destruct (List.filter _ _).
  - intros w Hw%elem_of_activeWindows. rewrite pg_window_rows. unfold window_of in Hw.
    destruct (List.filter _ _) as [|x l] eqn:E; [done|].
    assert (forall y, y ∈ x :: l <-> y ∈ pg_rows (aw_nodeKey w) t /\ since <= y.(ts_at)) as Hmem.
    { intros y. rewrite <- E, elem_of_List_filter, Z.leb_le. done. }
    apply (f_equal (fun o => match o with Some v => (aw_signalCount v, aw_latestAt v) | None => (0%nat, 0) end)) in Hw.
    cbn [aw_signalCount aw_latestAt] in Hw. injection Hw as Hcount Hlatest.
    destruct (fold_max_spec (map ts_at l) (ts_at x)) as (H1 & H2 & H3). rewrite Hlatest in H1, H2, H3. split_and!; [done| |].
    + intros y Hy Hs. assert (y ∈ x :: l) as Hin by (by apply Hmem). apply elem_of_cons in Hin as [->|Hin]; [done|].
      apply H2, elem_of_List_map. by exists y.
    + destruct H3 as [H3|H3].
      * exists x. split; [|done]. apply (Hmem x). by left.
      * apply elem_of_List_map in H3 as (y & Hy & Hin). exists y. split; [|done]. apply (Hmem y). by right.
  - intros w w' Hw%elem_of_activeWindows Hw'%elem_of_activeWindows Ek. rewrite Ek in Hw. congruence.
  - apply sort_by_sorted; [intros x y; rewrite !Z.leb_le; lia|intros x y z; rewrite !Z.leb_le; lia].
Qed.

(** ** The theorems applied *)

Definition no_json {A} (_ : A) : json := JNull.
Definition some_handlers : string -> string -> Handler App :=
  @all_handlers code_point_collation (fun s => s) hmac0 sample_parse no_json no_json no_json no_json no_json (fun _ _ => None)
    (fun _ => Some 100) "oob" (fun _ => Ok ca_cert) (fun _ => "") (fun s => s) (fun _ => "") (fun _ => SEQUENCE []) (fun _ => "der")
    "oid" "pem" (fun b => Ok b) "production" "hq" true 0 None None (fun _ _ => json_handler (fun _ => mret JNull)).
Definition some_edge : Edge PgIdem PgNonces App := mkEdge ∅ {| pg_idem := ∅ |} {| pg_nonces := ∅ |} (mkMetrics [] []) [] empty_app.
Definition set_db (db : Db) (a : App) : App := mkApp db a.(cp_signals) a.(cp_relays) a.(cp_egress) a.(cp_oob).
Definition some_ctx : Ctx := {| cx_claims := anonymous; cx_body := JNull; cx_params := []; cx_query := "" |}.
Definition revoked_app : App :=
  set_db (set_certificates [mkCertificate "c1" "n1" "i1" "0a" "CN=n1" 0 100 true (Some "lost laptop") (Some 5)] (cp_db empty_app)) empty_app.

Lemma get_requests_read_only_witness :
  app (@handle PgIdem PgNonces App _ _ code_point_collation hmac0 (fun s => s) to_hex from_hex sample_parse "s3cret" true
         (production_routes some_handlers) (at_ 0) "r1" (sample_request "GET" "/api/v1/certificates/crl") some_edge).1 = empty_app.
Proof. unfold some_handlers. apply get_requests_read_only. left. reflexivity. Defined.

Lemma public_routes_reveal_only_revocations_witness :
  answers (some_handlers "GET" "/api/v1/certificates/crl") some_ctx revoked_app =
  answers (some_handlers "GET" "/api/v1/certificates/crl") some_ctx
    (set_db (set_certificates (map hide_reason (cp_db revoked_app).(certificates)) (cp_db revoked_app)) revoked_app).
Proof.
  unfold some_handlers. apply (public_routes_reveal_only_revocations (H := code_point_collation)) with (roles := []) (options := open_to_all (Some 120%nat)).
  - unfold route_specs. do 17 right. left.
  - reflexivity.
  - vm_compute. reflexivity.
Defined.
