(* ===== verification/DnsProcess.v ===== *)
(** * The DNS process

    [DohUpstream] ([src/services/dns/doh-upstream.ts]) and the process that puts
    the resolver, the upstream and the event table together
    ([src/src/runtime/dns-server.ts]), with the adapter for Apple systems
    ([src/native/apple/adapter.ts]).  The exchange with the DoH server and the
    wire format of DNS are arguments. *)

From S2P Require Import Prelude Json Text Domain Words Database Native Repositories CommandQueue Mesh Agent Dns Fleet.
Open Scope Z_scope.

(** ** [DohUpstream] *)

(** The [data] of a decoded answer: an address or name, the strings of a TXT
    record, the two fields of an MX record. *)
Inductive AnswerData := DAddress (s : string) | DTexts (l : list string) | DExchange (preference : Z) (exchange : string).
Record DohAnswer := mkAnswer { dh_type : option RecordType; dh_data : AnswerData; dh_ttl : option Z }.

(** [String(data)]: an array joins its elements with commas, an object is not
    printed. *)
Definition data_text (d : AnswerData) : string :=
  match d with
  | DAddress s => s
  | DTexts l => join "," l
  | DExchange _ _ => "[object Object]"
  end.

(** What the exchange gives: no response in time, a response with a status and
    a body, the body decoded if it can be. *)
Inductive DohOutcome := DohFailed (e : exn) | DohResponse (status : Z) (answers : res (option (list DohAnswer))).

Definition doh_refused (endpoint : string) (status : Z) : exn :=
  JsError ("DoH upstream " +:+ endpoint +:+ " returned " +:+ str_of_Z status).

Definition doh_resolve {U} (endpoint : string) (exchange : string -> RecordType -> St U DohOutcome) (name : string) (type : RecordType) :
    St U (list DnsRecord) :=
  let* outcome := exchange name type in
  match outcome with
  | DohFailed e => throw e
  | DohResponse status answers =>
      if negb ((200 <=? status) && (status <=? 299)) then throw (doh_refused endpoint status)
      else
        let* decoded := lift_res answers in
        mret (map (fun a => mkDnsRecord type (data_text a.(dh_data)) (default 60 a.(dh_ttl)))
          (List.filter (fun a => bool_decide (a.(dh_type) = Some type)) (default [] decoded)))
  end.

(** ** [dns-server.ts] *)

Section process.
Context {U : Type} (sha256 : string -> string) (exchange : string -> RecordType -> St U DohOutcome).
(** The content of the file [DNS_THREAT_FEED_PATH] names, when it is set. *)
Context (feedFile : option string).

Definition process_feeds : list (string -> res bool) :=
  match feedFile with Some text => [contains (fromFile text)] | None => [] end.

(** [audit.record]; [id] is the [randomUUID()]. *)
Definition dns_event (id : string) (event : DnsAuditEvent) : SecurityEvent :=
  {| e_id := id; e_nodeId := None; e_at := event.(da_at); severity := INFO; engine := "secure-dns";
     e_type := if bool_decide (event.(da_action) = SINKHOLE) then "DNS_SINKHOLE" else "DNS_ALLOW";
     description := event.(da_reason); metadata := [("nameHash", JStr event.(da_nameHash))] |}.
Definition process_audit (id : string) (event : DnsAuditEvent) : St Db unit := append_event (dns_event id event).

Definition DOH_ENDPOINT : string := "https://cloudflare-dns.com/dns-query".

Definition process_handle (id : string) (now : Date) (msg : option Packet) : St (U * Db) (option Reply) :=
  dns_handle sha256 process_feeds now [doh_resolve DOH_ENDPOINT exchange] (process_audit id) msg.

(** *** What a query leaves behind *)

Lemma process_feeds_ok d : Forall (fun f => is_ok (f d) = true) process_feeds.
Proof. unfold process_feeds. destruct feedFile; repeat constructor. Qed.

(** The decision on a name. *)
Lemma process_evaluate name : exists decision, dns_evaluate process_feeds sinkholeV4 name = Ok decision /\
  decision.(normalizedDomain) = normalize name /\
  decision.(dn_action) = if passes process_feeds (normalize name) then DNS_ALLOW else SINKHOLE.
Proof. apply dns_evaluate_spec, process_feeds_ok. Qed.

(** Also: What one DNS query leaves in the database and sends out.  A query of a supported
    type adds exactly one event (none when the database refuses it, which the answer
    does not depend on), which says whether it was blocked and why and, of the
    name, carries the digest of its normal form alone; every other packet adds none.  A
    blocked name is answered by the sinkhole and nothing is sent; any other leads to one
    exchange, for its normal form and type, and the answer to the client has the
    records of that exchange, or says that the server failed. *)
Theorem query_leaves_one_event id now msg u db :
  match msg with
  | Some {| pk_id := pid; pk_questions := (name, Some type) :: more |} =>
      exists reason, forall blocked, blocked = negb (passes process_feeds (normalize name)) ->
      let e := dns_event id (mkDnsAudit now (to_hex (sha256 (normalize name))) (if blocked then SINKHOLE else DNS_ALLOW) reason) in
      let db' := match event_refused e db with
        | None => set_security_events (db.(security_events) ++ [e]) db
        | Some _ => db
        end in
      let query := {| pk_id := pid; pk_questions := (name, Some type) :: more |} in
      process_handle id now msg (u, db) =
      if blocked then ((u, db'), Ok (Some (reply query (map (fun r => (name, r)) (sink_answer type)) NOERROR)))
      else match doh_resolve DOH_ENDPOINT exchange (normalize name) type u with
           | (u', Ok records) => ((u', db'), Ok (Some (reply query (map (fun r => (name, r)) records) NOERROR)))
           | (u', Throw _) => ((u', db'), Ok (Some (reply query [] SERVFAIL)))
           end
  | Some query => process_handle id now msg (u, db) = ((u, db), Ok (Some (reply query [] NOTIMP)))
  | None => process_handle id now msg (u, db) = ((u, db), Ok None)
  end.
Proof.
  destruct msg as [[pid [|[name [type|]] more]]|]; try done.
  destruct (process_evaluate name) as (dc & E & En & Ea). exists dc.(dn_reason). intros blocked ->. cbv zeta.
  unfold process_handle, dns_handle. cbn [pk_questions]. unfold try_catch at 1, mbind at 1, St_bind at 1, resolve. rewrite E.
  unfold try_catch at 1, lift_audit, process_audit, append_event, mbind at 1, St_bind at 1, queryFingerprint. rewrite Ea, En.
  destruct (passes process_feeds (normalize name)) eqn:Ep; cbn [negb]; destruct (event_refused _ db) eqn:Er; cbn [fst snd].
  3,4: rewrite bool_decide_eq_true_2 by done; by destruct type.
  all: rewrite bool_decide_eq_false_2 by done; unfold try_upstreams, try_catch, lift_outside; cbn -[doh_resolve map];
    by destruct (doh_resolve DOH_ENDPOINT exchange (normalize name) type u) as [u' [records|e0]].
Qed.

(** Also: What an exchange that succeeds gives the client.  Addresses pass unchanged, in
    order, with their lifetime or a minute.  A TXT record of several strings reads as
    their texts with commas between them, and every MX record reads as the same text,
    without its preference and its exchange. *)
Theorem doh_answer_values name type u u' status answers records :
  exchange name type u = (u', Ok (DohResponse status (Ok answers))) -> doh_resolve DOH_ENDPOINT exchange name type u = (u', Ok records) ->
  let mine := List.filter (fun a => bool_decide (a.(dh_type) = Some type)) (default [] answers) in
  200 <= status <= 299 /\ length records = length mine /\
  forall i a r, mine !! i = Some a -> records !! i = Some r -> r.(rr_type) = type /\ r.(rr_ttl) = default 60 a.(dh_ttl) /\
    match a.(dh_data) with
    | DAddress s => r.(rr_value) = s
    | DTexts [s] => r.(rr_value) = s
    | DTexts l => r.(rr_value) = join "," l
    | DExchange _ _ => r.(rr_value) = "[object Object]"
    end.
Proof.
  intros Ex. unfold doh_resolve, mbind at 1, St_bind at 1. rewrite Ex.
  destruct ((200 <=? status) && (status <=? 299)) eqn:Es; [|done]. cbn [negb]. apply andb_true_iff in Es as [E1 E2]. apply Z.leb_le in E1, E2.
  unfold mbind, St_bind, lift_res, mret, St_ret. intros [= <-]. set (mine := List.filter _ _). split; [lia|]. split; [apply length_map|].
  intros i a r Ha Hr. change (map ?f mine) with (f <$> mine) in Hr. rewrite list_lookup_fmap, Ha in Hr. injection Hr as <-.
  split_and!; [done..|]. cbn [rr_value]. by destruct (dh_data a) as [s|[|s []]|].
Qed.
End process.

(** ** [ApplePlatformAdapter] *)

Definition NOT_IMPLEMENTED : string :=
  "macOS/iOS/iPadOS network control requires a native Swift NetworkExtension " +:+
  "(NEPacketTunnelProvider / NEFilterDataProvider) or System Extension running " +:+
  "under an Apple Developer Program entitlement — this cannot be implemented " +:+
  "in a Node/TypeScript process. This class documents the required interface " +:+
  "so a native Swift extension (communicating with this control plane over " +:+
  "the gRPC mesh or REST API) can be built against the same PlatformAdapter " +:+
  "contract as the Linux/Windows adapters. See docs/PRODUCTION-ADAPTERS.md.".

(** An Apple system, in any state; the methods of [AgentPlatform] are not part of
    the class, and calling one throws as well. *)
Definition not_implemented {P A} : St P A := throw (JsError NOT_IMPLEMENTED).
Definition ApplePlatformAdapter (P : Type) : PlatformAdapter P := {|
  applyWireGuard := fun _ => not_implemented; applyPeers := fun _ => not_implemented; rotatePrivateKey := fun _ => not_implemented;
  applyFirewall := fun _ => not_implemented; rollbackFirewall := fun _ => not_implemented; setKillSwitch := fun _ => not_implemented;
  setDns := fun _ => not_implemented; isolate := fun _ => not_implemented; platform_restore := not_implemented; collectPosture := not_implemented;
  readRoutes := throw (JsError "readRoutes is not a function"); replaceRoutes := fun _ => throw (JsError "replaceRoutes is not a function");
  readFileHash := fun _ => throw (JsError "readFileHash is not a function");
  applyFirewallPlan := fun _ => throw (JsError "applyFirewallPlan is not a function");
  clearTransientCredentials := throw (JsError "clearTransientCredentials is not a function")
|}.

(** Also: on an Apple system every command of the control plane is reported as
    failed, whatever it asks for: executing it is sending that report. *)
Theorem apple_refuses_every_command {P C} `{Ctl : AgentController C} `{Collation} sha256 nodeId now wg c (l : C) (a : Agent P) :
  exists message, execute (AgentController0 := Ctl) (PlatformAdapter0 := ApplePlatformAdapter P) sha256 nodeId false None None wg now c (l, a)
    = ack c.(q_id) [("ok", JBool false); ("error", JStr message)] (l, a).
Proof.
  unfold execute, try_catch.
  assert (exists e, execute_type (AgentController0 := Ctl) (PlatformAdapter0 := ApplePlatformAdapter P) sha256 nodeId false None None wg now c (l, a) = ((l, a), Throw e)) as [e ->].
  { unfold execute_type, platform, at_agent, on_platform, field, mbind, St_bind. cbv zeta. destruct a as [p rev].
    repeat (destruct (String.eqb (q_type c) _); [try (by eexists); destruct (get_prop _ (q_payload c)); by eexists|]). by eexists. }
  by eexists.
Qed.

(** ** The theorems applied *)

Definition mx_exchange (name : string) (type : RecordType) : St nat DohOutcome := fun n =>
  (S n, Ok (DohResponse 200 (Ok (Some [mkAnswer (Some MX) (DExchange 10 "mail.example.com") None; mkAnswer (Some A) (DAddress "192.0.2.1") (Some 5)])))).

Lemma doh_answer_values_witness :
  exists r, doh_resolve DOH_ENDPOINT mx_exchange "example.com" MX 0%nat = (1%nat, Ok [r]) /\ r.(rr_value) = "[object Object]".
Proof.
  eexists. split; [reflexivity|].
  pose proof (doh_answer_values mx_exchange "example.com" MX 0%nat 1%nat 200 _ _ eq_refl eq_refl) as (_ & _ & H).
  destruct (H 0%nat _ _ eq_refl eq_refl) as (_ & _ & E). exact E.
Defined.
