(* ===== verification/Memory.v ===== *)
(** * The in-memory adapters

    [MemoryStore] ([src/src/infrastructure/memory.ts]), the development adapters of
    [src/src/infrastructure/adapters.ts] and [PgControlPlaneProbe]
    ([src/src/infrastructure/pg-control-plane-probe.ts]).  A [Map] is the list of its
    entries in insertion order.  The services write a new object for every change, so
    the store holds values. *)

From S2P Require Import Prelude Json Text Domain Database Repositories PolicyDecision Enforcer Rollout SafeApply Rest.
Open Scope Z_scope.

Record MemoryStore := mkMemory {
  m_devices : list (string * Device); m_nodes : list (string * MeshNode);
  m_policies : list (string * NetworkPolicy); m_grants : list (string * JitGrant);
  m_events : list SecurityEvent; m_audits : list AuditRecord
}.

Definition empty_memory : MemoryStore := mkMemory [] [] [] [] [] [].

(** [[...map.values()]] *)
Definition map_values {V} (m : list (string * V)) : list V := map snd m.

(** [transaction(w)] runs the work, and takes nothing back when it throws. *)
Definition ms_transaction {A} (w : St MemoryStore A) : St MemoryStore A := w.



Definition ms_save (v : Entity) (m : MemoryStore) : MemoryStore :=
  let '(mkMemory ds ns ps gs es au) := m in
  match v with
  | EDevice d => mkMemory (assoc_set d.(d_id) d ds) ns ps gs es au
  | ENode n => mkMemory ds (assoc_set n.(n_id) n ns) ps gs es au
  | EPolicy p => mkMemory ds ns (assoc_set p.(p_id) p ps) gs es au
  | EGrant g => mkMemory ds ns ps (assoc_set g.(g_id) g gs) es au
  end.

Definition ms_listActive_grants (now : Date) (m : MemoryStore) : list JitGrant :=
  List.filter (fun x => negb x.(terminated) && (now <? x.(g_expiresAt))) (map_values m.(m_grants)).
Definition ms_listActive_policies (m : MemoryStore) : list NetworkPolicy :=
  List.filter p_active (map_values m.(m_policies)).

Definition ms_append_event (e : SecurityEvent) (m : MemoryStore) : MemoryStore :=
  let '(mkMemory ds ns ps gs es au) := m in mkMemory ds ns ps gs (es ++ [e]) au.
Definition ms_append_audit (r : AuditRecord) (m : MemoryStore) : MemoryStore :=
  let '(mkMemory ds ns ps gs es au) := m in mkMemory ds ns ps gs es (au ++ [r]).

(** [slice(start)]: a negative start counts from the end. *)
Definition slice_from {A} (start : Z) (l : list A) : list A :=
  if start <? 0 then drop (Z.to_nat (Z.max 0 (Z.of_nat (length l) + start))) l else drop (Z.to_nat start) l.
Definition ms_recent (limit : Z) (m : MemoryStore) : list SecurityEvent :=
  reverse (slice_from (- limit) m.(m_events)).

(** ** The development adapters *)

(** [DevelopmentCertificateIssuer.issueNodeCertificate] at [now] *)
Definition dev_issue (nodeId : string) (ttlMinutes now : Z) : string * string * Date :=
  ("dev-" +:+ nodeId, "DEVELOPMENT-ONLY", now + ttlMinutes * 60000).

Record InMemoryEnforcer := mkEnforcer {
  ime_staged : list (string * list NetworkPolicy); ime_isolated : gset string
}.

Definition assoc_delete {V} (k : string) (l : list (string * V)) : list (string * V) :=
  List.filter (fun kv => negb (String.eqb kv.1 k)) l.

Definition ime_stage (id : string) (p : list NetworkPolicy) (e : InMemoryEnforcer) : InMemoryEnforcer * list string :=
  (mkEnforcer (assoc_set id p e.(ime_staged)) e.(ime_isolated), []).
Definition ime_commit (id : string) (e : InMemoryEnforcer) : InMemoryEnforcer :=
  mkEnforcer (assoc_delete id e.(ime_staged)) e.(ime_isolated).
Definition ime_rollback (id : string) (e : InMemoryEnforcer) : InMemoryEnforcer :=
  mkEnforcer (assoc_delete id e.(ime_staged)) e.(ime_isolated).
Definition ime_isolateNode (id : string) (e : InMemoryEnforcer) : InMemoryEnforcer :=
  mkEnforcer e.(ime_staged) ({[id]} ∪ e.(ime_isolated)).
Definition ime_restoreNode (id : string) (e : InMemoryEnforcer) : InMemoryEnforcer :=
  mkEnforcer e.(ime_staged) (e.(ime_isolated) ∖ {[id]}).

(** [MemoryBus.publish] *)
Definition bus_publish (topic : string) (event : json) (b : list (string * json)) : list (string * json) :=
  b ++ [(topic, event)].

(** [PgControlPlaneProbe.verifyControlPlane] over the outcome of [db.health()]. *)
Definition verifyControlPlane (health : ProbeOutcome) : ProbeOutcome :=
  match health with
  | Answers (Throw _) => Answers (Ok false)
  | o => o
  end.

(** ** Maps *)

Section maps.
Context {V : Type}.
Implicit Types (l : list (string * V)).





End maps.



(** ** The store as a stand-in for the database *)

(** What a reader of either store can rely on.  A device is read without its
    [updatedAt], which the database sets by its own clock where the store keeps the
    service's; empty optional text is absent; a node without a region is in the
    default one; [jsonb] columns order the keys. *)
Definition seen_device (d : Device) : Device :=
  device (mkDevice d.(d_id) d.(hostname) d.(hardwareId) d.(platform) d.(osVersion) d.(publicAttestationKey)
    d.(compromised) d.(revoked) d.(posture) d.(createdAt) 0 d.(lastPostureAt) d.(agentVersion) d.(quarantineReason)).
Definition seen_node (n : MeshNode) : MeshNode := node n.
Definition seen_audit (r : AuditRecord) : AuditRecord := stored_audit r.(sequence) r.

(** One table of the store holds the rows of one table of the database, as they
    are seen through [f]. *)
Definition same_table {V} (f : V -> V) (l : list (string * V)) (t : gmap string V) : Prop :=
  NoDup l.*1 /\ f <$> (list_to_map l : gmap string V) = f <$> t.

Record stands_in (m : MemoryStore) (db : Db) : Prop := {
  si_devices : same_table seen_device m.(m_devices) db.(devices);
  si_nodes : same_table seen_node m.(m_nodes) db.(mesh_nodes);
  si_policies : same_table id m.(m_policies) db.(network_policies);
  si_grants : same_table id m.(m_grants) db.(jit_grants);
  si_events : map stored_event m.(m_events) = db.(security_events);
  si_audits : map seen_audit m.(m_audits) = db.(audit_chain)
}.

(** The writes of the repository ports. *)
Inductive RepoWrite := WSave (v : Entity) | WEvent (e : SecurityEvent) | WAudit (r : AuditRecord).

Definition ms_write (w : RepoWrite) (m : MemoryStore) : MemoryStore :=
  match w with
  | WSave v => ms_save v m
  | WEvent e => ms_append_event e m
  | WAudit r => ms_append_audit r m
  end.
Definition pg_write (w : RepoWrite) : St Db unit :=
  match w with WSave v => save v | WEvent e => append_event e | WAudit r => append_audit r end.

(** The columns an [UPDATE] of the database leaves alone have the value they had;
    an inserted row is stored as given; an audit record carries the number the
    identity column hands out. *)
Definition keeps_device (old d : Device) : bool :=
  String.eqb old.(d_id) d.(d_id) && String.eqb old.(hardwareId) d.(hardwareId)
  && bool_decide (old.(platform) = d.(platform))
  && bool_decide (when_truthy old.(publicAttestationKey) = when_truthy d.(publicAttestationKey))
  && (old.(createdAt) =? d.(createdAt)).
Definition keeps_node (old n : MeshNode) : bool :=
  String.eqb old.(n_id) n.(n_id) && String.eqb old.(deviceId) n.(deviceId)
  && String.eqb old.(internalIpv4) n.(internalIpv4) && String.eqb old.(internalIpv6) n.(internalIpv6)
  && (old.(listenPort) =? n.(listenPort)) && bool_decide (old.(nodeType) = n.(nodeType))
  && bool_decide (is_Some n.(region) \/ default UNASSIGNED_REGION old.(region) = UNASSIGNED_REGION).
Definition keeps_grant (old g : JitGrant) : bool :=
  String.eqb old.(g_id) g.(g_id) && String.eqb old.(g_userId) g.(g_userId)
  && String.eqb old.(targetResource) g.(targetResource) && bool_decide (old.(targetZone) = g.(targetZone))
  && String.eqb old.(justification) g.(justification) && (old.(grantedAt) =? g.(grantedAt))
  && (old.(g_expiresAt) =? g.(g_expiresAt)).

Definition write_keeps (w : RepoWrite) (db : Db) : bool :=
  match w with
  | WSave (EDevice d) => match db.(devices) !! d.(d_id) with Some old => keeps_device old d | None => true end
  | WSave (ENode n) => match db.(mesh_nodes) !! n.(n_id) with Some old => keeps_node old n | None => true end
  | WSave (EPolicy _) => true
  | WSave (EGrant g) => match db.(jit_grants) !! g.(g_id) with Some old => keeps_grant old g | None => true end
  | WEvent _ => true
  | WAudit r => r.(sequence) =? db.(audit_identity)
  end.

(** What the services write is of this kind: an entity as it was read, with the
    fields they change changed. *)
Lemma device_write_back db old host os c r p u l v q :
  db_ok db -> db.(devices) !! old.(d_id) = Some old ->
  let d := device old in
  write_keeps (WSave (EDevice (mkDevice d.(d_id) host d.(hardwareId) d.(platform) os d.(publicAttestationKey)
    c r p d.(createdAt) u l v q))) db = true.
Proof.
  intros O L. simpl. rewrite L. unfold keeps_device. simpl. rewrite !String.eqb_refl, Z.eqb_refl.
  rewrite !bool_decide_eq_true_2; [done| |done]. unfold when_truthy. by destruct (truthy_opt _) eqn:E; rewrite ?E.
Qed.
Lemma node_write_back db old key z rg a h :
  db_ok db -> db.(mesh_nodes) !! old.(n_id) = Some old ->
  let n := node old in
  write_keeps (WSave (ENode (mkNode n.(n_id) n.(deviceId) key n.(internalIpv4) n.(internalIpv6) n.(listenPort)
    n.(nodeType) z (Some rg) a h))) db = true.
Proof.
  intros O L. simpl. rewrite L. unfold keeps_node. simpl. rewrite !String.eqb_refl, Z.eqb_refl.
  rewrite !bool_decide_eq_true_2 by (done || (left; by eexists)). done.
Qed.








Definition ms_run (ws : list RepoWrite) (m : MemoryStore) : MemoryStore := foldl (fun m w => ms_write w m) m ws.




(** ** What the queries of the two stores have in common *)









(** ** Decisions over the store *)

Definition ms_hasJit (userId : string) (r : ResourceContext) (now : Date) (m : MemoryStore) : bool :=
  existsb (fun g => String.eqb g.(g_userId) userId && bool_decide (g.(targetZone) = r.(r_zone))
    && String.eqb g.(targetResource) r.(resource) && negb g.(terminated) && (now <? g.(g_expiresAt)))
    (ms_listActive_grants now m).

(** The policy loop of [PolicyDecisionService.decide] over each store. *)
Definition ms_loop (identity : IdentityContext) (n : MeshNode) (r : ResourceContext) (now : Date) (m : MemoryStore) :=
  first_match (ms_hasJit identity.(userId) r now m) n r identity.(roles)
    (sort_by by_priority (ms_listActive_policies m)).
Definition pg_loop (identity : IdentityContext) (n : MeshNode) (r : ResourceContext) (now : Date) (db : Db) :=
  first_match (hasJit identity.(userId) r now db) n r identity.(roles) (sort_by by_priority (listActive_policies db)).






(** ** Recent events *)

(** Sorting what stands in strictly ascending order turns it around. *)
Lemma sort_by_reverse {A} (leb : A -> A -> bool) (l : list A) :
  StronglySorted (fun a b => leb a b = false) l -> sort_by leb l = reverse l.
Proof.
  assert (forall x k, Forall (fun y => leb x y = false) k -> sort_insert leb x k = k ++ [x]) as I.
  { intros x k F. induction F as [|y k Hy _ IH]; simpl; [done|]. by rewrite Hy, IH. }
  induction 1 as [|x l _ IH F]; [done|]. change (sort_by leb (x :: l)) with (sort_insert leb x (sort_by leb l)).
  rewrite IH, reverse_cons. apply I. by rewrite Forall_reverse.
Qed.

Lemma take_reverse_slice {A} (n : Z) (l : list A) :
  1 <= n -> take (Z.to_nat n) (reverse l) = reverse (slice_from (- n) l).
Proof.
  intros Hn. unfold slice_from. rewrite (proj2 (Z.ltb_lt _ _)) by lia.
  set (k := Z.to_nat (Z.max 0 (Z.of_nat (length l) + - n))).
  rewrite <- (take_drop k l) at 1. rewrite reverse_app.
  assert (length (reverse (drop k l)) = Z.to_nat n \/ take k l = []) as [L|L].
  { rewrite length_reverse, length_drop. destruct (Z.le_gt_cases n (Z.of_nat (length l))); [left; lia|right].
    by replace k with 0%nat by lia. }
  - by rewrite take_app_length' by done.
  - rewrite L, app_nil_r, take_ge; [done|]. rewrite length_reverse, length_drop. apply (f_equal length) in L.
    rewrite length_take in L. simpl in L. lia.
Qed.

(** ** The adapters in a safe apply *)

Record Lab := mkLab { lab_rollouts : MemRollout; lab_enforcer : InMemoryEnforcer; lab_bus : list (string * json) }.

Definition in_rollouts {A} (f : St MemRollout A) : St Lab A := fun s =>
  let '(r, x) := f s.(lab_rollouts) in (mkLab r s.(lab_enforcer) s.(lab_bus), x).
Definition in_enforcer {A} (f : InMemoryEnforcer -> InMemoryEnforcer * A) : St Lab A := fun s =>
  let '(e, x) := f s.(lab_enforcer) in (mkLab s.(lab_rollouts) e s.(lab_bus), Ok x).

#[export] Instance lab_store : RolloutStore Lab := {
  start c ns := in_rollouts (mem_start c ns); refresh c := in_rollouts (gets (mem_summary c));
  finalizeTimeouts c := in_rollouts (mem_finalizeTimeouts c); markRolledBack c := in_rollouts (mem_markRolledBack c);
  summary c s := mem_summary c s.(lab_rollouts)
}.

#[export] Instance lab_ports : SafeApplyPorts Lab := {
  port_stage c ps _ := in_enforcer (ime_stage c ps);
  port_commit c := in_enforcer (fun e => (ime_commit c e, tt));
  port_rollback c := in_enforcer (fun e => (ime_rollback c e, tt));
  port_publish t e := fun s => (mkLab s.(lab_rollouts) s.(lab_enforcer) (bus_publish t e s.(lab_bus)), Ok tt)
}.

(** The probe of the environment is the health check of the database. *)
Definition lab_env (clock : nat -> Z) (health : nat -> ProbeOutcome) : Env Lab := {|
  clock := clock; probe := fun i => verifyControlPlane (health i); world := fun _ s => s
|}.

Definition answers_yes (o : ProbeOutcome) : bool := match o with Answers (Ok b) => b | _ => false end.

Lemma race_verify o : race (verifyControlPlane o) = Ok (answers_yes o).
Proof. by destruct o as [[[]|]|]. Qed.

Lemma assoc_delete_absent {V} k (l : list (string * V)) : assoc_get k (assoc_delete k l) = None.
Proof.
  unfold assoc_get, assoc_delete. induction l as [|[k' v] l IH]; [done|]. simpl.
  destruct (String.eqb k' k) eqn:E; simpl; [done|]. by rewrite E.
Qed.

(** ** The properties *)


(** Also: the two stores return the same recent events, in the same order, for a limit
    from 1 to 500 and events that arrive in the order of their times. *)
Theorem recent_agrees m db limit :
  stands_in m db -> StronglySorted (fun a b => a.(e_at) < b.(e_at)) db.(security_events) ->
  1 <= limit <= 500 -> map stored_event (ms_recent limit m) = recent limit db.
Proof.
  intros S St L. unfold ms_recent, recent.
  rewrite Z.min_l, Z.max_r by lia. rewrite sort_by_reverse.
  - rewrite take_reverse_slice by lia. rewrite <- (si_events _ _ S). unfold slice_from.
    change (map stored_event) with (fmap stored_event : list SecurityEvent -> _).
    rewrite fmap_reverse, length_fmap. by destruct (_ <? _); rewrite fmap_drop.
  - induction St as [|x l _ IH F]; constructor; [done|]. eapply Forall_impl; [exact F|]. simpl. intros y Hy.
    apply Z.leb_gt. lia.
Qed.

(** Also: a safe apply over the in-memory adapters does what the probe says and looks at
    no node: it commits when the database answers that it is healthy, and rolls back
    when the health check answers no, throws or hangs; nothing stays staged, and the
    bus has the announcement and the outcome. *)
Theorem lab_apply_follows_probe cfg clk health fuel c at_ ps t by_ s :
  out_of_window (Some t) = false -> clk 1%nat < clk 0%nat + t ->
  exists s' e1 e2,
    apply cfg (lab_env clk health) (S fuel) c at_ ps (Some t) by_ s =
      Some (s', Ok (if answers_yes (health 0%nat) then Committed c
                    else RolledBack c "control plane database unreachable")) /\
    assoc_get c s'.(lab_enforcer).(ime_staged) = None /\
    s'.(lab_bus) = s.(lab_bus) ++ [("security.policy.staged", e1);
      (if answers_yes (health 0%nat) then "security.policy.committed" else "security.policy.rolled_back", e2)].
Proof.
  intros W L. unfold apply. rewrite W. cbn -[out_of_window race verifyControlPlane].
  rewrite (proj2 (Z.ltb_lt _ _)) by done. rewrite race_verify.
  destruct (answers_yes (health 0%nat)); cbn; do 3 eexists;
    (split; [reflexivity|split; [apply assoc_delete_absent|cbn; unfold bus_publish; by rewrite <- app_assoc]]).
Qed.

(** ** Instances *)





(** With two active policies of one priority the stores decide differently: the store
    takes the one saved first, the database the one of least id. *)
Example tied_priorities_diverge :
  let deny := {| p_id := "p0"; p_name := "deny"; sourceZones := sourceZones web_policy;
    destinationZones := destinationZones web_policy; protocols := protocols web_policy;
    destinationPorts := destinationPorts web_policy; p_action := DENY; requiredRoles := [];
    requiresJit := false; priority := priority web_policy; p_version := 1; p_active := true |} in
  let ws := [WSave (EPolicy web_policy); WSave (EPolicy deny)] in
  let who := {| userId := "u"; roles := requiredRoles web_policy; mfa := true |} in
  let n := sample_node "n1" "d1" "k1" "10.0.0.1" in
  (ms_loop who n web_request 0 (ms_run ws empty_memory)).1.1 = ALLOW /\
  (pg_loop who n web_request 0 (for_each ws pg_write (empty_db 0)).1).1.1 = DENY.
Proof. vm_compute. split; reflexivity. Qed.

(** [recent(0)] of the store is every event, where the database returns one. *)
Example recent_zero_diverges :
  let at_ t := {| e_id := "e"; e_nodeId := None; e_at := t; severity := INFO; engine := "x"; e_type := "t";
              description := ""; metadata := [] |} in
  let ws := [WEvent (at_ 0); WEvent (at_ 1); WEvent (at_ 2)] in
  length (ms_recent 0 (ms_run ws empty_memory)) = 3%nat /\
  length (recent 0 (for_each ws pg_write (empty_db 0)).1) = 1%nat.
Proof. vm_compute. split; reflexivity. Qed.

