(* ===== verification/Worker.v ===== *)
(** * The loops of the maintenance worker

    [src/src/runtime/maintenance-worker.ts] as a process: four loops that test
    [stopped], run a cycle and sleep, the signals that set [stopped], and the shutdown
    that waits for the loops, closes the database and exits.  A turn of a loop goes to
    its next [await]: a cycle runs to its end between the turns of the others, which
    the queries of one cycle may do in any order.  The cycles are those of [Storage],
    [Retention] and [Maintenance]; the tables the retention cycle works on are those of
    [Retention.v]. *)

From S2P Require Import Prelude Json Text Domain Database Repositories AuditChain CommandQueue Mesh Reconciliation Rest Config Storage ControlPlane Maintenance Retention.
Open Scope Z_scope.

Inductive Loop := OutboxLoop | RetentionLoop | ReconciliationLoop | KeyRotationLoop.
#[export] Instance Loop_eq_dec : EqDecision Loop.
Proof. solve_decision. Defined.

(** Before the test of [stopped], before the cycle, asleep until a time, returned. *)
Inductive Phase := Testing | Working | Sleeping (until : Z) | Ended.
Inductive Status := Running | Exited (code : Z).

Record Worker (S : Type) := mkWorker {
  wk_phase : Loop -> Phase; wk_stopped : bool; wk_status : Status; wk_now : Z; wk_state : S;
  wk_ran : list Loop
}.
Arguments mkWorker {S} _ _ _ _ _ _.
Arguments wk_phase {S} _ _.
Arguments wk_stopped {S} _.
Arguments wk_status {S} _.
Arguments wk_now {S} _.
Arguments wk_state {S} _.
Arguments wk_ran {S} _.

(** [Number(process.env.X ?? d)] *)
Definition interval (v : option string) (d : Z) : option Q :=
  match v with Some s => Number s | None => Some (inject_Z d) end.

(** What [setTimeout] makes of a delay: outside of 1 to 2^31 - 1, and for [NaN], 1. *)
Definition timer_delay (ms : option Q) : Z :=
  match ms with
  | Some q => if Qle_bool 1 q && Qle_bool q 2147483647 then Qfloor q else 1
  | None => 1
  end.

Record Intervals := mkIntervals {
  outboxIntervalMs : option Q; retentionIntervalMs : option Q;
  reconciliationIntervalMs : option Q; keyRotationIntervalMs : option Q
}.
Definition intervals (env : string -> option string) : Intervals :=
  mkIntervals (interval (env "OUTBOX_FLUSH_INTERVAL_MS") 5000) (interval (env "RETENTION_INTERVAL_MS") 3600000)
    (interval (env "RECONCILIATION_INTERVAL_MS") 60000) (interval (env "KEY_ROTATION_CHECK_INTERVAL_MS") 86400000).
Definition loop_interval (i : Intervals) (l : Loop) : option Q :=
  match l with
  | OutboxLoop => i.(outboxIntervalMs) | RetentionLoop => i.(retentionIntervalMs)
  | ReconciliationLoop => i.(reconciliationIntervalMs) | KeyRotationLoop => i.(keyRotationIntervalMs)
  end.

Definition all_loops : list Loop := [OutboxLoop; RetentionLoop; ReconciliationLoop; KeyRotationLoop].

(** ** The process *)

Section process.
Context {S : Type} (job : Loop -> Z -> St S unit) (i : Intervals).
Implicit Types w : Worker S.

Definition worker_boot (now : Z) (s : S) : Worker S := mkWorker (fun _ => Testing) false Running now s [].

Definition set_phase (l : Loop) (p : Phase) w : Worker S :=
  mkWorker (fun k => if decide (k = l) then p else w.(wk_phase) k) w.(wk_stopped) w.(wk_status) w.(wk_now)
    w.(wk_state) w.(wk_ran).

(** Time passes, a loop takes its turn, a signal arrives, or the shutdown that waits
    for the loops finds them all ended. *)
Inductive Event := Tick (d : Z) | Turn (l : Loop) | Signal | Finish.

(** The turn of a loop, where it has one; a cycle that throws rejects [Promise.all],
    and the process dies of the unhandled rejection. *)
Definition turn (l : Loop) w : option (Worker S) :=
  match w.(wk_phase) l with
  | Testing => Some (set_phase l (if w.(wk_stopped) then Ended else Working) w)
  | Working =>
      let '(s, r) := job l w.(wk_now) w.(wk_state) in
      let w1 := mkWorker w.(wk_phase) w.(wk_stopped) w.(wk_status) w.(wk_now) s (w.(wk_ran) ++ [l]) in
      match r with
      | Ok _ => Some (set_phase l (Sleeping (w.(wk_now) + timer_delay (loop_interval i l))) w1)
      | Throw _ => Some (mkWorker w1.(wk_phase) w1.(wk_stopped) (Exited 1) w1.(wk_now) s w1.(wk_ran))
      end
  | Sleeping until => if until <=? w.(wk_now) then Some (set_phase l Testing w) else None
  | Ended => None
  end.

Definition ended (p : Phase) : bool := match p with Ended => true | _ => false end.

Definition step (e : Event) w : option (Worker S) :=
  match w.(wk_status) with
  | Exited _ => None
  | Running =>
      match e with
      | Tick d => if 0 <=? d
          then Some (mkWorker w.(wk_phase) w.(wk_stopped) Running (w.(wk_now) + d) w.(wk_state) w.(wk_ran)) else None
      | Turn l => turn l w
      | Signal => Some (mkWorker w.(wk_phase) true Running w.(wk_now) w.(wk_state) w.(wk_ran))
      | Finish =>
          if w.(wk_stopped) && forallb (fun l => ended (w.(wk_phase) l)) all_loops
          then Some (mkWorker w.(wk_phase) true (Exited 0) w.(wk_now) w.(wk_state) w.(wk_ran)) else None
      end
  end.

Fixpoint run (es : list Event) w : option (Worker S) :=
  match es with
  | [] => Some w
  | e :: es' => step e w ≫= run es'
  end.
End process.
Arguments step {S} _ _ _ _.
Arguments run {S} _ _ _ _.
Arguments turn {S} _ _ _ _.

(** ** The cycles *)

(** A line of the log the outbox is delivered to. *)
Record Delivered := mkDelivered { dl_topic : string; dl_payload : json; dl_signature : string }.

Record World := mkWorld { ww_db : Db; ww_log : list Delivered; ww_store : Store }.

Section jobs.
Context `{Coll : Collation} (sha256 : string -> string) (hmac : string -> string -> string).
Context (secret : string) (relays : Z -> option (list RelayHealth)) (keyRotationDays : Z).
Context (offset : Z) (retentionMonths : option Z).

(** The [send] of the dispatcher: sign and print. *)
Definition deliver (topic : string) (event : json) : St (list Delivered) unit :=
  modify (fun log => log ++ [mkDelivered topic event (outbox_sign hmac secret topic event)]).

Definition outbox_cycle : St (Db * list Delivered) unit :=
  try_catch (flush deliver exn_message 100 ;;; mret tt) (fun _ => mret tt).

Definition worker_job (l : Loop) (now : Z) : St World unit := fun w =>
  match l with
  | OutboxLoop => let '(db, log, r) := outbox_cycle (w.(ww_db), w.(ww_log)) in (mkWorld db log w.(ww_store), r)
  | RetentionLoop =>
      let '(st, r) := retention_cycle offset now now retentionMonths w.(ww_store) in (mkWorld w.(ww_db) w.(ww_log) st, r)
  | ReconciliationLoop =>
      let '(db, r) := reconciliation_cycle sha256 (relays now) now w.(ww_db) in (mkWorld db w.(ww_log) w.(ww_store), r)
  | KeyRotationLoop =>
      let '(db, r) := rotation_cycle sha256 keyRotationDays now w.(ww_db) in (mkWorld db w.(ww_log) w.(ww_store), r)
  end.
End jobs.

(** ** Any run of the process *)

Lemma all_loops_all l : l ∈ all_loops.
Proof. destruct l; set_solver. Qed.

Lemma all_ended {S} (w : Worker S) : forallb (fun l => ended (w.(wk_phase) l)) all_loops = true <-> forall l, w.(wk_phase) l = Ended.
Proof.
  rewrite forallb_Forall, Forall_forall. split.
  - intros F l. specialize (F l (all_loops_all l)). by destruct (wk_phase w l).
  - intros E l _. by rewrite E.
Qed.

Section runs.
Context {S : Type} (job : Loop -> Z -> St S unit) (i : Intervals).
Implicit Types w : Worker S.

Lemma run_inv (P : Worker S -> Prop) es w w' :
  (forall e w w', P w -> step job i e w = Some w' -> P w') -> P w -> run job i es w = Some w' -> P w'.
Proof.
  intros H. revert w; induction es as [|e es IH]; intros w Pw; cbn; [by intros [= <-]|].
  destruct (step job i e w) as [w1|] eqn:E; [|done]. cbn. apply IH. by eapply H.
Qed.

Lemma run_app es es' w : run job i (es ++ es') w = run job i es w ≫= run job i es'.
Proof. revert w; induction es as [|e es IH]; intros w; [done|]. cbn. destruct (step job i e w); [apply IH|done]. Qed.

(** The phases a turn leads through. *)
Inductive turned (l : Loop) w : Worker S -> Prop :=
  | turned_test : w.(wk_phase) l = Testing -> turned l w (set_phase l (if w.(wk_stopped) then Ended else Working) w)
  | turned_work s : w.(wk_phase) l = Working -> job l w.(wk_now) w.(wk_state) = (s, Ok tt) ->
      turned l w (set_phase l (Sleeping (w.(wk_now) + timer_delay (loop_interval i l)))
        (mkWorker w.(wk_phase) w.(wk_stopped) w.(wk_status) w.(wk_now) s (w.(wk_ran) ++ [l])))
  | turned_wake until : w.(wk_phase) l = Sleeping until -> until <= w.(wk_now) -> turned l w (set_phase l Testing w).

Context (jobs_ok : forall l now s, is_ok (job l now s).2 = true).

Lemma turn_turned l w w' : turn job i l w = Some w' -> turned l w w'.
Proof.
  unfold turn. destruct (wk_phase w l) as [| |until|] eqn:E; [| | |done].
  - intros [= <-]. by constructor.
  - pose proof (jobs_ok l (wk_now w) (wk_state w)) as J. destruct (job l (wk_now w) (wk_state w)) as [s [[]|e]] eqn:R; [|done].
    intros [= <-]. by constructor.
  - destruct (Z.leb_spec until (wk_now w)); [|done]. intros [= <-]. by econstructor.
Qed.

(** The process ends only by the shutdown, and a loop only when stopped. *)
Record sane w : Prop := {
  sane_ended l : w.(wk_phase) l = Ended -> w.(wk_stopped) = true;
  sane_exit c : w.(wk_status) = Exited c -> c = 0 /\ w.(wk_stopped) = true /\ forall l, w.(wk_phase) l = Ended
}.

Lemma step_sane e w w' : sane w -> step job i e w = Some w' -> sane w'.
Proof.
  intros [E X] H. unfold step in H. destruct (wk_status w) as [|c] eqn:St; [|done]. destruct e as [d|l| |].
  - destruct (0 <=? d); simplify_eq. by constructor.
  - assert (wk_status w' = Running) as St'.
    { apply turn_turned in H. by destruct H. }
    constructor; [|congruence]. apply turn_turned in H. intros k. destruct H as [P|s P _|u P _]; cbn;
      destruct (decide (k = l)) as [->|]; eauto; try done. by destruct (wk_stopped w).
  - simplify_eq. by constructor.
  - destruct (_ && _) eqn:F; [|done]. simplify_eq. apply andb_true_iff in F as [Sp F]. pose proof (proj1 (all_ended w) F).
    constructor; [done|]. by intros c [= <-].
Qed.

Lemma worker_boot_sane now s : sane (worker_boot now s).
Proof. by constructor. Qed.

Lemma step_stopped e w w' : step job i e w = Some w' -> w.(wk_stopped) = true -> w'.(wk_stopped) = true.
Proof.
  unfold step. destruct (wk_status w); [|done]. destruct e as [d|l| |].
  - destruct (0 <=? d); intros; by simplify_eq.
  - intros H%turn_turned. by destruct H.
  - intros; by simplify_eq.
  - destruct (_ && _); intros; by simplify_eq.
Qed.

(** A step leaves the state alone or runs one cycle on it. *)
Lemma step_state e w w' : step job i e w = Some w' ->
  w'.(wk_state) = w.(wk_state) \/ exists l, w'.(wk_state) = (job l w.(wk_now) w.(wk_state)).1.
Proof.
  unfold step. destruct (wk_status w); [|done]. destruct e as [d|l| |].
  - destruct (0 <=? d); intros; simplify_eq; by left.
  - intros H%turn_turned. destruct H as [|s P E|]; [by left| |by left]. right. exists l. by rewrite E.
  - intros; simplify_eq; by left.
  - destruct (_ && _); intros; simplify_eq; by left.
Qed.

(** Cycles a stopped loop can still run. *)
Definition cycles_left w (l : Loop) : nat := match w.(wk_phase) l with Working => 1 | _ => 0 end.

Lemma step_cycles e w w' l : step job i e w = Some w' -> w.(wk_stopped) = true ->
  exists more, w'.(wk_ran) = w.(wk_ran) ++ more /\
    (length (List.filter (fun k => bool_decide (k = l)) more) + cycles_left w' l <= cycles_left w l)%nat.
Proof.
  unfold step, cycles_left. destruct (wk_status w) as [|c]; [|done]. destruct e as [d|k| |]; intros H Sp.
  - destruct (0 <=? d); simplify_eq. exists []. by rewrite app_nil_r.
  - apply turn_turned in H. destruct H as [P|s P _|u P _]; cbn.
    + exists []. rewrite app_nil_r, Sp. split; [done|]. cbn. destruct (decide (l = k)); [cbn; lia|done].
    + exists [k]. split; [done|]. cbn. destruct (decide (l = k)) as [->|N]; cbn.
      * rewrite P. by rewrite bool_decide_eq_true_2.
      * by rewrite bool_decide_eq_false_2.
    + exists []. rewrite app_nil_r. split; [done|]. cbn. destruct (decide (l = k)); [cbn; lia|done].
  - simplify_eq. exists []. by rewrite app_nil_r.
  - destruct (_ && _); simplify_eq. exists []. by rewrite app_nil_r.
Qed.

Lemma run_cycles es w w' l : run job i es w = Some w' -> w.(wk_stopped) = true ->
  exists more, w'.(wk_ran) = w.(wk_ran) ++ more /\
    (length (List.filter (fun k => bool_decide (k = l)) more) <= cycles_left w l)%nat.
Proof.
  revert w; induction es as [|e es IH]; intros w; cbn; [intros [= <-] _; exists []; rewrite app_nil_r; split; [done|cbn; lia]|].
  destruct (step job i e w) as [w1|] eqn:E; [|done]. cbn. intros R Sp.
  destruct (step_cycles e w w1 l E Sp) as (m1 & E1 & L1). apply IH in R as (m2 & E2 & L2); [|by eapply step_stopped].
  exists (m1 ++ m2). rewrite E2, E1, app_assoc. split; [done|]. rewrite List.filter_app, length_app. lia.
Qed.

(** A sleeping loop leaves its sleep when its timer fires. *)
Lemma run_sleeper es w w' l u : run job i es w = Some w' -> w.(wk_phase) l = Sleeping u ->
  w'.(wk_phase) l = Sleeping u \/ u <= w'.(wk_now).
Proof.
  intros R P. apply (run_inv (fun w => wk_phase w l = Sleeping u \/ u <= wk_now w) es w w'); [|by left|done].
  clear -jobs_ok. intros e w w' I H. unfold step in H. destruct (wk_status w) as [|c]; [|done]. destruct e as [d|k| |].
  - destruct (Z.leb_spec 0 d); simplify_eq. cbn. destruct I as [I|I]; [by left|right; lia].
  - apply turn_turned in H. destruct H as [P|s P _|u' P L]; cbn; destruct (decide (l = k)) as [->|]; try done;
      destruct I as [I|I]; try (by right); try congruence. right. congruence.
  - by simplify_eq.
  - destruct (_ && _); by simplify_eq.
Qed.

(** ** The shutdown can complete *)

(** A stopped process that goes on, in which what had ended has ended still. *)
Record winding w w' : Prop := {
  wd_running : w'.(wk_status) = Running; wd_stopped : w'.(wk_stopped) = true;
  wd_ended k : w.(wk_phase) k = Ended -> w'.(wk_phase) k = Ended
}.

Lemma winding_trans w w1 w2 : winding w w1 -> winding w1 w2 -> winding w w2.
Proof. intros [] []. constructor; auto. Qed.

Lemma wind_phase l p w s ran now :
  w.(wk_status) = Running -> w.(wk_stopped) = true -> w.(wk_phase) l <> Ended ->
  winding w (set_phase l p (mkWorker w.(wk_phase) w.(wk_stopped) w.(wk_status) now s ran)).
Proof. intros R Sp N. constructor; [done..|]. intros k Hk. cbn. by destruct (decide (k = l)) as [->|]. Qed.

Lemma wind_testing l w : w.(wk_status) = Running -> w.(wk_stopped) = true -> w.(wk_phase) l = Testing ->
  exists w', run job i [Turn l] w = Some w' /\ winding w w' /\ w'.(wk_phase) l = Ended.
Proof.
  intros R Sp P. exists (set_phase l Ended w). split_and!.
  - cbn. unfold step, turn. by rewrite R, P, Sp.
  - constructor; [done..|]. intros k Hk. cbn. by destruct (decide (k = l)).
  - cbn. by rewrite decide_True.
Qed.

Lemma wind_sleeping l w u : w.(wk_status) = Running -> w.(wk_stopped) = true -> w.(wk_phase) l = Sleeping u ->
  exists es w', run job i es w = Some w' /\ winding w w' /\ w'.(wk_phase) l = Ended.
Proof.
  intros R Sp P. set (d := Z.max 0 (u - wk_now w)).
  set (w1 := set_phase l Testing (mkWorker (wk_phase w) (wk_stopped w) (wk_status w) (wk_now w + d) (wk_state w) (wk_ran w))).
  assert (winding w w1) as W1 by (apply wind_phase; [done..|congruence]).
  destruct (wind_testing l w1) as (w2 & E2 & W2 & P2); [apply W1|apply W1|cbn; by rewrite decide_True|].
  exists ([Tick d; Turn l] ++ [Turn l]), w2. split_and!; [|by eapply winding_trans|done].
  rewrite run_app. enough (run job i [Tick d; Turn l] w = Some w1) as -> by exact E2.
  assert (step job i (Tick d) w =
    Some (mkWorker (wk_phase w) (wk_stopped w) (wk_status w) (wk_now w + d) (wk_state w) (wk_ran w))) as E.
  { unfold step. by rewrite R, (proj2 (Z.leb_le _ _)) by lia. }
  cbn [run]. rewrite E. cbn -[Z.leb]. unfold step, turn. cbn -[Z.leb]. rewrite R, P, (proj2 (Z.leb_le _ _)) by lia.
  unfold w1. by rewrite R.
Qed.

(** From a stopped process, one loop can be brought to its end. *)
Lemma wind_down l w : w.(wk_status) = Running -> w.(wk_stopped) = true ->
  exists es w', run job i es w = Some w' /\ winding w w' /\ w'.(wk_phase) l = Ended.
Proof.
  intros R Sp. destruct (wk_phase w l) as [| |u|] eqn:P.
  - exists [Turn l]. by apply wind_testing.
  - pose proof (jobs_ok l (wk_now w) (wk_state w)) as J. destruct (job l (wk_now w) (wk_state w)) as [s [[]|e]] eqn:E; [|done].
    set (u := wk_now w + timer_delay (loop_interval i l)).
    set (w1 := set_phase l (Sleeping u) (mkWorker (wk_phase w) (wk_stopped w) (wk_status w) (wk_now w) s (wk_ran w ++ [l]))).
    assert (winding w w1) as W1 by (apply wind_phase; [done..|congruence]).
    destruct (wind_sleeping l w1 u) as (es & w2 & E2 & W2 & P2); [apply W1|apply W1|cbn; by rewrite decide_True|].
    exists (Turn l :: es), w2. split_and!; [|by eapply winding_trans|done].
    assert (step job i (Turn l) w = Some w1) as E1 by (unfold step, turn, w1; by rewrite R, P, E).
    cbn [run]. rewrite E1. exact E2.
  - by eapply wind_sleeping.
  - exists [], w. split_and!; [done|by constructor|done].
Qed.

Lemma wind_down_all (ls : list Loop) w : w.(wk_status) = Running -> w.(wk_stopped) = true ->
  exists es w', run job i es w = Some w' /\ winding w w' /\ forall l, l ∈ ls -> w'.(wk_phase) l = Ended.
Proof.
  intros R Sp. induction ls as [|l ls IH]; [exists [], w; split_and!; [done|by constructor|set_solver]|].
  destruct IH as (es & w1 & E1 & W1 & P1). destruct (wind_down l w1) as (es' & w2 & E2 & W2 & P2); [apply W1..|].
  exists (es ++ es'), w2. split_and!; [by rewrite run_app, E1|by eapply winding_trans|].
  intros k [->|Hk]%elem_of_cons; [done|]. by apply W2, P1.
Qed.
End runs.

(** ** The cycles of the worker *)

Section cycles.
Context `{Coll : Collation} (sha256 : string -> string) (hmac : string -> string -> string).
Context (secret : string) (relays : Z -> option (list RelayHealth)) (keyRotationDays : Z).
Context (offset : Z) (retentionMonths : option Z).
Local Notation job := (worker_job sha256 hmac secret relays keyRotationDays offset retentionMonths).

Lemma caught_ok {S} (m : St S unit) s : is_ok (try_catch m (fun _ => mret tt) s).2 = true.
Proof. unfold try_catch. by destruct (m s) as [s' [[]|e]]. Qed.

Lemma job_ok l now w : is_ok (job l now w).2 = true.
Proof.
  unfold worker_job. destruct l.
  - pose proof (caught_ok (flush (deliver hmac secret) exn_message 100 ;;; mret tt) (ww_db w, ww_log w)) as H.
    fold (outbox_cycle hmac secret) in H. by destruct (outbox_cycle hmac secret _) as [[db log] r].
  - pose proof (caught_ok (ensureUpcomingPartitions offset now 1 ;;; dropExpiredPartitions now retentionMonths ;;;
      purgeExpiredRows now ;;; mret tt) (ww_store w)) as H.
    fold (retention_cycle offset now now retentionMonths) in H. by destruct (retention_cycle _ _ _ _ _) as [st r].
  - pose proof (worker_keeps_record sha256 (relays now) keyRotationDays now (ww_db w)) as [[H _] _].
    by destruct (reconciliation_cycle _ _ _ _) as [db r].
  - pose proof (worker_keeps_record sha256 (relays now) keyRotationDays now (ww_db w)) as [_ [H _]].
    by destruct (rotation_cycle _ _ _ _) as [db r].
Qed.

(** The log of the outbox only ever gains lines signed under the secret. *)
Definition signed (d : Delivered) : Prop := outbox_verify hmac secret d.(dl_topic) d.(dl_payload) d.(dl_signature) = true.

(** The audit log has grown by records of the worker. *)
Definition grown (db db' : Db) : Prop := exists more,
  map summary (chain db') = map summary (chain db) ++ more /\ Forall (fun x => x.1.1.2 = RECONCILIATION_ACTOR) more.

Lemma grown_refl db db' : chain db' = chain db -> grown db db'.
Proof. intros E. exists []. by rewrite E, app_nil_r. Qed.

Lemma grown_trans db db1 db2 : grown db db1 -> grown db1 db2 -> grown db db2.
Proof.
  intros (m1 & E1 & F1) (m2 & E2 & F2). exists (m1 ++ m2). by rewrite E2, E1, app_assoc, Forall_app.
Qed.

Lemma flush_rows_signed limit rows log :
  Forall signed log -> Forall signed (flush_rows (deliver hmac secret) exn_message limit rows log).2.
Proof.
  revert limit log; induction rows as [|row rows IH]; intros limit log F; cbn [flush_rows]; [done|].
  destruct (o_published row).
  - specialize (IH limit log F). by destruct (flush_rows _ _ _ rows log) as [[out n] w'].
  - destruct limit as [|limit]; [done|]. cbn [deliver modify].
    set (log1 := log ++ _). specialize (IH limit log1). destruct (flush_rows _ _ _ rows log1) as [[out n] w']. apply IH.
    apply Forall_app. split; [done|]. apply Forall_singleton. unfold signed. cbn. apply outbox_sign_verifies.
Qed.

Lemma outbox_cycle_run db log : exists out n log',
  flush_rows (deliver hmac secret) exn_message 100 db.(event_outbox) log = (out, n, log') /\
  outbox_cycle hmac secret (db, log) = ((set_event_outbox out db, log'), Ok tt).
Proof.
  unfold outbox_cycle, try_catch, mbind, St_bind, flush.
  destruct (flush_rows _ _ _ _ log) as [[out n] log'] eqn:E. by exists out, n, log'.
Qed.

Lemma cycle_adds_grown {X} (j : St Db (list X)) f g db db' :
  (forall x, Forall (fun y => y.1.1.2 = RECONCILIATION_ACTOR) (g x)) ->
  cycle_adds sha256 j f g db db' -> grown db db'.
Proof.
  intros G. unfold cycle_adds. destruct (j db) as [db1 [results|e]]; [|apply grown_refl].
  intros (added & [rest P] & E & _). exists added. split; [done|].
  assert (Forall (fun y => y.1.1.2 = RECONCILIATION_ACTOR) (concat (map g results))) as F.
  { apply Forall_concat, Forall_map, Forall_forall. intros x _. apply G. }
  rewrite P in F. by apply Forall_app in F as [F _].
Qed.

Lemma job_grows l now w : Forall signed w.(ww_log) ->
  grown w.(ww_db) (job l now w).1.(ww_db) /\ Forall signed (job l now w).1.(ww_log).
Proof.
  intros F. unfold worker_job. destruct l.
  - destruct (outbox_cycle_run (ww_db w) (ww_log w)) as (out & n & log' & E & ->). split; [by apply grown_refl|].
    pose proof (flush_rows_signed 100 (event_outbox (ww_db w)) (ww_log w) F) as H. by rewrite E in H.
  - destruct (retention_cycle _ _ _ _ _) as [st r]. split; [by apply grown_refl|done].
  - pose proof (worker_keeps_record sha256 (relays now) keyRotationDays now (ww_db w)) as [[_ H] _].
    destruct (reconciliation_cycle _ _ _ _) as [db r]. split; [|done]. apply cycle_adds_grown in H; [done|].
    intros x. unfold drift_entry. destruct (existsb _ _); by repeat constructor.
  - pose proof (worker_keeps_record sha256 (relays now) keyRotationDays now (ww_db w)) as [_ [_ H]].
    destruct (rotation_cycle _ _ _ _) as [db r]. split; [|done]. apply cycle_adds_grown in H; [done|].
    intros x. by repeat constructor.
Qed.
End cycles.

(** ** The properties *)

Section properties.
Context `{Coll : Collation} (sha256 : string -> string) (hmac : string -> string -> string).
Context (secret : string) (relays : Z -> option (list RelayHealth)) (keyRotationDays : Z).
Context (offset : Z) (retentionMonths : option Z) (i : Intervals).
Local Notation job := (worker_job sha256 hmac secret relays keyRotationDays offset retentionMonths).
Local Notation job_ok := (job_ok sha256 hmac secret relays keyRotationDays offset retentionMonths).

(** C11: the worker keeps working.  In every run of the four loops, however their
    turns, the timers and the signals are interleaved and whatever their cycles find in
    the database, the process never dies of a failing cycle, a loop ends only after a
    signal, the process exits only with code 0 and when every loop has ended, so that
    no cycle runs on a closed database; the audit log has only gained records of the
    worker, and every line delivered from the outbox carries a signature that verifies. *)
Theorem worker_runs_on es now db st w' :
  run job i es (worker_boot now (mkWorld db [] st)) = Some w' ->
  (forall l, w'.(wk_phase) l = Ended -> w'.(wk_stopped) = true) /\
  (forall c, w'.(wk_status) = Exited c -> c = 0 /\ w'.(wk_stopped) = true /\ forall l, w'.(wk_phase) l = Ended) /\
  grown db w'.(wk_state).(ww_db) /\ Forall (signed hmac secret) w'.(wk_state).(ww_log).
Proof.
  intros R.
  assert (sane w') as [? ?] by (eapply (run_inv job i sane); [intros e w v; by apply (step_sane job i job_ok)|apply worker_boot_sane|done]).
  split; [done|]. split; [done|].
  apply (run_inv job i (fun w => grown db (wk_state w).(ww_db) /\ Forall (signed hmac secret) (wk_state w).(ww_log)) es
    (worker_boot now (mkWorld db [] st)) w'); [|split; [by apply grown_refl|constructor]|done].
  clear. intros e w v [G F] H. apply (step_state job i job_ok) in H as [->|(l & ->)]; [done|].
  destruct (job_grows sha256 hmac secret relays keyRotationDays offset retentionMonths l (wk_now w) (wk_state w) F).
  eauto using grown_trans.
Qed.

(** C26: the shutdown.  After a signal no loop starts another cycle: a loop finishes the
    one it is in, at most; and from every state a stopped process can be in there is a
    way to the exit with code 0, for the timers of the sleeping loops all fire. *)
Theorem shutdown_completes w :
  w.(wk_stopped) = true ->
  (forall es' w' l, run job i es' w = Some w' -> exists more, w'.(wk_ran) = w.(wk_ran) ++ more /\
    (length (List.filter (fun k => bool_decide (k = l)) more) <= cycles_left w l)%nat) /\
  (w.(wk_status) = Running -> exists es' w', run job i es' w = Some w' /\ w'.(wk_status) = Exited 0).
Proof.
  intros Sp. split; [intros es' w' l R; by apply (run_cycles job i job_ok es')|].
  intros Rn. destruct (wind_down_all job i job_ok all_loops w Rn Sp) as (es' & w1 & R1 & W1 & P1).
  exists (es' ++ [Finish]). eexists. rewrite run_app, R1. cbn [mbind option_bind run].
  unfold step. rewrite (wd_running _ _ W1), (wd_stopped _ _ W1).
  rewrite (proj2 (all_ended w1)); [by cbn|]. intros l. apply P1, all_loops_all.
Qed.

(** C30: the shutdown waits for the longest timer.  A loop that sleeps when the signal
    arrives is not woken: the process does not exit before that loop's timer fires,
    which with the default intervals is up to a day away for the key rotation, where
    a supervisor sends SIGKILL after seconds. *)
Theorem shutdown_waits_for_timers w l u es w' :
  w.(wk_phase) l = Sleeping u -> sane w -> run job i es w = Some w' -> (exists c, w'.(wk_status) = Exited c) ->
  u <= w'.(wk_now).
Proof.
  intros P Sn R (c & X).
  assert (sane w') as Sn' by (eapply (run_inv job i sane); [intros e v v'; by apply (step_sane job i job_ok)|exact Sn|exact R]).
  destruct (run_sleeper job i job_ok es w w' l u R P) as [E|]; [|done].
  destruct (sane_exit _ Sn' _ X) as (_ & _ & H). congruence.
Qed.
End properties.

(** ** Instances *)

Definition worker_env : Intervals := intervals (fun _ => None).
Definition worker_world : World :=
  mkWorld (publish "security.test" (JObj []) (empty_db 0)).1 [] (mkStore ∅ [] {| pg_idem := ∅ |} {| pg_nonces := ∅ |} []).
Definition toy_hash (s : string) : string := s.
Definition toy_mac (k m : string) : string := k +:+ m.

(** Every loop runs once and sleeps; then the signal. *)
Definition first_round : list Event :=
  [Turn OutboxLoop; Turn RetentionLoop; Turn ReconciliationLoop; Turn KeyRotationLoop;
   Turn OutboxLoop; Turn RetentionLoop; Turn ReconciliationLoop; Turn KeyRotationLoop; Tick 1000; Signal].

Definition demo_job := @worker_job code_point_collation toy_hash toy_mac "k" (fun _ => None) 30 0 (Some 13).

Example worker_first_round :
  match run demo_job worker_env first_round (worker_boot 0 worker_world) with
  | Some w => map dl_topic w.(wk_state).(ww_log) = ["security.test"] /\ w.(wk_stopped) = true /\
      map w.(wk_phase) all_loops = [Sleeping 5000; Sleeping 3600000; Sleeping 60000; Sleeping 86400000]
  | None => False
  end.
Proof. vm_compute. repeat split. Qed.

Lemma worker_runs_on_witness :
  match run demo_job worker_env first_round (worker_boot 0 worker_world) with
  | Some w' => grown worker_world.(ww_db) w'.(wk_state).(ww_db) /\ Forall (signed toy_mac "k") w'.(wk_state).(ww_log)
  | None => False
  end.
Proof.
  destruct (run demo_job worker_env first_round (worker_boot 0 worker_world)) as [w'|] eqn:E; [|vm_compute in E; discriminate E].
  apply (@worker_runs_on code_point_collation toy_hash toy_mac "k" (fun _ => None) 30 0 (Some 13) worker_env
    first_round 0 worker_world.(ww_db) worker_world.(ww_store) w' E).
Defined.

Lemma shutdown_completes_witness :
  match run demo_job worker_env first_round (worker_boot 0 worker_world) with
  | Some w => exists es' w', run demo_job worker_env es' w = Some w' /\ w'.(wk_status) = Exited 0
  | None => False
  end.
Proof.
  destruct (run demo_job worker_env first_round (worker_boot 0 worker_world)) as [w|] eqn:E; [|vm_compute in E; discriminate E].
  apply (@shutdown_completes code_point_collation toy_hash toy_mac "k" (fun _ => None) 30 0 (Some 13) worker_env w).
  - vm_compute in E. injection E as <-. reflexivity.
  - vm_compute in E. injection E as <-. reflexivity.
Defined.

(** The signal arrives a second after the first round: the exit is a day later. *)
Lemma shutdown_waits_for_timers_witness :
  let drain := [Tick 86399000; Turn OutboxLoop; Turn OutboxLoop; Turn RetentionLoop; Turn RetentionLoop;
    Turn ReconciliationLoop; Turn ReconciliationLoop; Turn KeyRotationLoop; Turn KeyRotationLoop; Finish] in
  match run demo_job worker_env first_round (worker_boot 0 worker_world) with
  | Some w => match run demo_job worker_env drain w with
      | Some w' => w'.(wk_status) = Exited 0 /\ 86400000 <= w'.(wk_now)
      | None => False
      end
  | None => False
  end.
Proof.
  intros drain.
  destruct (run demo_job worker_env first_round (worker_boot 0 worker_world)) as [w|] eqn:E; [|vm_compute in E; discriminate E].
  destruct (run demo_job worker_env drain w) as [w'|] eqn:F.
  - assert (w'.(wk_status) = Exited 0) as X.
    { vm_compute in E. injection E as <-. vm_compute in F. injection F as <-. reflexivity. }
    split; [exact X|].
    apply (@shutdown_waits_for_timers code_point_collation toy_hash toy_mac "k" (fun _ => None) 30 0 (Some 13) worker_env
      w KeyRotationLoop 86400000 drain w').
    + vm_compute in E. injection E as <-. reflexivity.
    + vm_compute in E. injection E as <-. constructor.
      * intros l H. reflexivity.
      * intros c H. discriminate H.
    + exact F.
    + exists 0. exact X.
  - vm_compute in E. injection E as <-. vm_compute in F. discriminate F.
Defined.
