(* ===== verification/Startup.v ===== *)
(** * Starting the processes

    The entry points [src/src/runtime/production-server.ts], [grpc-server.ts],
    [oob-server.ts] and [migrate-cli.ts]: what each reads, in which order, and how it
    ends when a part is missing.  The services they put together are those of the other
    files.  The database is there or it is not; what a listening socket does is the
    parameter [listen].  A rejected top-level [await] ends the process with its stack
    trace. *)

From S2P Require Import Prelude Json Text Domain Database Repositories Rest Config Storage Oob X509 TrustAnchor Cloud.
Open Scope Z_scope.

Inductive Started :=
  | Listening (service host : string) (port : option Q)
  | ExitCode (code : Z) (fatal : string)
  | Rejected (e : exn).

Definition connection_refused : exn := JsError "connect ECONNREFUSED".

(** Work on a database that may be out of reach. *)
Definition on_database {T A} (m : St T A) : St (option T) A := fun s =>
  match s with
  | Some t => let '(t', r) := m t in (Some t', r)
  | None => (None, Throw connection_refused)
  end.

(** [Postgres.health]: [SELECT 1] *)
Definition db_health {T} : St (option T) bool := on_database (mret true).

(** [await hydrateSecretsFromAws(); const config = loadConfig();] *)
Definition boot_config (hydrated : res Environment) : res (Environment * SecurityConfig) :=
  match hydrated with
  | Throw e => Throw e
  | Ok env => match loadConfig (read_env env) with Ok config => Ok (env, config) | Throw e => Throw e end
  end.

Section processes.
(** [loadTrustAnchor(db)], of the environment. *)
Context {T TA : Type} (load_anchor : Environment -> St T TA).
Implicit Types s : option T.

(** [production-server.ts] *)
Definition start_production (hydrated : res Environment) (listen : res unit) (s : option T) : option T * Started :=
  match boot_config hydrated with
  | Throw e => (s, Rejected e)
  | Ok (env, config) =>
  match on_database (load_anchor env) s with
  | (s1, Throw e) => (s1, Rejected e)
  | (s1, Ok _) =>
  match db_health s1 with
  | (s2, Throw _) => (s2, ExitCode 1 "database unreachable at startup")
  | (s2, Ok _) =>
  match listen with
  | Throw e => (s2, Rejected e)
  | Ok _ => (s2, Listening "bapc-vpn-security" (bindHost config) (Some (port_ config)))
  end end end end.

(** [shutdown]: the listener closes within ten seconds, or the timer exits. *)
Definition stop_production (close_ms : option Z) : Z :=
  match close_ms with Some t => if t <? 10000 then 0 else 1 | None => 1 end.

(** [grpcServer.bindAsync(`${config.bindHost}:${grpcPort}`, ...)] *)
Definition grpc_bind (env : Environment) (config : SecurityConfig) (bind : res unit) : Started :=
  let grpcPort := match env !! "GRPC_PORT" with Some p => Number p | None => Some 50051%Q end in
  match bind with
  | Throw _ => ExitCode 1 "grpc.bind_failed"
  | Ok _ => Listening "bapc-mesh-grpc" (bindHost config) grpcPort
  end.

Section grpc.
Context `{Coll : Collation} (parse : string -> res json) (keyTypeOf : string -> res (option string)).
Context (verify_signature : string -> string -> string -> res bool).

(** [grpc-server.ts]; also the attestation verifier enrollment runs with. *)
Definition start_grpc (hydrated : res Environment) (bind : res unit) (s : option T) :
    option T * Started * option (string -> string -> option string -> res bool) :=
  match boot_config hydrated with
  | Throw e => (s, Rejected e, None)
  | Ok (env, config) =>
  match on_database (load_anchor env) s with
  | (s1, Throw e) => (s1, Rejected e, None)
  | (s1, Ok _) =>
  match buildAttestationVerifier parse keyTypeOf verify_signature (attestationProvider config) (environment config) with
  | Throw e => (s1, Rejected e, None)
  | Ok verifier =>
      match grpc_bind env config bind with
      | Listening name host port => (s1, Listening name host port, Some verifier)
      | out => (s1, out, None)
      end
  end end end.
End grpc.
End processes.

(** [new OobServer(sharedSecret)] *)
Definition new_oob (sharedSecret : string) : res string :=
  if (String.length sharedSecret <? 32)%nat then Throw (JsError "OOB shared secret must be at least 32 characters")
  else Ok sharedSecret.

(** [oob-server.ts]; also the secret the server compares with. *)
Definition start_oob (hydrated : res Environment) (listen : res unit) : Started * option string :=
  match hydrated with
  | Throw e => (Rejected e, None)
  | Ok env =>
      match env !! "OOB_SHARED_SECRET" with
      | Some secret =>
          if negb (truthy secret) || (String.length secret <? 32)%nat
          then (ExitCode 1 "OOB_SHARED_SECRET must be set and at least 32 characters", None)
          else
            let port := match env !! "OOB_PORT" with Some p => Number p | None => Some 8181%Q end in
            let host := default "127.0.0.1" (env !! "OOB_BIND_HOST") in
            match new_oob secret with
            | Throw e => (Rejected e, None)
            | Ok server =>
                match listen with
                | Throw e => (Rejected e, None)
                | Ok _ => (Listening "bapc-oob-controller" host port, Some server)
                end
            end
      | None => (ExitCode 1 "OOB_SHARED_SECRET must be set and at least 32 characters", None)
      end
  end.

(** ** [migrate-cli.ts] *)

Record Cli := mkCli { cli_lines : list string; cli_exit : Z; cli_closed : bool }.

Section cli.
Context (sha256 : string -> string) {X : Type} (run_sql : string -> St X unit).

Definition status_line (st : MigrationStatus) : string :=
  match st.(st_applied) with
  | None => "PENDING  " +:+ st.(st_name)
  | Some (at_, drifted) =>
      (if drifted then "DRIFTED " else "APPLIED ") +:+ " " +:+ st.(st_name) +:+ " (" +:+ toISOString at_ +:+ ")"
  end.

Definition applied_line (r : MigrationResult) : string := json_stringify (JObj
  [("event", JStr "migrations.applied"); ("applied", jstrs r.(applied)); ("skipped", jstrs r.(skipped))]).
Definition fatal_line (e : exn) : string := json_stringify (JObj
  [("event", JStr "fatal"); ("error", JStr (exn_message e))]).

(** [files] is what [readdirSync] and [readFileSync] give for the directory
    [process.argv[2] ?? "db"], [command] is [process.argv[3]].  What throws before [try]
    leaves the pool open. *)
Definition migrate_cli (hydrated : res Environment) (files : string -> res (list (string * string)))
    (dir command : option string) : St (@Migrated X) Cli := fun s =>
  match boot_config hydrated with
  | Throw e => (s, Throw e)
  | Ok _ =>
  match files (default "db" dir) with
  | Throw e => (s, Throw e)
  | Ok fs =>
      let migrations := loadMigrations sha256 fs in
      if String.eqb (default "up" command) "status"
      then (s, Ok (mkCli (map status_line (migration_status migrations s)) 0 true))
      else match migrate run_sql migrations s with
        | (s', Ok result) => (s', Ok (mkCli [applied_line result] 0 true))
        | (s', Throw e) => (s', Ok (mkCli [fatal_line e] 1 true))
        end
  end end.
End cli.

(** ** What a process that started has *)

Section started.
Context {T TA : Type} (load_anchor : Environment -> St T TA).

Lemma production_listening hydrated listen s s' name host port :
  start_production load_anchor hydrated listen s = (s', Listening name host port) ->
  exists env config t t' ta, hydrated = Ok env /\ loadConfig (read_env env) = Ok config /\ s = Some t /\ s' = Some t' /\
    load_anchor env t = (t', Ok ta) /\ listen = Ok tt /\ host = bindHost config /\ port = Some (port_ config).
Proof.
  unfold start_production, boot_config, db_health. destruct hydrated as [env|]; [|done].
  destruct (loadConfig (read_env env)) as [config|] eqn:C; [|done]. destruct s as [t|]; [|done]. cbn.
  destruct (load_anchor env t) as [t' [ta|]] eqn:L; [|done]. cbn. destruct listen as [[]|]; [|done].
  intros [= <- _ <- <-]. by exists env, config, t, t', ta.
Qed.

Lemma production_no_fatal hydrated listen s code why :
  (start_production load_anchor hydrated listen s).2 <> ExitCode code why.
Proof.
  unfold start_production, boot_config. destruct hydrated as [env|]; [|done]. destruct (loadConfig _); [|done].
  destruct s as [t|]; [|done]. cbn. destruct (load_anchor env t) as [t' [ta|]]; [|done]. cbn. by destruct listen.
Qed.

Lemma production_unreachable hydrated listen : exists e, start_production load_anchor hydrated listen None = (None, Rejected e).
Proof.
  unfold start_production, boot_config. destruct hydrated as [env|e]; [|by exists e]. destruct (loadConfig _) as [c|e]; [|by exists e].
  by eexists.
Qed.
End started.

(** In production the control plane's out-of-band secret is the variable itself. *)
Lemma production_oob_secret env config :
  loadConfig env = Ok config -> environment config = "production" ->
  exists secret, env "OOB_SHARED_SECRET" = Some secret /\ strong secret /\ oobSharedSecret config = secret.
Proof.
  unfold loadConfig. destruct (_ && _) eqn:Hs; [done|].
  destruct (match env "ATTESTATION_PROVIDER" with Some _ => _ | None => _ end); [done|]. destruct (_ && String.eqb _ "development"); [done|].
  intros H. do 10 (apply res_bind_ok in H as (? & _ & H)). injection H as <-. cbn. intros E. rewrite E in Hs. cbn in Hs.
  apply orb_false_iff in Hs as [_ L]. destruct (env "OOB_SHARED_SECRET") as [secret|]; [|done]. cbn -[Nat.ltb] in L |- *.
  exists secret. apply Nat.leb_gt in L. split_and!; [done|unfold strong; lia|]. unfold or_else.
  destruct secret; [cbn in L; lia|done].
Qed.

(** A verifier other than the development one accepts envelopes of its provider only. *)
Lemma hardware_verifier `{Collation} parse keyTypeOf verify_signature provider environment v hw quote key :
  provider <> "development" -> provider ∈ ATTESTATION_PROVIDERS ->
  buildAttestationVerifier parse keyTypeOf verify_signature provider environment = Ok v -> v hw quote key = Ok true ->
  exists e t, parseAttestationEnvelope parse quote = inr e /\ ae_provider e = provider /\
    keyTypeOf (ae_akPublicKeyPem e) = Ok t /\ default "" t = key_family provider /\
    verify_signature (ae_akPublicKeyPem e) (attestationSignedPayload hw e key) (ae_signature e) = Ok true.
Proof.
  intros N P. unfold buildAttestationVerifier. rewrite (proj2 (String.eqb_neq _ _) N).
  destruct (String.eqb_spec provider "windows-tpm") as [->|].
  { intros [= <-] (e & t & ? & ? & ? & ? & ?)%real_verify_true. exists e, t. by split_and!. }
  destruct (String.eqb_spec provider "linux-tpm2") as [->|].
  { intros [= <-] (e & t & ? & ? & ? & ? & ?)%real_verify_true. exists e, t. by split_and!. }
  by intros [= <-].
Qed.

Lemma oob_starts env secret : env !! "OOB_SHARED_SECRET" = Some secret -> strong secret ->
  exists host port, start_oob (Ok env) (Ok tt) = (Listening "bapc-oob-controller" host port, Some secret).
Proof.
  intros E L. unfold start_oob, new_oob, strong in *. rewrite E. rewrite (proj2 (Nat.ltb_ge _ _)) by done.
  assert (truthy secret = true) as -> by (apply truthy_spec; intros ->; cbn in L; lia). cbn. by eexists _, _.
Qed.

(** ** The properties *)

(** C16: a production deployment is consistent.  When the control plane listens with
    NODE_ENV=production, its configuration has strong secrets and no development
    attestation; the out-of-band server started with the same environment does not
    refuse, and it accepts the authorization header the control plane sends and no
    other; and the enrollment server, when it listens, runs with a verifier that
    accepts a quote only if it is an envelope of the configured hardware provider, with
    a key of that provider's family, whose signature verifies over the payload of this
    hardware id and identity key. *)
Theorem production_deployment `{Collation} {T TA} (load_anchor : Environment -> St T TA) parse keyTypeOf verify_signature
    env s s' name host port :
  env !! "NODE_ENV" = Some "production" ->
  start_production load_anchor (Ok env) (Ok tt) s = (s', Listening name host port) ->
  exists config, loadConfig (read_env env) = Ok config /\ environment config = "production" /\ config_ok config /\
    (exists oobHost oobPort serverSecret, start_oob (Ok env) (Ok tt) =
       (Listening "bapc-oob-controller" oobHost oobPort, Some serverSecret) /\
       forall header, authorized serverSecret header = true <-> header = bearer (oobSharedSecret config)) /\
    forall bind sg out v, start_grpc load_anchor parse keyTypeOf verify_signature (Ok env) bind s' = (sg, out, Some v) ->
      forall hw quote key, v hw quote key = Ok true ->
        exists e t, parseAttestationEnvelope parse quote = inr e /\ ae_provider e = attestationProvider config /\
          keyTypeOf (ae_akPublicKeyPem e) = Ok t /\ default "" t = key_family (attestationProvider config) /\
          verify_signature (ae_akPublicKeyPem e) (attestationSignedPayload hw e key) (ae_signature e) = Ok true.
Proof.
  intros Hp St. apply production_listening in St as (env' & config & t & t' & ta & [= <-] & C & -> & -> & L & _ & _ & _).
  destruct (loadConfig_guarantees _ _ C) as [E O]. unfold read_env in E. rewrite Hp in E. cbn in E.
  destruct (production_oob_secret _ _ C E) as (secret & Hs & Hl & Eq).
  exists config. split_and!; [done..| |].
  - rewrite Eq. destruct (oob_starts env secret Hs Hl) as (h & p & St). exists h, p, secret. split; [done|]. apply authorized_iff.
  - intros bind sg out v G hw quote key V. unfold start_grpc, boot_config, grpc_bind in G. rewrite C in G.
    destruct (on_database (load_anchor env) (Some t')) as [s1 [ta'|]]; [|done].
    destruct (buildAttestationVerifier _ _ _ _ _) as [v'|] eqn:B; [|done]. destruct bind as [[]|]; [|done].
    injection G as _ _ ->. destruct (ok_production _ O E) as [Hd _].
    by eapply hardware_verifier; [exact Hd|apply O|exact B|exact V].
Qed.

(** Also: the handler for an unreachable database never runs.  The trust anchor is loaded
    from the database before the health check, so that with the database out of reach
    the process ends with an unhandled rejection, and no start ends with the fatal line
    [database unreachable at startup]. *)
Theorem startup_health_check_is_late {T TA} (load_anchor : Environment -> St T TA) hydrated listen :
  (exists e, start_production load_anchor hydrated listen None = (None, Rejected e)) /\
  forall s code why, (start_production load_anchor hydrated listen s).2 <> ExitCode code why.
Proof. split; [apply production_unreachable|intros; apply production_no_fatal]. Qed.

(** The anchor of the environment, as [loadTrustAnchor(db)] reads it. *)
Section anchor.
Context (certificateFromPem : string -> res Certificate) (certificateToPem : Certificate -> string).
Context (publicKeyFromPem : string -> res string) (tbsDer : Tbs -> string).
Context {Priv Pub : Type} (public_of : Priv -> Pub) (rsa_sign : Priv -> string -> string).
Context (publicKeyToPem : Pub -> string) (privateKeyToPem : Priv -> string) (privateKeyFromPem : string -> res Priv).
Context (kms : string -> res string * (string -> res string)) (gen : Priv) (fresh : string) (now : Date).

Definition env_anchor (env : Environment) : St (AnchorTable * IssuerTable) TrustAnchor :=
  loadTrustAnchor certificateFromPem certificateToPem publicKeyFromPem tbsDer public_of rsa_sign publicKeyToPem
    privateKeyToPem privateKeyFromPem (env !! "AWS_KMS_INTERMEDIATE_KEY_ID") (env !! "TRUST_ANCHOR_SUBJECT") kms gen fresh now.

(** Also: nothing refuses the development certificate authority in production.  Without
    AWS_KMS_INTERMEDIATE_KEY_ID a control plane that listens, under NODE_ENV=production
    as under any other, has loaded the shared development CA. *)
Theorem production_accepts_development_ca env listen s s' name host port :
  env !! "AWS_KMS_INTERMEDIATE_KEY_ID" = None ->
  start_production env_anchor (Ok env) listen s = (s', Listening name host port) ->
  exists t t' ta keys, s = Some t /\ s' = Some t' /\ env_anchor env t = (t', Ok ta) /\
    ta.(ta_mode) = DEVELOPMENT_SHARED_CA keys /\ ta.(ta_keyReference) = "trust-anchor".
Proof.
  intros K St. apply production_listening in St as (env' & config & t & t' & ta & [= <-] & _ & -> & -> & L & _).
  exists t, t', ta. pose proof L as L'. unfold env_anchor, loadTrustAnchor in L. rewrite K in L. cbn [when_truthy truthy_opt] in L.
  apply bind_inv_ok in L as (t1 & an & _ & L). destruct (importPrivateKeyPem _ _ _ _ _ _) as [keys r] eqn:I.
  apply bind_inv_ok in L as (t2 & x & _ & L). apply bind_inv_ok in L as (t3 & id & _ & L).
  injection L as _ <-. exists keys. by split_and!.
Qed.
End anchor.

Section cli_proofs.
Context (sha256 : string -> string) {X : Type} (run_sql : string -> St X unit).

(** Also: the migration command.  Once the environment is valid and the directory is read,
    it closes the database whatever happens; [status] changes nothing, exits with 0 and
    prints one line per script; every other word, and none, applies the migrations: it
    exits with 0 when they are applied, after which every script is on record under its
    checksum, and with 1 when one fails, after which schema and record are as before. *)
Theorem migrate_cli_outcome env files dir fs command s :
  is_ok (loadConfig (read_env env)) = true -> files (default "db" dir) = Ok fs ->
  Forall (fun m => m.(mg_checksum) <> "") (loadMigrations sha256 fs) ->
  exists s' c, migrate_cli sha256 run_sql (Ok env) files dir command s = (s', Ok c) /\ c.(cli_closed) = true /\
    (command = Some "status" -> s' = s /\ c.(cli_exit) = 0 /\ length c.(cli_lines) = length (loadMigrations sha256 fs)) /\
    (command <> Some "status" ->
      (c.(cli_exit) = 1 /\ s' = s) \/
      (c.(cli_exit) = 0 /\
       Forall (fun m => exists t, recorded m.(mg_name) s' = Some (m.(mg_checksum), t)) (loadMigrations sha256 fs))).
Proof.
  intros C F N. unfold migrate_cli, boot_config. destruct (loadConfig (read_env env)) as [cfg|]; [|done]. rewrite F.
  assert (String.eqb (default "up" command) "status" = true <-> command = Some "status") as D.
  { rewrite String.eqb_eq. destruct command; cbn; [|done]. split; congruence. }
  destruct (String.eqb (default "up" command) "status").
  - eexists _, _. split; [done|]. cbn. split_and!; [done| |by intros []; apply D].
    intros _. split_and!; [done..|]. unfold migration_status. by rewrite !length_map.
  - assert (command <> Some "status") as D' by (intros ?%D; done).
    destruct (migrate run_sql (loadMigrations sha256 fs) s) as [s' [result|e]] eqn:M; eexists _, _; (split; [done|]);
      cbn; (split_and!; [done|done|intros _]).
    + right. split; [done|]. unfold migrate in M. apply (proj1 (transaction_ok _ _ _ _)) in M.
      change (mbind ?k (gets ?g) s) with (k (g s) s) in M. cbn beta in M.
      by apply (apply_all_records run_sql s) in M as [_ ?]; [|done|by intros ? ?].
    + left. split; [done|]. by apply transaction_throw in M.
Qed.
End cli_proofs.

(** ** Instances *)

Definition production_env : Environment :=
  list_to_map (omap (fun k => (fun v => (k, v)) <$> sample_env k)
    ["NODE_ENV"; "ATTESTATION_PROVIDER"; "CONTROL_API_TOKEN_SECRET"; "EVENT_SIGNING_SECRET"; "OOB_SHARED_SECRET";
     "DIAGNOSTICS_SHARED_SECRET"; "HEADQUARTERS_SHARED_SECRET"; "CLOUD_DEPLOYMENT_SHARED_SECRET";
     "INTEGRATION_SHARED_SECRET"; "PORT"]).

Definition no_anchor (_ : Environment) : St unit unit := mret tt.

Lemma production_deployment_witness :
  exists config, loadConfig (read_env production_env) = Ok config /\ environment config = "production" /\
    exists oobHost oobPort serverSecret, start_oob (Ok production_env) (Ok tt) =
       (Listening "bapc-oob-controller" oobHost oobPort, Some serverSecret) /\
       forall header, authorized serverSecret header = true <-> header = bearer (oobSharedSecret config).
Proof.
  destruct (start_production no_anchor (Ok production_env) (Ok tt) (Some tt)) as [s' out] eqn:E.
  destruct out as [name host port|code why|e]; [|vm_compute in E; discriminate E..].
  destruct (@production_deployment code_point_collation unit unit no_anchor (fun _ => Ok JNull) (fun _ => Ok None)
    (fun _ _ _ => Ok true) production_env (Some tt) s' name host port) as (config & C & P & _ & O & _).
  - vm_compute. reflexivity.
  - exact E.
  - exists config. split; [exact C|]. split; [exact P|exact O].
Defined.

(** A word that is no command applies the migrations. *)
Lemma migrate_cli_outcome_witness :
  let run_sql (sql : string) : St (list string) unit := fun x => (x ++ [sql], Ok tt) in
  let files (_ : string) := Ok [("002_b.sql", "B"); ("001_a.sql", "A")] in
  exists s' c, migrate_cli (fun s => s) run_sql (Ok ∅) files None (Some "stauts") (mkMigratedDb [] [] 0) = (s', Ok c) /\
    c.(cli_closed) = true /\ s'.(mg_schema) = ["A"; "B"] /\
    ((c.(cli_exit) = 1 /\ s' = mkMigratedDb [] [] 0) \/ (c.(cli_exit) = 0 /\
      Forall (fun m => exists t, recorded m.(mg_name) s' = Some (m.(mg_checksum), t))
        (loadMigrations (fun s => s) [("002_b.sql", "B"); ("001_a.sql", "A")]))).
Proof.
  intros run_sql files.
  destruct (migrate_cli_outcome (fun s => s) run_sql ∅ files None [("002_b.sql", "B"); ("001_a.sql", "A")] (Some "stauts")
    (mkMigratedDb [] [] 0)) as (s' & c & E & Cl & _ & H).
  - vm_compute. reflexivity.
  - reflexivity.
  - repeat constructor; discriminate.
  - exists s', c. split; [exact E|]. split; [exact Cl|]. split; [|apply H; discriminate].
    apply (f_equal fst) in E. cbn [fst] in E. rewrite <- E. vm_compute. reflexivity.
Defined.
