(* ===== verification/WireGuardKeys.v ===== *)
(** * WireGuard key pairs

    [generateWireGuardKeyPair] ([src/native/shared/wireguard-keys.ts]), which enrollment
    and the agent's rotation call, against the check of the Linux adapter
    ([WG_KEY_RE], [src/native/linux/adapter.ts]).  [generateKeyPairSync("x25519")] gives
    two raw keys of 32 bytes, which the JWK export writes in base64url without padding.
    The two encodings are those of RFC 4648; a byte is a number from 0 to 255. *)

From S2P Require Import Prelude Json Text Domain Words Database Mesh Enrollment Native Enroll.
Open Scope Z_scope.

(** [lia] reads divisions by constants. *)
#[local] Ltac Zify.zify_post_hook ::= Z.div_mod_to_equations.

(** ** Base64 *)

(** Six bits at a time; a group that is not full is filled with zero bits. *)
Fixpoint sextets (l : list Z) : list Z :=
  match l with
  | a :: b :: c :: l' => a / 4 :: a mod 4 * 16 + b / 16 :: b mod 16 * 4 + c / 64 :: c mod 64 :: sextets l'
  | [a; b] => [a / 4; a mod 4 * 16 + b / 16; b mod 16 * 4]
  | [a] => [a / 4; a mod 4 * 16]
  | [] => []
  end.
Fixpoint octets (l : list Z) : list Z :=
  match l with
  | v :: w :: x :: y :: l' => v * 4 + w / 16 :: w mod 16 * 16 + x / 4 :: x mod 4 * 64 + y :: octets l'
  | [v; w; x] => [v * 4 + w / 16; w mod 16 * 16 + x / 4]
  | [v; w] => [v * 4 + w / 16]
  | _ => []
  end.

Definition digit_char (plus slash : ascii) (v : Z) : ascii :=
  if v <? 26 then ascii_of_nat (Z.to_nat (65 + v))
  else if v <? 52 then ascii_of_nat (Z.to_nat (71 + v))
  else if v <? 62 then ascii_of_nat (Z.to_nat (v - 4))
  else if v =? 62 then plus else slash.

(** The decoder of [Buffer] takes both alphabets. *)
Definition char_digit (c : ascii) : option Z :=
  let n := Z.of_nat (nat_of_ascii c) in
  if char_between 65 90 c then Some (n - 65)
  else if char_between 97 122 c then Some (n - 71)
  else if char_between 48 57 c then Some (n + 4)
  else if in_chars "+-" c then Some 62
  else if in_chars "/_" c then Some 63
  else None.

Definition padding (l : list Z) : list ascii :=
  match (length l mod 3)%nat with 1%nat => ["="; "="]%char | 2%nat => ["="]%char | _ => [] end.

(** [buffer.toString("base64")] and the [x] of a JWK *)
Definition to_base64 (l : list Z) : string :=
  string_of_list_ascii (map (digit_char "+" "/") (sextets l) ++ padding l).
Definition to_base64url (l : list Z) : string := string_of_list_ascii (map (digit_char "-" "_") (sextets l)).

(** [Buffer.from(s, "base64url")]: up to the first [=], other characters are skipped. *)
Fixpoint digits_of (l : list ascii) : list Z :=
  match l with
  | [] => []
  | c :: l' => if Ascii.eqb c "=" then [] else match char_digit c with Some v => v :: digits_of l' | None => digits_of l' end
  end.
Definition from_base64 (s : string) : list Z := octets (digits_of (list_ascii_of_string s)).

(** ** [generateWireGuardKeyPair] *)

Record KeyPair := mkKeyPair { kp_privateKey : string; kp_publicKey : string }.

(** [x] and [d] are the members of the exported JWKs. *)
Definition generateWireGuardKeyPair (x d : string) : KeyPair :=
  mkKeyPair (to_base64 (from_base64 d)) (to_base64 (from_base64 x)).

(** ** Digits and bytes *)

Definition byte (b : Z) : Prop := 0 <= b < 256.
Definition digit (v : Z) : Prop := 0 <= v < 64.

Lemma group_ind (P : list Z -> Prop) :
  P [] -> (forall a, P [a]) -> (forall a b, P [a; b]) -> (forall a b c l, P l -> P (a :: b :: c :: l)) -> forall l, P l.
Proof.
  intros H0 H1 H2 H3 l. induction l as [l IH] using (induction_ltof1 _ length). unfold ltof in IH.
  destruct l as [|a [|b [|c l]]]; auto. apply H3, IH. cbn. lia.
Qed.

Lemma sextets_digits l : Forall byte l -> Forall digit (sextets l).
Proof.
  unfold byte, digit. induction l as [|a|a b|a b c l IH] using group_ind; intros F; decompose_Forall_hyps; cbn;
    repeat constructor; try lia. by apply IH.
Qed.

Lemma octets_sextets l : Forall byte l -> octets (sextets l) = l.
Proof.
  unfold byte. induction l as [|a|a b|a b c l IH] using group_ind; intros F; decompose_Forall_hyps; cbn; [done| | |];
    repeat f_equal; try lia. by apply IH.
Qed.

Lemma length_sextets_32 l : length l = 32%nat -> length (sextets l) = 43%nat.
Proof. intros L. do 32 (destruct l as [|? l]; [discriminate L|]). destruct l; [done|discriminate L]. Qed.

(** Digits that stand for full bytes and two more: the last one ends in zero bits. *)
Lemma sextets_octets n : forall vs w, length vs = (4 * n + 2)%nat -> Forall digit vs -> digit w -> w mod 4 = 0 ->
  sextets (octets (vs ++ [w])) = vs ++ [w] /\ length (octets (vs ++ [w])) = (3 * n + 2)%nat /\ Forall byte (octets (vs ++ [w])).
Proof.
  unfold digit, byte. induction n as [|n IH]; intros vs w L F D Z.
  - destruct vs as [|a [|b [|]]]; try discriminate L. decompose_Forall_hyps.
    split_and!; [repeat f_equal; lia|done|repeat constructor; lia].
  - destruct vs as [|a [|b [|c [|d vs]]]]; cbn in L; try lia. decompose_Forall_hyps.
    destruct (IH vs w) as (E & Ln & B); [lia|done..|]. split_and!.
    + cbn. rewrite E. repeat f_equal; lia.
    + cbn. rewrite Ln. lia.
    + cbn. repeat constructor; [lia..|exact B].
Qed.

Lemma digit_checked (p : Z -> bool) : forallb p (seqZ 0 64) = true -> forall v, digit v -> p v = true.
Proof.
  rewrite forallb_Forall, Forall_forall. intros F v D. apply F, elem_of_seqZ. unfold digit in D. lia.
Qed.

Definition reads_as (v : Z) (c : ascii) : bool :=
  match char_digit c with Some w => w =? v | None => false end && negb (Ascii.eqb c "=").

Lemma reads_as_spec v c : reads_as v c = true -> char_digit c = Some v /\ Ascii.eqb c "=" = false.
Proof.
  unfold reads_as. rewrite andb_true_iff, negb_true_iff. intros [E ?]. split; [|done].
  destruct (char_digit c) as [w|]; [|done]. apply Z.eqb_eq in E. by subst.
Qed.

Lemma digit_char_digit v : digit v ->
  char_digit (digit_char "+" "/" v) = Some v /\ char_digit (digit_char "-" "_" v) = Some v /\
  Ascii.eqb (digit_char "+" "/" v) "=" = false /\ Ascii.eqb (digit_char "-" "_" v) "=" = false /\
  base64_char (digit_char "+" "/" v) = true /\
  (v mod 4 = 0 -> in_chars "AEIMQUYcgkosw048" (digit_char "+" "/" v) = true).
Proof.
  intros D.
  assert (forallb (fun v => reads_as v (digit_char "+" "/" v) && reads_as v (digit_char "-" "_" v)
    && base64_char (digit_char "+" "/" v)
    && implb (v mod 4 =? 0) (in_chars "AEIMQUYcgkosw048" (digit_char "+" "/" v))) (seqZ 0 64) = true) as C
    by (vm_compute; reflexivity).
  pose proof (digit_checked _ C v D) as H. cbv beta in H. rewrite !andb_true_iff in H.
  destruct H as [[[[? ?]%reads_as_spec [? ?]%reads_as_spec] ?] I].
  split_and!; [done..|]. intros E. rewrite E in I. done.
Qed.

Lemma char_digit_char c : base64_char c = true -> exists v, digit v /\ digit_char "+" "/" v = c /\
  (in_chars "AEIMQUYcgkosw048" c = true -> v mod 4 = 0).
Proof.
  intros B. assert (match char_digit c with
    | Some v => (0 <=? v) && (v <? 64) && Ascii.eqb (digit_char "+" "/" v) c && implb (in_chars "AEIMQUYcgkosw048" c) (v mod 4 =? 0)
    | None => false end = true) as H.
  { revert B. destruct c as [[] [] [] [] [] [] [] []]; vm_compute; congruence. }
  destruct (char_digit c) as [v|]; [|done]. exists v. rewrite !andb_true_iff, Z.leb_le, Z.ltb_lt, Ascii.eqb_eq in H.
  destruct H as [[[? ?] ?] I]. split_and!; [done..|]. intros E. rewrite E in I. by apply Z.eqb_eq.
Qed.

Lemma pad_char_base64 c : in_chars "AEIMQUYcgkosw048" c = true -> base64_char c = true.
Proof. destruct c as [[] [] [] [] [] [] [] []]; vm_compute; congruence. Qed.

Lemma digits_of_map plus slash vs rest :
  (forall v, v ∈ vs -> char_digit (digit_char plus slash v) = Some v /\ Ascii.eqb (digit_char plus slash v) "=" = false) ->
  digits_of (map (digit_char plus slash) vs ++ rest) = vs ++ digits_of rest.
Proof.
  induction vs as [|v vs IH]; intros H; [done|]. cbn. destruct (H v) as [E N]; [left|]. rewrite N, E. f_equal. apply IH.
  intros w Hw. apply H. by right.
Qed.

Lemma from_to_base64url l : Forall byte l -> from_base64 (to_base64url l) = l.
Proof.
  intros F. unfold from_base64, to_base64url. rewrite list_ascii_of_string_of_list_ascii.
  rewrite <- (app_nil_r (map _ _)), digits_of_map.
  - cbn. rewrite app_nil_r. by apply octets_sextets.
  - intros v Hv. pose proof (sextets_digits l F) as D. rewrite Forall_forall in D.
    destruct (digit_char_digit v (D v Hv)) as (_ & ? & _ & ? & _). done.
Qed.

Lemma from_to_base64 l : Forall byte l -> from_base64 (to_base64 l) = l.
Proof.
  intros F. unfold from_base64, to_base64. rewrite list_ascii_of_string_of_list_ascii, digits_of_map.
  - assert (digits_of (padding l) = []) as ->.
    { unfold padding. by destruct (length l mod 3)%nat as [|[|[|]]]. }
    rewrite app_nil_r. by apply octets_sextets.
  - intros v Hv. pose proof (sextets_digits l F) as D. rewrite Forall_forall in D.
    destruct (digit_char_digit v (D v Hv)) as (? & _ & ? & _). done.
Qed.

(** ** The adapter's check, on characters *)

Lemma all_chars_list f s : all_chars f s = forallb f (list_ascii_of_string s).
Proof. induction s as [|c s IH]; [done|]. cbn. by rewrite IH. Qed.

Lemma substring_list n m s :
  String.substring n m s = string_of_list_ascii (take m (drop n (list_ascii_of_string s))).
Proof.
  revert n m; induction s as [|c s IH]; intros [|n] [|m]; cbn; try done; rewrite IH; by rewrite ?drop_0.
Qed.

Lemma get_list n s : String.get n s = list_ascii_of_string s !! n.
Proof. revert n; induction s as [|c s IH]; intros [|n]; cbn; auto. Qed.

Lemma length_list s : String.length s = length (list_ascii_of_string s).
Proof. induction s as [|c s IH]; [done|]. cbn. by rewrite IH. Qed.

Lemma wg_key_chars k : WG_KEY_RE k = true <-> exists cs c, length cs = 42%nat /\
  Forall (fun c => base64_char c = true) cs /\ in_chars "AEIMQUYcgkosw048" c = true /\
  k = string_of_list_ascii (cs ++ [c; "="%char]).
Proof.
  unfold WG_KEY_RE. rewrite !andb_true_iff, Nat.eqb_eq, length_list, all_chars_list, get_list, !substring_list, String.eqb_eq.
  rewrite !list_ascii_of_string_of_list_ascii, drop_0, forallb_Forall. split.
  - intros [[[L F] C] E]. set (l := list_ascii_of_string k) in *.
    destruct (l !! 42%nat) as [c|] eqn:G; [|done]. exists (take 42 l), c.
    split_and!; [rewrite length_take; lia|done..|].
    rewrite <- (string_of_list_ascii_of_string k). fold l. f_equal.
    rewrite <- (take_drop_middle l 42 c G) at 1. do 2 f_equal.
    apply (f_equal list_ascii_of_string) in E. rewrite list_ascii_of_string_of_list_ascii in E. cbn in E. rewrite <- E.
    symmetry. apply take_ge. rewrite length_drop. lia.
  - intros (cs & c & L & F & C & ->). rewrite list_ascii_of_string_of_list_ascii, length_app, L.
    replace 42%nat with (length cs) by done. rewrite take_app_length, lookup_app_r, Nat.sub_diag by done. cbn.
    split_and!; [lia|done..|]. rewrite L. change 43%nat with (42 + 1)%nat. rewrite <- L, drop_app_add. done.
Qed.

Lemma to_base64_key l : length l = 32%nat -> Forall byte l -> WG_KEY_RE (to_base64 l) = true.
Proof.
  intros L F. apply wg_key_chars. pose proof (length_sextets_32 l L) as L'. pose proof (sextets_digits l F) as D.
  destruct (sextets l) as [|w vs _] eqn:E using rev_ind; [discriminate L'|].
  rewrite length_app in L'. cbn in L'. apply Forall_app in D as [D Dw]. rewrite Forall_singleton in Dw.
  assert (w mod 4 = 0) as M.
  { clear -L F E. do 32 (destruct l as [|? l]; [discriminate L|]). destruct l; [|discriminate L].
    apply (f_equal last) in E. rewrite last_snoc in E. cbn in E. injection E as <-. lia. }
  exists (map (digit_char "+" "/") vs), (digit_char "+" "/" w). split_and!.
  - rewrite length_map. lia.
  - apply Forall_map. eapply Forall_impl; [exact D|]. intros v Dv. by destruct (digit_char_digit v Dv) as (_ & _ & _ & _ & ? & _).
  - destruct (digit_char_digit w Dw) as (_ & _ & _ & _ & _ & H). by apply H.
  - unfold to_base64, padding. rewrite L, E, map_app, <- app_assoc. done.
Qed.

Lemma key_to_base64 k : WG_KEY_RE k = true -> exists l, length l = 32%nat /\ Forall byte l /\ k = to_base64 l.
Proof.
  intros (cs & c & L & F & C & ->)%wg_key_chars.
  destruct (char_digit_char c (pad_char_base64 c C)) as (w & Dw & Ew & Mw). specialize (Mw C).
  assert (exists vs, map (digit_char "+" "/") vs = cs /\ Forall digit vs) as (vs & <- & Dv).
  { clear -F. induction F as [|x cs (v & D & E & _)%char_digit_char _ (vs & Es & Ds)]; [by exists []|].
    exists (v :: vs). cbn. rewrite E, Es. split; [done|by constructor]. }
  rewrite length_map in L. destruct (sextets_octets 10 vs w L Dv Dw Mw) as (E & Lo & B).
  exists (octets (vs ++ [w])). split_and!; [done..|].
  unfold to_base64, padding. rewrite Lo, E, map_app, <- app_assoc. cbn [map app]. by rewrite Ew.
Qed.

(** ** The properties *)

(** C23: the adapter's check of a WireGuard key is exact: a text passes [WG_KEY_RE] if and
    only if it is the base64 form of 32 bytes, and then it is the form of only one such
    key, the one decoding gives back. *)
Theorem wg_key_check_exact k :
  WG_KEY_RE k = true <->
  exists l, length l = 32%nat /\ Forall byte l /\ k = to_base64 l /\ from_base64 k = l.
Proof.
  split.
  - intros (l & L & F & ->)%key_to_base64. exists l. split_and!; [done..|by apply from_to_base64].
  - intros (l & L & F & -> & _). by apply to_base64_key.
Qed.

(** C38: the keys a node generates are keys its adapter takes.  From the JWK members of
    two raw 32-byte keys the pair holds their base64 forms, both pass [WG_KEY_RE], and
    both decode to the raw keys. *)
Theorem generated_keys_usable raw_public raw_private :
  length raw_public = 32%nat -> length raw_private = 32%nat -> Forall byte raw_public -> Forall byte raw_private ->
  let kp := generateWireGuardKeyPair (to_base64url raw_public) (to_base64url raw_private) in
  WG_KEY_RE kp.(kp_publicKey) = true /\ WG_KEY_RE kp.(kp_privateKey) = true /\
  from_base64 kp.(kp_publicKey) = raw_public /\ from_base64 kp.(kp_privateKey) = raw_private.
Proof.
  intros L1 L2 F1 F2. unfold generateWireGuardKeyPair. cbn [kp_publicKey kp_privateKey].
  rewrite !from_to_base64url by done. split_and!; auto using to_base64_key, from_to_base64.
Qed.

Lemma generated_keys_usable_witness :
  WG_KEY_RE (kp_publicKey (generateWireGuardKeyPair (to_base64url (seqZ 200 32)) (to_base64url (seqZ 200 32)))) = true.
Proof.
  assert (Forall byte (seqZ 200 32)) as F.
  { apply Forall_forall. intros b Hb. apply elem_of_seqZ in Hb. unfold byte. lia. }
  destruct (generated_keys_usable (seqZ 200 32) (seqZ 200 32) eq_refl eq_refl F F) as [H _]. exact H.
Defined.

Example wg_key_sample : to_base64 (seqZ 0 32) = "AAECAwQFBgcICQoLDA0ODxAREhMUFRYXGBkaGxwdHh8=".
Proof. vm_compute. reflexivity. Qed.
