(* ===== verification/RolloutLiveness.v ===== *)
(** * A rollout the fleet answers is committed

    The converse of the verification of [SafeApply], over the Postgres store
    ([src/src/application/safe-apply.ts], [src/src/infrastructure/pg-rollout-store.ts]):
    when every targeted node has acknowledged the staged rules before the window ends and
    the control plane's database answers, [apply] returns COMMITTED. *)

From S2P Require Import Prelude Json Text Domain Database Repositories CommandQueue Enforcer Rollout SafeApply.
Open Scope Z_scope.

Section liveness.
Context (cfg : SafeApplyConfig) (env : Env Db) (c : string) (ids : list string).

(** No acknowledgement of the commit reports a failure; every target has one. *)
Definition none_failed (db : Db) : Prop := forall k, k ∈ pg_acks c db -> k.(k_status) = "SUCCEEDED".
Definition fleet_answered (db : Db) : Prop := forall n, n ∈ ids -> exists k, k ∈ pg_acks c db /\ k.(k_node) = n.

(** The database at the start of round [i]: each round the rest of the system acts,
    then the records are refreshed. *)
Fixpoint at_round (i : nat) (s : Db) : Db :=
  match i with
  | O => s
  | S j => (pg_refresh c (world env j (at_round j s))).1
  end.

Definition on_course (db : Db) : Prop := forall r, r ∈ pg_summary c db -> r.(rr_status) = PENDING \/ r.(rr_status) = SUCCEEDED.

Lemma fold_acks_on_course acks r :
  Forall (fun k => k.(k_status) = "SUCCEEDED") acks -> r.(ro_status) = PENDING \/ r.(ro_status) = SUCCEEDED ->
  let r' := foldl (fun r k => apply_ack c k r) r acks in r'.(ro_status) = PENDING \/ r'.(ro_status) = SUCCEEDED.
Proof.
  intros F. revert r; induction F as [|k acks Hk _ IH]; intros r Hr; [done|]. apply IH.
  unfold apply_ack. destruct (_ && _); [|done]. cbn. rewrite Hk. by right.
Qed.

Lemma refresh_on_course db : none_failed db -> on_course db -> on_course (pg_refresh c db).1.
Proof.
  intros N G r. rewrite pg_refresh_run. cbn [fst]. rewrite pg_summary_map by (intros; apply fold_acks_commit).
  intros (q & -> & Hq)%elem_of_List_map. cbn. apply fold_acks_on_course; [by apply Forall_forall|].
  apply (G (record_of q)). unfold pg_summary. apply elem_of_List_map. by exists q.
Qed.

Lemma on_course_no_reason db (n : nat) : (0 <= nodeFailureThreshold cfg)%Q -> on_course db ->
  failureReason cfg (pg_summary c db) n false = None.
Proof.
  intros T G. unfold failureReason. destruct (n =? 0)%nat eqn:E; [done|].
  assert (List.filter (is_bad false) (pg_summary c db) = []) as ->.
  { destruct (List.filter _ _) as [|r l] eqn:F; [done|]. exfalso.
    assert (r ∈ List.filter (is_bad false) (pg_summary c db)) as [Hr B]%elem_of_List_filter by (rewrite F; left).
    unfold is_bad in B. by destruct (G r Hr) as [E' | E']; rewrite E' in B. }
  cbn [length]. enough (Qle_bool (inject_Z (Z.of_nat 0) / inject_Z (Z.of_nat n)) (nodeFailureThreshold cfg) = true) as -> by done.
  apply Qle_bool_iff. change (inject_Z (Z.of_nat 0)) with 0%Q. unfold Qdiv. by rewrite Qmult_0_l.
Qed.

(** When all have answered, no record is pending after the refresh. *)
Lemma refresh_answered db : fleet_answered db -> tracked (S := Db) c ids db ->
  forallb is_terminal (pg_summary c (pg_refresh c db).1) = true.
Proof.
  intros A T. apply forallb_Forall, Forall_forall. intros r Hr. unfold is_terminal. apply negb_true_iff, bool_decide_eq_false.
  rewrite pg_refresh_run in Hr. cbn [fst] in Hr. rewrite pg_summary_map in Hr by (intros; apply fold_acks_commit).
  apply elem_of_List_map in Hr as (q & -> & Hq). cbn.
  destruct (A (ro_node q)) as (k & Hk & En).
  { apply T. cbn. unfold pg_summary. rewrite map_map. apply elem_of_List_map. by exists q. }
  by apply (fold_acks_pending c _ q k); [eapply elem_of_commit_rows| |].
Qed.

Definition all_succeeded (db : Db) : Prop := forall r, r ∈ pg_summary c db -> r.(rr_status) = SUCCEEDED.

Lemma terminal_succeeded db : on_course db -> forallb is_terminal (pg_summary c db) = true -> all_succeeded db.
Proof.
  intros G T r Hr. rewrite forallb_Forall, Forall_forall in T. specialize (T r Hr). unfold is_terminal in T. bools.
  by destruct (G r Hr).
Qed.

Context (d : Z) (last_round : nat) (s0 : Db).
Context (threshold_ok : (0 <= nodeFailureThreshold cfg)%Q).
Context (in_time : forall j, (j <= last_round)%nat -> clock env (3 * j + 1) < d).
Context (healthy_probe : forall j, (j <= last_round)%nat -> race (probe env j) = Ok true).
Context (quiet_world : forall j db, pg_summary c (world env j db) = pg_summary c db).
Context (no_failure : forall j, (j <= last_round)%nat -> none_failed (world env j (at_round j s0))).
Context (answered : fleet_answered (world env last_round (at_round last_round s0))).

Lemma on_course_world j db : on_course db -> on_course (world env j db).
Proof. unfold on_course. by rewrite quiet_world. Qed.

Lemma tracked_world j db : tracked (S := Db) c ids db -> tracked (S := Db) c ids (world env j db).
Proof. unfold tracked. cbn. by rewrite quiet_world. Qed.

Lemma tracked_refresh db : tracked (S := Db) c ids db -> on_course db -> tracked (S := Db) c ids (pg_refresh c db).1.
Proof.
  intros T G. pose proof (refresh_law (S := Db) c db) as F. cbn [refresh PgRolloutStore summary] in F.
  rewrite pg_refresh_run in F |- *. destruct F as [_ F]. cbn [fst].
  eapply refresh_tracked; [exact F|exact T|]. intros r Hr. destruct (G r Hr); auto.
Qed.

Lemma no_targets_commit fuel s : ids = [] -> tracked (S := Db) c ids s ->
  exists s', waitForOutcome (S := Db) cfg env (S fuel) 0 c ids (Some d) s = Some (s', Ok None) /\ all_succeeded s'.
Proof.
  intros -> T. cbn [waitForOutcome before]. rewrite (proj2 (Z.ltb_lt _ _)) by (apply (in_time 0); lia).
  rewrite healthy_probe by lia. exists (world env 0 s). split; [done|]. intros r Hr. exfalso.
  unfold all_succeeded in *. rewrite quiet_world in Hr.
  assert (rr_node r ∈ ([] : list string)) as Hn; [|inversion Hn]. apply T. apply elem_of_List_map. by exists r.
Qed.

Lemma refresh_summary db : pg_refresh c db = ((pg_refresh c db).1, Ok (pg_summary c (pg_refresh c db).1)).
Proof. by rewrite pg_refresh_run. Qed.

(** One round with targets, the world having acted. *)
Lemma round_step fuel j s : ids <> [] -> (j <= last_round)%nat -> s = at_round j s0 -> on_course s ->
  waitForOutcome (S := Db) cfg env (S fuel) j c ids (Some d) s =
  if forallb is_terminal (pg_summary c (at_round (S j) s0)) then Some (at_round (S j) s0, Ok None)
  else waitForOutcome (S := Db) cfg env fuel (S j) c ids (Some d) (at_round (S j) s0).
Proof.
  intros N Hj -> G. cbn [waitForOutcome before]. rewrite (proj2 (Z.ltb_lt _ _)) by (by apply in_time).
  rewrite healthy_probe by done. destruct ids as [|n ns] eqn:Ei; [done|]. rewrite <- Ei in *.
  cbn [refresh PgRolloutStore]. rewrite refresh_summary. change (pg_refresh c (world env j (at_round j s0))).1 with (at_round (S j) s0).
  rewrite on_course_no_reason; [|done|apply refresh_on_course; [by apply no_failure|by apply on_course_world]].
  rewrite Ei. cbn [length Nat.eqb orb]. done.
Qed.

Lemma wait_commits k : forall j fuel s, ids <> [] -> (j + k = last_round)%nat -> (k < fuel)%nat -> s = at_round j s0 ->
  tracked (S := Db) c ids s -> on_course s ->
  exists s', waitForOutcome (S := Db) cfg env fuel j c ids (Some d) s = Some (s', Ok None) /\ all_succeeded s'.
Proof.
  induction k as [|k IH]; intros j [|fuel] s N Hj Hf Es T G; [lia| |lia|]; rewrite (round_step fuel j s) by (done || lia).
  all: assert (on_course (at_round (S j) s0)) as G2
    by (cbn; rewrite <- Es; apply refresh_on_course; [rewrite Es; apply no_failure; lia|by apply on_course_world]).
  all: destruct (forallb is_terminal _) eqn:E; [exists (at_round (S j) s0); split; [done|by apply terminal_succeeded]|].
  - exfalso. assert (j = last_round) as -> by lia. cbn in E.
    rewrite refresh_answered in E; [done|exact answered|]. rewrite <- Es. by apply tracked_world.
  - apply IH; [done|lia|lia|done| |done]. cbn. rewrite <- Es. apply tracked_refresh; [by apply tracked_world|by apply on_course_world].
Qed.

Lemma wait_succeeds fuel : (last_round < fuel)%nat -> tracked (S := Db) c ids s0 -> on_course s0 ->
  exists s', waitForOutcome (S := Db) cfg env fuel 0 c ids (Some d) s0 = Some (s', Ok None) /\ all_succeeded s'.
Proof.
  intros F T G. destruct (decide (ids = [])) as [E|N].
  - destruct fuel; [lia|]. by apply no_targets_commit.
  - by apply (wait_commits last_round).
Qed.
End liveness.

(** What staging leaves: every target with a pending record. *)
Lemma prepare_pending sha256 now c at_ policies timeoutMs by_ s s1 ids :
  pg_summary c s = [] -> @prepare Db PgRolloutStore (pg_ports sha256 now) c at_ policies timeoutMs by_ s = (s1, Ok ids) ->
  @tracked Db PgRolloutStore c ids s1 /\ on_course c s1.
Proof.
  intros Nil E. unfold prepare in E. apply bind_inv_ok in E as (sa & ids' & Ea & E).
  apply bind_inv_ok in E as (sb & [] & Eb & E). apply bind_inv_ok in E as (sc & [] & Ec & E). injection E as <- <-.
  pose proof (@frame_stage Db PgRolloutStore (pg_ports sha256 now) (pg_ports_frame sha256 now) c c policies by_ s) as Fr.
  rewrite Ea in Fr. cbn in Fr. rewrite Nil in Fr.
  destruct (@start_law Db PgRolloutStore pg_rollout_laws c ids' sa sb Fr Eb) as (_ & P & Q). cbn [summary PgRolloutStore] in P, Q.
  assert (pg_summary c sc = pg_summary c sb) as S by (injection Ec as <-; done).
  split; [intros n; cbn; rewrite S; apply Q|]. intros r Hr. rewrite S in Hr. left. by apply P.
Qed.

(** ** The property *)

(** C4: a rollout the fleet answers is committed.  Suppose the rules are staged and the
    targets recorded, and in some round before the end of the window every targeted node
    has acknowledged the rules with success, while up to that round no acknowledgement
    of the commit is a failure and the database answers the probe.  Then, whatever the
    tolerated fraction of failures, [apply] returns COMMITTED, every record says
    SUCCEEDED, and one round per poll up to that one is fuel enough. *)
Theorem answered_rollout_commits sha256 now cfg env fuel c at_ policies t by_ s s1 ids i :
  (0 <= nodeFailureThreshold cfg)%Q -> pg_summary c s = [] -> out_of_window (Some t) = false ->
  @prepare Db PgRolloutStore (pg_ports sha256 now) c at_ policies (Some t) by_ s = (s1, Ok ids) ->
  (forall j db, pg_summary c (world env j db) = pg_summary c db) ->
  (forall j, (j <= i)%nat -> clock env (3 * j + 1) < clock env 0 + t /\ race (probe env j) = Ok true /\
    none_failed c (world env j (at_round env c j s1))) ->
  fleet_answered c ids (world env i (at_round env c i s1)) -> (i < fuel)%nat ->
  exists s', @apply Db PgRolloutStore (pg_ports sha256 now) cfg env fuel c at_ policies (Some t) by_ s
      = Some (s', Ok (Committed c)) /\ all_succeeded c s'.
Proof.
  intros Th Nil W P Q R A F. destruct (prepare_pending _ _ _ _ _ _ _ _ _ _ Nil P) as [T G].
  destruct (wait_succeeds cfg env c ids (clock env 0 + t) i s1 Th) with (fuel := fuel) as (s2 & E & Al); try done;
    [intros j Hj; by apply R..|].
  unfold apply. rewrite W, P. cbn [fmap option_fmap option_map]. rewrite E. eexists. split; [reflexivity|].
  intros r Hr. by apply Al.
Qed.

Lemma answered_rollout_commits_witness :
  exists s', @apply Db PgRolloutStore (pg_ports (fun s => s) 0) sample_cfg (sample_env good_ack) 3 "c1" 0
      [sample_policy [443]] (Some 5000) None fleet_db = Some (s', Ok (Committed "c1")) /\ all_succeeded "c1" s'.
Proof.
  destruct (@prepare Db PgRolloutStore (pg_ports (fun s => s) 0) "c1" 0 [sample_policy [443]] (Some 5000) None fleet_db)
    as [s1 [ids|e]] eqn:P; [|vm_compute in P; discriminate P].
  apply (answered_rollout_commits (fun s => s) 0 sample_cfg (sample_env good_ack) 3 "c1" 0 [sample_policy [443]] 5000 None
    fleet_db s1 ids 0).
  - vm_compute. discriminate.
  - reflexivity.
  - reflexivity.
  - exact P.
  - intros j db. apply sample_world.
  - intros j Hj. assert (j = 0)%nat as -> by lia. split; [vm_compute; reflexivity|]. split; [reflexivity|].
    intros k Hk. vm_compute in P. injection P as <- <-. vm_compute in Hk.
    apply list_elem_of_singleton in Hk as ->. reflexivity.
  - intros n Hn. vm_compute in P. injection P as <- <-. apply list_elem_of_singleton in Hn as ->.
    eexists. split; [vm_compute; left|reflexivity].
  - lia.
Defined.
