(* ===== verification/HeartbeatRace.v ===== *)
(** * A heartbeat that overlaps a quarantine

    [HeartbeatService.accept] ([src/src/application/heartbeat.ts]) reads the
    device, waits for the answer, and writes the whole row back; nothing locks
    the row in between.  Here [accept] is cut at that [await]: [accept_begin] runs
    to the read, [accept_end] is the rest with the device it read.  Run back to
    back they are [accept]; with [ThreatResponseService.handle] between them the
    row the heartbeat writes is the one from before the quarantine. *)

From S2P Require Import Prelude Json Text Domain Database Repositories PolicyDecision CommandQueue Enforcer ThreatResponse.
Open Scope Z_scope.

(** [accept] up to the answer of [devices.get]. *)
Definition accept_begin (h : Heartbeat) (now : Date) : St Db Device :=
  let* node := gets (get_node h.(h_nodeId)) in
  match node with
  | None => throw (JsError "unregistered node")
  | Some node =>
      if 120000 <? Z.abs (now - h.(h_at)) then throw (JsError "stale heartbeat")
      else
        let* device := gets (get_device node.(deviceId)) in
        match device with None => throw (JsError "device missing") | Some device => mret device end
  end.

(** [accept] from [devices.save] on, with the device it has read. *)
Definition accept_end (h : Heartbeat) (device : Device) : St Db bool :=
  save (EDevice (with_heartbeat h device)) ;;;
  let ok := compliant h.(h_posture) in
  publish (if ok then "security.heartbeat.accepted" else "security.posture.failed")
    (JObj [("nodeId", JStr h.(h_nodeId)); ("agentVersion", JStr h.(h_agentVersion));
           ("compliant", JBool ok)]) ;;;
  mret ok.

(** The two halves are the whole. *)
Lemma accept_split h now db :
  accept h now db = (let* device := accept_begin h now in accept_end h device) db.
Proof.
  unfold accept, accept_begin, mbind, St_bind, gets. destruct (get_node (h_nodeId h) db) as [n|]; [|done].
  destruct (120000 <? Z.abs (now - h_at h)); [done|]. by destruct (get_device (deviceId n) db).
Qed.

(** What a save of the heartbeat leaves in the row depends on the device that was
    read, not on the row that is there. *)
Lemma accept_end_row h d db row :
  db.(devices) !! d.(d_id) = Some row ->
  exists db' d', accept_end h d db = (db', Ok (compliant h.(h_posture))) /\
    get_device d.(d_id) db' = Some d' /\
    d'.(compromised) = d.(compromised) /\ d'.(revoked) = d.(revoked) /\ d'.(posture) = h.(h_posture) /\
    d'.(quarantineReason) = when_truthy d.(quarantineReason) /\
    db'.(controller_commands) = db.(controller_commands).
Proof.
  intros R. unfold accept_end, save, saveDevice, mbind, St_bind. simpl. rewrite R.
  eexists. eexists. split; [done|]. split; [by rewrite get_device_row; simpl; rewrite lookup_insert_eq|].
  by split_and!.
Qed.

Lemma posture_of_heartbeat h d :
  d.(compromised) = false -> d.(posture) = h.(h_posture) ->
  postureOk d = negb d.(revoked) && compliant h.(h_posture).
Proof. intros C Q. unfold postureOk, compliant. rewrite C, Q, andb_true_r. by rewrite !andb_assoc. Qed.

(** C29: a heartbeat in flight lifts a quarantine.  When [accept] has read a device
    that is not compromised, and a critical event on its node, which the table
    of events accepts, is handled before the heartbeat writes, both succeed and the event's caller is told QUARANTINED;
    after the heartbeat's write the device is not compromised and has no
    quarantine reason beyond the one it had, so the decision point trusts it
    again as soon as the posture it reports is compliant and it is not revoked,
    without any clearance.  The QUARANTINE command stays queued. *)
Theorem heartbeat_in_flight_lifts_quarantine h now e db n d :
  db_ok db -> get_node h.(h_nodeId) db = Some n -> get_device n.(deviceId) db = Some d ->
  d.(compromised) = false -> Z.abs (now - h.(h_at)) <= 120000 ->
  2 <= threat_level e -> e.(e_nodeId) = Some h.(h_nodeId) -> truthy h.(h_nodeId) = true ->
  event_refused e db = None ->
  accept_begin h now db = (db, Ok d) /\
  exists db1 db2 d1 d2,
    handle e db = (db1, Ok (threat_level e, "QUARANTINED")) /\
    get_device n.(deviceId) db1 = Some d1 /\ postureOk d1 = false /\
    accept_end h d db1 = (db2, Ok (compliant h.(h_posture))) /\
    get_device n.(deviceId) db2 = Some d2 /\
    d2.(compromised) = false /\ d2.(quarantineReason) = d.(quarantineReason) /\
    postureOk d2 = negb d.(revoked) && compliant h.(h_posture) /\
    db2.(controller_commands) = db1.(controller_commands).
Proof.
  intros Hok Hn Hd Hc Hat Hlev Hid Htr Hev. split.
  { unfold accept_begin, mbind, St_bind, gets. rewrite Hn, (proj2 (Z.ltb_ge _ _)) by lia. by rewrite Hd. }
  rewrite get_device_row in Hd. destruct (db.(devices) !! n.(deviceId)) as [row|] eqn:R; [|done].
  injection Hd as <-. assert (d_id row = n.(deviceId)) as Ek by (by apply (devices_keyed _ Hok)).
  destruct (handle_contains e db (h_nodeId h) n row Hok Hlev Hid Htr Hn R Hev) as (m & db1 & E & Edev & _).
  destruct (accept_end_row h (device row) db1 (quarantined_row e (pg_now db) row))
    as (db2 & d2 & E2 & G & C & V & Q & W & K).
  { simpl. by rewrite Ek, Edev, lookup_insert_eq. }
  simpl in G, C, V. rewrite Ek in G.
  exists db1, db2, (device (quarantined_row e (pg_now db) row)), d2.
  split_and!; try done; [by rewrite get_device_row, Edev, lookup_insert_eq|by apply compromised_untrusted|by rewrite C| | ].
  - rewrite W. simpl. unfold when_truthy. destruct (truthy_opt (quarantineReason row)) eqn:T; [by rewrite T|done].
  - rewrite (posture_of_heartbeat h) by (done || by rewrite C). simpl. by rewrite V.
Qed.

Lemma heartbeat_in_flight_lifts_quarantine_witness :
  exists db1 db2 d2, handle (sample_event CRITICAL 10) fleet = (db1, Ok (2, "QUARANTINED")) /\
    accept_end sample_heartbeat (device (sample_device "d1" "hw1")) db1 = (db2, Ok true) /\
    get_device "d1" db2 = Some d2 /\ postureOk d2 = true.
Proof.
  destruct (heartbeat_in_flight_lifts_quarantine sample_heartbeat 1000 (sample_event CRITICAL 10) fleet
    (node (sample_node "n1" "d1" "key1" "10.144.0.1")) (device (sample_device "d1" "hw1")) sample_db_ok
    ltac:(vm_compute; reflexivity) ltac:(vm_compute; reflexivity) ltac:(reflexivity) ltac:(simpl; lia)
    ltac:(vm_compute; discriminate) ltac:(reflexivity) ltac:(reflexivity) ltac:(vm_compute; reflexivity))
    as (_ & db1 & db2 & d1 & d2 & H & _ & _ & A & G & _ & _ & Hp & _).
  exists db1, db2, d2. split; [exact H|]. split; [exact A|]. split; [exact G|].
  rewrite Hp. vm_compute. reflexivity.
Defined.
